(** * The weather-lstm numerical engine: matrices, LSTM cell, trainer, model files

    A shallow embedding of [weather-lstm/src/matrix.c], [lstm.c] and
    [weather_data.c].

    - A C [double] is an element of an abstract type [F] with the operations
      the program uses ([Scalar]); no law of arithmetic is assumed unless a
      theorem says so.  The real numbers are the instance used for concrete
      runs; the normalization round trip is stated for operations on the
      reals rounded with a bounded relative error, and is run on binary64
      itself, the kernel's floating-point numbers.
    - A [Matrix*] is [NULL] or the address of a matrix object in a heap; a
      matrix object holds [rows], [cols] and the row arrays.  Addresses are
      handed out in increasing order and never reused.
    - A C function is a state transformer [mem -> option (A * mem)]; [None]
      is undefined behaviour (use of a dangling pointer, an index outside
      the allocated rows).
    - A binary file is the sequence of the numbers written to it; the model
      speaks for the files [save_lstm_model] writes and for such files cut
      between two numbers.
    - [printf] diagnostics are not modelled. *)

From Stdlib Require Import ZArith Lia Reals Lra String.
From Stdlib Require PrimFloat.
From stdpp Require Import gmap list strings.

Local Open Scope Z_scope.

(** ** Scalars *)

(** The operations on [double] that the sources use. *)
Class Scalar (F : Type) := {
  fzero : F;                 (* 0.0 *)
  fone : F;                  (* 1.0 *)
  fhalf : F;                 (* 0.5 *)
  fmilli : F;                (* 0.001 *)
  f_of_int : Z -> F;         (* (double) n *)
  fadd : F -> F -> F;
  fsub : F -> F -> F;
  fmul : F -> F -> F;
  fdiv : F -> F -> F;
  fneg : F -> F;
  fltb : F -> F -> bool;     (* x < y *)
  fexp : F -> F;             (* exp, math.h *)
  ftanh : F -> F;            (* tanh, math.h *)
  fsqrt : F -> F             (* sqrt, math.h *)
}.

(** ** The C library *)

(** What the program takes from the C library and the standard leaves to the
    implementation: whether a request for zero bytes yields a pointer,
    [RAND_MAX], and the sequence of numbers [rand()] returns. *)
Class Libc := {
  malloc_zero : bool;
  RAND_MAX : Z;
  rand_seq : nat -> Z
}.

Definition INT_MIN : Z := - 2 ^ 31.
Definition INT_MAX : Z := 2 ^ 31 - 1.
Definition SIZE_MAX : Z := 2 ^ 64 - 1.
Definition PTRDIFF_MAX : Z := 2 ^ 63 - 1.

Definition int_range (z : Z) : Prop := INT_MIN <= z <= INT_MAX.

(** Conversion of an [int] to [size_t]. *)
Definition size_of_int (z : Z) : Z := z mod 2 ^ 64.

(** Multiplication in [size_t]. *)
Definition size_mul (a b : Z) : Z := (a * b) mod 2 ^ 64.

(** [malloc(n)] returns a pointer: memory is taken to be sufficient for every
    request the allocator accepts; it refuses requests above [PTRDIFF_MAX]. *)
Definition malloc_ok `{Libc} (n : Z) : bool :=
  if n =? 0 then malloc_zero else n <=? PTRDIFF_MAX.

(** [calloc(nmemb, size)] returns a pointer: the product must not overflow. *)
Definition calloc_ok `{Libc} (nmemb size : Z) : bool :=
  if nmemb * size >? SIZE_MAX then false else malloc_ok (nmemb * size).

Definition sizeof_ptr : Z := 8.
Definition sizeof_double : Z := 8.
Definition sizeof_Matrix : Z := 16.
Definition sizeof_LSTMCell : Z := 152.
Definition sizeof_LSTMNetwork : Z := 64.
Definition sizeof_TrainingData : Z := 24.
Definition sizeof_NormalizationParams : Z := 96.

Section Engine.

Context {F : Type} `{Scalar F} `{Libc}.

(** ** Memory *)

(** matrix.h: [typedef struct { double **data; int rows; int cols; } Matrix] *)
Record Matrix := mkMatrix {
  rows : Z;
  cols : Z;
  data : list (list F)
}.

(** A [Matrix*]. *)
Inductive ptr := NULL | Ptr (l : nat).

(** One item of a binary file: what one [fwrite] of an [int] or of a
    [double] leaves there.  Reading an item as the other type is a failed
    read: this never happens on a file that [save_lstm_model] has written,
    nor on such a file cut between two items, and of other files, whose
    bytes the C code would read whatever wrote them, the model says
    nothing. *)
Inductive datum := DInt (z : Z) | DDouble (x : F).

Record mem := Mem {
  heap : gmap nat Matrix;             (* the live matrix objects *)
  next : nat;                         (* the next address handed out *)
  rand_pos : nat;                     (* how many times rand() was called *)
  files : gmap string (list datum);   (* the file system *)
  locked : gset string                (* paths that cannot be opened for writing *)
}.

Definition set_heap (f : gmap nat Matrix -> gmap nat Matrix) (s : mem) : mem :=
  Mem (f (heap s)) (next s) (rand_pos s) (files s) (locked s).

Definition M (A : Type) : Type := mem -> option (A * mem).

Definition ret {A} (a : A) : M A := fun s => Some (a, s).

Definition bind {A B} (c : M A) (k : A -> M B) : M B :=
  fun s => match c s with
           | Some (a, s') => k a s'
           | None => None
           end.

(** Undefined behaviour. *)
Definition undef {A} : M A := fun _ => None.

Notation "x <- c1 ;; c2" := (bind c1 (fun x => c2))
  (at level 100, c1 at next level, right associativity).
Notation "c1 ;; c2" := (bind c1 (fun _ => c2))
  (at level 100, right associativity).

(** The memory after a new object [m] has been placed at the next address. *)
Definition alloc_st (s : mem) (m : Matrix) : mem :=
  Mem (<[next s := m]> (heap s)) (S (next s)) (rand_pos s) (files s) (locked s).

Definition mem_alloc (m : Matrix) : M nat :=
  fun s => Some (next s, alloc_st s m).

Definition mem_load (l : nat) : M Matrix :=
  fun s => match heap s !! l with
           | Some m => Some (m, s)
           | None => None
           end.

Definition mem_store (l : nat) (m : Matrix) : M unit :=
  fun s => match heap s !! l with
           | Some _ => Some (tt, set_heap (insert l m) s)
           | None => None
           end.

Definition mem_free (l : nat) : M unit :=
  fun s => match heap s !! l with
           | Some _ => Some (tt, set_heap (delete l) s)
           | None => None
           end.

(** [d[i][j]] on the row arrays. *)
Definition data_get (d : list (list F)) (i j : nat) : option F :=
  match d !! i with
  | Some row => row !! j
  | None => None
  end.

(** [d[i][j] = v] on the row arrays. *)
Definition data_set (d : list (list F)) (i j : nat) (v : F) : list (list F) :=
  alter (fun row => <[j := v]> row) i d.

Definition mat_set (m : Matrix) (i j : nat) (v : F) : Matrix :=
  mkMatrix (rows m) (cols m) (data_set (data m) i j v).

(** [m->data[i][j]] as an rvalue. *)
Definition elem_get (l : nat) (i j : Z) : M F :=
  m <- mem_load l ;;
  if (i <? 0) || (j <? 0) then undef
  else match data_get (data m) (Z.to_nat i) (Z.to_nat j) with
       | Some x => ret x
       | None => undef
       end.

(** [m->data[i][j] = v]. *)
Definition elem_set (l : nat) (i j : Z) (v : F) : M unit :=
  m <- mem_load l ;;
  if (i <? 0) || (j <? 0) then undef
  else match data_get (data m) (Z.to_nat i) (Z.to_nat j) with
       | Some _ => mem_store l (mat_set m (Z.to_nat i) (Z.to_nat j) v)
       | None => undef
       end.

Definition get_rows (l : nat) : M Z := m <- mem_load l ;; ret (rows m).
Definition get_cols (l : nat) : M Z := m <- mem_load l ;; ret (cols m).

(** [for (int k = i; k < i + n; k++) body(k)] *)
Fixpoint for_loop (n : nat) (i : Z) (body : Z -> M unit) : M unit :=
  match n with
  | O => ret tt
  | S n' => body i ;; for_loop n' (i + 1) body
  end.

(** [for (int k = lo; k < hi; k++) body(k)] *)
Definition for_range (lo hi : Z) (body : Z -> M unit) : M unit :=
  for_loop (Z.to_nat (hi - lo)) lo body.

(** A loop that carries a local variable:
    [for (int k = i; k < i + n; k++) acc = body(k, acc)] *)
Fixpoint for_fold {A} (n : nat) (i : Z) (body : Z -> A -> M A) (acc : A) : M A :=
  match n with
  | O => ret acc
  | S n' => acc' <- body i acc ;; for_fold n' (i + 1) body acc'
  end.

(** ** matrix.c *)

(** The rows of a new matrix: one [calloc(cols, sizeof(double))] per row, the
    whole creation failing at the first row that cannot be allocated. *)
Fixpoint alloc_rows (n : nat) (cols : Z) : option (list (list F)) :=
  match n with
  | O => Some []
  | S n' =>
      if calloc_ok (size_of_int cols) sizeof_double then
        match alloc_rows n' cols with
        | Some rest => Some (replicate (Z.to_nat cols) fzero :: rest)
        | None => None
        end
      else None
  end.

Definition matrix_create (rows cols : Z) : M ptr :=
  if negb (malloc_ok sizeof_Matrix) then ret NULL
  else if negb (malloc_ok (size_mul (size_of_int rows) sizeof_ptr)) then ret NULL
  else match alloc_rows (Z.to_nat rows) cols with
       | None => ret NULL
       | Some d => l <- mem_alloc (mkMatrix rows cols d) ;; ret (Ptr l)
       end.

Definition matrix_free (m : ptr) : M unit :=
  match m with
  | NULL => ret tt
  | Ptr l => mem_free l
  end.

Definition matrix_zero (m : ptr) : M unit :=
  match m with
  | NULL => ret tt
  | Ptr l =>
      r <- get_rows l ;; c <- get_cols l ;;
      for_range 0 r (fun i =>
        for_range 0 c (fun j =>
          elem_set l i j fzero))
  end.

(** [rand()] *)
Definition rand : M Z :=
  fun s => Some (rand_seq (rand_pos s),
                 Mem (heap s) (next s) (S (rand_pos s)) (files s) (locked s)).

Definition matrix_random (m : ptr) (min max : F) : M unit :=
  match m with
  | NULL => ret tt
  | Ptr l =>
      r <- get_rows l ;; c <- get_cols l ;;
      for_range 0 r (fun i =>
        for_range 0 c (fun j =>
          n <- rand ;;
          let random := fdiv (f_of_int n) (f_of_int RAND_MAX) in
          elem_set l i j (fadd min (fmul random (fsub max min)))))
  end.

Definition matrix_copy (dest src : ptr) : M unit :=
  match dest, src with
  | Ptr d, Ptr s =>
      dr <- get_rows d ;; sr <- get_rows s ;;
      dc <- get_cols d ;; sc <- get_cols s ;;
      if negb (dr =? sr) || negb (dc =? sc) then ret tt
      else
        for_range 0 sr (fun i =>
          for_range 0 sc (fun j =>
            x <- elem_get s i j ;;
            elem_set d i j x))
  | _, _ => ret tt
  end.

Definition matrix_multiply (a b : ptr) : M ptr :=
  match a, b with
  | Ptr la, Ptr lb =>
      ar <- get_rows la ;; ac <- get_cols la ;;
      br <- get_rows lb ;; bc <- get_cols lb ;;
      if negb (ac =? br) then ret NULL
      else
        result <- matrix_create ar bc ;;
        match result with
        | NULL => ret NULL
        | Ptr lr =>
            for_range 0 ar (fun i =>
              for_range 0 bc (fun j =>
                sum <- for_fold (Z.to_nat ac) 0 (fun k sum =>
                         x <- elem_get la i k ;;
                         y <- elem_get lb k j ;;
                         ret (fadd sum (fmul x y))) fzero ;;
                elem_set lr i j sum)) ;;
            ret (Ptr lr)
        end
  | _, _ => ret NULL
  end.

Definition matrix_add (a b : ptr) : M ptr :=
  match a, b with
  | Ptr la, Ptr lb =>
      ar <- get_rows la ;; ac <- get_cols la ;;
      br <- get_rows lb ;; bc <- get_cols lb ;;
      if negb (ar =? br) || negb (ac =? bc) then ret NULL
      else
        result <- matrix_create ar ac ;;
        match result with
        | NULL => ret NULL
        | Ptr lr =>
            for_range 0 ar (fun i =>
              for_range 0 ac (fun j =>
                x <- elem_get la i j ;;
                y <- elem_get lb i j ;;
                elem_set lr i j (fadd x y))) ;;
            ret (Ptr lr)
        end
  | _, _ => ret NULL
  end.

Definition matrix_subtract (a b : ptr) : M ptr :=
  match a, b with
  | Ptr la, Ptr lb =>
      ar <- get_rows la ;; ac <- get_cols la ;;
      br <- get_rows lb ;; bc <- get_cols lb ;;
      if negb (ar =? br) || negb (ac =? bc) then ret NULL
      else
        result <- matrix_create ar ac ;;
        match result with
        | NULL => ret NULL
        | Ptr lr =>
            for_range 0 ar (fun i =>
              for_range 0 ac (fun j =>
                x <- elem_get la i j ;;
                y <- elem_get lb i j ;;
                elem_set lr i j (fsub x y))) ;;
            ret (Ptr lr)
        end
  | _, _ => ret NULL
  end.

Definition matrix_transpose (m : ptr) : M ptr :=
  match m with
  | NULL => ret NULL
  | Ptr l =>
      r <- get_rows l ;; c <- get_cols l ;;
      result <- matrix_create c r ;;
      match result with
      | NULL => ret NULL
      | Ptr lr =>
          for_range 0 r (fun i =>
            for_range 0 c (fun j =>
              x <- elem_get l i j ;;
              elem_set lr j i x)) ;;
          ret (Ptr lr)
      end
  end.

Definition matrix_scale (m : ptr) (scalar : F) : M unit :=
  match m with
  | NULL => ret tt
  | Ptr l =>
      r <- get_rows l ;; c <- get_cols l ;;
      for_range 0 r (fun i =>
        for_range 0 c (fun j =>
          x <- elem_get l i j ;;
          elem_set l i j (fmul x scalar)))
  end.

Definition matrix_get (m : ptr) (row col : Z) : M F :=
  match m with
  | NULL => ret fzero
  | Ptr l =>
      r <- get_rows l ;; c <- get_cols l ;;
      if (row <? 0) || (row >=? r) || (col <? 0) || (col >=? c) then ret fzero
      else elem_get l row col
  end.

Definition matrix_set (m : ptr) (row col : Z) (value : F) : M unit :=
  match m with
  | NULL => ret tt
  | Ptr l =>
      r <- get_rows l ;; c <- get_cols l ;;
      if (row <? 0) || (row >=? r) || (col <? 0) || (col >=? c) then ret tt
      else elem_set l row col value
  end.

Definition sigmoid (x : F) : F := fdiv fone (fadd fone (fexp (fneg x))).

Definition tanh_activation (x : F) : F := ftanh x.

Definition relu (x : F) : F := if fltb fzero x then x else fzero.

(** The common body of [apply_sigmoid], [apply_tanh] and [apply_relu]. *)
Definition apply_fn (f : F -> F) (m : ptr) : M unit :=
  match m with
  | NULL => ret tt
  | Ptr l =>
      r <- get_rows l ;; c <- get_cols l ;;
      for_range 0 r (fun i =>
        for_range 0 c (fun j =>
          x <- elem_get l i j ;;
          elem_set l i j (f x)))
  end.

Definition apply_sigmoid : ptr -> M unit := apply_fn sigmoid.
Definition apply_tanh : ptr -> M unit := apply_fn tanh_activation.
Definition apply_relu : ptr -> M unit := apply_fn relu.

(** ** weather_data.c *)

(** weather_data.h: the six features of one observation. *)
Record WeatherPoint := mkPoint {
  temperature : F;
  pressure : F;
  humidity : F;
  wind_speed : F;
  wind_direction : F;
  precipitation : F
}.

(** weather_data.h: [WeatherPoint* data; int size; int capacity]. *)
Record WeatherDataset := mkDataset {
  ds_data : list WeatherPoint;
  ds_size : Z;
  ds_capacity : Z
}.

Record NormalizationParams := mkParams {
  temp_min : F; temp_max : F;
  pressure_min : F; pressure_max : F;
  humidity_min : F; humidity_max : F;
  wind_speed_min : F; wind_speed_max : F;
  wind_dir_min : F; wind_dir_max : F;
  precip_min : F; precip_max : F
}.

(** [WeatherPoint point = {0}] *)
Definition zero_point : WeatherPoint :=
  mkPoint fzero fzero fzero fzero fzero fzero.

(** [a[i]] on a C array held as a list. *)
Definition array_get {A} (a : list A) (i : Z) : M A :=
  if i <? 0 then undef
  else match a !! Z.to_nat i with
       | Some x => ret x
       | None => undef
       end.









Definition weather_point_to_matrix (point : option WeatherPoint) : M ptr :=
  match point with
  | None => ret NULL
  | Some pt =>
      m <- matrix_create 6 1 ;;
      match m with
      | NULL => ret NULL
      | Ptr l =>
          elem_set l 0 0 (temperature pt) ;;
          elem_set l 1 0 (pressure pt) ;;
          elem_set l 2 0 (humidity pt) ;;
          elem_set l 3 0 (wind_speed pt) ;;
          elem_set l 4 0 (wind_direction pt) ;;
          elem_set l 5 0 (precipitation pt) ;;
          ret (Ptr l)
      end
  end.

Definition matrix_to_weather_point (m : ptr) : M WeatherPoint :=
  match m with
  | NULL => ret zero_point
  | Ptr l =>
      r <- get_rows l ;; c <- get_cols l ;;
      if negb (r =? 6) || negb (c =? 1) then ret zero_point
      else
        x0 <- elem_get l 0 0 ;;
        x1 <- elem_get l 1 0 ;;
        x2 <- elem_get l 2 0 ;;
        x3 <- elem_get l 3 0 ;;
        x4 <- elem_get l 4 0 ;;
        x5 <- elem_get l 5 0 ;;
        ret (mkPoint x0 x1 x2 x3 x4 x5)
  end.

(** ** lstm.c *)

(** lstm.h: the cell; every matrix is held by pointer. *)
Record LSTMCell := mkCell {
  input_size : Z;
  hidden_size : Z;
  W_f : ptr; W_i : ptr; W_c : ptr; W_o : ptr;
  U_f : ptr; U_i : ptr; U_c : ptr; U_o : ptr;
  b_f : ptr; b_i : ptr; b_c : ptr; b_o : ptr;
  cell_state : ptr;
  hidden_state : ptr;
  forget_gate : ptr;
  input_gate : ptr;
  candidate_gate : ptr;
  output_gate : ptr
}.

(** lstm.h: the network.  [lstm_layer] is an [LSTMCell*], [norm_params] a
    [NormalizationParams*]. *)
Record LSTMNetwork := mkNetwork {
  lstm_layer : option LSTMCell;
  W_output : ptr;
  b_output : ptr;
  n_input_size : Z;
  n_hidden_size : Z;
  output_size : Z;
  learning_rate : F;
  sequence_length : Z;
  norm_params : option NormalizationParams
}.

(** lstm.h: [Matrix*** inputs; Matrix** targets; int num_sequences;
    int sequence_length]. *)
Record TrainingData := mkTraining {
  inputs : list (list ptr);
  targets : list ptr;
  num_sequences : Z;
  td_sequence_length : Z
}.

(** [p->...] through a [Matrix*]: a null pointer cannot be dereferenced. *)
Definition deref (p : ptr) : M nat :=
  match p with
  | NULL => undef
  | Ptr l => ret l
  end.

(** [a + b] on [int]: signed overflow is undefined. *)
Definition int_add (a b : Z) : M Z :=
  if (INT_MIN <=? a + b) && (a + b <=? INT_MAX) then ret (a + b) else undef.

(** [a * b] on [int]. *)
Definition int_mul (a b : Z) : M Z :=
  if (INT_MIN <=? a * b) && (a * b <=? INT_MAX) then ret (a * b) else undef.

Definition initialize_weights (m : ptr) (scale : F) : M unit :=
  match m with
  | NULL => ret tt
  | Ptr l =>
      r <- get_rows l ;; c <- get_cols l ;;
      n <- int_add r c ;;
      let limit := fmul (fsqrt (fdiv (f_of_int 6) (f_of_int n))) scale in
      matrix_random m (fneg limit) limit
  end.

Definition is_null (p : ptr) : bool :=
  match p with NULL => true | Ptr _ => false end.

Definition lstm_cell_free (cell : option LSTMCell) : M unit :=
  match cell with
  | None => ret tt
  | Some cell =>
      matrix_free (W_f cell) ;; matrix_free (W_i cell) ;;
      matrix_free (W_c cell) ;; matrix_free (W_o cell) ;;
      matrix_free (U_f cell) ;; matrix_free (U_i cell) ;;
      matrix_free (U_c cell) ;; matrix_free (U_o cell) ;;
      matrix_free (b_f cell) ;; matrix_free (b_i cell) ;;
      matrix_free (b_c cell) ;; matrix_free (b_o cell) ;;
      matrix_free (cell_state cell) ;; matrix_free (hidden_state cell) ;;
      matrix_free (forget_gate cell) ;; matrix_free (input_gate cell) ;;
      matrix_free (candidate_gate cell) ;; matrix_free (output_gate cell)
  end.

Definition lstm_cell_create (input_size hidden_size : Z) : M (option LSTMCell) :=
  if negb (malloc_ok sizeof_LSTMCell) then ret None
  else
    W_f <- matrix_create hidden_size input_size ;;
    W_i <- matrix_create hidden_size input_size ;;
    W_c <- matrix_create hidden_size input_size ;;
    W_o <- matrix_create hidden_size input_size ;;
    U_f <- matrix_create hidden_size hidden_size ;;
    U_i <- matrix_create hidden_size hidden_size ;;
    U_c <- matrix_create hidden_size hidden_size ;;
    U_o <- matrix_create hidden_size hidden_size ;;
    b_f <- matrix_create hidden_size 1 ;;
    b_i <- matrix_create hidden_size 1 ;;
    b_c <- matrix_create hidden_size 1 ;;
    b_o <- matrix_create hidden_size 1 ;;
    cell_state <- matrix_create hidden_size 1 ;;
    hidden_state <- matrix_create hidden_size 1 ;;
    forget_gate <- matrix_create hidden_size 1 ;;
    input_gate <- matrix_create hidden_size 1 ;;
    candidate_gate <- matrix_create hidden_size 1 ;;
    output_gate <- matrix_create hidden_size 1 ;;
    let cell := mkCell input_size hidden_size W_f W_i W_c W_o U_f U_i U_c U_o
                       b_f b_i b_c b_o cell_state hidden_state
                       forget_gate input_gate candidate_gate output_gate in
    if is_null W_f || is_null W_i || is_null W_c || is_null W_o ||
       is_null U_f || is_null U_i || is_null U_c || is_null U_o ||
       is_null b_f || is_null b_i || is_null b_c || is_null b_o ||
       is_null cell_state || is_null hidden_state ||
       is_null forget_gate || is_null input_gate ||
       is_null candidate_gate || is_null output_gate
    then lstm_cell_free (Some cell) ;; ret None
    else
      initialize_weights W_f fone ;;
      initialize_weights W_i fone ;;
      initialize_weights W_c fone ;;
      initialize_weights W_o fone ;;
      initialize_weights U_f fone ;;
      initialize_weights U_i fone ;;
      initialize_weights U_c fone ;;
      initialize_weights U_o fone ;;
      matrix_zero b_f ;;
      for_range 0 hidden_size (fun i =>
        l <- deref b_f ;; elem_set l i 0 fone) ;;
      matrix_zero b_i ;;
      matrix_zero b_c ;;
      matrix_zero b_o ;;
      matrix_zero cell_state ;;
      matrix_zero hidden_state ;;
      ret (Some cell).

Definition lstm_cell_reset_state (cell : option LSTMCell) : M unit :=
  match cell with
  | None => ret tt
  | Some cell =>
      matrix_zero (cell_state cell) ;;
      matrix_zero (hidden_state cell)
  end.

(** [W x + U h + b], copied into [gate]: the four steps each gate repeats.
    The four temporaries are returned, to be freed at the end. *)
Definition gate_pre (W U b gate input h : ptr) : M (ptr * ptr * ptr * ptr) :=
  W_x <- matrix_multiply W input ;;
  U_h <- matrix_multiply U h ;;
  temp <- matrix_add W_x U_h ;;
  temp2 <- matrix_add temp b ;;
  matrix_copy gate temp2 ;;
  ret (W_x, U_h, temp, temp2).

Definition free4 (t : ptr * ptr * ptr * ptr) : M unit :=
  let '(a, b, c, d) := t in
  matrix_free a ;; matrix_free b ;; matrix_free c ;; matrix_free d.

Definition lstm_cell_forward (cell : option LSTMCell) (input : ptr) : M ptr :=
  match cell, input with
  | Some cell, Ptr _ =>
      tf <- gate_pre (W_f cell) (U_f cell) (b_f cell) (forget_gate cell)
                     input (hidden_state cell) ;;
      apply_sigmoid (forget_gate cell) ;;
      ti <- gate_pre (W_i cell) (U_i cell) (b_i cell) (input_gate cell)
                     input (hidden_state cell) ;;
      apply_sigmoid (input_gate cell) ;;
      tc <- gate_pre (W_c cell) (U_c cell) (b_c cell) (candidate_gate cell)
                     input (hidden_state cell) ;;
      apply_tanh (candidate_gate cell) ;;
      to <- gate_pre (W_o cell) (U_o cell) (b_o cell) (output_gate cell)
                     input (hidden_state cell) ;;
      apply_sigmoid (output_gate cell) ;;
      forget_cell <- matrix_create (hidden_size cell) 1 ;;
      input_candidate <- matrix_create (hidden_size cell) 1 ;;
      for_range 0 (hidden_size cell) (fun i =>
        fg <- deref (forget_gate cell) ;; cs <- deref (cell_state cell) ;;
        fc <- deref forget_cell ;;
        f <- elem_get fg i 0 ;; c <- elem_get cs i 0 ;;
        elem_set fc i 0 (fmul f c) ;;
        ig <- deref (input_gate cell) ;; cg <- deref (candidate_gate cell) ;;
        ic <- deref input_candidate ;;
        a <- elem_get ig i 0 ;; g <- elem_get cg i 0 ;;
        elem_set ic i 0 (fmul a g) ;;
        x <- elem_get fc i 0 ;; y <- elem_get ic i 0 ;;
        elem_set cs i 0 (fadd x y)) ;;
      cell_tanh <- matrix_create (hidden_size cell) 1 ;;
      matrix_copy cell_tanh (cell_state cell) ;;
      apply_tanh cell_tanh ;;
      for_range 0 (hidden_size cell) (fun i =>
        hs <- deref (hidden_state cell) ;; og <- deref (output_gate cell) ;;
        ct <- deref cell_tanh ;;
        o <- elem_get og i 0 ;; t <- elem_get ct i 0 ;;
        elem_set hs i 0 (fmul o t)) ;;
      free4 tf ;; free4 ti ;; free4 tc ;; free4 to ;;
      matrix_free forget_cell ;; matrix_free input_candidate ;;
      matrix_free cell_tanh ;;
      output <- matrix_create (hidden_size cell) 1 ;;
      matrix_copy output (hidden_state cell) ;;
      ret output
  | _, _ => ret NULL
  end.

Definition lstm_network_free (network : option LSTMNetwork) : M unit :=
  match network with
  | None => ret tt
  | Some net =>
      lstm_cell_free (lstm_layer net) ;;
      matrix_free (W_output net) ;;
      matrix_free (b_output net)
  end.

Definition lstm_network_create (input_size hidden_size output_size : Z)
  : M (option LSTMNetwork) :=
  if negb (malloc_ok sizeof_LSTMNetwork) then ret None
  else
    layer <- lstm_cell_create input_size hidden_size ;;
    match layer with
    | None => ret None
    | Some _ =>
        W_output <- matrix_create output_size hidden_size ;;
        b_output <- matrix_create output_size 1 ;;
        if is_null W_output || is_null b_output then
          lstm_cell_free layer ;;
          matrix_free W_output ;;
          matrix_free b_output ;;
          ret None
        else
          initialize_weights W_output fone ;;
          matrix_zero b_output ;;
          ret (Some (mkNetwork layer W_output b_output
                               input_size hidden_size output_size
                               fmilli 10 None))
    end.

Definition lstm_network_reset (network : option LSTMNetwork) : M unit :=
  match network with
  | None => ret tt
  | Some net => lstm_cell_reset_state (lstm_layer net)
  end.

Definition lstm_network_predict (network : option LSTMNetwork)
    (sequence : option (list ptr)) (seq_length : Z) : M ptr :=
  match network, sequence with
  | Some net, Some sq =>
      lstm_network_reset network ;;
      hidden_output <-
        for_fold (Z.to_nat seq_length) 0 (fun t hidden_output =>
          (if is_null hidden_output then ret tt
           else matrix_free hidden_output) ;;
          x <- array_get sq t ;;
          lstm_cell_forward (lstm_layer net) x) NULL ;;
      if is_null hidden_output then ret NULL
      else
        output_temp <- matrix_multiply (W_output net) hidden_output ;;
        output <- matrix_add output_temp (b_output net) ;;
        matrix_free hidden_output ;;
        matrix_free output_temp ;;
        ret output
  | _, _ => ret NULL
  end.

(** The loop of [create_training_data] from sequence [i] on, [n] sequences to
    go; [ins] and [tgs] are [data->inputs] and [data->targets] as filled so
    far.  [None] is the early [return NULL]. *)
Fixpoint create_sequences (n : nat) (i : Z) (ds : WeatherDataset)
    (sequence_length : Z) (ins : list (list ptr)) (tgs : list ptr)
  : M (option (list (list ptr) * list ptr)) :=
  match n with
  | O => ret (Some (ins, tgs))
  | S n' =>
      if negb (malloc_ok (size_mul (size_of_int sequence_length) sizeof_ptr))
      then
        for_range 0 i (fun j =>
          w <- array_get ins j ;;
          for_range 0 sequence_length (fun k =>
            m <- array_get w k ;; matrix_free m)) ;;
        ret None
      else
        window <- for_fold (Z.to_nat sequence_length) 0 (fun t w =>
                    point <- array_get (ds_data ds) (i + t) ;;
                    m <- weather_point_to_matrix (Some point) ;;
                    ret (w ++ [m])) [] ;;
        point <- array_get (ds_data ds) (i + sequence_length) ;;
        target <- weather_point_to_matrix (Some point) ;;
        create_sequences n' (i + 1) ds sequence_length
                         (ins ++ [window]) (tgs ++ [target])
  end.

Definition create_training_data (dataset : option WeatherDataset)
    (sequence_length : Z) : M (option TrainingData) :=
  match dataset with
  | None => ret None
  | Some ds =>
      if (sequence_length <=? 0) || (ds_size ds <=? sequence_length)
      then ret None
      else if negb (malloc_ok sizeof_TrainingData) then ret None
      else
        let num_sequences := ds_size ds - sequence_length in
        if negb (malloc_ok (size_mul (size_of_int num_sequences) sizeof_ptr))
        then ret None
        else
          r <- create_sequences (Z.to_nat num_sequences) 0 ds
                                sequence_length [] [] ;;
          match r with
          | None => ret None
          | Some (ins, tgs) =>
              ret (Some (mkTraining ins tgs num_sequences sequence_length))
          end
  end.

Definition free_training_data (data : option TrainingData) : M unit :=
  match data with
  | None => ret tt
  | Some d =>
      for_range 0 (num_sequences d) (fun i =>
        w <- array_get (inputs d) i ;;
        for_range 0 (td_sequence_length d) (fun t =>
          m <- array_get w t ;; matrix_free m) ;;
        tg <- array_get (targets d) i ;;
        matrix_free tg)
  end.

Definition calculate_loss (predicted target : ptr) : M F :=
  match predicted, target with
  | Ptr lp, Ptr lt =>
      pr <- get_rows lp ;; tr <- get_rows lt ;;
      pc <- get_cols lp ;; tc <- get_cols lt ;;
      if negb (pr =? tr) || negb (pc =? tc) then ret (fneg fone)
      else
        total_elements <- int_mul pr pc ;;
        loss <- for_fold (Z.to_nat pr) 0 (fun i loss =>
                  for_fold (Z.to_nat pc) 0 (fun j loss =>
                    x <- elem_get lp i j ;;
                    y <- elem_get lt i j ;;
                    let diff := fsub x y in
                    ret (fadd loss (fmul diff diff))) loss) fzero ;;
        ret (fdiv loss (f_of_int total_elements))
  | _, _ => ret (fneg fone)
  end.

(** One pass of the inner loop of [lstm_train], on sequence [seq]. *)
Definition train_step (net : LSTMNetwork) (d : TrainingData) (seq : Z)
    (total_loss : F) : M F :=
  input <- array_get (inputs d) seq ;;
  prediction <- lstm_network_predict (Some net) (Some input)
                                     (td_sequence_length d) ;;
  if is_null prediction then ret total_loss
  else
    target <- array_get (targets d) seq ;;
    loss <- calculate_loss prediction target ;;
    error <- matrix_subtract target prediction ;;
    matrix_scale error (learning_rate net) ;;
    hs <- match lstm_layer net with
          | Some cell => ret (hidden_state cell)
          | None => undef
          end ;;
    hidden_transpose <- matrix_transpose hs ;;
    weight_update <- matrix_multiply error hidden_transpose ;;
    new_weights <- matrix_add (W_output net) weight_update ;;
    matrix_copy (W_output net) new_weights ;;
    matrix_free prediction ;;
    matrix_free error ;;
    matrix_free hidden_transpose ;;
    matrix_free weight_update ;;
    matrix_free new_weights ;;
    ret (fadd total_loss loss).

Definition lstm_train (network : option LSTMNetwork)
    (data : option TrainingData) (epochs : Z) : M unit :=
  match network, data with
  | Some net, Some d =>
      for_range 0 epochs (fun epoch =>
        for_fold (Z.to_nat (num_sequences d)) 0 (train_step net d) fzero ;;
        ret tt)
  | _, _ => ret tt
  end.

(** *** Model files *)

Definition params_items (p : NormalizationParams) : list datum :=
  map DDouble
    [temp_min p; temp_max p; pressure_min p; pressure_max p;
     humidity_min p; humidity_max p; wind_speed_min p; wind_speed_max p;
     wind_dir_min p; wind_dir_max p; precip_min p; precip_max p].

(** [fopen(filename, "wb")]: the file is created or emptied. *)
Definition fopen_wb (filename : string) : M bool :=
  fun s =>
    if decide (filename ∈ locked s) then Some (false, s)
    else Some (true, Mem (heap s) (next s) (rand_pos s)
                         (<[filename := []]> (files s)) (locked s)).

(** [fwrite] of the items [ds] to the open file. *)
Definition fwrite (filename : string) (ds : list datum) : M unit :=
  fun s =>
    match files s !! filename with
    | Some old => Some (tt, Mem (heap s) (next s) (rand_pos s)
                                (<[filename := old ++ ds]> (files s)) (locked s))
    | None => None
    end.

(** [fopen(filename, "rb")]: the content to be read, if the file exists. *)
Definition fopen_rb (filename : string) : M (option (list datum)) :=
  fun s => Some (files s !! filename, s).

(** The first [n] elements of row [i]: the buffer [fwrite] is given. *)
Definition row_prefix (l : nat) (i : Z) (n : Z) : M (list F) :=
  for_fold (Z.to_nat n) 0 (fun j acc =>
    x <- elem_get l i j ;; ret (acc ++ [x])) [].

Definition save_lstm_model (network : option LSTMNetwork)
    (filename : option string) : M Z :=
  match network, filename with
  | Some net, Some name =>
      ok <- fopen_wb name ;;
      if negb ok then ret (-1)
      else
        fwrite name [DInt (n_input_size net)] ;;
        fwrite name [DInt (n_hidden_size net)] ;;
        fwrite name [DInt (output_size net)] ;;
        fwrite name [DDouble (learning_rate net)] ;;
        fwrite name [DInt (sequence_length net)] ;;
        for_range 0 (output_size net) (fun i =>
          w <- deref (W_output net) ;;
          row <- row_prefix w i (size_of_int (n_hidden_size net)) ;;
          fwrite name (map DDouble row)) ;;
        for_range 0 (output_size net) (fun i =>
          b <- deref (b_output net) ;;
          x <- elem_get b i 0 ;;
          fwrite name [DDouble x]) ;;
        match norm_params net with
        | Some p =>
            fwrite name [DInt 1] ;;
            fwrite name (params_items p)
        | None => fwrite name [DInt 0]
        end ;;
        ret 0
  | _, _ => ret (-1)
  end.

(** [fread(&x, sizeof(int), 1, file)]: the value and the rest of the file, or
    nothing when the read comes short. *)
Definition fread_int (file : list datum) : option (Z * list datum) :=
  match file with
  | DInt z :: rest => Some (z, rest)
  | _ => None
  end.

Definition fread_double (file : list datum) : option (F * list datum) :=
  match file with
  | DDouble x :: rest => Some (x, rest)
  | _ => None
  end.

(** [fread(buf, sizeof(double), n, file)]: the doubles read, at most [n], and
    the rest of the file. *)
Fixpoint fread_doubles (n : nat) (file : list datum) : list F * list datum :=
  match n with
  | O => ([], file)
  | S n' =>
      match fread_double file with
      | Some (x, rest) =>
          let '(xs, rest') := fread_doubles n' rest in (x :: xs, rest')
      | None => ([], file)
      end
  end.

(** The doubles read go to the start of row [i]. *)
Definition store_row (l : nat) (i : Z) (xs : list F) : M unit :=
  for_range 0 (Z.of_nat (length xs)) (fun j =>
    x <- array_get xs j ;; elem_set l i j x).

Definition params_of_list (xs : list F) : option NormalizationParams :=
  match xs with
  | [a1; a2; a3; a4; a5; a6; a7; a8; a9; a10; a11; a12] =>
      Some (mkParams a1 a2 a3 a4 a5 a6 a7 a8 a9 a10 a11 a12)
  | _ => None
  end.

(** The loop of [load_lstm_model] that reads the rows of [W_output]; [None]
    is the early [return NULL]. *)
Fixpoint load_rows (n : nat) (i : Z) (net : LSTMNetwork) (hidden_size : Z)
    (file : list datum) : M (option (list datum)) :=
  match n with
  | O => ret (Some file)
  | S n' =>
      w <- deref (W_output net) ;;
      let '(xs, rest) := fread_doubles (Z.to_nat (size_of_int hidden_size)) file in
      store_row w i xs ;;
      if negb (Z.of_nat (length xs) =? size_of_int hidden_size) then
        lstm_network_free (Some net) ;; ret None
      else load_rows n' (i + 1) net hidden_size rest
  end.

(** The loop of [load_lstm_model] that reads [b_output]. *)
Fixpoint load_bias (n : nat) (i : Z) (net : LSTMNetwork)
    (file : list datum) : M (option (list datum)) :=
  match n with
  | O => ret (Some file)
  | S n' =>
      b <- deref (b_output net) ;;
      match fread_double file with
      | Some (x, rest) =>
          elem_set b i 0 x ;;
          load_bias n' (i + 1) net rest
      | None => lstm_network_free (Some net) ;; ret None
      end
  end.

Definition load_lstm_model (filename : option string) : M (option LSTMNetwork) :=
  match filename with
  | None => ret None
  | Some name =>
      file <- fopen_rb name ;;
      match file with
      | None => ret None
      | Some file =>
          match fread_int file with
          | None => ret None
          | Some (isz, file) =>
          match fread_int file with
          | None => ret None
          | Some (hsz, file) =>
          match fread_int file with
          | None => ret None
          | Some (osz, file) =>
          match fread_double file with
          | None => ret None
          | Some (lr, file) =>
          match fread_int file with
          | None => ret None
          | Some (slen, file) =>
              network <- lstm_network_create isz hsz osz ;;
              match network with
              | None => ret None
              | Some net0 =>
                  let net := mkNetwork (lstm_layer net0) (W_output net0)
                               (b_output net0) (n_input_size net0)
                               (n_hidden_size net0) (output_size net0)
                               lr slen (norm_params net0) in
                  r <- load_rows (Z.to_nat osz) 0 net hsz file ;;
                  match r with
                  | None => ret None
                  | Some file =>
                      r <- load_bias (Z.to_nat osz) 0 net file ;;
                      match r with
                      | None => ret None
                      | Some file =>
                          match fread_int file with
                          | Some (has_norm, file) =>
                              if has_norm =? 0 then ret (Some net)
                              else if negb (malloc_ok sizeof_NormalizationParams)
                              then undef
                              else
                                let '(xs, _) := fread_doubles 12 file in
                                match params_of_list xs with
                                | Some p =>
                                    ret (Some (mkNetwork (lstm_layer net)
                                      (W_output net) (b_output net)
                                      (n_input_size net) (n_hidden_size net)
                                      (output_size net) (learning_rate net)
                                      (sequence_length net) (Some p)))
                                | None =>
                                    lstm_network_free (Some net) ;; ret None
                                end
                          | None => ret (Some net)
                          end
                      end
                  end
              end
          end end end end end
      end
  end.

(** The loop of [lstm_predict_next] that builds the input sequence. *)
Definition recent_sequence (ds : WeatherDataset) (start_idx seq_length : Z)
  : M (list ptr) :=
  for_fold (Z.to_nat seq_length) 0 (fun i sq =>
    point <- array_get (ds_data ds) (start_idx + i) ;;
    m <- weather_point_to_matrix (Some point) ;;
    ret (sq ++ [m])) [].

Definition lstm_predict_next (network : option LSTMNetwork)
    (recent_data : option WeatherDataset) (seq_length : Z) : M WeatherPoint :=
  let result := zero_point in
  match network, recent_data with
  | Some net, Some ds =>
      if ds_size ds <? seq_length then ret result
      else if negb (malloc_ok (size_mul (size_of_int seq_length) sizeof_ptr))
      then ret result
      else
        let start_idx := ds_size ds - seq_length in
        sequence <- recent_sequence ds start_idx seq_length ;;
        prediction <- lstm_network_predict network (Some sequence) seq_length ;;
        result <- (if is_null prediction then ret result
                   else
                     r <- matrix_to_weather_point prediction ;;
                     matrix_free prediction ;;
                     ret r) ;;
        for_range 0 seq_length (fun i =>
          m <- array_get sequence i ;; matrix_free m) ;;
        ret result
  | _, _ => ret result
  end.

(** * Reasoning about runs *)

(** ** Matrices as values *)

(** [r] rows of [c] columns, entry [(i, j)] being [f i j]. *)
Definition tabulate (r c : nat) (f : nat -> nat -> F) : list (list F) :=
  map (fun i => map (fun j => f i j) (seq 0 c)) (seq 0 r).

(** The entry [(i, j)], [0.0] outside the matrix. *)
Definition mat_at (m : Matrix) (i j : nat) : F :=
  default fzero (data_get (data m) i j).

Definition mat_tab (r c : Z) (f : nat -> nat -> F) : Matrix :=
  mkMatrix r c (tabulate (Z.to_nat r) (Z.to_nat c) f).

Definition mat_zero (r c : Z) : Matrix := mat_tab r c (fun _ _ => fzero).

Definition mat_map (g : F -> F) (m : Matrix) : Matrix :=
  mat_tab (rows m) (cols m) (fun i j => g (mat_at m i j)).

Definition mat_map2 (op : F -> F -> F) (a b : Matrix) : Matrix :=
  mat_tab (rows a) (cols a) (fun i j => op (mat_at a i j) (mat_at b i j)).

(** [sum = 0.0; for (k = 0; k < n; k++) sum += a[i][k] * b[k][j]] *)
Definition dot (a b : Matrix) (n i j : nat) : F :=
  fold_left (fun sum k => fadd sum (fmul (mat_at a i k) (mat_at b k j)))
            (seq 0 n) fzero.

Definition mat_mul (a b : Matrix) : Matrix :=
  mat_tab (rows a) (cols b) (fun i j => dot a b (Z.to_nat (cols a)) i j).

Definition mat_transpose (m : Matrix) : Matrix :=
  mat_tab (cols m) (rows m) (fun j i => mat_at m i j).

(** The rows of [d] are [r] in number and [c] long. *)
Definition shape (d : list (list F)) (r c : nat) : Prop :=
  length d = r /\ Forall (fun row => length row = c) d.

(** [matrix_create rows cols] returns a matrix. *)
Definition create_ok (rows cols : Z) : bool :=
  malloc_ok sizeof_Matrix &&
  malloc_ok (size_mul (size_of_int rows) sizeof_ptr) &&
  ((rows <=? 0) || calloc_ok (size_of_int cols) sizeof_double).

(** What holds of every matrix [matrix_create] has made, whatever was stored
    in it since. *)
Definition mat_wf (m : Matrix) : Prop :=
  create_ok (rows m) (cols m) = true /\
  shape (data m) (Z.to_nat (rows m)) (Z.to_nat (cols m)).

(** The live objects are matrices made by [matrix_create], at addresses
    already handed out. *)
Definition mem_wf (s : mem) : Prop :=
  forall l m, heap s !! l = Some m -> (l < next s)%nat /\ mat_wf m.

(** The rows [d] where the entries selected by [P] have been overwritten by
    [f]: the state of a matrix part of the way through a loop that fills it. *)
Definition fill (P : nat -> nat -> bool) (f : nat -> nat -> F)
    (d : list (list F)) : list (list F) :=
  imap (fun i row => imap (fun j x => if P i j then f i j else x) row) d.

(** The memory [s] with the rows of the matrix at [l] replaced by [d]. *)
Definition with_data (s : mem) (l : nat) (D : Matrix) (d : list (list F)) : mem :=
  set_heap (insert l (mkMatrix (rows D) (cols D) d)) s.

(** The memory [s] with the object at [l] replaced by [m]. *)
Definition upd (s : mem) (l : nat) (m : Matrix) : mem := set_heap (insert l m) s.

(** The memory [s] with the object at [l] released. *)
Definition freed (s : mem) (l : nat) : mem := set_heap (delete l) s.

(** Every object of [s] is in [s'] as it was. *)
Definition preserved (s s' : mem) : Prop :=
  forall l m, heap s !! l = Some m -> heap s' !! l = Some m.

(** [r] points to a new object, [R], and [s'] is [s] with that object. *)
Definition fresh_result (s s' : mem) (r : ptr) (R : Matrix) : Prop :=
  exists l, r = Ptr l /\ heap s !! l = None /\
            heap s' = <[l := R]> (heap s).

(** The memory after the objects [ms] have been allocated one after the
    other. *)
Fixpoint allocs (s : mem) (ms : list Matrix) : mem :=
  match ms with
  | [] => s
  | m :: ms' => allocs (alloc_st s m) ms'
  end.

(** The memory after the objects at [ls] have been released. *)
Definition frees (s : mem) (ls : list nat) : mem :=
  set_heap (fun h => foldr delete h ls) s.

(** [p] points to the object [m]. *)
Definition points_to (s : mem) (p : ptr) (m : Matrix) : Prop :=
  exists l, p = Ptr l /\ heap s !! l = Some m.

Definition dims (m : Matrix) : Z * Z := (rows m, cols m).

(** The contents of the eighteen matrices of a cell. *)
Record CellVals := mkVals {
  vW_f : Matrix; vW_i : Matrix; vW_c : Matrix; vW_o : Matrix;
  vU_f : Matrix; vU_i : Matrix; vU_c : Matrix; vU_o : Matrix;
  vb_f : Matrix; vb_i : Matrix; vb_c : Matrix; vb_o : Matrix;
  vcell_state : Matrix;
  vhidden_state : Matrix;
  vforget_gate : Matrix;
  vinput_gate : Matrix;
  vcandidate_gate : Matrix;
  voutput_gate : Matrix
}.

Definition cell_ptrs (c : LSTMCell) : list ptr :=
  [W_f c; W_i c; W_c c; W_o c; U_f c; U_i c; U_c c; U_o c;
   b_f c; b_i c; b_c c; b_o c; cell_state c; hidden_state c;
   forget_gate c; input_gate c; candidate_gate c; output_gate c].

(** The pointers of the cell [c] point to the matrices [v]. *)
Definition cell_at (s : mem) (c : LSTMCell) (v : CellVals) : Prop :=
  points_to s (W_f c) (vW_f v) /\ points_to s (W_i c) (vW_i v) /\
  points_to s (W_c c) (vW_c v) /\ points_to s (W_o c) (vW_o v) /\
  points_to s (U_f c) (vU_f v) /\ points_to s (U_i c) (vU_i v) /\
  points_to s (U_c c) (vU_c v) /\ points_to s (U_o c) (vU_o v) /\
  points_to s (b_f c) (vb_f v) /\ points_to s (b_i c) (vb_i v) /\
  points_to s (b_c c) (vb_c v) /\ points_to s (b_o c) (vb_o v) /\
  points_to s (cell_state c) (vcell_state v) /\
  points_to s (hidden_state c) (vhidden_state v) /\
  points_to s (forget_gate c) (vforget_gate v) /\
  points_to s (input_gate c) (vinput_gate v) /\
  points_to s (candidate_gate c) (vcandidate_gate v) /\
  points_to s (output_gate c) (voutput_gate v).

(** The matrices [v] have the shapes [lstm_cell_create] gives them. *)
Definition cell_shapes (c : LSTMCell) (v : CellVals) : Prop :=
  let h := hidden_size c in
  let n := input_size c in
  dims (vW_f v) = (h, n) /\ dims (vW_i v) = (h, n) /\
  dims (vW_c v) = (h, n) /\ dims (vW_o v) = (h, n) /\
  dims (vU_f v) = (h, h) /\ dims (vU_i v) = (h, h) /\
  dims (vU_c v) = (h, h) /\ dims (vU_o v) = (h, h) /\
  dims (vb_f v) = (h, 1) /\ dims (vb_i v) = (h, 1) /\
  dims (vb_c v) = (h, 1) /\ dims (vb_o v) = (h, 1) /\
  dims (vcell_state v) = (h, 1) /\ dims (vhidden_state v) = (h, 1) /\
  dims (vforget_gate v) = (h, 1) /\ dims (vinput_gate v) = (h, 1) /\
  dims (vcandidate_gate v) = (h, 1) /\ dims (voutput_gate v) = (h, 1).

(** A cell as [lstm_cell_create] leaves it and [lstm_cell_forward] keeps it:
    eighteen distinct matrices of the right shapes. *)
Definition cell_wf (s : mem) (c : LSTMCell) (v : CellVals) : Prop :=
  NoDup (cell_ptrs c) /\ cell_at s c v /\ cell_shapes c v.

(** [W x + U h + b] *)
Definition pre_gate (Wm Um bm x h : Matrix) : Matrix :=
  mat_map2 fadd (mat_map2 fadd (mat_mul Wm x) (mat_mul Um h)) bm.

(** The forward step as the specification words it, on the contents of the
    cell. *)
Definition forward_vals (v : CellVals) (x : Matrix) : CellVals :=
  let h := vhidden_state v in
  let f := mat_map sigmoid (pre_gate (vW_f v) (vU_f v) (vb_f v) x h) in
  let i := mat_map sigmoid (pre_gate (vW_i v) (vU_i v) (vb_i v) x h) in
  let g := mat_map tanh_activation (pre_gate (vW_c v) (vU_c v) (vb_c v) x h) in
  let o := mat_map sigmoid (pre_gate (vW_o v) (vU_o v) (vb_o v) x h) in
  let c := mat_tab (rows (vcell_state v)) 1 (fun k _ =>
             fadd (fmul (mat_at f k 0) (mat_at (vcell_state v) k 0))
                  (fmul (mat_at i k 0) (mat_at g k 0))) in
  let h' := mat_tab (rows (vhidden_state v)) 1 (fun k _ =>
              fmul (mat_at o k 0) (tanh_activation (mat_at c k 0))) in
  mkVals (vW_f v) (vW_i v) (vW_c v) (vW_o v)
         (vU_f v) (vU_i v) (vU_c v) (vU_o v)
         (vb_f v) (vb_i v) (vb_c v) (vb_o v)
         c h' f i g o.

(** The run of [c] from [s] ends, with a result and a memory that satisfy
    [Q]. *)
Definition runs {A} (c : M A) (s : mem) (Q : A -> mem -> Prop) : Prop :=
  exists a s', c s = Some (a, s') /\ Q a s'.

(** The six matrices of a cell that a forward step writes. *)
Definition cell_written (c : LSTMCell) : list ptr :=
  [forget_gate c; input_gate c; candidate_gate c; output_gate c;
   cell_state c; hidden_state c].

(** The contents of a cell after [lstm_cell_reset_state]. *)
Definition reset_vals (v : CellVals) : CellVals :=
  mkVals (vW_f v) (vW_i v) (vW_c v) (vW_o v)
         (vU_f v) (vU_i v) (vU_c v) (vU_o v)
         (vb_f v) (vb_i v) (vb_c v) (vb_o v)
         (mat_zero (rows (vcell_state v)) (cols (vcell_state v)))
         (mat_zero (rows (vhidden_state v)) (cols (vhidden_state v)))
         (vforget_gate v) (vinput_gate v) (vcandidate_gate v) (voutput_gate v).

(** The contents of the cell after a reset and a forward step on each input
    of [xs] in turn. *)
Definition run_vals (v : CellVals) (xs : list Matrix) : CellVals :=
  fold_left forward_vals xs (reset_vals v).

(** [W_output h + b_output] *)
Definition project (Wo bo h : Matrix) : Matrix :=
  mat_map2 fadd (mat_mul Wo h) bo.

(** A network as [lstm_network_create] leaves it: a cell, and an output
    layer of two more matrices, [Wo] and [bo]. *)
Definition net_wf (s : mem) (net : LSTMNetwork) (c : LSTMCell) (v : CellVals)
    (Wo bo : Matrix) : Prop :=
  lstm_layer net = Some c /\ cell_wf s c v /\
  points_to s (W_output net) Wo /\ points_to s (b_output net) bo /\
  (W_output net ∉ cell_ptrs c) /\ (b_output net ∉ cell_ptrs c) /\
  W_output net <> b_output net /\
  hidden_size c = n_hidden_size net /\ input_size c = n_input_size net /\
  dims Wo = (output_size net, n_hidden_size net) /\
  dims bo = (output_size net, 1) /\
  int_range (output_size net).

(** The pointers [ps] point to the matrices [xs], column vectors of [n]
    entries that are none of the pointers [avoid]. *)
Definition vectors_at (s : mem) (n : Z) (avoid : list ptr) (ps : list ptr)
    (xs : list Matrix) : Prop :=
  Forall2 (fun p x => points_to s p x /\ dims x = (n, 1) /\ (p ∉ avoid)) ps xs.

(** Every object of [s] that is none of [ps] is in [s'] as it was. *)
Definition preserved_but (ps : list ptr) (s s' : mem) : Prop :=
  forall k m, heap s !! k = Some m -> Ptr k ∉ ps -> heap s' !! k = Some m.

(** The loop of [lstm_network_predict]: after [t] steps the cell holds the
    values of [t] forward steps, and [hidden_output] is the copy of the
    hidden state that the last step returned. *)
Definition predict_inv (s : mem) (c : LSTMCell) (v : CellVals)
    (Xs : list Matrix) (t : nat) (ho : ptr) (S0 : mem) : Prop :=
  mem_wf S0 /\ (next s <= next S0)%nat /\
  cell_wf S0 c (fold_left forward_vals (take t Xs) (reset_vals v)) /\
  preserved_but (cell_written c) s S0 /\
  match ho with
  | NULL => t = 0%nat
  | Ptr o => t <> 0%nat /\ (next s <= o)%nat /\
             heap S0 !! o =
             Some (vhidden_state (fold_left forward_vals (take t Xs) (reset_vals v)))
  end.

(** The hidden state and the output weights after one training pair: the
    prediction [P] on the inputs [Xs], the error [(T - P) * learning_rate],
    and the update [W_output + error * h^T]. *)
Definition train_pair (bo : Matrix) (lr : F) (st : CellVals * Matrix)
    (pr : list Matrix * Matrix) : CellVals * Matrix :=
  let v' := run_vals st.1 pr.1 in
  let h := vhidden_state v' in
  let E := mat_map (fun x => fmul x lr)
                   (mat_map2 fsub pr.2 (project st.2 bo h)) in
  (v', mat_map2 fadd st.2 (mat_mul E (mat_transpose h))).

(** One epoch over the training pairs, and [n] epochs. *)
Definition train_epoch (bo : Matrix) (lr : F) (pairs : list (list Matrix * Matrix))
    (st : CellVals * Matrix) : CellVals * Matrix :=
  fold_left (train_pair bo lr) pairs st.

Definition train_epochs (bo : Matrix) (lr : F) (pairs : list (list Matrix * Matrix))
    (n : nat) (st : CellVals * Matrix) : CellVals * Matrix :=
  Nat.iter n (train_epoch bo lr pairs) st.

(** The training data [d] holds the pairs [pairs]: sequence [i] is
    [sequence_length] column vectors of [input_size] entries, target [i] a
    column vector of [output_size] entries, and none of them is a matrix
    that training writes. *)
Definition data_wf (s : mem) (net : LSTMNetwork) (c : LSTMCell)
    (d : TrainingData) (pairs : list (list Matrix * Matrix)) : Prop :=
  1 <= td_sequence_length d /\
  num_sequences d = Z.of_nat (length pairs) /\
  Forall2 (fun sq pr =>
             td_sequence_length d <= Z.of_nat (length sq) /\
             vectors_at s (n_input_size net) (W_output net :: cell_written c)
                        (take (Z.to_nat (td_sequence_length d)) sq) pr.1)
          (inputs d) pairs /\
  vectors_at s (output_size net) (W_output net :: cell_written c)
             (targets d) (pairs.*2).

(** The twelve weight matrices and biases of a cell. *)
Definition cell_weights (v : CellVals) : list Matrix :=
  [vW_f v; vW_i v; vW_c v; vW_o v; vU_f v; vU_i v; vU_c v; vU_o v;
   vb_f v; vb_i v; vb_c v; vb_o v].

(** The pointers to the twelve weight matrices and biases of a cell. *)
Definition cell_weight_ptrs (c : LSTMCell) : list ptr :=
  [W_f c; W_i c; W_c c; W_o c; U_f c; U_i c; U_c c; U_o c;
   b_f c; b_i c; b_c c; b_o c].

(** The matrix [weather_point_to_matrix] makes of a point. *)
Definition point_matrix (p : WeatherPoint) : Matrix :=
  mkMatrix 6 1 [[temperature p]; [pressure p]; [humidity p];
                [wind_speed p]; [wind_direction p]; [precipitation p]].

(** The pointers and the points of the sequences [create_training_data]
    builds: [n] sequences of [W] inputs and a target, the matrices being
    allocated one after the other from address [base] on. *)
Fixpoint seq_ins (n base W : nat) : list (list ptr) :=
  match n with
  | O => []
  | S n' => map (fun t => Ptr (base + t)) (seq 0 W) :: seq_ins n' (base + S W) W
  end.

Fixpoint seq_tgs (n base W : nat) : list ptr :=
  match n with
  | O => []
  | S n' => Ptr (base + W) :: seq_tgs n' (base + S W) W
  end.

Fixpoint seq_pts (n : nat) (pts : list WeatherPoint) (W : nat)
  : list WeatherPoint :=
  match n with
  | O => []
  | S n' => take (S W) pts ++ seq_pts n' (drop 1 pts) W
  end.

(** The address of matrix [t] of training pair [i]; matrix [W] of a pair is
    its target. *)
Definition pair_addr (base W i t : nat) : nat := (base + i * S W + t)%nat.

(** [S] is [s] but for the entries of the matrix at [l] (and the position in
    the sequence of random numbers). *)
Definition refill (l : nat) (s S0 : mem) : Prop :=
  next S0 = next s /\ files S0 = files s /\ locked S0 = locked s /\
  (exists D D', heap s !! l = Some D /\ heap S0 !! l = Some D' /\
                rows D' = rows D /\ cols D' = cols D /\ mat_wf D') /\
  (forall k, k <> l -> heap S0 !! k = heap s !! k).

(** [s'] has the objects of [s], with the shapes they have in [s], and the
    files of [s]. *)
Definition same_shapes (s s' : mem) : Prop :=
  mem_wf s' /\ next s' = next s /\ files s' = files s /\
  locked s' = locked s /\
  forall l D, heap s !! l = Some D ->
    exists D', heap s' !! l = Some D' /\ rows D' = rows D /\ cols D' = cols D.

(** The memory [s] with the file [name] holding [content]. *)
Definition with_file (s : mem) (name : string) (content : list datum) : mem :=
  Mem (heap s) (next s) (rand_pos s) (<[name := content]> (files s)) (locked s).

(** The first entry of each row: the entries of a column vector. *)
Definition column (m : Matrix) : list F :=
  map (fun row => default fzero (head row)) (data m).

Definition norm_items (o : option NormalizationParams) : list datum :=
  match o with
  | Some p => DInt 1 :: params_items p
  | None => [DInt 0]
  end.

(** What [save_lstm_model] writes for a network whose [W_output] holds [Wo]
    and whose [b_output] holds [bo]. *)
Definition model_file (net : LSTMNetwork) (Wo bo : Matrix) : list datum :=
  [DInt (n_input_size net); DInt (n_hidden_size net); DInt (output_size net);
   DDouble (learning_rate net); DInt (sequence_length net)] ++
  concat (map (map DDouble) (data Wo)) ++
  map DDouble (column bo) ++ norm_items (norm_params net).



(** [r] rows of [c] ones. *)
Definition mat_ones (r c : Z) : Matrix := mat_tab r c (fun _ _ => fone).

(** [s'] is [s] but for the entries of the matrices at the addresses [ls]. *)
Definition refilled (ls : list nat) (s s' : mem) : Prop :=
  mem_wf s' /\ next s' = next s /\ files s' = files s /\
  locked s' = locked s /\
  (forall k, k ∉ ls -> heap s' !! k = heap s !! k) /\
  (forall k D, heap s !! k = Some D ->
     exists D', heap s' !! k = Some D' /\ rows D' = rows D /\ cols D' = cols D).

(** The point a 6 x 1 matrix is converted to. *)
Definition matrix_point (P : Matrix) : WeatherPoint :=
  mkPoint (mat_at P 0 0) (mat_at P 1 0) (mat_at P 2 0)
          (mat_at P 3 0) (mat_at P 4 0) (mat_at P 5 0).

(** The addresses of the first [k] matrices of the sequence, the last one
    released first in the list. *)
Definition released (base k : nat) : list nat :=
  map (fun t => (base + t)%nat) (reverse (seq 0 k)).

(** What is left in memory after the first [i] pairs have been released. *)
Definition pairs_released (s1 : mem) (base W i : nat) (S0 : mem) : Prop :=
  forall k, heap S0 !! k =
            if decide (base <= k < base + i * S W)%nat then None
            else heap s1 !! k.

(** One step of the sum of [calculate_loss]: [loss += diff * diff]. *)
Definition sq_err (loss : F) (xy : F * F) : F :=
  fadd loss (fmul (fsub xy.1 xy.2) (fsub xy.1 xy.2)).

(** The sum over one row, from left to right. *)
Definition row_err (loss : F) (rows2 : list F * list F) : F :=
  foldl sq_err loss (zip rows2.1 rows2.2).

(** The sum of the squared differences of the entries of [P] and [T], in
    the order of the two loops: row after row, each from left to right. *)
Definition squared_error (P T : Matrix) : F :=
  foldl row_err fzero (zip (data P) (data T)).

(** The memory [s] after [n] more calls of [rand()]. *)
Definition drawn (s : mem) (n : nat) : mem :=
  Mem (heap s) (next s) (n + rand_pos s) (files s) (locked s).

(** [min + random * (max - min)] with [random = (double)rand() / RAND_MAX]
    for the call of [rand()] number [k]. *)
Definition random_value (min max : F) (k : nat) : F :=
  fadd min (fmul (fdiv (f_of_int (rand_seq k)) (f_of_int RAND_MAX))
                 (fsub max min)).

(** The derivative functions: [s * (1.0 - s)] with [s = sigmoid(x)],
    [1.0 - t * t] with [t = tanh_activation(x)], and [x > 0.0 ? 1.0 : 0.0]. *)
Definition sigmoid_derivative (x : F) : F :=
  let s := sigmoid x in fmul s (fsub fone s).

Definition tanh_derivative (x : F) : F :=
  let t := tanh_activation x in fsub fone (fmul t t).

Definition relu_derivative (x : F) : F :=
  if fltb fzero x then fone else fzero.

(** [sqrt(6.0 / (rows + cols)) * scale] *)
Definition xavier_limit (r c : Z) (scale : F) : F :=
  fmul (fsqrt (fdiv (f_of_int 6) (f_of_int (r + c)))) scale.

(** The matrix [initialize_weights] leaves in a matrix of [r] rows and [c]
    columns when [rand()] has been called [base] times before. *)
Definition random_matrix (r c : Z) (scale : F) (base : nat) : Matrix :=
  mat_tab r c (fun i j =>
    random_value (fneg (xavier_limit r c scale)) (xavier_limit r c scale)
                 (i * Z.to_nat c + j + base)).

End Engine.

(** ** A concrete setting *)

(** Exact arithmetic on the real numbers: [double] without rounding,
    overflow or NaN.  It carries the examples, and the properties that are
    about the real functions themselves. *)
#[export] Instance R_scalar : Scalar R := {
  fzero := 0%R;
  fone := 1%R;
  fhalf := (1 / 2)%R;
  fmilli := (1 / 1000)%R;
  f_of_int := IZR;
  fadd := Rplus;
  fsub := Rminus;
  fmul := Rmult;
  fdiv := Rdiv;
  fneg := Ropp;
  fltb := fun x y => if Rlt_dec x y then true else false;
  fexp := exp;
  ftanh := tanh;
  fsqrt := sqrt
}.

(** The C library of the machines the project is built on (glibc): a request
    for zero bytes returns a pointer and [RAND_MAX] is [2^31 - 1].  The
    numbers [rand()] returns are those of a linear congruential generator. *)
Definition glibc : Libc := {|
  malloc_zero := true;
  RAND_MAX := 2147483647;
  rand_seq := fun n => (1103515245 * Z.of_nat n + 12345) mod 2147483648
|}.

(** A C library whose allocator returns [NULL] for a request of zero
    bytes, as the standard allows. *)
Definition strict_libc : Libc := {|
  malloc_zero := false;
  RAND_MAX := 2147483647;
  rand_seq := fun n => (1103515245 * Z.of_nat n + 12345) mod 2147483648
|}.

(** The memory at program start. *)
Definition init_mem {F : Type} : mem (F := F) := Mem ∅ 0 0 ∅ ∅.

(** Two matrices and a memory that holds them at addresses 0 and 1. *)
Definition A0 : Matrix (F := R) := mkMatrix 2 2 [[1; 2]; [3; 4]]%R.
Definition B0 : Matrix (F := R) := mkMatrix 2 2 [[5; 6]; [7; 8]]%R.
Definition mem_AB : mem (F := R) := alloc_st (alloc_st init_mem A0) B0.



(** A cell of one input and one hidden unit at addresses 0 to 17, a network
    of one output on it with [W_output] at 18 and [b_output] at 19, an input
    vector at 20 and a target at 21. *)
Definition m11 (x : R) : Matrix (F := R) := mkMatrix 1 1 [[x]].

Definition ex_cell : LSTMCell :=
  mkCell 1 1
    (Ptr 0) (Ptr 1) (Ptr 2) (Ptr 3) (Ptr 4) (Ptr 5) (Ptr 6) (Ptr 7)
    (Ptr 8) (Ptr 9) (Ptr 10) (Ptr 11) (Ptr 12) (Ptr 13)
    (Ptr 14) (Ptr 15) (Ptr 16) (Ptr 17).

Definition ex_vals : CellVals (F := R) :=
  (mkVals (m11 1) (m11 1) (m11 1) (m11 1) (m11 1) (m11 1) (m11 1) (m11 1)
          (m11 0) (m11 0) (m11 0) (m11 0) (m11 0) (m11 0)
          (m11 0) (m11 0) (m11 0) (m11 0))%R.

Definition ex_net : LSTMNetwork (F := R) :=
  mkNetwork (Some ex_cell) (Ptr 18) (Ptr 19) 1 1 1 (1 / 1000)%R 1 None.

Definition ex_mem : mem (F := R) :=
  allocs init_mem
    [m11 1; m11 1; m11 1; m11 1; m11 1; m11 1; m11 1; m11 1;
     m11 0; m11 0; m11 0; m11 0; m11 0; m11 0;
     m11 0; m11 0; m11 0; m11 0;
     m11 2; m11 3; m11 1; m11 5]%R.

(** One training pair: the input at 20, the target at 21. *)
Definition ex_training : TrainingData := mkTraining [[Ptr 20]] [Ptr 21] 1 1.

(** Three observations and the ranges of their features. *)
Definition ex_dataset : WeatherDataset (F := R) :=
  mkDataset [mkPoint 20 1013 50 5 180 0;
             mkPoint 22 1010 55 7 190 1;
             mkPoint 21 1012 60 5 200 0]%R 3 4.



(** A cell of six inputs and one hidden unit at addresses 0 to 17 and a
    network of six outputs on it, with [W_output] at 18 and [b_output] at
    19. *)
Definition row6 : Matrix (F := R) := mkMatrix 1 6 [[1; 0; 0; 0; 0; 0]]%R.

Definition col6 : Matrix (F := R) :=
  mkMatrix 6 1 [[1]; [0]; [0]; [0]; [0]; [0]]%R.

Definition ex_cell6 : LSTMCell :=
  mkCell 6 1
    (Ptr 0) (Ptr 1) (Ptr 2) (Ptr 3) (Ptr 4) (Ptr 5) (Ptr 6) (Ptr 7)
    (Ptr 8) (Ptr 9) (Ptr 10) (Ptr 11) (Ptr 12) (Ptr 13)
    (Ptr 14) (Ptr 15) (Ptr 16) (Ptr 17).

Definition ex_vals6 : CellVals (F := R) :=
  (mkVals row6 row6 row6 row6 (m11 1) (m11 1) (m11 1) (m11 1)
          (m11 0) (m11 0) (m11 0) (m11 0) (m11 0) (m11 0)
          (m11 0) (m11 0) (m11 0) (m11 0))%R.

Definition ex_net6 : LSTMNetwork (F := R) :=
  mkNetwork (Some ex_cell6) (Ptr 18) (Ptr 19) 6 1 6 (1 / 1000)%R 10 None.

Definition ex_mem6 : mem (F := R) :=
  allocs init_mem
    [row6; row6; row6; row6; m11 1; m11 1; m11 1; m11 1;
     m11 0; m11 0; m11 0; m11 0; m11 0; m11 0;
     m11 0; m11 0; m11 0; m11 0; col6; col6]%R.

(** A memory with a model file that ends within the first row of
    [W_output]. *)
Definition ex_short_file : mem (F := R) :=
  with_file init_mem "model.bin"
    [DInt 1; DInt 2; DInt 1; DDouble (1 / 1000)%R; DInt 10; DDouble 1%R].

(** A memory with a matrix of two rows and two columns at address 0 and a
    matrix of one entry at address 1. *)
Definition mem_A1 : mem (F := R) := alloc_st (alloc_st init_mem A0) (m11 1).




(** IEEE 754 binary64, the [double] of the machines the project is built
    on, in the kernel's floating-point numbers: the four operations are
    rounded to nearest, a comparison with a NaN is false.  [exp] and [tanh]
    come from the C library and are parameters. *)
Module Binary64.
Import PrimFloat.








End Binary64.

Section Proofs.

Context {F : Type} `{Scalar F} `{Libc}.

Local Abbreviation Matrix := (@Matrix F).
Local Abbreviation mem := (@mem F).
Local Abbreviation M := (@M F).
Local Abbreviation datum := (@datum F).
Local Abbreviation WeatherPoint := (@WeatherPoint F).
Local Abbreviation WeatherDataset := (@WeatherDataset F).
Local Abbreviation NormalizationParams := (@NormalizationParams F).
Local Abbreviation LSTMNetwork := (@LSTMNetwork F).

Notation "x <- c1 ;; c2" := (bind c1 (fun x => c2))
  (at level 100, c1 at next level, right associativity).
Notation "c1 ;; c2" := (bind c1 (fun _ => c2))
  (at level 100, right associativity).

(** ** Lists of rows *)

Lemma lookup_tabulate r c (f : nat -> nat -> F) (i : nat) :
  (i < r)%nat -> tabulate r c f !! i = Some (map (fun j => f i j) (seq 0 c)).
Proof.
  intros Hi. unfold tabulate. rewrite list_lookup_fmap.
  rewrite lookup_seq_lt by done. reflexivity.
Qed.

Lemma data_get_tabulate r c (f : nat -> nat -> F) (i j : nat) :
  (i < r)%nat -> (j < c)%nat -> data_get (tabulate r c f) i j = Some (f i j).
Proof.
  intros Hi Hj. unfold data_get. rewrite lookup_tabulate by done.
  rewrite list_lookup_fmap, lookup_seq_lt by done. reflexivity.
Qed.

Lemma data_get_tabulate_None r c (f : nat -> nat -> F) (i j : nat) :
  (r <= i)%nat \/ (c <= j)%nat -> data_get (tabulate r c f) i j = None.
Proof.
  intros Hij. unfold data_get, tabulate. rewrite list_lookup_fmap.
  destruct (decide (i < r)%nat) as [Hi|Hi].
  - rewrite lookup_seq_lt by done. simpl. rewrite list_lookup_fmap.
    rewrite lookup_seq_ge by lia. reflexivity.
  - rewrite lookup_seq_ge by lia. reflexivity.
Qed.

Lemma shape_tabulate r c (f : nat -> nat -> F) : shape (tabulate r c f) r c.
Proof.
  split.
  - unfold tabulate. rewrite length_map, length_seq. reflexivity.
  - unfold tabulate. apply Forall_forall. intros row Hrow.
    apply list_elem_of_fmap in Hrow as (i & -> & _).
    rewrite length_map, length_seq. reflexivity.
Qed.

Lemma shape_lookup (d : list (list F)) r c (i : nat) row :
  shape d r c -> d !! i = Some row -> (i < r)%nat /\ length row = c.
Proof.
  intros [Hlen Hall] Hrow. split.
  - rewrite <- Hlen. eapply lookup_lt_Some, Hrow.
  - eapply Forall_lookup_1 in Hall; eauto.
Qed.

Lemma shape_data_get (d : list (list F)) r c (i j : nat) :
  shape d r c -> (i < r)%nat -> (j < c)%nat -> is_Some (data_get d i j).
Proof.
  intros Hs Hi Hj. unfold data_get.
  destruct (lookup_lt_is_Some_2 d i) as [row Hrow]; [destruct Hs; lia|].
  rewrite Hrow. apply lookup_lt_is_Some_2.
  destruct (shape_lookup _ _ _ _ _ Hs Hrow). lia.
Qed.

Lemma data_get_Some_shape (d : list (list F)) r c (i j : nat) x :
  shape d r c -> data_get d i j = Some x -> (i < r)%nat /\ (j < c)%nat.
Proof.
  intros Hs. unfold data_get. destruct (d !! i) as [row|] eqn:Hrow; [|done].
  intros Hx. destruct (shape_lookup _ _ _ _ _ Hs Hrow) as [Hi Hl].
  split; [done|]. rewrite <- Hl. eapply lookup_lt_Some, Hx.
Qed.

(** Two lists of rows with the same entries and the same shape are equal. *)
Lemma data_eq (d1 d2 : list (list F)) r c :
  shape d1 r c -> shape d2 r c ->
  (forall i j : nat, (i < r)%nat -> (j < c)%nat -> data_get d1 i j = data_get d2 i j) ->
  d1 = d2.
Proof.
  intros H1 H2 Heq. apply list_eq. intros i.
  destruct (decide (i < r)%nat) as [Hi|Hi].
  - destruct (lookup_lt_is_Some_2 d1 i) as [r1 Hr1]; [destruct H1; lia|].
    destruct (lookup_lt_is_Some_2 d2 i) as [r2 Hr2]; [destruct H2; lia|].
    rewrite Hr1, Hr2. f_equal. apply list_eq. intros j.
    destruct (shape_lookup _ _ _ _ _ H1 Hr1) as [_ Hl1].
    destruct (shape_lookup _ _ _ _ _ H2 Hr2) as [_ Hl2].
    destruct (decide (j < c)%nat) as [Hj|Hj].
    + specialize (Heq i j Hi Hj). unfold data_get in Heq.
      rewrite Hr1, Hr2 in Heq. exact Heq.
    + rewrite !lookup_ge_None_2 by lia. reflexivity.
  - destruct H1, H2. rewrite !lookup_ge_None_2 by lia. reflexivity.
Qed.

Lemma data_get_set (d : list (list F)) (i j i' j' : nat) v :
  data_get (data_set d i j v) i' j' =
  if decide (i = i' /\ j = j')
  then (fun _ => v) <$> data_get d i j
  else data_get d i' j'.
Proof.
  unfold data_get, data_set. rewrite list_lookup_alter.
  destruct (decide (i = i')) as [->|Hi].
  - destruct (d !! i') as [row|]; simpl.
    + destruct (decide (j = j')) as [->|Hj].
      * rewrite decide_True by done.
        destruct (decide (j' < length row)%nat).
        -- rewrite list_lookup_insert_eq by done.
           destruct (lookup_lt_is_Some_2 row j') as [x ->]; done.
        -- rewrite list_insert_ge by lia.
           rewrite lookup_ge_None_2 by lia. reflexivity.
      * rewrite decide_False by tauto.
        rewrite list_lookup_insert_ne by done. reflexivity.
    + by destruct (decide _).
  - rewrite decide_False by tauto. reflexivity.
Qed.

Lemma shape_data_set (d : list (list F)) r c (i j : nat) v :
  shape d r c -> shape (data_set d i j v) r c.
Proof.
  intros [Hlen Hall]. split.
  - unfold data_set. rewrite length_alter. exact Hlen.
  - unfold data_set. apply Forall_forall. intros row Hrow.
    apply list_elem_of_lookup in Hrow as [k Hk].
    rewrite list_lookup_alter in Hk.
    destruct (decide (i = k)) as [->|Hne].
    + destruct (d !! k) as [row0|] eqn:Hrow0; [|done].
      simpl in Hk. injection Hk as <-. rewrite length_insert.
      eapply Forall_lookup_1 in Hall; eauto.
    + eapply Forall_lookup_1 in Hall; eauto.
Qed.


Lemma data_get_fill P (f : nat -> nat -> F) d (i j : nat) :
  data_get (fill P f d) i j =
  (fun x => if P i j then f i j else x) <$> data_get d i j.
Proof.
  unfold data_get, fill. rewrite list_lookup_imap.
  destruct (d !! i) as [row|]; simpl; [|done].
  rewrite list_lookup_imap. reflexivity.
Qed.

Lemma shape_fill P (f : nat -> nat -> F) d r c :
  shape d r c -> shape (fill P f d) r c.
Proof.
  intros [Hlen Hall]. split.
  - unfold fill. rewrite length_imap. exact Hlen.
  - apply Forall_forall. intros row Hrow.
    apply list_elem_of_lookup in Hrow as [k Hk].
    unfold fill in Hk. rewrite list_lookup_imap in Hk.
    destruct (d !! k) as [row0|] eqn:Hrow0; [|done].
    simpl in Hk. injection Hk as <-. rewrite length_imap.
    eapply Forall_lookup_1 in Hall; eauto.
Qed.

Lemma fill_ext P Q (f : nat -> nat -> F) d r c :
  shape d r c ->
  (forall a b : nat, (a < r)%nat -> (b < c)%nat -> P a b = Q a b) ->
  fill P f d = fill Q f d.
Proof.
  intros Hs HPQ. apply (data_eq _ _ r c); try by apply shape_fill.
  intros i j Hi Hj. rewrite !data_get_fill, HPQ by done. reflexivity.
Qed.

Lemma fill_none P (f : nat -> nat -> F) d r c :
  shape d r c ->
  (forall a b : nat, (a < r)%nat -> (b < c)%nat -> P a b = false) ->
  fill P f d = d.
Proof.
  intros Hs HP. apply (data_eq _ _ r c); try done; [by apply shape_fill|].
  intros i j Hi Hj. rewrite data_get_fill, HP by done.
  by destruct (data_get d i j).
Qed.

Lemma fill_all P (f : nat -> nat -> F) d r c :
  shape d r c ->
  (forall a b : nat, (a < r)%nat -> (b < c)%nat -> P a b = true) ->
  fill P f d = tabulate r c f.
Proof.
  intros Hs HP. apply (data_eq _ _ r c);
    [by apply shape_fill | apply shape_tabulate |].
  intros i j Hi Hj. rewrite data_get_fill, HP, data_get_tabulate by done.
  destruct (shape_data_get d r c i j Hs Hi Hj) as [x ->]. reflexivity.
Qed.

Lemma fill_set P Q (f : nat -> nat -> F) d r c (i j : nat) :
  shape d r c ->
  (forall a b : nat, (a < r)%nat -> (b < c)%nat ->
     Q a b = P a b || bool_decide (i = a /\ j = b)) ->
  data_set (fill P f d) i j (f i j) = fill Q f d.
Proof.
  intros Hs HQ. apply (data_eq _ _ r c);
    [by apply shape_data_set, shape_fill | by apply shape_fill |].
  intros a b Ha Hb. rewrite data_get_set, !data_get_fill, HQ by done.
  destruct (decide (i = a /\ j = b)) as [[-> ->]|Hne].
  - rewrite bool_decide_eq_true_2 by done. rewrite orb_true_r.
    by destruct (data_get d a b).
  - rewrite bool_decide_eq_false_2 by done. rewrite orb_false_r. reflexivity.
Qed.

(** ** Runs *)

Lemma bind_eq {A B} (c : M A) (k : A -> M B) (s s1 : mem) a :
  c s = Some (a, s1) -> bind c k s = k a s1.
Proof. intros Hc. unfold bind. rewrite Hc. reflexivity. Qed.

Lemma set_heap_id (s : mem) l m :
  heap s !! l = Some m -> set_heap (insert l m) s = s.
Proof.
  intros Hl. destruct s as [h n r fs lk]. unfold set_heap. simpl in *.
  f_equal. by apply insert_id.
Qed.

Lemma with_data_id (s : mem) l D :
  heap s !! l = Some D -> with_data s l D (data D) = s.
Proof.
  intros Hl. unfold with_data. destruct D. simpl. by apply set_heap_id.
Qed.

Lemma for_loop_eq (St : nat -> mem) n lo (body : Z -> M unit) :
  (forall k : nat, (k < n)%nat ->
     body (lo + Z.of_nat k) (St k) = Some (tt, St (S k))) ->
  for_loop n lo body (St 0%nat) = Some (tt, St n).
Proof.
  revert lo St. induction n as [|n IH]; intros lo St Hbody; [reflexivity|].
  simpl. erewrite bind_eq.
  2:{ specialize (Hbody 0%nat). rewrite Z.add_0_r in Hbody.
      apply Hbody. lia. }
  apply (IH (lo + 1) (fun k => St (S k))). intros k Hk.
  replace (lo + 1 + Z.of_nat k) with (lo + Z.of_nat (S k)) by lia.
  apply Hbody. lia.
Qed.

Lemma for_fold_eq {A} (St : nat -> mem) (Acc : nat -> A) n lo
    (body : Z -> A -> M A) :
  (forall k : nat, (k < n)%nat ->
     body (lo + Z.of_nat k) (Acc k) (St k) = Some (Acc (S k), St (S k))) ->
  for_fold n lo body (Acc 0%nat) (St 0%nat) = Some (Acc n, St n).
Proof.
  revert lo St Acc. induction n as [|n IH]; intros lo St Acc Hbody;
    [reflexivity|].
  simpl. erewrite bind_eq.
  2:{ specialize (Hbody 0%nat). rewrite Z.add_0_r in Hbody.
      apply Hbody. lia. }
  apply (IH (lo + 1) (fun k => St (S k)) (fun k => Acc (S k))). intros k Hk.
  replace (lo + 1 + Z.of_nat k) with (lo + Z.of_nat (S k)) by lia.
  apply Hbody. lia.
Qed.

Lemma mem_load_eq (s : mem) l m :
  heap s !! l = Some m -> mem_load l s = Some (m, s).
Proof. intros Hl. unfold mem_load. rewrite Hl. reflexivity. Qed.

Lemma get_rows_eq (s : mem) l m :
  heap s !! l = Some m -> get_rows l s = Some (rows m, s).
Proof. intros Hl. unfold get_rows. erewrite bind_eq by by apply mem_load_eq. reflexivity. Qed.

Lemma get_cols_eq (s : mem) l m :
  heap s !! l = Some m -> get_cols l s = Some (cols m, s).
Proof. intros Hl. unfold get_cols. erewrite bind_eq by by apply mem_load_eq. reflexivity. Qed.

Lemma elem_get_eq (s : mem) l m (i j : nat) x :
  heap s !! l = Some m -> data_get (data m) i j = Some x ->
  elem_get l (Z.of_nat i) (Z.of_nat j) s = Some (x, s).
Proof.
  intros Hl Hx. unfold elem_get. erewrite bind_eq by by apply mem_load_eq.
  rewrite !(proj2 (Z.ltb_ge _ _)) by lia. simpl.
  rewrite !Nat2Z.id, Hx. reflexivity.
Qed.

Lemma elem_set_eq (s : mem) l m (i j : nat) v :
  heap s !! l = Some m -> is_Some (data_get (data m) i j) ->
  elem_set l (Z.of_nat i) (Z.of_nat j) v s =
  Some (tt, with_data s l m (data_set (data m) i j v)).
Proof.
  intros Hl [x Hx]. unfold elem_set. erewrite bind_eq by by apply mem_load_eq.
  rewrite !(proj2 (Z.ltb_ge _ _)) by lia. simpl.
  rewrite !Nat2Z.id, Hx. unfold mem_store. rewrite Hl. reflexivity.
Qed.

Lemma with_data_upd (s : mem) l D d :
  with_data s l D d = upd s l (mkMatrix (rows D) (cols D) d).
Proof. reflexivity. Qed.

Lemma heap_with_data (s : mem) l D d :
  heap (with_data s l D d) = <[l := mkMatrix (rows D) (cols D) d]> (heap s).
Proof. reflexivity. Qed.

Lemma with_data_twice (s : mem) l D D' d d' :
  rows D' = rows D -> cols D' = cols D ->
  with_data (with_data s l D d) l D' d' = with_data s l D d'.
Proof.
  intros Hr Hc. unfold with_data, set_heap. simpl.
  rewrite insert_insert_eq, Hr, Hc. reflexivity.
Qed.


(** ** Loops that fill a matrix *)

Ltac bool_lia :=
  intros; apply eq_true_iff_eq;
  rewrite ?orb_true_iff, ?andb_true_iff, ?bool_decide_eq_true,
    ?Nat.ltb_lt, ?Nat.eqb_eq;
  split; intros; try discriminate; try done; try lia.

(** Two nested loops whose body at [(i, j)] stores [f] at entry
    [(pi i j, pj i j)] of the matrix at [l] and changes nothing else, [Q i j]
    being the entries stored before the body runs at [(i, j)]. *)
Lemma fill_loop (Q : nat -> nat -> nat -> nat -> bool) (pi pj : nat -> nat -> nat)
    (s : mem) l D (n m dr dc : nat) (f : nat -> nat -> F)
    (body : Z -> Z -> M unit) :
  heap s !! l = Some D -> shape (data D) dr dc ->
  (forall a b : nat, (a < dr)%nat -> (b < dc)%nat -> Q 0%nat 0%nat a b = false) ->
  (forall i j a b : nat, (i < n)%nat -> (j < m)%nat -> (a < dr)%nat -> (b < dc)%nat ->
     Q i (S j) a b = Q i j a b || bool_decide (pi i j = a /\ pj i j = b)) ->
  (forall i a b : nat, (i < n)%nat -> (a < dr)%nat -> (b < dc)%nat ->
     Q (S i) 0%nat a b = Q i m a b) ->
  (forall a b : nat, (a < dr)%nat -> (b < dc)%nat -> Q n 0%nat a b = true) ->
  (forall i j : nat, (i < n)%nat -> (j < m)%nat -> Q i j (pi i j) (pj i j) = false) ->
  (forall (i j : nat) d', (i < n)%nat -> (j < m)%nat -> shape d' dr dc ->
     data_get d' (pi i j) (pj i j) = data_get (data D) (pi i j) (pj i j) ->
     body (Z.of_nat i) (Z.of_nat j) (with_data s l D d') =
     Some (tt, with_data s l D
                 (data_set d' (pi i j) (pj i j) (f (pi i j) (pj i j))))) ->
  for_loop n 0 (fun i => for_loop m 0 (fun j => body i j)) s =
  Some (tt, with_data s l D (tabulate dr dc f)).
Proof.
  intros Hl Hs H0' Hstep Hrow Hend Hfresh Hbody.
  pose (St := fun i : nat => with_data s l D (fill (Q i 0%nat) f (data D))).
  assert (HSt0 : St 0%nat = s).
  { unfold St. rewrite (fill_none _ _ _ dr dc) by done. by apply with_data_id. }
  assert (HStn : St n = with_data s l D (tabulate dr dc f)).
  { unfold St. rewrite (fill_all _ _ _ dr dc) by done. reflexivity. }
  rewrite <- HSt0 at 1. rewrite <- HStn.
  apply for_loop_eq. intros i Hi. simpl.
  pose (St' := fun j : nat => with_data s l D (fill (Q i j) f (data D))).
  change (St i) with (St' 0%nat).
  assert (HSt'm : St' m = St (S i)).
  { unfold St', St. f_equal. apply (fill_ext _ _ _ _ dr dc); [done|].
    intros a b Ha Hb. symmetry. by apply Hrow. }
  rewrite <- HSt'm. apply for_loop_eq. intros j Hj. rewrite !Z.add_0_l.
  unfold St'. rewrite Hbody; try done.
  - do 3 f_equal. apply (fill_set _ _ _ _ dr dc); [done|].
    intros a b Ha Hb. by apply Hstep.
  - by apply shape_fill.
  - rewrite data_get_fill, Hfresh by done.
    by destruct (data_get (data D) (pi i j) (pj i j)).
Qed.

(** The loop nest of [matrix_add] and its like: entry [(i, j)] is stored at
    step [(i, j)]. *)
Lemma fill_rows (s : mem) l D (r c : Z) (f : nat -> nat -> F)
    (body : Z -> Z -> M unit) :
  heap s !! l = Some D -> shape (data D) (Z.to_nat r) (Z.to_nat c) ->
  (forall (i j : nat) d', (i < Z.to_nat r)%nat -> (j < Z.to_nat c)%nat ->
     shape d' (Z.to_nat r) (Z.to_nat c) ->
     data_get d' i j = data_get (data D) i j ->
     body (Z.of_nat i) (Z.of_nat j) (with_data s l D d') =
     Some (tt, with_data s l D (data_set d' i j (f i j)))) ->
  for_range 0 r (fun i => for_range 0 c (fun j => body i j)) s =
  Some (tt, with_data s l D (tabulate (Z.to_nat r) (Z.to_nat c) f)).
Proof.
  intros Hl Hs Hbody. unfold for_range. rewrite !Z.sub_0_r.
  apply (fill_loop
           (fun i j a b => (a <? i)%nat || ((a =? i)%nat && (b <? j)%nat))
           (fun i _ => i) (fun _ j => j)); try done; bool_lia.
Qed.

(** The loop nest of [matrix_transpose]: entry [(j, i)] is stored at step
    [(i, j)]. *)
Lemma fill_cols (s : mem) l D (r c : Z) (f : nat -> nat -> F)
    (body : Z -> Z -> M unit) :
  heap s !! l = Some D -> shape (data D) (Z.to_nat c) (Z.to_nat r) ->
  (forall (i j : nat) d', (i < Z.to_nat r)%nat -> (j < Z.to_nat c)%nat ->
     shape d' (Z.to_nat c) (Z.to_nat r) ->
     data_get d' j i = data_get (data D) j i ->
     body (Z.of_nat i) (Z.of_nat j) (with_data s l D d') =
     Some (tt, with_data s l D (data_set d' j i (f j i)))) ->
  for_range 0 r (fun i => for_range 0 c (fun j => body i j)) s =
  Some (tt, with_data s l D (tabulate (Z.to_nat c) (Z.to_nat r) f)).
Proof.
  intros Hl Hs Hbody. unfold for_range. rewrite !Z.sub_0_r.
  apply (fill_loop
           (fun i j a b => (b <? i)%nat || ((b =? i)%nat && (a <? j)%nat))
           (fun _ j => j) (fun i _ => i)); try done; bool_lia.
Qed.


(** ** Entries *)

Lemma data_get_mat_at (m : Matrix) r c (i j : nat) :
  shape (data m) r c -> (i < r)%nat -> (j < c)%nat ->
  data_get (data m) i j = Some (mat_at m i j).
Proof.
  intros Hs Hi Hj. unfold mat_at.
  destruct (shape_data_get _ _ _ i j Hs Hi Hj) as [x ->]. reflexivity.
Qed.

Lemma mat_at_tab r c (f : nat -> nat -> F) (i j : nat) :
  (i < Z.to_nat r)%nat -> (j < Z.to_nat c)%nat -> mat_at (mat_tab r c f) i j = f i j.
Proof.
  intros Hi Hj. unfold mat_at, mat_tab. simpl.
  rewrite data_get_tabulate by done. reflexivity.
Qed.

Lemma tabulate_ext r c (f g : nat -> nat -> F) :
  (forall i j : nat, (i < r)%nat -> (j < c)%nat -> f i j = g i j) ->
  tabulate r c f = tabulate r c g.
Proof.
  intros Hfg. apply (data_eq _ _ r c); try apply shape_tabulate.
  intros i j Hi Hj. rewrite !data_get_tabulate by done. f_equal. by apply Hfg.
Qed.

Lemma tabulate_mat_at (m : Matrix) r c :
  shape (data m) r c -> tabulate r c (mat_at m) = data m.
Proof.
  intros Hs. apply (data_eq _ _ r c); [apply shape_tabulate | done |].
  intros i j Hi Hj. rewrite data_get_tabulate by done. symmetry.
  by apply (data_get_mat_at m r c).
Qed.

Lemma tabulate_const r c (x : F) :
  tabulate r c (fun _ _ => x) = replicate r (replicate c x).
Proof.
  unfold tabulate.
  assert (Hrow : forall (A : Type) (y : A) (n k : nat),
             map (fun _ => y) (seq k n) = replicate n y).
  { intros A y n. induction n as [|n IH]; intros k; simpl; [done|].
    by rewrite IH. }
  rewrite (Hrow _ x c 0%nat). apply Hrow.
Qed.

Lemma mat_wf_tab r c (f : nat -> nat -> F) :
  create_ok r c = true -> mat_wf (mat_tab r c f).
Proof. intros Hok. split; [exact Hok | apply shape_tabulate]. Qed.

(** ** Memory *)

Lemma mem_wf_alloc (s : mem) m : mem_wf s -> mat_wf m -> mem_wf (alloc_st s m).
Proof.
  intros Hs Hm l m'. unfold alloc_st. simpl. intros Hl.
  destruct (decide (l = next s)) as [->|Hne].
  - rewrite lookup_insert_eq in Hl. injection Hl as <-. split; [lia | done].
  - rewrite lookup_insert_ne in Hl by done.
    destruct (Hs l m' Hl). split; [lia | done].
Qed.

Lemma mem_wf_upd (s : mem) l m :
  mem_wf s -> (l < next s)%nat -> mat_wf m -> mem_wf (upd s l m).
Proof.
  intros Hs Hlt Hm l' m'. unfold upd, set_heap. simpl. intros Hl.
  destruct (decide (l' = l)) as [->|Hne].
  - rewrite lookup_insert_eq in Hl. injection Hl as <-. done.
  - rewrite lookup_insert_ne in Hl by done. by apply Hs.
Qed.

Lemma mem_wf_freed (s : mem) l : mem_wf s -> mem_wf (freed s l).
Proof.
  intros Hs l' m'. unfold freed, set_heap. simpl. intros Hl.
  apply lookup_delete_Some in Hl as [_ Hl]. by apply Hs.
Qed.

Lemma mem_wf_fresh (s : mem) : mem_wf s -> heap s !! next s = None.
Proof.
  intros Hs. destruct (heap s !! next s) as [m|] eqn:Hl; [|done].
  destruct (Hs _ _ Hl). lia.
Qed.

Lemma elem_get_with_data_ne (s : mem) l D d' la A (i j : nat) x :
  la <> l -> heap s !! la = Some A -> data_get (data A) i j = Some x ->
  elem_get la (Z.of_nat i) (Z.of_nat j) (with_data s l D d') =
  Some (x, with_data s l D d').
Proof.
  intros Hne Hla Hx. apply (elem_get_eq _ _ A); [|done].
  rewrite heap_with_data, lookup_insert_ne by done. exact Hla.
Qed.

Lemma elem_get_with_data_eq (s : mem) l D d' (i j : nat) x :
  data_get d' i j = Some x ->
  elem_get l (Z.of_nat i) (Z.of_nat j) (with_data s l D d') =
  Some (x, with_data s l D d').
Proof.
  intros Hx. apply (elem_get_eq _ _ (mkMatrix (rows D) (cols D) d')); [|done].
  rewrite heap_with_data, lookup_insert_eq. reflexivity.
Qed.

Lemma elem_set_with_data (s : mem) l D d' (i j : nat) v :
  is_Some (data_get d' i j) ->
  elem_set l (Z.of_nat i) (Z.of_nat j) v (with_data s l D d') =
  Some (tt, with_data s l D (data_set d' i j v)).
Proof.
  intros Hx.
  rewrite (elem_set_eq _ _ (mkMatrix (rows D) (cols D) d')); try done.
  - rewrite with_data_twice by done. reflexivity.
  - rewrite heap_with_data, lookup_insert_eq. reflexivity.
Qed.

(** ** The operations of matrix.c *)

Lemma alloc_rows_ok n c :
  n = 0%nat \/ calloc_ok (size_of_int c) sizeof_double = true ->
  alloc_rows n c = Some (tabulate n (Z.to_nat c) (fun _ _ => fzero)).
Proof.
  rewrite tabulate_const. intros Hok. induction n as [|n IH]; [reflexivity|].
  destruct Hok as [?|Hok]; [done|]. simpl. rewrite Hok, IH by by right.
  reflexivity.
Qed.

Lemma alloc_rows_fail n c :
  n <> 0%nat -> calloc_ok (size_of_int c) sizeof_double = false ->
  alloc_rows n c = None.
Proof. intros Hn Hc. destruct n; [done|]. simpl. by rewrite Hc. Qed.

Lemma matrix_create_eq (s : mem) r c :
  create_ok r c = true ->
  matrix_create r c s = Some (Ptr (next s), alloc_st s (mat_zero r c)).
Proof.
  unfold create_ok. rewrite !andb_true_iff, orb_true_iff.
  intros [[H1 H2] H3]. unfold matrix_create. rewrite H1, H2. simpl.
  rewrite alloc_rows_ok; [reflexivity|].
  destruct H3 as [H3|H3]; [left|by right].
  apply Z.leb_le in H3. lia.
Qed.

Lemma matrix_create_fail (s : mem) r c :
  create_ok r c = false -> matrix_create r c s = Some (NULL, s).
Proof.
  unfold create_ok, matrix_create. intros Hok.
  destruct (malloc_ok sizeof_Matrix); [|reflexivity].
  destruct (malloc_ok (size_mul (size_of_int r) sizeof_ptr)); [|reflexivity].
  simpl in *. apply orb_false_iff in Hok as [Hr Hc].
  rewrite alloc_rows_fail; [reflexivity | | done].
  apply Z.leb_gt in Hr. lia.
Qed.

Lemma matrix_free_eq (s : mem) l m :
  heap s !! l = Some m -> matrix_free (Ptr l) s = Some (tt, freed s l).
Proof. intros Hl. simpl. unfold mem_free. rewrite Hl. reflexivity. Qed.

(** The loops that overwrite every entry of the matrix at [l] with a value
    computed from the entry itself. *)
Lemma map_loop (s : mem) l D (g : F -> F) :
  heap s !! l = Some D -> mat_wf D ->
  for_range 0 (rows D) (fun i =>
    for_range 0 (cols D) (fun j =>
      x <- elem_get l i j ;; elem_set l i j (g x))) s =
  Some (tt, upd s l (mat_map g D)).
Proof.
  intros Hl [_ Hs].
  apply (fill_rows s l D _ _ (fun i j => g (mat_at D i j))); try done.
  intros i j d' Hi Hj Hs' Hd'.
  rewrite (data_get_mat_at D _ _ i j Hs Hi Hj) in Hd'.
  erewrite bind_eq by by apply elem_get_with_data_eq.
  apply elem_set_with_data. by rewrite Hd'.
Qed.

Lemma apply_fn_eq (s : mem) l D (g : F -> F) :
  heap s !! l = Some D -> mat_wf D ->
  apply_fn g (Ptr l) s = Some (tt, upd s l (mat_map g D)).
Proof.
  intros Hl Hwf. unfold apply_fn.
  erewrite bind_eq by by apply get_rows_eq.
  erewrite bind_eq by by apply get_cols_eq.
  by apply map_loop.
Qed.

Lemma matrix_scale_eq (s : mem) l D k :
  heap s !! l = Some D -> mat_wf D ->
  matrix_scale (Ptr l) k s = Some (tt, upd s l (mat_map (fun x => fmul x k) D)).
Proof.
  intros Hl Hwf. unfold matrix_scale.
  erewrite bind_eq by by apply get_rows_eq.
  erewrite bind_eq by by apply get_cols_eq.
  by apply (map_loop s l D (fun x => fmul x k)).
Qed.

Lemma matrix_zero_eq (s : mem) l D :
  heap s !! l = Some D -> mat_wf D ->
  matrix_zero (Ptr l) s = Some (tt, upd s l (mat_zero (rows D) (cols D))).
Proof.
  intros Hl [_ Hs]. unfold matrix_zero.
  erewrite bind_eq by by apply get_rows_eq.
  erewrite bind_eq by by apply get_cols_eq.
  apply (fill_rows s l D _ _ (fun _ _ => fzero)); try done.
  intros i j d' Hi Hj Hs' Hd'. apply elem_set_with_data.
  rewrite Hd'. by apply (shape_data_get _ _ _ i j Hs).
Qed.


Lemma upd_alloc (s : mem) m m' : upd (alloc_st s m) (next s) m' = alloc_st s m'.
Proof.
  unfold upd, alloc_st, set_heap. simpl. rewrite insert_insert_eq. reflexivity.
Qed.

Lemma upd_same (s : mem) l m : heap s !! l = Some m -> upd s l m = s.
Proof. apply set_heap_id. Qed.

Lemma heap_alloc_old (s : mem) m l :
  mem_wf s -> is_Some (heap s !! l) -> heap (alloc_st s m) !! l = heap s !! l.
Proof.
  intros Hwf [m' Hl]. unfold alloc_st. simpl. rewrite lookup_insert_ne; [done|].
  destruct (Hwf _ _ Hl). lia.
Qed.

Lemma heap_alloc_new (s : mem) m : heap (alloc_st s m) !! next s = Some m.
Proof. unfold alloc_st. simpl. apply lookup_insert_eq. Qed.

Lemma matrix_copy_eq (s : mem) d sl D S :
  d <> sl -> heap s !! d = Some D -> heap s !! sl = Some S ->
  mat_wf S -> mat_wf D -> rows D = rows S -> cols D = cols S ->
  matrix_copy (Ptr d) (Ptr sl) s = Some (tt, upd s d S).
Proof.
  intros Hne Hd Hs [_ HS] [_ HD] Hr Hc. unfold matrix_copy.
  erewrite bind_eq by by apply get_rows_eq.
  erewrite bind_eq by by apply get_rows_eq.
  erewrite bind_eq by by apply get_cols_eq.
  erewrite bind_eq by by apply get_cols_eq.
  rewrite Hr, Hc, !Z.eqb_refl. simpl.
  rewrite (fill_rows s d D _ _ (mat_at S)).
  - unfold with_data, upd. rewrite (tabulate_mat_at S) by done.
    rewrite Hr, Hc. by destruct S.
  - done.
  - by rewrite <- Hr, <- Hc.
  - intros i j d' Hi Hj Hs' Hd'.
    erewrite bind_eq.
    2:{ eapply elem_get_with_data_ne; [done | exact Hs |].
        by apply (data_get_mat_at S _ _ i j HS). }
    apply elem_set_with_data. rewrite Hd'.
    apply (shape_data_get _ (Z.to_nat (rows D)) (Z.to_nat (cols D))); [done | lia | lia].
Qed.

Lemma matrix_copy_skip (s : mem) d sl D S :
  heap s !! d = Some D -> heap s !! sl = Some S ->
  rows D <> rows S \/ cols D <> cols S ->
  matrix_copy (Ptr d) (Ptr sl) s = Some (tt, s).
Proof.
  intros Hd Hs Hne. unfold matrix_copy.
  erewrite bind_eq by by apply get_rows_eq.
  erewrite bind_eq by by apply get_rows_eq.
  erewrite bind_eq by by apply get_cols_eq.
  erewrite bind_eq by by apply get_cols_eq.
  destruct (Z.eqb_spec (rows D) (rows S)); [|reflexivity].
  destruct (Z.eqb_spec (cols D) (cols S)); [|reflexivity].
  lia.
Qed.

(** The loop nest shared by [matrix_add] and [matrix_subtract]. *)
Lemma map2_loop (s : mem) la lb lr A B R (op : F -> F -> F) :
  la <> lr -> lb <> lr ->
  heap s !! la = Some A -> heap s !! lb = Some B -> heap s !! lr = Some R ->
  shape (data A) (Z.to_nat (rows A)) (Z.to_nat (cols A)) ->
  shape (data B) (Z.to_nat (rows A)) (Z.to_nat (cols A)) ->
  shape (data R) (Z.to_nat (rows A)) (Z.to_nat (cols A)) ->
  for_range 0 (rows A) (fun i =>
    for_range 0 (cols A) (fun j =>
      x <- elem_get la i j ;;
      y <- elem_get lb i j ;;
      elem_set lr i j (op x y))) s =
  Some (tt, with_data s lr R
              (tabulate (Z.to_nat (rows A)) (Z.to_nat (cols A))
                        (fun i j => op (mat_at A i j) (mat_at B i j)))).
Proof.
  intros Ha Hb HA HB HR SA SB SR.
  apply (fill_rows s lr R _ _ (fun i j => op (mat_at A i j) (mat_at B i j)));
    try done.
  intros i j d' Hi Hj Hs' Hd'.
  erewrite bind_eq.
  2:{ eapply elem_get_with_data_ne; [done | exact HA |].
      by apply (data_get_mat_at A _ _ i j SA). }
  erewrite bind_eq.
  2:{ eapply elem_get_with_data_ne; [done | exact HB |].
      by apply (data_get_mat_at B _ _ i j SB). }
  apply elem_set_with_data. rewrite Hd'.
  by apply (shape_data_get _ _ _ i j SR).
Qed.

Lemma matrix_add_eq (s : mem) la lb A B :
  mem_wf s -> heap s !! la = Some A -> heap s !! lb = Some B ->
  rows A = rows B -> cols A = cols B ->
  matrix_add (Ptr la) (Ptr lb) s =
  Some (Ptr (next s), alloc_st s (mat_map2 fadd A B)).
Proof.
  intros Hwf HA HB Hr Hc.
  destruct (Hwf _ _ HA) as [Hla [HokA SA]].
  destruct (Hwf _ _ HB) as [Hlb [_ SB]].
  unfold matrix_add.
  erewrite bind_eq by by apply get_rows_eq.
  erewrite bind_eq by by apply get_cols_eq.
  erewrite bind_eq by by apply get_rows_eq.
  erewrite bind_eq by by apply get_cols_eq.
  rewrite <- Hr, <- Hc, !Z.eqb_refl. simpl.
  erewrite bind_eq by by apply matrix_create_eq.
  cbv beta iota. erewrite bind_eq.
  2:{ apply (map2_loop _ la lb (next s) A B (mat_zero (rows A) (cols A)) fadd);
        try lia; try done.
      - rewrite heap_alloc_old; eauto.
      - rewrite heap_alloc_old; eauto.
      - apply heap_alloc_new.
      - by rewrite Hr, Hc.
      - apply shape_tabulate. }
  unfold ret. do 2 f_equal. apply upd_alloc.
Qed.

Lemma matrix_subtract_eq (s : mem) la lb A B :
  mem_wf s -> heap s !! la = Some A -> heap s !! lb = Some B ->
  rows A = rows B -> cols A = cols B ->
  matrix_subtract (Ptr la) (Ptr lb) s =
  Some (Ptr (next s), alloc_st s (mat_map2 fsub A B)).
Proof.
  intros Hwf HA HB Hr Hc.
  destruct (Hwf _ _ HA) as [Hla [HokA SA]].
  destruct (Hwf _ _ HB) as [Hlb [_ SB]].
  unfold matrix_subtract.
  erewrite bind_eq by by apply get_rows_eq.
  erewrite bind_eq by by apply get_cols_eq.
  erewrite bind_eq by by apply get_rows_eq.
  erewrite bind_eq by by apply get_cols_eq.
  rewrite <- Hr, <- Hc, !Z.eqb_refl. simpl.
  erewrite bind_eq by by apply matrix_create_eq.
  cbv beta iota. erewrite bind_eq.
  2:{ apply (map2_loop _ la lb (next s) A B (mat_zero (rows A) (cols A)) fsub);
        try lia; try done.
      - rewrite heap_alloc_old; eauto.
      - rewrite heap_alloc_old; eauto.
      - apply heap_alloc_new.
      - by rewrite Hr, Hc.
      - apply shape_tabulate. }
  unfold ret. do 2 f_equal. apply upd_alloc.
Qed.

(** With operands of different shapes both return [NULL] and touch nothing. *)
Lemma matrix_add_mismatch (s : mem) la lb A B :
  heap s !! la = Some A -> heap s !! lb = Some B ->
  rows A <> rows B \/ cols A <> cols B ->
  matrix_add (Ptr la) (Ptr lb) s = Some (NULL, s).
Proof.
  intros HA HB Hne. unfold matrix_add.
  erewrite bind_eq by by apply get_rows_eq.
  erewrite bind_eq by by apply get_cols_eq.
  erewrite bind_eq by by apply get_rows_eq.
  erewrite bind_eq by by apply get_cols_eq.
  destruct (Z.eqb_spec (rows A) (rows B)); [|reflexivity].
  destruct (Z.eqb_spec (cols A) (cols B)); [|reflexivity].
  lia.
Qed.

Lemma matrix_subtract_mismatch (s : mem) la lb A B :
  heap s !! la = Some A -> heap s !! lb = Some B ->
  rows A <> rows B \/ cols A <> cols B ->
  matrix_subtract (Ptr la) (Ptr lb) s = Some (NULL, s).
Proof.
  intros HA HB Hne. unfold matrix_subtract.
  erewrite bind_eq by by apply get_rows_eq.
  erewrite bind_eq by by apply get_cols_eq.
  erewrite bind_eq by by apply get_rows_eq.
  erewrite bind_eq by by apply get_cols_eq.
  destruct (Z.eqb_spec (rows A) (rows B)); [|reflexivity].
  destruct (Z.eqb_spec (cols A) (cols B)); [|reflexivity].
  lia.
Qed.


Lemma dot_S (A B : Matrix) (k i j : nat) :
  dot A B (S k) i j = fadd (dot A B k i j) (fmul (mat_at A i k) (mat_at B k j)).
Proof. unfold dot. rewrite seq_S, fold_left_app. reflexivity. Qed.

(** The innermost loop of [matrix_multiply]. *)
Lemma dot_loop (st : mem) la lb A B (n i j : nat) :
  heap st !! la = Some A -> heap st !! lb = Some B ->
  (forall k : nat, (k < n)%nat ->
     is_Some (data_get (data A) i k) /\ is_Some (data_get (data B) k j)) ->
  for_fold n 0 (fun k sum =>
      x <- elem_get la (Z.of_nat i) k ;;
      y <- elem_get lb k (Z.of_nat j) ;;
      ret (fadd sum (fmul x y))) fzero st =
  Some (dot A B n i j, st).
Proof.
  intros HA HB Hin.
  apply (for_fold_eq (fun _ => st) (fun k => dot A B k i j)).
  intros k Hk. rewrite Z.add_0_l.
  destruct (Hin k Hk) as [[x Hx] [y Hy]].
  erewrite bind_eq by (eapply elem_get_eq; eauto).
  erewrite bind_eq by (eapply elem_get_eq; eauto).
  rewrite dot_S. unfold mat_at. rewrite Hx, Hy. reflexivity.
Qed.

Lemma matrix_multiply_eq (s : mem) la lb A B :
  mem_wf s -> heap s !! la = Some A -> heap s !! lb = Some B ->
  cols A = rows B -> create_ok (rows A) (cols B) = true ->
  matrix_multiply (Ptr la) (Ptr lb) s =
  Some (Ptr (next s), alloc_st s (mat_mul A B)).
Proof.
  intros Hwf HA HB Hin Hok.
  destruct (Hwf _ _ HA) as [Hla [_ SA]].
  destruct (Hwf _ _ HB) as [Hlb [_ SB]].
  unfold matrix_multiply.
  erewrite bind_eq by by apply get_rows_eq.
  erewrite bind_eq by by apply get_cols_eq.
  erewrite bind_eq by by apply get_rows_eq.
  erewrite bind_eq by by apply get_cols_eq.
  rewrite Hin, Z.eqb_refl. simpl.
  erewrite bind_eq by by apply matrix_create_eq.
  cbv beta iota. erewrite bind_eq.
  2:{ apply (fill_rows _ (next s) (mat_zero (rows A) (cols B)) _ _
               (fun i j => dot A B (Z.to_nat (rows B)) i j)).
      - apply heap_alloc_new.
      - apply shape_tabulate.
      - intros i j d' Hi Hj Hs' Hd'.
        erewrite bind_eq.
        2:{ apply (dot_loop _ la lb A B).
            - rewrite heap_with_data, lookup_insert_ne by lia.
              rewrite heap_alloc_old; eauto.
            - rewrite heap_with_data, lookup_insert_ne by lia.
              rewrite heap_alloc_old; eauto.
            - intros k Hk. split.
              + apply (shape_data_get _ _ _ i k SA); lia.
              + by apply (shape_data_get _ _ _ k j SB). }
        apply elem_set_with_data. rewrite Hd'. simpl.
        rewrite data_get_tabulate by done. eauto. }
  unfold ret. do 2 f_equal. unfold with_data. simpl.
  rewrite <- Hin. apply upd_alloc.
Qed.

Lemma matrix_multiply_mismatch (s : mem) la lb A B :
  heap s !! la = Some A -> heap s !! lb = Some B -> cols A <> rows B ->
  matrix_multiply (Ptr la) (Ptr lb) s = Some (NULL, s).
Proof.
  intros HA HB Hne. unfold matrix_multiply.
  erewrite bind_eq by by apply get_rows_eq.
  erewrite bind_eq by by apply get_cols_eq.
  erewrite bind_eq by by apply get_rows_eq.
  erewrite bind_eq by by apply get_cols_eq.
  destruct (Z.eqb_spec (cols A) (rows B)); [lia | reflexivity].
Qed.

Lemma matrix_transpose_eq (s : mem) l A :
  mem_wf s -> heap s !! l = Some A -> create_ok (cols A) (rows A) = true ->
  matrix_transpose (Ptr l) s =
  Some (Ptr (next s), alloc_st s (mat_transpose A)).
Proof.
  intros Hwf HA Hok. destruct (Hwf _ _ HA) as [Hla [_ SA]].
  unfold matrix_transpose.
  erewrite bind_eq by by apply get_rows_eq.
  erewrite bind_eq by by apply get_cols_eq.
  erewrite bind_eq by by apply matrix_create_eq.
  cbv beta iota. erewrite bind_eq.
  2:{ apply (fill_cols _ (next s) (mat_zero (cols A) (rows A)) _ _
               (fun j i => mat_at A i j)).
      - apply heap_alloc_new.
      - apply shape_tabulate.
      - intros i j d' Hi Hj Hs' Hd'.
        erewrite bind_eq.
        2:{ eapply elem_get_with_data_ne.
            - lia.
            - rewrite heap_alloc_old; eauto.
            - by apply (data_get_mat_at A _ _ i j SA). }
        apply elem_set_with_data. rewrite Hd'. simpl.
        rewrite data_get_tabulate by done. eauto. }
  unfold ret. do 2 f_equal. apply upd_alloc.
Qed.


(** ** Claims on the matrix module *)

Lemma create_ok_spec r c :
  int_range r -> int_range c ->
  create_ok r c =
  if r <? 0 then false
  else if r =? 0 then malloc_zero
  else if c <? 0 then false
  else if c =? 0 then malloc_zero
  else true.
Proof.
  unfold int_range, INT_MIN, INT_MAX. intros Hr Hc.
  unfold create_ok, calloc_ok, malloc_ok, size_mul, size_of_int,
    sizeof_Matrix, sizeof_ptr, sizeof_double, SIZE_MAX, PTRDIFF_MAX.
  change (16 =? 0) with false. change (16 <=? 2 ^ 63 - 1) with true.
  cbv beta iota. rewrite andb_true_l.
  destruct (Z.ltb_spec r 0) as [Hr0|Hr0].
  - replace (r mod 2 ^ 64) with (r + 2 ^ 64) by
      (apply Z.mod_unique with (-1); lia).
    replace (((r + 2 ^ 64) * 8) mod 2 ^ 64) with (8 * r + 2 ^ 64) by
      (apply Z.mod_unique with 7; lia).
    destruct (Z.eqb_spec (8 * r + 2 ^ 64) 0); [lia|].
    destruct (Z.leb_spec (8 * r + 2 ^ 64) (2 ^ 63 - 1)); [lia|]. reflexivity.
  - rewrite (Z.mod_small r) by lia. rewrite (Z.mod_small (r * 8)) by lia.
    destruct (Z.eqb_spec r 0) as [->|Hrne].
    + simpl. by rewrite andb_true_r.
    + destruct (Z.eqb_spec (r * 8) 0); [lia|].
      destruct (Z.leb_spec (r * 8) (2 ^ 63 - 1)); [|lia].
      destruct (Z.leb_spec r 0); [lia|]. simpl.
      destruct (Z.ltb_spec c 0) as [Hc0|Hc0].
      * replace (c mod 2 ^ 64) with (c + 2 ^ 64) by
          (apply Z.mod_unique with (-1); lia).
        destruct (Z.gtb_spec ((c + 2 ^ 64) * 8) (2 ^ 64 - 1)); [done | lia].
      * rewrite (Z.mod_small c) by lia.
        destruct (Z.gtb_spec (c * 8) (2 ^ 64 - 1)); [lia|].
        destruct (Z.eqb_spec c 0) as [->|Hcne]; [reflexivity|].
        destruct (Z.eqb_spec (c * 8) 0); [lia|].
        destruct (Z.leb_spec (c * 8) (2 ^ 63 - 1)); [done | lia].
Qed.

Lemma create_ok_pos r c :
  int_range r -> int_range c -> 0 < r -> 0 < c -> create_ok r c = true.
Proof.
  intros Hr Hc Hr0 Hc0. rewrite create_ok_spec by done.
  destruct (Z.ltb_spec r 0); [lia|]. destruct (Z.eqb_spec r 0); [lia|].
  destruct (Z.ltb_spec c 0); [lia|]. destruct (Z.eqb_spec c 0); [lia|].
  reflexivity.
Qed.

(** C6, as amended.  [matrix_create] has no check of its own on the
    dimensions: it fails when an allocation fails.  With positive [rows] and
    [cols] it returns a new matrix of that shape, every entry [0.0].  It
    returns [NULL] when [rows] is negative, and when [rows] is positive and
    [cols] negative, the size requested being out of range.  When [rows] is
    zero, or [rows] is positive and [cols] zero, it asks for zero bytes and
    returns [NULL] exactly when the allocator does so for such a request. *)
Theorem matrix_create_dimensions (s : mem) (rows cols : Z) :
  int_range rows -> int_range cols ->
  (0 < rows -> 0 < cols ->
     matrix_create rows cols s =
     Some (Ptr (next s),
           alloc_st s (mkMatrix rows cols
             (replicate (Z.to_nat rows) (replicate (Z.to_nat cols) fzero))))) /\
  (rows < 0 \/ (0 < rows /\ cols < 0) ->
     matrix_create rows cols s = Some (NULL, s)) /\
  (rows = 0 \/ (0 < rows /\ cols = 0) ->
     matrix_create rows cols s =
     if malloc_zero
     then Some (Ptr (next s),
                alloc_st s (mkMatrix rows cols (replicate (Z.to_nat rows) [])))
     else Some (NULL, s)).
Proof.
  intros Hr Hc. pose proof (create_ok_spec rows cols Hr Hc) as Hok.
  split; [|split].
  - intros Hr0 Hc0. rewrite matrix_create_eq by by apply create_ok_pos.
    unfold mat_zero, mat_tab. by rewrite tabulate_const.
  - intros Hneg. apply matrix_create_fail. rewrite Hok.
    destruct (Z.ltb_spec rows 0); [done|].
    destruct (Z.eqb_spec rows 0); [lia|].
    destruct (Z.ltb_spec cols 0); [done | lia].
  - intros Hzero.
    assert (Hok' : create_ok rows cols = malloc_zero).
    { rewrite Hok. destruct (Z.ltb_spec rows 0); [lia|].
      destruct (Z.eqb_spec rows 0); [done|].
      destruct (Z.ltb_spec cols 0); [lia|].
      destruct (Z.eqb_spec cols 0); [done | lia]. }
    destruct malloc_zero.
    + rewrite matrix_create_eq by done.
      unfold mat_zero, mat_tab. rewrite tabulate_const.
      destruct Hzero as [->|[_ ->]]; reflexivity.
    + by apply matrix_create_fail.
Qed.

(** C8.  On a matrix in memory, an index pair outside
    [[0, rows) x [0, cols)] makes [matrix_get] return [0.0] and [matrix_set]
    leave the memory as it was; within the bounds [matrix_get] returns the
    stored entry and [matrix_set] stores the value there, so that it is read
    back, and leaves every other entry as it was.  On [NULL] they do the
    same as out of bounds. *)
Theorem matrix_get_set_bounds (s : mem) (l : nat) (D : Matrix) (row col : Z) (v : F) :
  heap s !! l = Some D -> mat_wf D ->
  (~ (0 <= row < rows D /\ 0 <= col < cols D) ->
     matrix_get (Ptr l) row col s = Some (fzero, s) /\
     matrix_set (Ptr l) row col v s = Some (tt, s)) /\
  (0 <= row < rows D /\ 0 <= col < cols D ->
     let i := Z.to_nat row in
     let j := Z.to_nat col in
     let s' := upd s l (mat_set D i j v) in
     matrix_get (Ptr l) row col s = Some (mat_at D i j, s) /\
     data_get (data D) i j = Some (mat_at D i j) /\
     matrix_set (Ptr l) row col v s = Some (tt, s') /\
     matrix_get (Ptr l) row col s' = Some (v, s') /\
     (forall i' j' : nat, (i', j') <> (i, j) ->
        data_get (data (mat_set D i j v)) i' j' = data_get (data D) i' j')) /\
  matrix_get NULL row col s = Some (fzero, s) /\
  matrix_set NULL row col v s = Some (tt, s).
Proof.
  intros Hl [Hok Hs]. split; [|split; [|done]].
  - intros Hout.
    assert (Hb : (row <? 0) || (row >=? rows D) || (col <? 0) || (col >=? cols D) = true).
    { rewrite !Z.geb_leb, !orb_true_iff, !Z.ltb_lt, !Z.leb_le. lia. }
    split; [unfold matrix_get | unfold matrix_set];
      (erewrite bind_eq by by apply get_rows_eq);
      (erewrite bind_eq by by apply get_cols_eq);
      rewrite Hb; reflexivity.
  - intros Hin i j s'.
    assert (Hb : (row <? 0) || (row >=? rows D) || (col <? 0) || (col >=? cols D) = false).
    { rewrite !Z.geb_leb, !orb_false_iff, !Z.ltb_ge, !Z.leb_gt. lia. }
    assert (Hx : data_get (data D) i j = Some (mat_at D i j)).
    { apply (data_get_mat_at D _ _ i j Hs); unfold i, j; lia. }
    assert (Hl' : heap s' !! l = Some (mat_set D i j v)).
    { unfold s', upd, set_heap. simpl. apply lookup_insert_eq. }
    assert (Hx' : data_get (data (mat_set D i j v)) i j = Some v).
    { simpl. rewrite data_get_set, decide_True by done. by rewrite Hx. }
    split; [|split; [done|split; [|split]]].
    + unfold matrix_get.
      erewrite bind_eq by by apply get_rows_eq.
      erewrite bind_eq by by apply get_cols_eq.
      rewrite Hb. rewrite <- (Z2Nat.id row), <- (Z2Nat.id col) by lia.
      by apply (elem_get_eq _ _ D).
    + unfold matrix_set.
      erewrite bind_eq by by apply get_rows_eq.
      erewrite bind_eq by by apply get_cols_eq.
      rewrite Hb. rewrite <- (Z2Nat.id row), <- (Z2Nat.id col) by lia.
      rewrite (elem_set_eq _ _ D); eauto.
    + unfold matrix_get.
      erewrite bind_eq by by apply get_rows_eq.
      erewrite bind_eq by by apply get_cols_eq.
      simpl. rewrite Hb. rewrite <- (Z2Nat.id row), <- (Z2Nat.id col) by lia.
      by apply (elem_get_eq _ _ (mat_set D i j v)).
    + intros i' j' Hne. simpl. rewrite data_get_set.
      rewrite decide_False; [done|]. intros [-> ->]. done.
Qed.


Lemma fresh_alloc (s : mem) R :
  mem_wf s -> fresh_result s (alloc_st s R) (Ptr (next s)) R.
Proof.
  intros Hwf. exists (next s). split; [done|]. split; [|done].
  by apply mem_wf_fresh.
Qed.

Lemma fresh_preserved (s s' : mem) r R :
  fresh_result s s' r R -> preserved s s'.
Proof.
  intros (l & _ & Hnone & Hs') k m Hk. rewrite Hs'.
  rewrite lookup_insert_ne; [done|]. intros ->. congruence.
Qed.

(** C10.  On two matrices in memory, the same object or not,
    [matrix_multiply], [matrix_add], [matrix_subtract] and
    [matrix_transpose] return, when the shapes are compatible, a pointer to
    a new object that holds the result; the memory after the call is the
    memory before with that one object added, so that the operands, and
    every other object, are as they were.  (For [matrix_multiply] and
    [matrix_transpose] the shape of the result may be one [matrix_create]
    refuses, a negative column count on an operand without rows; then, as
    with incompatible shapes, they return [NULL] and the memory is as it
    was.) *)
Theorem matrix_ops_leave_operands (s : mem) (la lb : nat) (A B : Matrix) :
  mem_wf s -> heap s !! la = Some A -> heap s !! lb = Some B ->
  (cols A = rows B -> create_ok (rows A) (cols B) = true ->
     exists r s', matrix_multiply (Ptr la) (Ptr lb) s = Some (r, s') /\
       fresh_result s s' r (mat_mul A B) /\
       heap s' !! la = Some A /\ heap s' !! lb = Some B) /\
  (rows A = rows B -> cols A = cols B ->
     (exists r s', matrix_add (Ptr la) (Ptr lb) s = Some (r, s') /\
        fresh_result s s' r (mat_map2 fadd A B) /\
        heap s' !! la = Some A /\ heap s' !! lb = Some B) /\
     (exists r s', matrix_subtract (Ptr la) (Ptr lb) s = Some (r, s') /\
        fresh_result s s' r (mat_map2 fsub A B) /\
        heap s' !! la = Some A /\ heap s' !! lb = Some B)) /\
  (create_ok (cols A) (rows A) = true ->
     exists r s', matrix_transpose (Ptr la) s = Some (r, s') /\
       fresh_result s s' r (mat_transpose A) /\
       heap s' !! la = Some A) /\
  (forall r s',
     matrix_multiply (Ptr la) (Ptr lb) s = Some (r, s') \/
     matrix_add (Ptr la) (Ptr lb) s = Some (r, s') \/
     matrix_subtract (Ptr la) (Ptr lb) s = Some (r, s') \/
     matrix_transpose (Ptr la) s = Some (r, s') ->
     preserved s s').
Proof.
  intros Hwf HA HB.
  assert (Hfr : forall R, fresh_result s (alloc_st s R) (Ptr (next s)) R)
    by (intros R; by apply fresh_alloc).
  assert (Hpr : forall R, preserved s (alloc_st s R))
    by (intros R; eapply fresh_preserved; apply Hfr).
  assert (Hid : preserved s s) by (intros l m Hl; exact Hl).
  split; [|split; [|split]].
  - intros Hin Hok. eexists _, _. split; [by apply matrix_multiply_eq|].
    split; [apply Hfr|]. split; by apply Hpr.
  - intros Hr Hc. split.
    + eexists _, _. split; [by apply matrix_add_eq|].
      split; [apply Hfr|]. split; by apply Hpr.
    + eexists _, _. split; [by apply matrix_subtract_eq|].
      split; [apply Hfr|]. split; by apply Hpr.
  - intros Hok. eexists _, _. split; [by apply matrix_transpose_eq|].
    split; [apply Hfr|]. by apply Hpr.
  - intros r s' [Hrun|[Hrun|[Hrun|Hrun]]].
    + destruct (decide (cols A = rows B)) as [Hin|Hin].
      * destruct (create_ok (rows A) (cols B)) eqn:Hok.
        -- rewrite (matrix_multiply_eq _ _ _ A B) in Hrun by done.
           injection Hrun as <- <-. apply Hpr.
        -- unfold matrix_multiply in Hrun.
           erewrite bind_eq in Hrun by by apply get_rows_eq.
           erewrite bind_eq in Hrun by by apply get_cols_eq.
           erewrite bind_eq in Hrun by by apply get_rows_eq.
           erewrite bind_eq in Hrun by by apply get_cols_eq.
           rewrite Hin, Z.eqb_refl in Hrun. simpl in Hrun.
           erewrite bind_eq in Hrun by by apply matrix_create_fail.
           injection Hrun as <- <-. apply Hid.
      * rewrite (matrix_multiply_mismatch _ _ _ A B) in Hrun by done.
        injection Hrun as <- <-. apply Hid.
    + destruct (decide (rows A = rows B /\ cols A = cols B)) as [[Hr Hc]|Hne].
      * rewrite (matrix_add_eq _ _ _ A B) in Hrun by done. injection Hrun as <- <-. apply Hpr.
      * rewrite (matrix_add_mismatch _ _ _ A B) in Hrun by (done || lia).
        injection Hrun as <- <-. apply Hid.
    + destruct (decide (rows A = rows B /\ cols A = cols B)) as [[Hr Hc]|Hne].
      * rewrite (matrix_subtract_eq _ _ _ A B) in Hrun by done.
        injection Hrun as <- <-. apply Hpr.
      * rewrite (matrix_subtract_mismatch _ _ _ A B) in Hrun by (done || lia).
        injection Hrun as <- <-. apply Hid.
    + destruct (create_ok (cols A) (rows A)) eqn:Hok.
      * rewrite (matrix_transpose_eq _ _ A) in Hrun by done.
        injection Hrun as <- <-. apply Hpr.
      * unfold matrix_transpose in Hrun.
        erewrite bind_eq in Hrun by by apply get_rows_eq.
        erewrite bind_eq in Hrun by by apply get_cols_eq.
        erewrite bind_eq in Hrun by by apply matrix_create_fail.
        injection Hrun as <- <-. apply Hid.
Qed.

(** ** Memories built by allocation, update and release *)

Lemma next_upd (s : mem) l m : next (upd s l m) = next s.
Proof. reflexivity. Qed.

Lemma next_freed (s : mem) l : next (freed s l) = next s.
Proof. reflexivity. Qed.

Lemma next_frees (s : mem) ls : next (frees s ls) = next s.
Proof. reflexivity. Qed.

Lemma next_alloc_st (s : mem) m : next (alloc_st s m) = S (next s).
Proof. reflexivity. Qed.

Lemma next_allocs (s : mem) ms : next (allocs s ms) = (next s + length ms)%nat.
Proof.
  revert s. induction ms as [|m ms IH]; intros s; simpl; [lia|].
  rewrite IH. simpl. lia.
Qed.

Lemma heap_upd (s : mem) l m k :
  heap (upd s l m) !! k = if decide (l = k) then Some m else heap s !! k.
Proof. unfold upd, set_heap. simpl. apply lookup_insert. Qed.

Lemma heap_upd_eq (s : mem) l m : heap (upd s l m) !! l = Some m.
Proof. rewrite heap_upd, decide_True; done. Qed.

Lemma heap_upd_ne (s : mem) l m k :
  l <> k -> heap (upd s l m) !! k = heap s !! k.
Proof. intros Hne. rewrite heap_upd, decide_False; done. Qed.

Lemma heap_freed_ne (s : mem) l k :
  l <> k -> heap (freed s l) !! k = heap s !! k.
Proof. intros Hne. unfold freed, set_heap. simpl. by apply lookup_delete_ne. Qed.

Lemma heap_frees_ne (s : mem) ls k :
  k ∉ ls -> heap (frees s ls) !! k = heap s !! k.
Proof.
  unfold frees, set_heap. simpl. induction ls as [|l ls IH]; intros Hk; [done|].
  simpl. apply not_elem_of_cons in Hk as [Hne Hk].
  rewrite lookup_delete_ne by done. by apply IH.
Qed.

Lemma heap_allocs_old (s : mem) ms k :
  (k < next s)%nat -> heap (allocs s ms) !! k = heap s !! k.
Proof.
  revert s. induction ms as [|m ms IH]; intros s Hk; [done|].
  simpl. rewrite IH by (simpl; lia).
  unfold alloc_st. simpl. apply lookup_insert_ne. lia.
Qed.

Lemma heap_allocs_new (s : mem) ms (i : nat) m :
  ms !! i = Some m -> heap (allocs s ms) !! (next s + i)%nat = Some m.
Proof.
  revert s i. induction ms as [|m0 ms IH]; intros s i Hi; [done|].
  destruct i as [|i]; simpl in *.
  - injection Hi as ->. rewrite heap_allocs_old by (simpl; lia).
    rewrite Nat.add_0_r. apply heap_alloc_new.
  - replace (next s + S i)%nat with (next (alloc_st s m0) + i)%nat
      by (simpl; lia).
    by apply IH.
Qed.

Lemma mem_wf_allocs (s : mem) ms :
  mem_wf s -> Forall mat_wf ms -> mem_wf (allocs s ms).
Proof.
  revert s. induction ms as [|m ms IH]; intros s Hs Hms; [done|].
  apply Forall_cons in Hms as [Hm Hms]. simpl. apply IH; [|done].
  by apply mem_wf_alloc.
Qed.

Lemma mem_wf_frees (s : mem) ls : mem_wf s -> mem_wf (frees s ls).
Proof.
  intros Hs l m. unfold frees, set_heap. simpl.
  induction ls as [|l0 ls IH]; simpl; [apply Hs|].
  intros Hl. apply lookup_delete_Some in Hl as [_ Hl]. by apply IH.
Qed.

Lemma allocs_snoc (s : mem) ms m :
  allocs s (ms ++ [m]) = alloc_st (allocs s ms) m.
Proof. revert s. induction ms as [|m0 ms IH]; intros s; simpl; [done|]. apply IH. Qed.

Lemma frees_snoc (s : mem) ls l : frees s (l :: ls) = freed (frees s ls) l.
Proof. reflexivity. Qed.

Lemma upd_upd (s : mem) l m m' : upd (upd s l m) l m' = upd s l m'.
Proof. unfold upd, set_heap. simpl. by rewrite insert_insert_eq. Qed.

Lemma mat_wf_map (g : F -> F) (m : Matrix) : mat_wf m -> mat_wf (mat_map g m).
Proof. intros [Hok _]. by apply mat_wf_tab. Qed.

Lemma mat_wf_map2 (op : F -> F -> F) (a b : Matrix) :
  mat_wf a -> mat_wf (mat_map2 op a b).
Proof. intros [Hok _]. by apply mat_wf_tab. Qed.

Lemma mat_wf_mul (a b : Matrix) :
  create_ok (rows a) (cols b) = true -> mat_wf (mat_mul a b).
Proof. apply mat_wf_tab. Qed.

Lemma mat_wf_zero r c : create_ok r c = true -> mat_wf (mat_zero r c).
Proof. apply mat_wf_tab. Qed.

Lemma heap_alloc_lt (s : mem) m k :
  (k < next s)%nat -> heap (alloc_st s m) !! k = heap s !! k.
Proof. intros Hk. unfold alloc_st. simpl. apply lookup_insert_ne. lia. Qed.

Lemma heap_alloc_at (s : mem) m k :
  k = next s -> heap (alloc_st s m) !! k = Some m.
Proof. intros ->. apply heap_alloc_new. Qed.

Lemma mem_wf_lt (s : mem) l m : mem_wf s -> heap s !! l = Some m -> (l < next s)%nat.
Proof. intros Hs Hl. by destruct (Hs l m Hl). Qed.

Lemma mem_wf_mat (s : mem) l m : mem_wf s -> heap s !! l = Some m -> mat_wf m.
Proof. intros Hs Hl. by destruct (Hs l m Hl). Qed.

(** ** lstm.c: the forward step *)

Ltac nlia := cbn [next alloc_st upd set_heap freed frees allocs length]; lia.

Ltac heap_norm :=
  repeat first
    [ rewrite heap_upd_eq
    | rewrite heap_alloc_at by nlia
    | rewrite heap_upd_ne by nlia
    | rewrite heap_alloc_lt by nlia
    | rewrite heap_freed_ne by nlia ].

Ltac heap_look := heap_norm; first [eassumption | reflexivity].

Lemma rows_map2 (op : F -> F -> F) (a b : Matrix) : rows (mat_map2 op a b) = rows a.
Proof. reflexivity. Qed.

Lemma cols_map2 (op : F -> F -> F) (a b : Matrix) : cols (mat_map2 op a b) = cols a.
Proof. reflexivity. Qed.

Lemma rows_mul (a b : Matrix) : rows (mat_mul a b) = rows a.
Proof. reflexivity. Qed.

Lemma cols_mul (a b : Matrix) : cols (mat_mul a b) = cols b.
Proof. reflexivity. Qed.

Lemma rows_map (g : F -> F) (a : Matrix) : rows (mat_map g a) = rows a.
Proof. reflexivity. Qed.

Lemma cols_map (g : F -> F) (a : Matrix) : cols (mat_map g a) = cols a.
Proof. reflexivity. Qed.

(** The four steps that compute a gate's pre-activation and copy it to the
    gate. *)
Lemma gate_pre_eq (s : mem) lW lU lb lg lx lh (Wm Um bm Gm X Hm : Matrix) :
  mem_wf s ->
  heap s !! lW = Some Wm -> heap s !! lU = Some Um -> heap s !! lb = Some bm ->
  heap s !! lg = Some Gm -> heap s !! lx = Some X -> heap s !! lh = Some Hm ->
  cols Wm = rows X -> cols Um = rows Hm ->
  rows Um = rows Wm -> cols Hm = cols X ->
  dims bm = (rows Wm, cols X) -> dims Gm = (rows Wm, cols X) ->
  gate_pre (Ptr lW) (Ptr lU) (Ptr lb) (Ptr lg) (Ptr lx) (Ptr lh) s =
  Some ((Ptr (next s), Ptr (S (next s)), Ptr (S (S (next s))),
         Ptr (S (S (S (next s))))),
        upd (allocs s [mat_mul Wm X; mat_mul Um Hm;
                       mat_map2 fadd (mat_mul Wm X) (mat_mul Um Hm);
                       pre_gate Wm Um bm X Hm])
            lg (pre_gate Wm Um bm X Hm)).
Proof.
  intros Hwf HW HU Hb Hg Hx Hh HWX HUH HUW HHX Hdb Hdg.
  unfold dims in *. injection Hdb as Hbr Hbc. injection Hdg as Hgr Hgc.
  pose proof (mem_wf_lt _ _ _ Hwf HW). pose proof (mem_wf_lt _ _ _ Hwf HU).
  pose proof (mem_wf_lt _ _ _ Hwf Hb). pose proof (mem_wf_lt _ _ _ Hwf Hg).
  pose proof (mem_wf_lt _ _ _ Hwf Hx). pose proof (mem_wf_lt _ _ _ Hwf Hh).
  assert (Hok : create_ok (rows Wm) (cols X) = true).
  { destruct (mem_wf_mat _ _ _ Hwf Hg) as [Hok _]. by rewrite Hgr, Hgc in Hok. }
  set (T1 := mat_mul Wm X). set (T2 := mat_mul Um Hm).
  set (T3 := mat_map2 fadd T1 T2).
  assert (HT1 : mat_wf T1) by by apply mat_wf_mul.
  assert (HT2 : mat_wf T2) by (apply mat_wf_mul; by rewrite HUW, HHX).
  assert (HT3 : mat_wf T3) by by apply mat_wf_map2.
  assert (HT4 : mat_wf (pre_gate Wm Um bm X Hm)) by by apply mat_wf_map2.
  assert (Hwf1 : mem_wf (alloc_st s T1)) by by apply mem_wf_alloc.
  assert (Hwf2 : mem_wf (alloc_st (alloc_st s T1) T2)) by by apply mem_wf_alloc.
  assert (Hwf3 : mem_wf (alloc_st (alloc_st (alloc_st s T1) T2) T3))
    by by apply mem_wf_alloc.
  assert (Hwf4 : mem_wf (alloc_st (alloc_st (alloc_st (alloc_st s T1) T2) T3)
                                  (pre_gate Wm Um bm X Hm)))
    by by apply mem_wf_alloc.
  unfold gate_pre.
  erewrite bind_eq by by apply (matrix_multiply_eq _ _ _ Wm X).
  erewrite bind_eq.
  2:{ apply (matrix_multiply_eq _ _ _ Um Hm); try done; try heap_look.
      by rewrite HUW, HHX. }
  erewrite bind_eq.
  2:{ apply (matrix_add_eq _ _ _ T1 T2); first [done | heap_look]. }
  erewrite bind_eq.
  2:{ apply (matrix_add_eq _ _ _ T3 bm);
        first [done | heap_look | by (simpl; congruence)]. }
  erewrite bind_eq.
  2:{ apply (matrix_copy_eq _ _ _ Gm (pre_gate Wm Um bm X Hm));
        first [done | heap_look | nlia
              | by apply (mem_wf_mat _ _ _ Hwf Hg) | by (simpl; congruence)]. }
  reflexivity.
Qed.

(** *** Loops down a column vector *)

Lemma colfill_cur (f : nat -> nat -> F) d (n k : nat) :
  shape d n 1 ->
  data_get (fill (fun a _ => (a <? k)%nat) f d) k 0 = data_get d k 0.
Proof.
  intros Hs. rewrite data_get_fill, Nat.ltb_irrefl.
  by destruct (data_get d k 0).
Qed.

Lemma colfill_set (f : nat -> nat -> F) d (n k : nat) :
  shape d n 1 ->
  data_set (fill (fun a _ => (a <? k)%nat) f d) k 0 (f k 0%nat) =
  fill (fun a _ => (a <? S k)%nat) f d.
Proof.
  intros Hs. apply (fill_set _ _ _ _ n 1); [done|]. bool_lia.
Qed.

Lemma colfill_0 (f : nat -> nat -> F) d (n : nat) :
  shape d n 1 -> fill (fun a _ => (a <? 0)%nat) f d = d.
Proof. intros Hs. by apply (fill_none _ _ _ n 1). Qed.

Lemma colfill_all (f : nat -> nat -> F) d (n : nat) :
  shape d n 1 -> fill (fun a _ => (a <? n)%nat) f d = tabulate n 1 f.
Proof.
  intros Hs. apply (fill_all _ _ _ n 1); [done|].
  intros a b Ha Hb. by apply Nat.ltb_lt.
Qed.

Ltac upd_eq :=
  unfold upd, set_heap; simpl; f_equal; apply map_eq; intros ?;
  rewrite !lookup_insert; repeat case_decide; try congruence; try lia.

(** A loop whose body at [i] stores [f i 0] at entry [(i, 0)] of the column
    vector at [l] and changes nothing else. *)
Lemma fill_column (s : mem) l D (h : Z) (f : nat -> nat -> F)
    (body : Z -> M unit) :
  heap s !! l = Some D -> shape (data D) (Z.to_nat h) 1 ->
  (forall (i : nat) d', (i < Z.to_nat h)%nat -> shape d' (Z.to_nat h) 1 ->
     data_get d' i 0 = data_get (data D) i 0 ->
     body (Z.of_nat i) (with_data s l D d') =
     Some (tt, with_data s l D (data_set d' i 0 (f i 0%nat)))) ->
  for_range 0 h body s =
  Some (tt, with_data s l D (tabulate (Z.to_nat h) 1 f)).
Proof.
  intros Hl Hs Hbody. unfold for_range. rewrite Z.sub_0_r.
  pose (St := fun k : nat =>
          with_data s l D (fill (fun a _ => (a <? k)%nat) f (data D))).
  assert (HSt0 : St 0%nat = s).
  { unfold St. rewrite (colfill_0 _ _ _ Hs). by apply with_data_id. }
  assert (HStn : St (Z.to_nat h) = with_data s l D (tabulate (Z.to_nat h) 1 f)).
  { unfold St. by rewrite (colfill_all _ _ _ Hs). }
  rewrite <- HSt0 at 1. rewrite <- HStn.
  apply for_loop_eq. intros k Hk. rewrite Z.add_0_l. unfold St.
  rewrite Hbody; try done.
  - by rewrite (colfill_set _ _ _ _ Hs).
  - by apply shape_fill.
  - by apply (colfill_cur _ _ (Z.to_nat h)).
Qed.

(** The second loop of [lstm_cell_forward]:
    [hs[i][0] = og[i][0] * ct[i][0]]. *)
Lemma hidden_loop (s : mem) hsl ogl ctl (Hs Og Ct : Matrix) (h : Z) :
  hsl <> ogl -> hsl <> ctl ->
  heap s !! hsl = Some Hs -> heap s !! ogl = Some Og -> heap s !! ctl = Some Ct ->
  shape (data Hs) (Z.to_nat h) 1 -> shape (data Og) (Z.to_nat h) 1 ->
  shape (data Ct) (Z.to_nat h) 1 ->
  for_range 0 h (fun i =>
    hs <- deref (Ptr hsl) ;; og <- deref (Ptr ogl) ;; ct <- deref (Ptr ctl) ;;
    o <- elem_get og i 0 ;; t <- elem_get ct i 0 ;;
    elem_set hs i 0 (fmul o t)) s =
  Some (tt, upd s hsl (mkMatrix (rows Hs) (cols Hs)
              (tabulate (Z.to_nat h) 1
                 (fun i _ => fmul (mat_at Og i 0) (mat_at Ct i 0))))).
Proof.
  intros Hne1 Hne2 HH HO HC SH SO SC.
  apply (fill_column s hsl Hs h
           (fun i _ => fmul (mat_at Og i 0) (mat_at Ct i 0))); try done.
  intros i d' Hi Hs' Hd'. cbn [deref].
  do 3 (erewrite bind_eq by reflexivity).
  erewrite bind_eq.
  2:{ apply (elem_get_with_data_ne _ _ _ _ _ Og i 0%nat); [done | done |].
      apply (data_get_mat_at Og _ _ i 0%nat SO); lia. }
  erewrite bind_eq.
  2:{ apply (elem_get_with_data_ne _ _ _ _ _ Ct i 0%nat); [done | done |].
      apply (data_get_mat_at Ct _ _ i 0%nat SC); lia. }
  apply (elem_set_with_data _ _ _ _ i 0%nat). rewrite Hd'.
  apply (shape_data_get _ _ _ i 0%nat SH); lia.
Qed.

(** The first loop of [lstm_cell_forward]: at each [i],
    [fc[i][0] = fg[i][0] * cs[i][0]], [ic[i][0] = ig[i][0] * cg[i][0]] and
    [cs[i][0] = fc[i][0] + ic[i][0]]. *)
Lemma cell_update_loop (s : mem) fgl igl cgl csl fcl icl
    (Fg Ig Cg Cs Fc Ic : Matrix) (h : Z) :
  fcl <> icl -> fcl <> csl -> icl <> csl ->
  fcl <> fgl -> fcl <> igl -> fcl <> cgl ->
  icl <> fgl -> icl <> igl -> icl <> cgl ->
  csl <> fgl -> csl <> igl -> csl <> cgl ->
  heap s !! fgl = Some Fg -> heap s !! igl = Some Ig -> heap s !! cgl = Some Cg ->
  heap s !! csl = Some Cs -> heap s !! fcl = Some Fc -> heap s !! icl = Some Ic ->
  shape (data Fg) (Z.to_nat h) 1 -> shape (data Ig) (Z.to_nat h) 1 ->
  shape (data Cg) (Z.to_nat h) 1 -> shape (data Cs) (Z.to_nat h) 1 ->
  shape (data Fc) (Z.to_nat h) 1 -> shape (data Ic) (Z.to_nat h) 1 ->
  let f1 := fun (i _ : nat) => fmul (mat_at Fg i 0) (mat_at Cs i 0) in
  let f2 := fun (i _ : nat) => fmul (mat_at Ig i 0) (mat_at Cg i 0) in
  let f3 := fun (i j : nat) => fadd (f1 i j) (f2 i j) in
  for_range 0 h (fun i =>
    fg <- deref (Ptr fgl) ;; cs <- deref (Ptr csl) ;; fc <- deref (Ptr fcl) ;;
    f <- elem_get fg i 0 ;; c <- elem_get cs i 0 ;;
    elem_set fc i 0 (fmul f c) ;;
    ig <- deref (Ptr igl) ;; cg <- deref (Ptr cgl) ;; ic <- deref (Ptr icl) ;;
    a <- elem_get ig i 0 ;; g <- elem_get cg i 0 ;;
    elem_set ic i 0 (fmul a g) ;;
    x <- elem_get fc i 0 ;; y <- elem_get ic i 0 ;;
    elem_set cs i 0 (fadd x y)) s =
  Some (tt,
        upd (upd (upd s
          fcl (mkMatrix (rows Fc) (cols Fc) (tabulate (Z.to_nat h) 1 f1)))
          icl (mkMatrix (rows Ic) (cols Ic) (tabulate (Z.to_nat h) 1 f2)))
          csl (mkMatrix (rows Cs) (cols Cs) (tabulate (Z.to_nat h) 1 f3))).
Proof.
  intros N1 N2 N3 N4 N5 N6 N7 N8 N9 N10 N11 N12 HFg HIg HCg HCs HFc HIc
         SFg SIg SCg SCs SFc SIc f1 f2 f3.
  unfold for_range. rewrite Z.sub_0_r.
  pose (P := fun (k a : nat) (_ : nat) => (a <? k)%nat).
  pose (St := fun k : nat =>
    upd (upd (upd s
      fcl (mkMatrix (rows Fc) (cols Fc) (fill (P k) f1 (data Fc))))
      icl (mkMatrix (rows Ic) (cols Ic) (fill (P k) f2 (data Ic))))
      csl (mkMatrix (rows Cs) (cols Cs) (fill (P k) f3 (data Cs)))).
  assert (HSt0 : St 0%nat = s).
  { unfold St, P.
    rewrite (colfill_0 f1 _ _ SFc), (colfill_0 f2 _ _ SIc), (colfill_0 f3 _ _ SCs).
    destruct Fc, Ic, Cs. simpl.
    rewrite (upd_same s fcl) by done. rewrite (upd_same s icl) by done.
    by rewrite (upd_same s csl). }
  assert (HStn : St (Z.to_nat h) =
    upd (upd (upd s
      fcl (mkMatrix (rows Fc) (cols Fc) (tabulate (Z.to_nat h) 1 f1)))
      icl (mkMatrix (rows Ic) (cols Ic) (tabulate (Z.to_nat h) 1 f2)))
      csl (mkMatrix (rows Cs) (cols Cs) (tabulate (Z.to_nat h) 1 f3))).
  { unfold St, P.
    by rewrite (colfill_all f1 _ _ SFc), (colfill_all f2 _ _ SIc),
      (colfill_all f3 _ _ SCs). }
  rewrite <- HSt0 at 1. rewrite <- HStn.
  apply for_loop_eq. intros k Hk. rewrite Z.add_0_l. cbn [deref].
  assert (Hz : (0 < 1)%nat) by lia.
  pose proof (data_get_mat_at Fg _ _ k 0%nat SFg Hk Hz) as GFg.
  pose proof (data_get_mat_at Ig _ _ k 0%nat SIg Hk Hz) as GIg.
  pose proof (data_get_mat_at Cg _ _ k 0%nat SCg Hk Hz) as GCg.
  pose proof (data_get_mat_at Cs _ _ k 0%nat SCs Hk Hz) as GCs.
  pose proof (shape_data_get _ _ _ k 0%nat SFc Hk Hz) as GFc.
  pose proof (shape_data_get _ _ _ k 0%nat SIc Hk Hz) as GIc.
  set (d1 := fill (P k) f1 (data Fc)). set (d2 := fill (P k) f2 (data Ic)).
  set (d3 := fill (P k) f3 (data Cs)).
  assert (G1 : is_Some (data_get d1 k 0)).
  { unfold d1, P. by rewrite (colfill_cur f1 _ _ k SFc). }
  assert (G2 : is_Some (data_get d2 k 0)).
  { unfold d2, P. by rewrite (colfill_cur f2 _ _ k SIc). }
  assert (G3 : data_get d3 k 0 = Some (mat_at Cs k 0)).
  { unfold d3, P. by rewrite (colfill_cur f3 _ _ k SCs). }
  assert (E1 : data_set d1 k 0 (f1 k 0%nat) = fill (P (S k)) f1 (data Fc)).
  { unfold d1, P. by rewrite (colfill_set f1 _ _ k SFc). }
  assert (E2 : data_set d2 k 0 (f2 k 0%nat) = fill (P (S k)) f2 (data Ic)).
  { unfold d2, P. by rewrite (colfill_set f2 _ _ k SIc). }
  assert (E3 : data_set d3 k 0 (f3 k 0%nat) = fill (P (S k)) f3 (data Cs)).
  { unfold d3, P. by rewrite (colfill_set f3 _ _ k SCs). }
  assert (R1 : data_get (data_set d1 k 0 (f1 k 0%nat)) k 0 = Some (f1 k 0%nat)).
  { rewrite data_get_set, decide_True by done. by destruct G1 as [? ->]. }
  assert (R2 : data_get (data_set d2 k 0 (f2 k 0%nat)) k 0 = Some (f2 k 0%nat)).
  { rewrite data_get_set, decide_True by done. by destruct G2 as [? ->]. }
  do 3 (erewrite bind_eq by reflexivity).
  erewrite bind_eq.
  2:{ apply (elem_get_eq _ _ Fg k 0%nat); [|exact GFg]. unfold St. heap_look. }
  erewrite bind_eq.
  2:{ apply (elem_get_eq _ _ (mkMatrix (rows Cs) (cols Cs) d3) k 0%nat);
        [|exact G3]. unfold St. heap_look. }
  erewrite bind_eq.
  2:{ apply (elem_set_eq _ _ (mkMatrix (rows Fc) (cols Fc) d1) k 0%nat);
        [|exact G1]. unfold St. heap_look. }
  rewrite with_data_upd. cbn [rows cols data].
  do 3 (erewrite bind_eq by reflexivity).
  erewrite bind_eq.
  2:{ apply (elem_get_eq _ _ Ig k 0%nat); [|exact GIg]. unfold St. heap_look. }
  erewrite bind_eq.
  2:{ apply (elem_get_eq _ _ Cg k 0%nat); [|exact GCg]. unfold St. heap_look. }
  erewrite bind_eq.
  2:{ apply (elem_set_eq _ _ (mkMatrix (rows Ic) (cols Ic) d2) k 0%nat);
        [|exact G2]. unfold St. heap_look. }
  rewrite with_data_upd. cbn [rows cols data].
  erewrite bind_eq.
  2:{ apply (elem_get_eq _ _
               (mkMatrix (rows Fc) (cols Fc) (data_set d1 k 0 (f1 k 0%nat)))
               k 0%nat); [|exact R1]. heap_look. }
  erewrite bind_eq.
  2:{ apply (elem_get_eq _ _
               (mkMatrix (rows Ic) (cols Ic) (data_set d2 k 0 (f2 k 0%nat)))
               k 0%nat); [|exact R2]. heap_look. }
  rewrite (elem_set_eq _ _ (mkMatrix (rows Cs) (cols Cs) d3) k 0%nat).
  2:{ unfold St. heap_look. }
  2:{ cbn [data]. by rewrite G3. }
  rewrite with_data_upd. cbn [rows cols data].
  change (fadd (f1 k 0%nat) (f2 k 0%nat)) with (f3 k 0%nat).
  change (fmul (mat_at Fg k 0) (mat_at Cs k 0)) with (f1 k 0%nat).
  change (fmul (mat_at Ig k 0) (mat_at Cg k 0)) with (f2 k 0%nat).
  rewrite E1, E2, E3. do 2 f_equal. unfold St. upd_eq.
Qed.

(** *** Stepping through a run *)

Lemma runs_bind {A B} (c : M A) (k : A -> M B) (s s1 : mem) a
    (Q : B -> mem -> Prop) :
  c s = Some (a, s1) -> runs (k a) s1 Q -> runs (bind c k) s Q.
Proof.
  intros Hc (b & s' & Hk & HQ). exists b, s'. split; [|done].
  by rewrite (bind_eq _ _ _ _ _ Hc).
Qed.

Lemma runs_assoc {A B C} (c : M A) (k1 : A -> M B) (k2 : B -> M C) (s : mem)
    (Q : C -> mem -> Prop) :
  runs (bind c (fun a => bind (k1 a) k2)) s Q -> runs (bind (bind c k1) k2) s Q.
Proof.
  intros (r & s' & Hc & HQ). exists r, s'. split; [|done].
  unfold bind in *. destruct (c s) as [[a s1]|]; done.
Qed.

Lemma runs_ret {A} (a : A) (s : mem) (Q : A -> mem -> Prop) :
  Q a s -> runs (ret a) s Q.
Proof. intros HQ. by exists a, s. Qed.

Lemma runs_eq {A} (c : M A) (s s' : mem) a (Q : A -> mem -> Prop) :
  c s = Some (a, s') -> Q a s' -> runs c s Q.
Proof. intros Hc HQ. by exists a, s'. Qed.

Lemma runs_det {A} (c : M A) (s s' : mem) a (Q : A -> mem -> Prop) :
  runs c s Q -> c s = Some (a, s') -> Q a s'.
Proof. intros (a' & s'' & Hc & HQ) Hc'. congruence. Qed.

Lemma heap_alloc_keep (s : mem) T l m :
  mem_wf s -> heap s !! l = Some m -> heap (alloc_st s T) !! l = Some m.
Proof.
  intros Hwf Hl. rewrite heap_alloc_lt; [done|]. by eapply mem_wf_lt.
Qed.

Lemma heap_upd_keep (s : mem) g A l m :
  g <> l -> heap s !! l = Some m -> heap (upd s g A) !! l = Some m.
Proof. intros Hne Hl. by rewrite heap_upd_ne. Qed.

Lemma heap_freed_keep (s : mem) t l m :
  t <> l -> heap s !! l = Some m -> heap (freed s t) !! l = Some m.
Proof. intros Hne Hl. by rewrite heap_freed_ne. Qed.

Lemma mem_wf_upd_at (s : mem) l m m' :
  mem_wf s -> heap s !! l = Some m -> mat_wf m' -> mem_wf (upd s l m').
Proof. intros Hwf Hl Hm'. apply mem_wf_upd; [done | by eapply mem_wf_lt | done]. Qed.

Lemma ptr_ne (a b : nat) : Ptr a <> Ptr b -> a <> b.
Proof. congruence. Qed.

(** [a <> b] from a hypothesis on the pointers, or by arithmetic. *)
Ltac solve_ne :=
  first
    [ match goal with
      | H : Ptr ?a <> Ptr ?b |- ?a <> ?b => exact (ptr_ne a b H)
      | H : Ptr ?b <> Ptr ?a |- ?a <> ?b => exact (not_eq_sym (ptr_ne b a H))
      end
    | lia ].

(** The facts of a [NoDup] on a list of pointers, one hypothesis a pair. *)
Ltac nodup_facts H :=
  repeat (apply NoDup_cons in H as [? H]);
  clear H;
  repeat match goal with
  | Hn : _ ∉ _ :: _ |- _ => apply not_elem_of_cons in Hn as [? Hn]
  | Hn : _ ∉ [] |- _ => clear Hn
  end.

Ltac wf_mat :=
  first
    [ eassumption
    | apply mat_wf_map; wf_mat
    | apply mat_wf_map2; wf_mat
    | apply mat_wf_mul; cbn [rows cols]; congruence
    | apply mat_wf_tab; cbn [rows cols]; congruence
    | (eapply mem_wf_mat; [eassumption | eassumption]) ].

Lemma shape_of_wf (m : Matrix) r c :
  mat_wf m -> rows m = r -> cols m = c ->
  shape (data m) (Z.to_nat r) (Z.to_nat c).
Proof. intros [_ Hs] <- <-. exact Hs. Qed.

Lemma cell_update_run (s : mem) fgl igl cgl csl fcl icl
    (Fg Ig Cg Cs Fc Ic : Matrix) (h : Z) :
  mem_wf s ->
  heap s !! fgl = Some Fg -> heap s !! igl = Some Ig -> heap s !! cgl = Some Cg ->
  heap s !! csl = Some Cs -> heap s !! fcl = Some Fc -> heap s !! icl = Some Ic ->
  fcl <> icl -> fcl <> csl -> icl <> csl ->
  fcl <> fgl -> fcl <> igl -> fcl <> cgl ->
  icl <> fgl -> icl <> igl -> icl <> cgl ->
  csl <> fgl -> csl <> igl -> csl <> cgl ->
  rows Fg = h -> cols Fg = 1 -> rows Ig = h -> cols Ig = 1 ->
  rows Cg = h -> cols Cg = 1 -> rows Cs = h -> cols Cs = 1 ->
  rows Fc = h -> cols Fc = 1 -> rows Ic = h -> cols Ic = 1 ->
  for_range 0 h (fun i =>
    fg <- deref (Ptr fgl) ;; cs <- deref (Ptr csl) ;; fc <- deref (Ptr fcl) ;;
    f <- elem_get fg i 0 ;; c <- elem_get cs i 0 ;;
    elem_set fc i 0 (fmul f c) ;;
    ig <- deref (Ptr igl) ;; cg <- deref (Ptr cgl) ;; ic <- deref (Ptr icl) ;;
    a <- elem_get ig i 0 ;; g <- elem_get cg i 0 ;;
    elem_set ic i 0 (fmul a g) ;;
    x <- elem_get fc i 0 ;; y <- elem_get ic i 0 ;;
    elem_set cs i 0 (fadd x y)) s =
  Some (tt,
        upd (upd (upd s
          fcl (mat_tab h 1 (fun i _ => fmul (mat_at Fg i 0) (mat_at Cs i 0))))
          icl (mat_tab h 1 (fun i _ => fmul (mat_at Ig i 0) (mat_at Cg i 0))))
          csl (mat_tab h 1 (fun i _ =>
                 fadd (fmul (mat_at Fg i 0) (mat_at Cs i 0))
                      (fmul (mat_at Ig i 0) (mat_at Cg i 0))))).
Proof.
  intros Hwf HFg HIg HCg HCs HFc HIc N1 N2 N3 N4 N5 N6 N7 N8 N9 N10 N11 N12
         R1 C1 R2 C2 R3 C3 R4 C4 R5 C5 R6 C6.
  rewrite (cell_update_loop s fgl igl cgl csl fcl icl Fg Ig Cg Cs Fc Ic h);
    try done;
    try (apply (shape_of_wf _ h 1); [by eapply mem_wf_mat | done | done]).
  unfold mat_tab. by rewrite R4, C4, R5, C5, R6, C6.
Qed.

Lemma hidden_run (s : mem) hsl ogl ctl (Hs Og Ct : Matrix) (h : Z) :
  mem_wf s ->
  heap s !! hsl = Some Hs -> heap s !! ogl = Some Og -> heap s !! ctl = Some Ct ->
  hsl <> ogl -> hsl <> ctl ->
  rows Hs = h -> cols Hs = 1 -> rows Og = h -> cols Og = 1 ->
  rows Ct = h -> cols Ct = 1 ->
  for_range 0 h (fun i =>
    hs <- deref (Ptr hsl) ;; og <- deref (Ptr ogl) ;; ct <- deref (Ptr ctl) ;;
    o <- elem_get og i 0 ;; t <- elem_get ct i 0 ;;
    elem_set hs i 0 (fmul o t)) s =
  Some (tt, upd s hsl (mat_tab h 1 (fun i _ =>
              fmul (mat_at Og i 0) (mat_at Ct i 0)))).
Proof.
  intros Hwf HH HO HC N1 N2 R1 C1 R2 C2 R3 C3.
  rewrite (hidden_loop s hsl ogl ctl Hs Og Ct h); try done;
    try (apply (shape_of_wf _ h 1); [by eapply mem_wf_mat | done | done]).
  unfold mat_tab. by rewrite R1, C1.
Qed.

(** Bookkeeping after a step: the facts known of the memory before are
    carried over to the memory after, which then gets a name of its own. *)
Ltac dims_solve :=
  unfold dims, pre_gate, mat_mul, mat_map2, mat_map, mat_zero, mat_transpose,
    mat_tab;
  cbn [rows cols]; congruence.

Ltac wf_new :=
  first
    [ eassumption
    | apply mat_wf_map; wf_new
    | apply mat_wf_map2; wf_new
    | apply mat_wf_mul; dims_solve
    | apply mat_wf_tab; dims_solve
    | (eapply mem_wf_mat; [eassumption | eassumption]) ].

Ltac after_alloc S T :=
  let Hwf := fresh "Hwf" in
  let Hn := fresh "Hn" in
  let Hnew := fresh "Hnew" in
  assert (Hwf : mem_wf (alloc_st S T))
    by (apply mem_wf_alloc; [assumption | wf_new]);
  pose proof (next_alloc_st S T) as Hn;
  pose proof (heap_alloc_new S T) as Hnew;
  repeat match goal with
  | H : heap S !! ?l = Some ?m |- _ =>
      apply (heap_alloc_keep S T l m ltac:(assumption)) in H
  end;
  match goal with H : mem_wf S |- _ => clear H end;
  let S1 := fresh "S" in
  set (S1 := alloc_st S T) in *; clearbody S1;
  rewrite <- ?Hn.

Ltac after_upd S g A :=
  let Hwf := fresh "Hwf" in
  let Hn := fresh "Hn" in
  let Hnew := fresh "Hnew" in
  assert (Hwf : mem_wf (upd S g A))
    by (eapply mem_wf_upd_at; [assumption | eassumption | wf_new]);
  pose proof (next_upd S g A) as Hn;
  pose proof (heap_upd_eq S g A) as Hnew;
  repeat match goal with
  | H : heap S !! ?l = Some ?m |- _ =>
      first [ apply (heap_upd_keep S g A l m ltac:(solve_ne)) in H
            | clear H ]
  end;
  match goal with H : mem_wf S |- _ => clear H end;
  let S1 := fresh "S" in
  set (S1 := upd S g A) in *; clearbody S1.

Ltac after_free S t :=
  let Hwf := fresh "Hwf" in
  let Hn := fresh "Hn" in
  assert (Hwf : mem_wf (freed S t)) by (apply mem_wf_freed; assumption);
  pose proof (next_freed S t) as Hn;
  repeat match goal with
  | H : heap S !! ?l = Some ?m |- _ =>
      first [ apply (heap_freed_keep S t l m ltac:(solve_ne)) in H
            | clear H ]
  end;
  match goal with H : mem_wf S |- _ => clear H end;
  let S1 := fresh "S" in
  set (S1 := freed S t) in *; clearbody S1.

Ltac absorb1 :=
  match goal with
  | |- context [alloc_st ?S ?T] => is_var S; after_alloc S T
  | |- context [upd ?S ?g ?A] => is_var S; after_upd S g A
  | |- context [freed ?S ?t] => is_var S; after_free S t
  end.

Ltac absorb := repeat absorb1.

Ltac side :=
  first [assumption | eassumption | dims_solve | solve_ne
        | (eapply mem_wf_mat; [eassumption | eassumption])].

(** The side conditions of a step: the operands are looked up first, then
    what is asked of them is shown. *)
Ltac sides :=
  try match goal with |- heap _ !! _ = Some _ => eassumption end;
  side.

(** One step of a run: [lem] gives the result and the memory after. *)
Ltac step lem :=
  repeat match goal with
  | |- runs (bind (bind _ _) _) _ _ => apply runs_assoc
  end;
  eapply runs_bind; [ eapply lem; sides | ];
  cbv beta iota; cbn [allocs]; absorb.

(** The last step of a run. *)
Ltac last_step lem :=
  eapply runs_eq; [ eapply lem; sides | ];
  cbv beta iota; cbn [allocs]; absorb.

Lemma mat_at_map (g : F -> F) (m : Matrix) (i j : nat) :
  (i < Z.to_nat (rows m))%nat -> (j < Z.to_nat (cols m))%nat ->
  mat_at (mat_map g m) i j = g (mat_at m i j).
Proof. intros Hi Hj. unfold mat_map. by rewrite mat_at_tab. Qed.

(** The new contents of the cell, as the run computes them. *)
Lemma forward_vals_raw (h : Z) (v : CellVals) (X : Matrix) :
  rows (vcell_state v) = h -> rows (vhidden_state v) = h ->
  forward_vals v X =
  let f := mat_map sigmoid
             (pre_gate (vW_f v) (vU_f v) (vb_f v) X (vhidden_state v)) in
  let i := mat_map sigmoid
             (pre_gate (vW_i v) (vU_i v) (vb_i v) X (vhidden_state v)) in
  let g := mat_map tanh_activation
             (pre_gate (vW_c v) (vU_c v) (vb_c v) X (vhidden_state v)) in
  let o := mat_map sigmoid
             (pre_gate (vW_o v) (vU_o v) (vb_o v) X (vhidden_state v)) in
  let c := mat_tab h 1 (fun k _ =>
             fadd (fmul (mat_at f k 0) (mat_at (vcell_state v) k 0))
                  (fmul (mat_at i k 0) (mat_at g k 0))) in
  mkVals (vW_f v) (vW_i v) (vW_c v) (vW_o v)
         (vU_f v) (vU_i v) (vU_c v) (vU_o v)
         (vb_f v) (vb_i v) (vb_c v) (vb_o v)
         c
         (mat_tab h 1 (fun k _ =>
            fmul (mat_at o k 0) (mat_at (mat_map tanh_activation c) k 0)))
         f i g o.
Proof.
  intros Hc Hh. unfold forward_vals. rewrite Hc, Hh. cbv zeta. f_equal.
  unfold mat_tab at 1 3. f_equal. apply tabulate_ext. intros k j Hk Hj.
  f_equal. symmetry. apply mat_at_map; cbn [rows cols mat_tab]; [exact Hk | lia].
Qed.

Ltac points H := let l := fresh "l" in let E := fresh "E" in
  destruct H as (l & E & H).

Lemma forward_core (s : mem) (c : LSTMCell) (v : CellVals) x X k mk :
  mem_wf s -> cell_wf s c v ->
  heap s !! x = Some X -> dims X = (input_size c, 1) ->
  Ptr x ∉ cell_written c ->
  heap s !! k = Some mk -> Ptr k ∉ cell_written c ->
  runs (lstm_cell_forward (Some c) (Ptr x)) s (fun r s' =>
    exists out, r = Ptr out /\ mem_wf s' /\
      (next s <= out < next s')%nat /\
      cell_at s' c (forward_vals v X) /\
      heap s' !! out = Some (vhidden_state (forward_vals v X)) /\
      heap s' !! x = Some X /\
      heap s' !! k = Some mk).
Proof.
  intros Hwf (Hnd & Hat & Hsh) Hx HdX Hxn Hk Hkn.
  destruct Hat as (P1 & P2 & P3 & P4 & P5 & P6 & P7 & P8 & P9 & P10 & P11 &
                   P12 & P13 & P14 & P15 & P16 & P17 & P18).
  points P1. points P2. points P3. points P4. points P5. points P6.
  points P7. points P8. points P9. points P10. points P11. points P12.
  points P13. points P14. points P15. points P16. points P17. points P18.
  unfold cell_written in Hxn, Hkn. unfold cell_ptrs in Hnd.
  unfold lstm_cell_forward, cell_at.
  rewrite E, E0, E1, E2, E3, E4, E5, E6, E7, E8, E9, E10, E11, E12, E13, E14,
    E15, E16 in *.
  clear E E0 E1 E2 E3 E4 E5 E6 E7 E8 E9 E10 E11 E12 E13 E14 E15 E16.
  destruct Hsh as (D1 & D2 & D3 & D4 & D5 & D6 & D7 & D8 & D9 & D10 & D11 &
                   D12 & D13 & D14 & D15 & D16 & D17 & D18).
  unfold dims in *.
  injection D1 as ? ?. injection D2 as ? ?. injection D3 as ? ?.
  injection D4 as ? ?. injection D5 as ? ?. injection D6 as ? ?.
  injection D7 as ? ?. injection D8 as ? ?. injection D9 as ? ?.
  injection D10 as ? ?. injection D11 as ? ?. injection D12 as ? ?.
  injection D13 as ? ?. injection D14 as ? ?. injection D15 as ? ?.
  injection D16 as ? ?. injection D17 as ? ?. injection D18 as ? ?.
  injection HdX as ? ?.
  nodup_facts Hnd.
  repeat match goal with
  | Hn : _ ∉ _ :: _ |- _ => apply not_elem_of_cons in Hn as [? Hn]
  | Hn : _ ∉ [] |- _ => clear Hn
  end.
  assert (Hok : create_ok (hidden_size c) 1 = true).
  { destruct (mem_wf_mat _ _ _ Hwf P9) as [Hok _]. congruence. }
  pose proof (mem_wf_lt _ _ _ Hwf P1). pose proof (mem_wf_lt _ _ _ Hwf P2).
  pose proof (mem_wf_lt _ _ _ Hwf P3). pose proof (mem_wf_lt _ _ _ Hwf P4).
  pose proof (mem_wf_lt _ _ _ Hwf P5). pose proof (mem_wf_lt _ _ _ Hwf P6).
  pose proof (mem_wf_lt _ _ _ Hwf P7). pose proof (mem_wf_lt _ _ _ Hwf P8).
  pose proof (mem_wf_lt _ _ _ Hwf P9). pose proof (mem_wf_lt _ _ _ Hwf P10).
  pose proof (mem_wf_lt _ _ _ Hwf P11). pose proof (mem_wf_lt _ _ _ Hwf P12).
  pose proof (mem_wf_lt _ _ _ Hwf P13). pose proof (mem_wf_lt _ _ _ Hwf P14).
  pose proof (mem_wf_lt _ _ _ Hwf P15). pose proof (mem_wf_lt _ _ _ Hwf P16).
  pose proof (mem_wf_lt _ _ _ Hwf P17). pose proof (mem_wf_lt _ _ _ Hwf P18).
  pose proof (mem_wf_lt _ _ _ Hwf Hx). pose proof (mem_wf_lt _ _ _ Hwf Hk).
  unfold free4, apply_sigmoid, apply_tanh.
  match goal with |- runs _ _ ?Q0 => set (Q := Q0) end.
  step gate_pre_eq. step apply_fn_eq.
  step gate_pre_eq. step apply_fn_eq.
  step gate_pre_eq. step apply_fn_eq.
  step gate_pre_eq. step apply_fn_eq.
  step matrix_create_eq. step matrix_create_eq.
  step cell_update_run.
  step matrix_create_eq.
  step matrix_copy_eq.
  step apply_fn_eq.
  step hidden_run.
  do 19 (step matrix_free_eq).
  step matrix_create_eq.
  step matrix_copy_eq.
  apply runs_ret. subst Q. cbv beta.
  exists (next S50). split; [reflexivity|]. split; [assumption|].
  split; [lia|].
  rewrite (forward_vals_raw (hidden_size c)) by congruence.
  cbn [vW_f vW_i vW_c vW_o vU_f vU_i vU_c vU_o vb_f vb_i vb_c vb_o
       vforget_gate vinput_gate vcandidate_gate voutput_gate
       vcell_state vhidden_state].
  repeat split;
    try (eexists; split; [reflexivity | eassumption]);
    try eassumption.
Qed.

Lemma cell_shapes_forward (c : LSTMCell) (v : CellVals) (X : Matrix) :
  cols X = 1 -> cell_shapes c v -> cell_shapes c (forward_vals v X).
Proof.
  unfold cell_shapes, dims.
  intros HX (D1 & D2 & D3 & D4 & D5 & D6 & D7 & D8 & D9 & D10 & D11 &
          D12 & D13 & D14 & D15 & D16 & D17 & D18).
  injection D1 as ? ?. injection D2 as ? ?. injection D3 as ? ?.
  injection D4 as ? ?. injection D13 as ? ?. injection D14 as ? ?.
  unfold forward_vals.
  cbn [vW_f vW_i vW_c vW_o vU_f vU_i vU_c vU_o vb_f vb_i vb_c vb_o
       vforget_gate vinput_gate vcandidate_gate voutput_gate
       vcell_state vhidden_state].
  unfold pre_gate, mat_map, mat_map2, mat_mul, mat_tab. cbn [rows cols].
  repeat split; try assumption; try congruence.
Qed.

(** The step of a cell on an input, with what it leaves alone. *)
Lemma forward_frame (s : mem) (c : LSTMCell) (v : CellVals) x X :
  mem_wf s -> cell_wf s c v ->
  heap s !! x = Some X -> dims X = (input_size c, 1) ->
  Ptr x ∉ cell_written c ->
  exists out s',
    lstm_cell_forward (Some c) (Ptr x) s = Some (Ptr out, s') /\
    mem_wf s' /\ (next s <= out < next s')%nat /\
    cell_wf s' c (forward_vals v X) /\
    heap s' !! out = Some (vhidden_state (forward_vals v X)) /\
    (forall k mk, heap s !! k = Some mk -> Ptr k ∉ cell_written c ->
                  heap s' !! k = Some mk).
Proof.
  intros Hwf Hc Hx HdX Hxn.
  destruct (forward_core s c v x X x X Hwf Hc Hx HdX Hxn Hx Hxn)
    as (r & s' & Hrun & out & -> & Hwf' & Hout & Hat & Ho & _ & _).
  exists out, s'. split; [exact Hrun|]. split; [exact Hwf'|].
  split; [exact Hout|]. split.
  { destruct Hc as (Hnd & _ & Hsh). split; [exact Hnd|]. split; [exact Hat|].
    apply cell_shapes_forward; [|done]. unfold dims in HdX. congruence. }
  split; [exact Ho|].
  intros k mk Hk Hkn.
  pose proof (forward_core s c v x X k mk Hwf Hc Hx HdX Hxn Hk Hkn) as Hk'.
  apply (runs_det _ _ _ _ _ Hk') in Hrun.
  destruct Hrun as (out' & _ & _ & _ & _ & _ & _ & Hres). exact Hres.
Qed.
Lemma pre_gate_entry (Wm Um bm X Hm : Matrix) (i : nat) :
  (i < Z.to_nat (rows Wm))%nat -> rows Um = rows Wm ->
  cols X = 1 -> cols Hm = 1 ->
  mat_at (pre_gate Wm Um bm X Hm) i 0 =
  fadd (fadd (dot Wm X (Z.to_nat (cols Wm)) i 0)
             (dot Um Hm (Z.to_nat (cols Um)) i 0))
       (mat_at bm i 0).
Proof.
  intros Hi HU HX HH. unfold pre_gate, mat_map2, mat_mul.
  cbn [rows cols mat_tab]. rewrite HX, HH, HU.
  rewrite !mat_at_tab by (done || lia). reflexivity.
Qed.

(** C1.  A forward step of a cell on an input of shape [(input_size, 1)]:
    each gate is the activation, entry by entry, of [W x + U h + b] with [h]
    the hidden state before the step ([sigmoid] for the forget, input and
    output gates, [tanh] for the candidate); entry [i] of [W x + U h + b] is
    the sum, in this order, of the two dot products and of [b[i]];
    [cell_state[i]] becomes [forget[i] * cell_state[i] + input[i] *
    candidate[i]] and [hidden_state[i]] becomes [output[i] *
    tanh(cell_state[i])].  The weights and biases are as they were.  The
    pointer returned is to a new object that holds the new hidden state,
    another object than the cell's own, which holds it too.  No other
    object of the memory changes. *)
Theorem lstm_cell_forward_step (s : mem) (c : LSTMCell) (v : CellVals)
    (x : nat) (X : Matrix) :
  mem_wf s -> cell_wf s c v ->
  heap s !! x = Some X -> dims X = (input_size c, 1) ->
  Ptr x ∉ cell_written c ->
  let h := vhidden_state v in
  let pre_f := pre_gate (vW_f v) (vU_f v) (vb_f v) X h in
  let pre_i := pre_gate (vW_i v) (vU_i v) (vb_i v) X h in
  let pre_c := pre_gate (vW_c v) (vU_c v) (vb_c v) X h in
  let pre_o := pre_gate (vW_o v) (vU_o v) (vb_o v) X h in
  exists out s' v',
    lstm_cell_forward (Some c) (Ptr x) s = Some (Ptr out, s') /\
    cell_wf s' c v' /\
    vforget_gate v' = mat_map sigmoid pre_f /\
    vinput_gate v' = mat_map sigmoid pre_i /\
    vcandidate_gate v' = mat_map tanh_activation pre_c /\
    voutput_gate v' = mat_map sigmoid pre_o /\
    (forall i : nat, (i < Z.to_nat (hidden_size c))%nat ->
       mat_at pre_f i 0 =
         fadd (fadd (dot (vW_f v) X (Z.to_nat (input_size c)) i 0)
                    (dot (vU_f v) h (Z.to_nat (hidden_size c)) i 0))
              (mat_at (vb_f v) i 0) /\
       mat_at pre_i i 0 =
         fadd (fadd (dot (vW_i v) X (Z.to_nat (input_size c)) i 0)
                    (dot (vU_i v) h (Z.to_nat (hidden_size c)) i 0))
              (mat_at (vb_i v) i 0) /\
       mat_at pre_c i 0 =
         fadd (fadd (dot (vW_c v) X (Z.to_nat (input_size c)) i 0)
                    (dot (vU_c v) h (Z.to_nat (hidden_size c)) i 0))
              (mat_at (vb_c v) i 0) /\
       mat_at pre_o i 0 =
         fadd (fadd (dot (vW_o v) X (Z.to_nat (input_size c)) i 0)
                    (dot (vU_o v) h (Z.to_nat (hidden_size c)) i 0))
              (mat_at (vb_o v) i 0) /\
       mat_at (vforget_gate v') i 0 = sigmoid (mat_at pre_f i 0) /\
       mat_at (vinput_gate v') i 0 = sigmoid (mat_at pre_i i 0) /\
       mat_at (vcandidate_gate v') i 0 = ftanh (mat_at pre_c i 0) /\
       mat_at (voutput_gate v') i 0 = sigmoid (mat_at pre_o i 0) /\
       mat_at (vcell_state v') i 0 =
         fadd (fmul (mat_at (vforget_gate v') i 0) (mat_at (vcell_state v) i 0))
              (fmul (mat_at (vinput_gate v') i 0)
                    (mat_at (vcandidate_gate v') i 0)) /\
       mat_at (vhidden_state v') i 0 =
         fmul (mat_at (voutput_gate v') i 0)
              (ftanh (mat_at (vcell_state v') i 0))) /\
    (vW_f v', vW_i v', vW_c v', vW_o v') = (vW_f v, vW_i v, vW_c v, vW_o v) /\
    (vU_f v', vU_i v', vU_c v', vU_o v') = (vU_f v, vU_i v, vU_c v, vU_o v) /\
    (vb_f v', vb_i v', vb_c v', vb_o v') = (vb_f v, vb_i v, vb_c v, vb_o v) /\
    heap s !! out = None /\
    heap s' !! out = Some (vhidden_state v') /\
    points_to s' (hidden_state c) (vhidden_state v') /\
    hidden_state c <> Ptr out /\
    (forall k mk, heap s !! k = Some mk -> Ptr k ∉ cell_written c ->
                  heap s' !! k = Some mk).
Proof.
  intros Hwf Hc Hx HdX Hxn h pre_f pre_i pre_c pre_o.
  destruct (forward_frame s c v x X Hwf Hc Hx HdX Hxn)
    as (out & s' & Hrun & Hwf' & Hout & Hc' & Ho & Hfr).
  exists out, s', (forward_vals v X).
  destruct Hc as (Hnd & Hat & Hsh).
  assert (Hsh' := Hsh). unfold cell_shapes, dims in Hsh'.
  destruct Hsh' as (D1 & D2 & D3 & D4 & D5 & D6 & D7 & D8 & D9 & D10 & D11 &
                    D12 & D13 & D14 & D15 & D16 & D17 & D18).
  injection D1 as ? ?. injection D2 as ? ?. injection D3 as ? ?.
  injection D4 as ? ?. injection D5 as ? ?. injection D6 as ? ?.
  injection D7 as ? ?. injection D8 as ? ?. injection D13 as ? ?.
  injection D14 as ? ?. unfold dims in HdX. injection HdX as ? ?.
  assert (Hnone : heap s !! out = None).
  { destruct (heap s !! out) as [m|] eqn:Hm; [|done].
    pose proof (mem_wf_lt _ _ _ Hwf Hm). lia. }
  split; [exact Hrun|]. split; [exact Hc'|].
  do 4 (split; [reflexivity|]).
  split.
  { intros i Hi.
    assert (Hpre : forall Wm Um bm, rows Wm = hidden_size c ->
              cols Wm = input_size c -> rows Um = hidden_size c ->
              cols Um = hidden_size c ->
              mat_at (pre_gate Wm Um bm X h) i 0 =
              fadd (fadd (dot Wm X (Z.to_nat (input_size c)) i 0)
                         (dot Um h (Z.to_nat (hidden_size c)) i 0))
                   (mat_at bm i 0)).
    { intros Wm Um bm Hr Hcw Hru Hcu.
      rewrite pre_gate_entry by (done || lia || (unfold h; congruence)).
      by rewrite Hcw, Hcu. }
    assert (Hact : forall g Wm Um bm, rows Wm = hidden_size c ->
              mat_at (mat_map g (pre_gate Wm Um bm X h)) i 0 =
              g (mat_at (pre_gate Wm Um bm X h) i 0)).
    { intros g Wm Um bm Hr. apply mat_at_map.
      - unfold pre_gate, mat_map2, mat_mul. cbn [rows mat_tab]. lia.
      - unfold pre_gate, mat_map2, mat_mul. cbn [cols mat_tab]. lia. }
    unfold pre_f, pre_i, pre_c, pre_o.
    rewrite !Hpre by done.
    split; [reflexivity|]. split; [reflexivity|]. split; [reflexivity|].
    split; [reflexivity|].
    unfold forward_vals.
    cbn [vforget_gate vinput_gate vcandidate_gate voutput_gate
         vcell_state vhidden_state].
    rewrite !Hact by done. rewrite !Hpre by done.
    do 4 (split; [reflexivity|]).
    replace (rows (vcell_state v)) with (hidden_size c) by congruence.
    replace (rows (vhidden_state v)) with (hidden_size c) by congruence.
    rewrite !mat_at_tab by (done || lia).
    rewrite !Hact by done. rewrite !Hpre by done.
    split; reflexivity. }
  do 3 (split; [reflexivity|]).
  split; [exact Hnone|]. split; [exact Ho|].
  destruct Hc' as (_ & Hat' & _).
  destruct Hat' as (_ & _ & _ & _ & _ & _ & _ & _ & _ & _ & _ & _ & _ & Hhs & _).
  split; [exact Hhs|]. split; [|exact Hfr].
  destruct Hat as (_ & _ & _ & _ & _ & _ & _ & _ & _ & _ & _ & _ & _ & Hhs0 & _).
  destruct Hhs0 as (l' & E' & Hl'). intros E. rewrite E in E'.
  injection E' as ->. congruence.
Qed.

(** ** lstm.c: prediction *)

Lemma for_fold_runs {A} (I : nat -> A -> mem -> Prop) n lo
    (body : Z -> A -> M A) acc (s : mem) :
  I 0%nat acc s ->
  (forall (k : nat) a s1, (k < n)%nat -> I k a s1 ->
     runs (body (lo + Z.of_nat k) a) s1 (I (S k))) ->
  runs (for_fold n lo body acc) s (I n).
Proof.
  revert lo I acc s. induction n as [|n IH]; intros lo I acc s H0' Hstep.
  - by apply runs_ret.
  - simpl. destruct (Hstep 0%nat acc s ltac:(lia) H0') as (a & s1 & Hrun & HI).
    rewrite Z.add_0_r in Hrun. eapply runs_bind; [exact Hrun|].
    apply (IH (lo + 1) (fun k => I (S k))); [exact HI|].
    intros k a' s2 Hk HIk.
    replace (lo + 1 + Z.of_nat k) with (lo + Z.of_nat (S k)) by lia.
    apply Hstep; [lia | exact HIk].
Qed.

Lemma for_loop_runs (I : nat -> mem -> Prop) n lo (body : Z -> M unit) (s : mem) :
  I 0%nat s ->
  (forall (k : nat) s1, (k < n)%nat -> I k s1 ->
     runs (body (lo + Z.of_nat k)) s1 (fun _ => I (S k))) ->
  runs (for_loop n lo body) s (fun _ => I n).
Proof.
  revert lo I s. induction n as [|n IH]; intros lo I s H0' Hstep.
  - by apply runs_ret.
  - simpl. destruct (Hstep 0%nat s ltac:(lia) H0') as (a & s1 & Hrun & HI).
    rewrite Z.add_0_r in Hrun. eapply runs_bind; [exact Hrun|].
    apply (IH (lo + 1) (fun k => I (S k))); [exact HI|].
    intros k s2 Hk HIk.
    replace (lo + 1 + Z.of_nat k) with (lo + Z.of_nat (S k)) by lia.
    apply Hstep; [lia | exact HIk].
Qed.

Lemma runs_weaken {A} (c : M A) (s : mem) (Q Q' : A -> mem -> Prop) :
  runs c s Q -> (forall a s', Q a s' -> Q' a s') -> runs c s Q'.
Proof. intros (a & s' & Hc & HQ) Himp. exists a, s'. split; [done|]. by apply Himp. Qed.

(** Opening a well-formed cell: its addresses, its shapes, and the facts
    that tell the addresses apart. *)
Ltac open_cell Hwf Hc :=
  let Hnd := fresh "Hnd" in
  let Hat := fresh "Hat" in
  let Hsh := fresh "Hsh" in
  destruct Hc as (Hnd & Hat & Hsh);
  unfold cell_ptrs in Hnd;
  destruct Hat as (?P1 & ?P2 & ?P3 & ?P4 & ?P5 & ?P6 & ?P7 & ?P8 & ?P9 &
                   ?P10 & ?P11 & ?P12 & ?P13 & ?P14 & ?P15 & ?P16 & ?P17 & ?P18);
  repeat match goal with
  | P : points_to _ _ _ |- _ =>
      let l := fresh "l" in let E := fresh "E" in
      destruct P as (l & E & P);
      pose proof (mem_wf_lt _ _ _ Hwf P);
      rewrite E in *; clear E
  end;
  unfold cell_shapes, dims in Hsh;
  destruct Hsh as (?D1 & ?D2 & ?D3 & ?D4 & ?D5 & ?D6 & ?D7 & ?D8 & ?D9 &
                   ?D10 & ?D11 & ?D12 & ?D13 & ?D14 & ?D15 & ?D16 & ?D17 & ?D18);
  repeat match goal with
  | D : (_, _) = (_, _) |- _ => injection D as ? ?
  end;
  nodup_facts Hnd.

Lemma reset_core (s : mem) (c : LSTMCell) (v : CellVals) k mk :
  mem_wf s -> cell_wf s c v ->
  heap s !! k = Some mk -> Ptr k ∉ [cell_state c; hidden_state c] ->
  runs (lstm_cell_reset_state (Some c)) s (fun _ s' =>
    mem_wf s' /\ next s' = next s /\ cell_at s' c (reset_vals v) /\
    heap s' !! k = Some mk).
Proof.
  intros Hwf Hc Hk Hkn.
  unfold lstm_cell_reset_state, cell_at.
  open_cell Hwf Hc.
  repeat match goal with
  | Hn : _ ∉ _ :: _ |- _ => apply not_elem_of_cons in Hn as [? Hn]
  | Hn : _ ∉ [] |- _ => clear Hn
  end.
  match goal with |- runs _ _ ?Q0 => set (Q := Q0) end.
  pose proof (proj1 (mem_wf_mat _ _ _ Hwf P13)) as Hok1.
  pose proof (proj1 (mem_wf_mat _ _ _ Hwf P14)) as Hok2.
  step matrix_zero_eq.
  last_step matrix_zero_eq.
  subst Q. cbv beta. split; [assumption|]. split; [lia|].
  unfold reset_vals.
  cbn [vW_f vW_i vW_c vW_o vU_f vU_i vU_c vU_o vb_f vb_i vb_c vb_o
       vforget_gate vinput_gate vcandidate_gate voutput_gate
       vcell_state vhidden_state].
  repeat split;
    try (eexists; split; [reflexivity | eassumption]);
    try eassumption.
Qed.

Lemma cell_shapes_reset (c : LSTMCell) (v : CellVals) :
  cell_shapes c v -> cell_shapes c (reset_vals v).
Proof.
  unfold cell_shapes, dims, reset_vals, mat_zero, mat_tab.
  cbn [vW_f vW_i vW_c vW_o vU_f vU_i vU_c vU_o vb_f vb_i vb_c vb_o
       vforget_gate vinput_gate vcandidate_gate voutput_gate
       vcell_state vhidden_state rows cols]. tauto.
Qed.

Lemma cell_at_keep (s s' : mem) (c : LSTMCell) (v : CellVals) :
  cell_at s c v ->
  (forall l m, Ptr l ∈ cell_ptrs c -> heap s !! l = Some m ->
               heap s' !! l = Some m) ->
  cell_at s' c v.
Proof.
  intros Hat Hkeep.
  assert (Hp : forall p m, p ∈ cell_ptrs c -> points_to s p m -> points_to s' p m).
  { intros p m Hin (l & -> & Hl). exists l. split; [done|]. by apply Hkeep. }
  unfold cell_at in *. unfold cell_ptrs in Hp.
  destruct Hat as (P1 & P2 & P3 & P4 & P5 & P6 & P7 & P8 & P9 & P10 & P11 &
                   P12 & P13 & P14 & P15 & P16 & P17 & P18).
  repeat split; (apply Hp; [|assumption]);
    repeat first [apply list_elem_of_here | apply list_elem_of_further].
Qed.

Lemma cell_wf_keep (s s' : mem) (c : LSTMCell) (v : CellVals) :
  cell_wf s c v ->
  (forall l m, Ptr l ∈ cell_ptrs c -> heap s !! l = Some m ->
               heap s' !! l = Some m) ->
  cell_wf s' c v.
Proof.
  intros (Hnd & Hat & Hsh) Hkeep. split; [done|]. split; [|done].
  by apply (cell_at_keep s).
Qed.

Lemma cell_ptr_alloc (s : mem) (c : LSTMCell) (v : CellVals) l :
  cell_at s c v -> Ptr l ∈ cell_ptrs c -> is_Some (heap s !! l).
Proof.
  intros Hat Hin. unfold cell_at in Hat. unfold cell_ptrs in Hin.
  destruct Hat as (P1 & P2 & P3 & P4 & P5 & P6 & P7 & P8 & P9 & P10 & P11 &
                   P12 & P13 & P14 & P15 & P16 & P17 & P18).
  repeat (apply elem_of_cons in Hin as [Hin|Hin];
          [match goal with
           | P : points_to s ?p _ |- _ =>
               rewrite <- Hin in P; destruct P as (l' & E' & Hl');
               injection E' as <-; eauto
           end|]).
  by apply not_elem_of_nil in Hin.
Qed.

Lemma cell_written_ptrs (c : LSTMCell) p : p ∈ cell_written c -> p ∈ cell_ptrs c.
Proof.
  unfold cell_written, cell_ptrs. intros Hin.
  repeat (apply elem_of_cons in Hin as [->|Hin];
          [repeat first [apply list_elem_of_here | apply list_elem_of_further]|]).
  by apply not_elem_of_nil in Hin.
Qed.

Lemma reset_run (s : mem) (c : LSTMCell) (v : CellVals) :
  mem_wf s -> cell_wf s c v ->
  exists s',
    lstm_cell_reset_state (Some c) s = Some (tt, s') /\
    mem_wf s' /\ next s' = next s /\ cell_wf s' c (reset_vals v) /\
    preserved_but [cell_state c; hidden_state c] s s'.
Proof.
  intros Hwf Hc.
  assert (Hex : exists k mk, heap s !! k = Some mk /\
                  Ptr k ∉ [cell_state c; hidden_state c]).
  { destruct Hc as (Hnd & Hat & _). unfold cell_ptrs in Hnd.
    destruct Hat as ((l & E & Hl) & _). exists l, (vW_f v). split; [done|].
    rewrite <- E. apply NoDup_cons in Hnd as [Hnin _].
    intros Hin. apply Hnin.
    apply elem_of_cons in Hin as [->|Hin];
      [repeat first [apply list_elem_of_here | apply list_elem_of_further]|].
    apply elem_of_cons in Hin as [->|Hin];
      [repeat first [apply list_elem_of_here | apply list_elem_of_further]|].
    by apply not_elem_of_nil in Hin. }
  destruct Hex as (k0 & mk0 & Hk0 & Hkn0).
  destruct (reset_core s c v k0 mk0 Hwf Hc Hk0 Hkn0)
    as ([] & s' & Hrun & Hwf' & Hn & Hat & _).
  exists s'. split; [exact Hrun|]. split; [exact Hwf'|]. split; [exact Hn|].
  split.
  { destruct Hc as (Hnd & _ & Hsh). split; [exact Hnd|]. split; [exact Hat|].
    by apply cell_shapes_reset. }
  intros k mk Hk Hkn.
  pose proof (reset_core s c v k mk Hwf Hc Hk Hkn) as Hk'.
  apply (runs_det _ _ _ _ _ Hk') in Hrun. by destruct Hrun as (_ & _ & _ & ?).
Qed.

Lemma vectors_at_keep (s s' : mem) n (avoid written : list ptr)
    (ps : list ptr) (xs : list Matrix) :
  vectors_at s n avoid ps xs -> preserved_but written s s' ->
  (forall p, p ∈ written -> p ∈ avoid) ->
  vectors_at s' n avoid ps xs.
Proof.
  intros Hv Hfr Hsub. unfold vectors_at in *.
  eapply Forall2_impl; [exact Hv|].
  intros p x ((l & -> & Hl) & Hd & Hn). split; [|done].
  exists l. split; [done|]. apply Hfr; [done|]. intros Hin. apply Hn. by apply Hsub.
Qed.

Lemma vectors_at_lookup (s : mem) n (avoid : list ptr) (ps : list ptr)
    (xs : list Matrix) (t : nat) :
  vectors_at s n avoid ps xs -> (t < length ps)%nat ->
  exists l X, ps !! t = Some (Ptr l) /\ xs !! t = Some X /\
              heap s !! l = Some X /\ dims X = (n, 1) /\ Ptr l ∉ avoid.
Proof.
  intros Hv Ht. unfold vectors_at in Hv.
  destruct (lookup_lt_is_Some_2 ps t Ht) as (p & Hp).
  destruct (Forall2_lookup_l _ _ _ _ _ Hv Hp) as (X & HX & (l & -> & Hl) & Hd & Hn).
  by exists l, X.
Qed.

Lemma cell_ptr_lt (s : mem) (c : LSTMCell) (v : CellVals) l :
  mem_wf s -> cell_at s c v -> Ptr l ∈ cell_ptrs c -> (l < next s)%nat.
Proof.
  intros Hwf Hat Hin. destruct (cell_ptr_alloc s c v l Hat Hin) as (m & Hm).
  by apply (mem_wf_lt _ _ _ Hwf Hm).
Qed.

Lemma preserved_but_trans (ps : list ptr) (s1 s2 s3 : mem) :
  preserved_but ps s1 s2 -> preserved_but ps s2 s3 -> preserved_but ps s1 s3.
Proof. intros H12 H23 k m Hk Hn. apply H23; [|done]. by apply H12. Qed.

Lemma preserved_but_mono (ps qs : list ptr) (s s' : mem) :
  preserved_but ps s s' -> (forall p, p ∈ ps -> p ∈ qs) -> preserved_but qs s s'.
Proof. intros Hp Hsub k m Hk Hn. apply Hp; [done|]. intros Hin. by apply Hn, Hsub. Qed.

Lemma state_written (c : LSTMCell) p :
  p ∈ [cell_state c; hidden_state c] -> p ∈ cell_written c.
Proof.
  unfold cell_written. intros Hin.
  repeat (apply elem_of_cons in Hin as [->|Hin];
          [repeat first [apply list_elem_of_here | apply list_elem_of_further]|]).
  by apply not_elem_of_nil in Hin.
Qed.

Lemma predict_loop (s : mem) (c : LSTMCell) (v : CellVals)
    (sq : list ptr) (Xs : list Matrix) (n : nat) :
  mem_wf s -> cell_wf s c v ->
  vectors_at s (input_size c) (cell_written c) (take n sq) Xs ->
  (n <= length sq)%nat ->
  forall s1, mem_wf s1 -> next s1 = next s -> cell_wf s1 c (reset_vals v) ->
  preserved_but (cell_written c) s s1 ->
  runs (for_fold n 0 (fun t hidden_output =>
          (if is_null hidden_output then ret tt
           else matrix_free hidden_output) ;;
          x <- array_get sq t ;;
          lstm_cell_forward (Some c) x) NULL) s1 (predict_inv s c v Xs n).
Proof.
  intros Hwf Hc Hvec Hlen s1 Hwf1 Hn1 Hc1 Hfr1.
  apply for_fold_runs.
  { split; [done|]. split; [lia|]. split; [done|]. split; [done|]. done. }
  intros t ho S0 Ht (HwfS & HnS & HcS & HfrS & Hho). rewrite Z.add_0_l.
  set (vt := fold_left forward_vals (take t Xs) (reset_vals v)) in *.
  assert (Hlt : length (take n sq) = n) by (rewrite length_take; lia).
  destruct (vectors_at_lookup s _ _ _ _ t Hvec ltac:(lia))
    as (x & X & Hsq & HX & Hx & HdX & Hxn).
  rewrite lookup_take_lt in Hsq by lia.
  assert (Hpre : exists S0', (if is_null ho then ret tt else matrix_free ho) S0
                            = Some (tt, S0') /\
            mem_wf S0' /\ next S0' = next S0 /\ cell_wf S0' c vt /\
            preserved_but (cell_written c) s S0').
  { destruct ho as [|o]; simpl is_null; cbv iota.
    - exists S0. done.
    - destruct Hho as (_ & Ho & HoS). exists (freed S0 o).
      split; [by apply (matrix_free_eq _ _ _ HoS)|].
      split; [by apply mem_wf_freed|]. split; [by rewrite next_freed|].
      split.
      + apply (cell_wf_keep S0); [done|]. intros l m Hin Hl.
        apply heap_freed_keep; [|done].
        destruct Hc as (_ & Hat & _).
        pose proof (cell_ptr_lt s c v l Hwf Hat Hin). lia.
      + intros k m Hk Hkn. apply heap_freed_keep; [|by apply HfrS].
        pose proof (mem_wf_lt _ _ _ Hwf Hk). lia. }
  destruct Hpre as (S0' & Hrun1 & HwfS' & HnS' & HcS' & HfrS').
  eapply runs_bind; [exact Hrun1|].
  unfold array_get.
  replace (Z.of_nat t <? 0) with false by (symmetry; apply Z.ltb_ge; lia).
  rewrite Nat2Z.id, Hsq.
  destruct (forward_frame S0' c vt x X HwfS' HcS' (HfrS' _ _ Hx Hxn) HdX Hxn)
    as (out & S2 & Hrun2 & Hwf2 & Hout & Hc2 & Ho2 & Hfr2).
  eapply runs_eq; [exact Hrun2|].
  assert (Hvt : fold_left forward_vals (take (S t) Xs) (reset_vals v)
                = forward_vals vt X).
  { rewrite (take_S_r _ _ _ HX), fold_left_app. reflexivity. }
  unfold predict_inv. rewrite Hvt.
  split; [done|]. split; [lia|]. split; [done|]. split.
  { intros k m Hk Hkn. apply Hfr2; [|done]. by apply HfrS'. }
  split; [lia|]. split; [lia|]. done.
Qed.

Lemma predict_run (s : mem) (net : LSTMNetwork) (c : LSTMCell) (v : CellVals)
    (Wo bo : Matrix) (sq : list ptr) (Xs : list Matrix) (n : Z) :
  mem_wf s -> net_wf s net c v Wo bo ->
  1 <= n <= Z.of_nat (length sq) ->
  vectors_at s (n_input_size net) (cell_written c) (take (Z.to_nat n) sq) Xs ->
  exists out s',
    lstm_network_predict (Some net) (Some sq) n s = Some (Ptr out, s') /\
    mem_wf s' /\ (next s <= out < next s')%nat /\
    heap s' !! out = Some (project Wo bo (vhidden_state (run_vals v Xs))) /\
    net_wf s' net c (run_vals v Xs) Wo bo /\
    preserved_but (cell_written c) s s'.
Proof.
  intros Hwf Hnet Hn Hvec.
  destruct Hnet as (Hl & Hc & (w & Ew & Hw) & (b & Eb & Hb) & Hwn & Hbn & Hwb &
                    Hh & Hi & HdW & Hdb & Hrange).
  rewrite <- Hi in Hvec.
  unfold lstm_network_predict, lstm_network_reset. rewrite Hl.
  destruct (reset_run s c v Hwf Hc) as (s1 & Hreset & Hwf1 & Hn1 & Hc1 & Hfr1).
  erewrite bind_eq by exact Hreset.
  assert (Hfr1' : preserved_but (cell_written c) s s1).
  { apply (preserved_but_mono _ _ _ _ Hfr1), state_written. }
  destruct (predict_loop s c v sq Xs (Z.to_nat n) Hwf Hc Hvec ltac:(lia)
              s1 Hwf1 Hn1 Hc1 Hfr1')
    as (ho & S0 & Hloop & HwfS & HnS & HcS & HfrS & Hho).
  erewrite bind_eq by exact Hloop.
  assert (Hlen : length Xs = Z.to_nat n).
  { rewrite <- (Forall2_length _ _ _ Hvec), length_take. lia. }
  rewrite <- Hlen, firstn_all in HcS, Hho.
  fold (run_vals v Xs) in HcS, Hho.
  destruct ho as [|o]; [lia|]. destruct Hho as (_ & Ho & HoS).
  change (is_null (Ptr o)) with false. cbv iota. rewrite Ew, Eb.
  set (h := vhidden_state (run_vals v Xs)) in *.
  assert (Hdh : dims h = (hidden_size c, 1)).
  { destruct HcS as (_ & _ & Hsh). unfold cell_shapes in Hsh. subst h. tauto. }
  assert (HwS : heap S0 !! w = Some Wo).
  { apply HfrS; [done|]. rewrite <- Ew. intros Hin. by apply Hwn, cell_written_ptrs. }
  assert (HbS : heap S0 !! b = Some bo).
  { apply HfrS; [done|]. rewrite <- Eb. intros Hin. by apply Hbn, cell_written_ptrs. }
  pose proof (mem_wf_lt _ _ _ Hwf Hw) as Hwlt.
  pose proof (mem_wf_lt _ _ _ Hwf Hb) as Hblt.
  pose proof (mem_wf_lt _ _ _ HwfS HoS) as Holt.
  pose proof (mem_wf_mat _ _ _ HwfS HbS) as (Hokb & _).
  unfold dims in HdW, Hdb, Hdh.
  injection HdW as HW1 HW2. injection Hdb as Hb1 Hb2. injection Hdh as Hh1 Hh2.
  assert (Hok : create_ok (rows Wo) (cols h) = true) by congruence.
  erewrite bind_eq
    by (apply (matrix_multiply_eq _ _ _ Wo h); [done|done|done|congruence|done]).
  set (S1 := alloc_st S0 (mat_mul Wo h)).
  assert (HwfS1 : mem_wf S1) by (apply mem_wf_alloc; [done|by apply mat_wf_mul]).
  erewrite bind_eq
    by (apply (matrix_add_eq _ _ _ (mat_mul Wo h) bo);
        [done | by apply heap_alloc_at | by apply heap_alloc_keep
        | unfold mat_mul, mat_tab; cbn [rows cols]; congruence
        | unfold mat_mul, mat_tab; cbn [rows cols]; congruence]).
  fold (project Wo bo h).
  set (S2 := alloc_st S1 (project Wo bo h)).
  assert (HwfS2 : mem_wf S2).
  { apply mem_wf_alloc; [done|]. apply mat_wf_map2. by apply mat_wf_mul. }
  erewrite bind_eq
    by (apply (matrix_free_eq _ _ h); subst S2 S1;
        do 2 (apply heap_alloc_keep; [first [done | by apply mem_wf_alloc;
                                             [|apply mat_wf_mul]]|]); done).
  erewrite bind_eq
    by (apply (matrix_free_eq _ _ (mat_mul Wo h));
        apply heap_freed_keep; [nlia|];
        apply heap_alloc_keep; [done|]; by apply heap_alloc_at).
  unfold ret.
  set (S3 := freed (freed S2 o) (next S0)).
  assert (Hkeep : forall k m, (k < next s)%nat -> heap S0 !! k = Some m ->
                              heap S3 !! k = Some m).
  { intros k m Hk HkS. subst S3 S2 S1.
    apply heap_freed_keep; [lia|]. apply heap_freed_keep; [lia|].
    apply heap_alloc_keep; [done|]. by apply heap_alloc_keep. }
  exists (S (next S0)), S3. split; [reflexivity|].
  split; [by do 2 apply mem_wf_freed|].
  split; [subst S3 S2 S1; nlia|].
  split.
  { subst S3. rewrite !heap_freed_ne by (subst S1; nlia).
    apply heap_alloc_at. subst S1. nlia. }
  split.
  { split; [done|]. split.
    { apply (cell_wf_keep S0); [done|]. intros l m Hin Hlm. apply Hkeep; [|done].
      destruct Hc as (_ & Hat & _). by apply (cell_ptr_lt s c v l Hwf Hat). }
    split; [exists w; split; [done|]; by apply Hkeep|].
    split; [exists b; split; [done|]; by apply Hkeep|].
    unfold dims.
    repeat match goal with |- _ /\ _ => split end;
      first [done | congruence | f_equal; congruence]. }
  intros k m Hk Hkn. apply Hkeep; [by apply (mem_wf_lt _ _ _ Hwf Hk)|].
  by apply HfrS.
Qed.

(** C2. On a well-formed network and a sequence of [n >= 1] column vectors of
    [input_size] entries, [lstm_network_reset] zeroes the cell state and the
    hidden state, and [lstm_network_predict] returns a new matrix of shape
    [(output_size, 1)] that holds [W_output * h + b_output], where [h] is the
    hidden state after the reset and one forward step on each vector of the
    sequence in order. *)
Theorem lstm_network_predict_output (s : mem) (net : LSTMNetwork)
    (c : LSTMCell) (v : CellVals) (Wo bo : Matrix) (sq : list ptr)
    (Xs : list Matrix) (n : Z) :
  mem_wf s -> net_wf s net c v Wo bo ->
  1 <= n <= Z.of_nat (length sq) ->
  vectors_at s (n_input_size net) (cell_written c) (take (Z.to_nat n) sq) Xs ->
  exists s0 out s' h,
    lstm_network_reset (Some net) s = Some (tt, s0) /\
    points_to s0 (cell_state c) (mat_zero (hidden_size c) 1) /\
    points_to s0 (hidden_state c) (mat_zero (hidden_size c) 1) /\
    h = vhidden_state (fold_left forward_vals Xs (reset_vals v)) /\
    lstm_network_predict (Some net) (Some sq) n s = Some (Ptr out, s') /\
    heap s !! out = None /\
    heap s' !! out = Some (mat_map2 fadd (mat_mul Wo h) bo) /\
    dims (mat_map2 fadd (mat_mul Wo h) bo) = (output_size net, 1) /\
    points_to s' (hidden_state c) h.
Proof.
  intros Hwf Hnet Hn Hvec.
  destruct (predict_run s net c v Wo bo sq Xs n Hwf Hnet Hn Hvec)
    as (out & s' & Hrun & Hwf' & Hout & Hres & Hnet' & _).
  destruct Hnet as (Hl & Hc & _ & _ & _ & _ & _ & _ & _ & HdW & _).
  destruct (reset_run s c v Hwf Hc) as (s0 & Hreset & _ & _ & Hc0 & _).
  exists s0, out, s', (vhidden_state (run_vals v Xs)).
  split; [unfold lstm_network_reset; by rewrite Hl|].
  destruct Hc as (_ & _ & Hsh).
  assert (Hd1 : dims (vcell_state v) = (hidden_size c, 1))
    by (unfold cell_shapes in Hsh; tauto).
  assert (Hd2 : dims (vhidden_state v) = (hidden_size c, 1))
    by (unfold cell_shapes in Hsh; tauto).
  unfold dims in Hd1, Hd2. injection Hd1 as Hr1 Hc1. injection Hd2 as Hr2 Hc2.
  destruct Hc0 as (_ & Hat0 & _). unfold cell_at, reset_vals in Hat0.
  cbn [vcell_state vhidden_state] in Hat0. rewrite Hr1, Hc1, Hr2, Hc2 in Hat0.
  split; [tauto|]. split; [tauto|]. split; [reflexivity|].
  split; [exact Hrun|].
  split.
  { destruct (heap s !! out) as [m|] eqn:E; [|done].
    pose proof (mem_wf_lt _ _ _ Hwf E). lia. }
  split; [exact Hres|].
  destruct Hnet' as (_ & (_ & Hat' & Hsh') & _).
  split.
  { assert (Hdh : dims (vhidden_state (run_vals v Xs)) = (hidden_size c, 1))
      by (unfold cell_shapes in Hsh'; tauto).
    unfold dims in *. unfold mat_map2, mat_mul, mat_tab. cbn [rows cols].
    congruence. }
  unfold cell_at in Hat'. tauto.
Qed.

(** ** train.c: training *)

Lemma calculate_loss_run (s : mem) lp lt (P T : Matrix) :
  mem_wf s -> heap s !! lp = Some P -> heap s !! lt = Some T ->
  rows P = rows T -> cols P = cols T -> int_range (rows P * cols P) ->
  exists x, calculate_loss (Ptr lp) (Ptr lt) s = Some (x, s).
Proof.
  intros Hwf HP HT Hr Hc Hrange.
  destruct (Hwf _ _ HP) as [_ [_ SP]]. destruct (Hwf _ _ HT) as [_ [_ ST]].
  unfold calculate_loss.
  erewrite bind_eq by by apply (get_rows_eq _ _ P).
  erewrite bind_eq by by apply (get_rows_eq _ _ T).
  erewrite bind_eq by by apply (get_cols_eq _ _ P).
  erewrite bind_eq by by apply (get_cols_eq _ _ T).
  rewrite <- Hr, <- Hc, !Z.eqb_refl. cbn [negb orb].
  unfold int_mul. unfold int_range in Hrange.
  rewrite (proj2 (Z.leb_le _ _) (proj1 Hrange)),
          (proj2 (Z.leb_le _ _) (proj2 Hrange)).
  cbn [andb]. erewrite bind_eq by reflexivity.
  assert (Hloop : runs (for_fold (Z.to_nat (rows P)) 0 (fun i loss =>
                    for_fold (Z.to_nat (cols P)) 0 (fun j loss =>
                      x <- elem_get lp i j ;;
                      y <- elem_get lt i j ;;
                      let diff := fsub x y in
                      ret (fadd loss (fmul diff diff))) loss) fzero) s
                    (fun _ s' => s' = s)).
  { apply (for_fold_runs (fun _ _ s' => s' = s)); [done|].
    intros i a s1 Hi ->. rewrite Z.add_0_l.
    apply (for_fold_runs (fun _ _ s' => s' = s)); [done|].
    intros j a' s1 Hj ->. rewrite Z.add_0_l.
    eapply runs_bind;
      [apply (elem_get_eq _ _ P); [done|by apply (data_get_mat_at _ _ _ _ _ SP)]|].
    eapply runs_bind;
      [apply (elem_get_eq _ _ T); [done|];
       apply (data_get_mat_at _ _ _ _ _ ST); lia|].
    by apply runs_ret. }
  destruct Hloop as (a & s' & Hrun & ->).
  erewrite bind_eq by exact Hrun. eexists. reflexivity.
Qed.

Lemma data_wf_keep (s s' : mem) (net : LSTMNetwork) (c : LSTMCell)
    (d : TrainingData) (pairs : list (list Matrix * Matrix)) :
  data_wf s net c d pairs ->
  preserved_but (W_output net :: cell_written c) s s' ->
  data_wf s' net c d pairs.
Proof.
  intros (H1 & H2 & H3 & H4) Hfr. split; [done|]. split; [done|]. split.
  - eapply Forall2_impl; [exact H3|]. intros sq pr [Hlen Hv]. split; [done|].
    by apply (vectors_at_keep s s' _ _ _ _ _ Hv Hfr).
  - by apply (vectors_at_keep s s' _ _ _ _ _ H4 Hfr).
Qed.

Lemma vectors_at_weaken (s : mem) n (avoid avoid' : list ptr)
    (ps : list ptr) (xs : list Matrix) :
  vectors_at s n avoid ps xs -> (forall p, p ∈ avoid' -> p ∈ avoid) ->
  vectors_at s n avoid' ps xs.
Proof.
  intros Hv Hsub. unfold vectors_at in *. eapply Forall2_impl; [exact Hv|].
  intros p x (Hp & Hd & Hn). split; [done|]. split; [done|].
  intros Hin. by apply Hn, Hsub.
Qed.

Lemma weights_forward (v : CellVals) (X : Matrix) :
  cell_weights (forward_vals v X) = cell_weights v.
Proof. reflexivity. Qed.

Lemma weights_run (v : CellVals) (Xs : list Matrix) :
  cell_weights (run_vals v Xs) = cell_weights v.
Proof.
  unfold run_vals.
  assert (Hgen : forall w, cell_weights (fold_left forward_vals Xs w)
                           = cell_weights w).
  { induction Xs as [|X Xs IH]; intros w; [reflexivity|].
    simpl. by rewrite IH, weights_forward. }
  rewrite Hgen. reflexivity.
Qed.

Lemma hidden_in_ptrs (c : LSTMCell) : hidden_state c ∈ cell_ptrs c.
Proof.
  unfold cell_ptrs.
  repeat first [apply list_elem_of_here | apply list_elem_of_further].
Qed.

Lemma train_step_run (s : mem) (net : LSTMNetwork) (c : LSTMCell)
    (v : CellVals) (Wo bo : Matrix) (d : TrainingData)
    (pairs : list (list Matrix * Matrix)) (seq : nat)
    (pr : list Matrix * Matrix) (tl : F) :
  mem_wf s -> net_wf s net c v Wo bo -> data_wf s net c d pairs ->
  0 < n_hidden_size net -> int_range (n_hidden_size net) ->
  pairs !! seq = Some pr ->
  exists tl' s',
    train_step net d (Z.of_nat seq) tl s = Some (tl', s') /\
    mem_wf s' /\
    net_wf s' net c (train_pair bo (learning_rate net) (v, Wo) pr).1
                    (train_pair bo (learning_rate net) (v, Wo) pr).2 bo /\
    preserved_but (W_output net :: cell_written c) s s'.
Proof.
  intros Hwf Hnet (Hsl & Hns & Hins & Htgs) Hhpos Hhrange Hpr.
  destruct (Forall2_lookup_r _ _ _ _ _ Hins Hpr) as (sq & Hsq & Hlen & Hvec).
  assert (Hseq : (seq < length (targets d))%nat).
  { rewrite (Forall2_length _ _ _ Htgs), length_fmap.
    by apply lookup_lt_is_Some_1. }
  destruct (vectors_at_lookup s _ _ _ _ seq Htgs Hseq)
    as (tg & T & Htg & HT & Htgs' & HdT & Htgn).
  rewrite list_lookup_fmap, Hpr in HT. injection HT as HT.
  apply (vectors_at_weaken _ _ _ (cell_written c)) in Hvec;
    [|intros p Hp; by apply list_elem_of_further].
  destruct (predict_run s net c v Wo bo sq pr.1 (td_sequence_length d) Hwf Hnet
              ltac:(lia) Hvec)
    as (out & s1 & Hrun & Hwf1 & Hout & Hres & Hnet1 & Hfr1).
  unfold train_step, array_get.
  replace (Z.of_nat seq <? 0) with false by (symmetry; apply Z.ltb_ge; lia).
  rewrite Nat2Z.id, Hsq, Htg.
  erewrite bind_eq by reflexivity. erewrite bind_eq by exact Hrun.
  change (is_null (Ptr out)) with false. cbv iota.
  erewrite bind_eq by reflexivity.
  unfold train_pair. cbn [fst snd].
  set (v' := run_vals v pr.1) in *. set (h := vhidden_state v') in *.
  set (P := project Wo bo h) in *.
  destruct Hnet as (Hl & Hc & (w & Ew & Hw) & (b & Eb & Hb) & Hwn & Hbn & Hwb &
                    Hh & Hi & HdW & Hdb & Hrange).
  destruct Hnet1 as (_ & Hc1 & (w1 & Ew1 & Hw1) & _).
  rewrite Ew in Ew1. injection Ew1 as <-.
  pose proof Hc as (_ & (_ & _ & _ & _ & _ & _ & _ & _ & _ & _ & _ & _ & _ &
                          (hl & Ehl & Hhl) & _) & _).
  pose proof Hc1 as (_ & (_ & _ & _ & _ & _ & _ & _ & _ & _ & _ & _ & _ & _ &
                           (hl1 & Ehl1 & Hhl1) & _) & Hsh1).
  rewrite Ehl in Ehl1. injection Ehl1 as <-. fold h in Hhl1.
  assert (Hdh : dims h = (hidden_size c, 1))
    by (unfold cell_shapes in Hsh1; subst h; tauto).
  assert (HT1 : heap s1 !! tg = Some T).
  { apply Hfr1; [done|]. intros Hin. by apply Htgn, list_elem_of_further. }
  assert (Htw : tg <> w).
  { intros ->. apply Htgn. rewrite Ew. apply list_elem_of_here. }
  assert (Hhw : hl <> w).
  { intros ->. apply Hwn. rewrite Ew, <- Ehl. apply hidden_in_ptrs. }
  pose proof (mem_wf_lt _ _ _ Hwf Hw) as Hwlt.
  pose proof (mem_wf_lt _ _ _ Hwf Htgs') as Htglt.
  pose proof (mem_wf_lt _ _ _ Hwf Hhl) as Hhllt.
  pose proof (mem_wf_mat _ _ _ Hwf1 Hw1) as HwfWo.
  pose proof (mem_wf_mat _ _ _ Hwf1 HT1) as HwfT.
  pose proof (mem_wf_mat _ _ _ Hwf1 Hhl1) as Hwfh.
  pose proof (mem_wf_mat _ _ _ Hwf1 Hres) as HwfP.
  unfold dims in HdW, Hdb, Hdh, HdT.
  injection HdW as HW1 HW2. injection Hdb as Hb1 Hb2.
  injection Hdh as Hh1 Hh2. injection HdT as HT1r HT1c.
  assert (HP1 : rows P = output_size net) by (subst P; cbn; congruence).
  assert (HP2 : cols P = 1) by (subst P; cbn; congruence).
  rewrite Hl, Ew, Ehl. subst T.
  destruct (calculate_loss_run s1 out tg P pr.2 Hwf1 Hres HT1
              ltac:(congruence) ltac:(congruence))
    as (loss & Hloss).
  { rewrite HP1, HP2, Z.mul_1_r. exact Hrange. }
  erewrite bind_eq by exact Hloss.
  (* error = target - prediction *)
  set (lr := learning_rate net).
  set (E0 := mat_map2 fsub pr.2 P).
  erewrite bind_eq
    by (apply (matrix_subtract_eq _ _ _ pr.2 P); [done|done|done|congruence|congruence]).
  set (S2 := alloc_st s1 E0).
  assert (HwfS2 : mem_wf S2) by (apply mem_wf_alloc; [done|by apply mat_wf_map2]).
  set (E := mat_map (fun x => fmul x lr) E0).
  erewrite bind_eq
    by (apply (matrix_scale_eq _ _ E0); [apply heap_alloc_new|by apply mat_wf_map2]).
  fold E. set (S3 := upd S2 (next s1) E).
  assert (HwfE : mat_wf E) by (by apply mat_wf_map, mat_wf_map2).
  assert (HwfS3 : mem_wf S3) by (apply mem_wf_upd; [done|subst S2; nlia|done]).
  erewrite bind_eq by reflexivity.
  (* hidden_transpose *)
  assert (Hokt : create_ok (cols h) (rows h) = true).
  { rewrite Hh1, Hh2, Hh. apply create_ok_pos; try done; unfold int_range, INT_MIN, INT_MAX; lia. }
  erewrite bind_eq
    by (apply (matrix_transpose_eq _ _ h); [done|unfold S3, S2; heap_look|done]).
  set (Ht := mat_transpose h).
  set (S4 := alloc_st S3 Ht).
  assert (HwfS4 : mem_wf S4) by (apply mem_wf_alloc; [done|by apply mat_wf_tab]).
  (* weight_update *)
  assert (Hoku : create_ok (rows E) (cols Ht) = true).
  { destruct HwfWo as [Hok _]. subst E E0 Ht. cbn [rows cols mat_map mat_map2 mat_transpose mat_tab].
    congruence. }
  erewrite bind_eq
    by (apply (matrix_multiply_eq _ _ _ E Ht);
        [done | unfold S4, S3, S2; heap_look | unfold S4, S3, S2; heap_look
        | subst E E0 Ht; cbn [rows cols mat_map mat_map2 mat_transpose mat_tab]; congruence
        | done]).
  set (U := mat_mul E Ht).
  set (S5 := alloc_st S4 U).
  assert (HwfS5 : mem_wf S5) by (apply mem_wf_alloc; [done|by apply mat_wf_mul]).
  (* new_weights *)
  erewrite bind_eq
    by (apply (matrix_add_eq _ _ _ Wo U);
        [done | unfold S5, S4, S3, S2; heap_look | unfold S5, S4, S3, S2; heap_look
        | subst U E E0 Ht; cbn [rows cols mat_mul mat_map mat_map2 mat_transpose mat_tab]; congruence
        | subst U E E0 Ht; cbn [rows cols mat_mul mat_map mat_map2 mat_transpose mat_tab]; congruence]).
  set (Wn := mat_map2 fadd Wo U).
  set (S6 := alloc_st S5 Wn).
  assert (HwfWn : mat_wf Wn) by by apply mat_wf_map2.
  assert (HwfS6 : mem_wf S6) by (apply mem_wf_alloc; [done|done]).
  erewrite bind_eq
    by (apply (matrix_copy_eq _ _ _ Wo Wn);
        [unfold S5, S4, S3, S2; nlia
        | unfold S6, S5, S4, S3, S2; heap_look
        | unfold S6, S5, S4, S3, S2; heap_look
        | done | done | reflexivity | reflexivity]).
  set (S7 := upd S6 w Wn).
  assert (HwfS7 : mem_wf S7)
    by (apply mem_wf_upd; [done|unfold S6, S5, S4, S3, S2; nlia|done]).
  erewrite bind_eq
    by (apply (matrix_free_eq _ _ P); unfold S7, S6, S5, S4, S3, S2; heap_look).
  erewrite bind_eq
    by (apply (matrix_free_eq _ _ E); unfold S7, S6, S5, S4, S3, S2; heap_look).
  erewrite bind_eq
    by (apply (matrix_free_eq _ _ Ht); unfold S7, S6, S5, S4, S3, S2; heap_look).
  erewrite bind_eq
    by (apply (matrix_free_eq _ _ U); unfold S7, S6, S5, S4, S3, S2; heap_look).
  erewrite bind_eq
    by (apply (matrix_free_eq _ _ Wn); unfold S7, S6, S5, S4, S3, S2; heap_look).
  unfold ret.
  match goal with
  | |- context [Some (fadd tl loss, ?S0)] => set (S8 := S0)
  end.
  assert (Hkeep : forall k m, (k < next s)%nat -> k <> w ->
                              heap s1 !! k = Some m -> heap S8 !! k = Some m).
  { intros k m Hk Hkw Hks. unfold S8, S7, S6, S5, S4, S3, S2. by heap_norm. }
  exists (fadd tl loss), S8. split; [reflexivity|].
  split; [by do 5 apply mem_wf_freed|].
  split.
  { split; [done|]. split.
    { apply (cell_wf_keep s1); [done|]. intros l m Hin Hlm.
      destruct Hc as (_ & Hat & _).
      apply Hkeep; [by apply (cell_ptr_lt s c v l Hwf Hat)| |done].
      intros ->. apply Hwn. by rewrite Ew. }
    split.
    { exists w. split; [done|]. unfold S8, S7, S6, S5, S4, S3, S2. by heap_norm. }
    split.
    { exists b. split; [done|]. apply Hkeep.
      - by apply (mem_wf_lt _ _ _ Hwf Hb).
      - intros ->. apply Hwb. by rewrite Ew, Eb.
      - apply Hfr1; [done|]. rewrite <- Eb. intros Hin.
        by apply Hbn, cell_written_ptrs. }
    unfold dims.
    repeat match goal with |- _ /\ _ => split end;
      first [done | congruence | f_equal; subst Wn; cbn; congruence]. }
  intros k m Hk Hkn. apply not_elem_of_cons in Hkn as [Hkw Hkn].
  apply Hkeep; [by apply (mem_wf_lt _ _ _ Hwf Hk) | |by apply Hfr1].
  intros ->. by apply Hkw.
Qed.

Lemma weights_train_pair (bo : Matrix) (lr : F) st pr :
  cell_weights (train_pair bo lr st pr).1 = cell_weights st.1.
Proof. unfold train_pair. cbn [fst]. apply weights_run. Qed.

Lemma weights_train_epoch (bo : Matrix) (lr : F) pairs st :
  cell_weights (train_epoch bo lr pairs st).1 = cell_weights st.1.
Proof.
  unfold train_epoch. revert st.
  induction pairs as [|pr pairs IH]; intros st; [reflexivity|].
  simpl. by rewrite IH, weights_train_pair.
Qed.

Lemma weights_train_epochs (bo : Matrix) (lr : F) pairs n st :
  cell_weights (train_epochs bo lr pairs n st).1 = cell_weights st.1.
Proof.
  unfold train_epochs. induction n as [|n IH]; [reflexivity|].
  simpl. by rewrite weights_train_epoch.
Qed.

Lemma weights_at (s : mem) (c : LSTMCell) (v v0 : CellVals) :
  cell_at s c v -> cell_weights v = cell_weights v0 ->
  Forall2 (points_to s) (cell_weight_ptrs c) (cell_weights v0).
Proof.
  intros Hat <-. unfold cell_at in Hat. unfold cell_weight_ptrs, cell_weights.
  repeat (apply Forall2_cons; split; [tauto|]). apply Forall2_nil_2.
Qed.

Lemma train_epoch_run (s : mem) (net : LSTMNetwork) (c : LSTMCell)
    (v : CellVals) (Wo bo : Matrix) (d : TrainingData)
    (pairs : list (list Matrix * Matrix)) :
  mem_wf s -> net_wf s net c v Wo bo -> data_wf s net c d pairs ->
  0 < n_hidden_size net -> int_range (n_hidden_size net) ->
  runs (for_fold (Z.to_nat (num_sequences d)) 0 (train_step net d) fzero) s
    (fun _ s' =>
       mem_wf s' /\
       net_wf s' net c (train_epoch bo (learning_rate net) pairs (v, Wo)).1
                       (train_epoch bo (learning_rate net) pairs (v, Wo)).2 bo /\
       preserved_but (W_output net :: cell_written c) s s').
Proof.
  intros Hwf Hnet Hd Hhpos Hhrange.
  pose proof Hd as (_ & Hns & _). rewrite Hns, Nat2Z.id.
  set (lr := learning_rate net).
  set (st := fun k => fold_left (train_pair bo lr) (take k pairs) (v, Wo)).
  eapply runs_weaken.
  { apply (for_fold_runs (fun k (_ : F) s' =>
             mem_wf s' /\ net_wf s' net c (st k).1 (st k).2 bo /\
             preserved_but (W_output net :: cell_written c) s s')).
    { split; [done|]. split; [done|]. by intros k m Hk _. }
    intros k a s1 Hk (Hwf1 & Hnet1 & Hfr1). rewrite Z.add_0_l.
    destruct (lookup_lt_is_Some_2 pairs k Hk) as (pr & Hpr).
    pose proof (data_wf_keep _ _ _ _ _ _ Hd Hfr1) as Hd1.
    destruct (train_step_run s1 net c (st k).1 (st k).2 bo d pairs k pr a
                Hwf1 Hnet1 Hd1 Hhpos Hhrange Hpr)
      as (tl' & s2 & Hrun & Hwf2 & Hnet2 & Hfr2).
    eapply runs_eq; [exact Hrun|].
    assert (Hst : st (S k) = train_pair bo lr (st k) pr).
    { unfold st. rewrite (take_S_r _ _ _ Hpr), fold_left_app. reflexivity. }
    rewrite Hst. rewrite <- (surjective_pairing (st k)) in Hnet2.
    split; [done|]. split; [done|].
    by apply (preserved_but_trans _ s s1 s2). }
  intros a s' (Hwf' & Hnet' & Hfr'). unfold st in Hnet'.
  rewrite firstn_all in Hnet'. done.
Qed.

Lemma train_run (s : mem) (net : LSTMNetwork) (c : LSTMCell)
    (v : CellVals) (Wo bo : Matrix) (d : TrainingData)
    (pairs : list (list Matrix * Matrix)) (epochs : Z) :
  mem_wf s -> net_wf s net c v Wo bo -> data_wf s net c d pairs ->
  0 < n_hidden_size net -> int_range (n_hidden_size net) ->
  runs (lstm_train (Some net) (Some d) epochs) s
    (fun _ s' =>
       mem_wf s' /\
       net_wf s' net c
         (train_epochs bo (learning_rate net) pairs (Z.to_nat epochs) (v, Wo)).1
         (train_epochs bo (learning_rate net) pairs (Z.to_nat epochs) (v, Wo)).2
         bo /\
       preserved_but (W_output net :: cell_written c) s s').
Proof.
  intros Hwf Hnet Hd Hhpos Hhrange.
  unfold lstm_train, for_range. rewrite Z.sub_0_r.
  set (lr := learning_rate net).
  set (st := fun k => train_epochs bo lr pairs k (v, Wo)).
  apply (for_loop_runs (fun k s' =>
           mem_wf s' /\ net_wf s' net c (st k).1 (st k).2 bo /\
           preserved_but (W_output net :: cell_written c) s s')).
  { split; [done|]. split; [done|]. by intros k m Hk _. }
  intros k s1 Hk (Hwf1 & Hnet1 & Hfr1).
  pose proof (data_wf_keep _ _ _ _ _ _ Hd Hfr1) as Hd1.
  destruct (train_epoch_run s1 net c (st k).1 (st k).2 bo d pairs
              Hwf1 Hnet1 Hd1 Hhpos Hhrange)
    as (a & s2 & Hrun & Hwf2 & Hnet2 & Hfr2).
  eapply runs_bind; [exact Hrun|]. apply runs_ret.
  rewrite <- (surjective_pairing (st k)) in Hnet2.
  split; [done|]. split; [exact Hnet2|].
  by apply (preserved_but_trans _ s s1 s2).
Qed.

(** C3. On a well-formed network and training data, [lstm_train] returns,
    and afterwards: the eight weight matrices and the four biases of the
    cell hold what they held before, [b_output] holds what it held before,
    [W_output] holds the result of the updates
    [W_output + ((target - predicted) * learning_rate) * h^T], one for each
    training pair of each epoch in order, and every object in memory other
    than [W_output] and the six state and gate matrices of the cell is as it
    was. *)
Theorem lstm_train_updates_output_only (s : mem) (net : LSTMNetwork)
    (c : LSTMCell) (v : CellVals) (Wo bo : Matrix) (d : TrainingData)
    (pairs : list (list Matrix * Matrix)) (epochs : Z) :
  mem_wf s -> net_wf s net c v Wo bo -> data_wf s net c d pairs ->
  0 < n_hidden_size net -> int_range (n_hidden_size net) ->
  exists s',
    lstm_train (Some net) (Some d) epochs s = Some (tt, s') /\
    Forall2 (points_to s') (cell_weight_ptrs c) (cell_weights v) /\
    points_to s' (b_output net) bo /\
    points_to s' (W_output net)
      (train_epochs bo (learning_rate net) pairs (Z.to_nat epochs) (v, Wo)).2 /\
    preserved_but (W_output net :: cell_written c) s s'.
Proof.
  intros Hwf Hnet Hd Hhpos Hhrange.
  destruct (train_run s net c v Wo bo d pairs epochs Hwf Hnet Hd Hhpos Hhrange)
    as ([] & s' & Hrun & _ & Hnet' & Hfr).
  exists s'. split; [exact Hrun|].
  destruct Hnet' as (_ & (_ & Hat & _) & HW & Hb & _).
  split; [|done].
  apply (weights_at s' c _ v Hat). apply weights_train_epochs.
Qed.

(** ** weather_data.c: normalisation *)



(** ** lstm.c: the next point *)

(** C7 (as the code has it). When the dataset holds fewer than [seq_length]
    points, [lstm_predict_next] returns the weather point whose six features
    are [0.0], the initial value of [result], and memory is as it was. *)
Theorem lstm_predict_next_short (s : mem) (net : LSTMNetwork)
    (ds : WeatherDataset) (seq_length : Z) :
  ds_size ds < seq_length ->
  lstm_predict_next (Some net) (Some ds) seq_length s = Some (zero_point, s).
Proof.
  intros Hlt. unfold lstm_predict_next.
  by rewrite (proj2 (Z.ltb_lt _ _) Hlt).
Qed.

(** ** lstm.c: training data *)

Lemma elem_set_new (s : mem) (m : Matrix) (i j : nat) x v :
  data_get (data m) i j = Some x ->
  elem_set (next s) (Z.of_nat i) (Z.of_nat j) v (alloc_st s m) =
  Some (tt, alloc_st s (mkMatrix (rows m) (cols m) (data_set (data m) i j v))).
Proof.
  intros Hx.
  rewrite (elem_set_eq _ _ m i j v (heap_alloc_new s m) (ex_intro _ x Hx)).
  by rewrite with_data_upd, upd_alloc.
Qed.

Lemma weather_point_to_matrix_eq (s : mem) (p : WeatherPoint) :
  weather_point_to_matrix (Some p) s =
  Some (Ptr (next s), alloc_st s (point_matrix p)).
Proof.
  unfold weather_point_to_matrix.
  erewrite bind_eq by (apply matrix_create_eq; reflexivity). cbv beta iota.
  erewrite bind_eq by (eapply (elem_set_new s _ 0 0); reflexivity).
  erewrite bind_eq by (eapply (elem_set_new s _ 1 0); reflexivity).
  erewrite bind_eq by (eapply (elem_set_new s _ 2 0); reflexivity).
  erewrite bind_eq by (eapply (elem_set_new s _ 3 0); reflexivity).
  erewrite bind_eq by (eapply (elem_set_new s _ 4 0); reflexivity).
  erewrite bind_eq by (eapply (elem_set_new s _ 5 0); reflexivity).
  reflexivity.
Qed.

Lemma malloc_ok_array n :
  0 < n <= INT_MAX -> malloc_ok (size_mul (size_of_int n) sizeof_ptr) = true.
Proof.
  unfold INT_MAX. intros Hn.
  unfold malloc_ok, size_mul, size_of_int, sizeof_ptr, PTRDIFF_MAX.
  rewrite (Z.mod_small n) by lia. rewrite (Z.mod_small (n * 8)) by lia.
  destruct (Z.eqb_spec (n * 8) 0); [lia|]. apply Z.leb_le. lia.
Qed.

Lemma allocs_app (s : mem) ms ms' :
  allocs s (ms ++ ms') = allocs (allocs s ms) ms'.
Proof. revert s. induction ms as [|m ms IH]; intros s; simpl; [done|]. apply IH. Qed.

Lemma array_get_eq {A} (a : list A) (i : nat) x (s : mem) :
  a !! i = Some x -> array_get a (Z.of_nat i) s = Some (x, s).
Proof.
  intros Hi. unfold array_get.
  replace (Z.of_nat i <? 0) with false by (symmetry; apply Z.ltb_ge; lia).
  by rewrite Nat2Z.id, Hi.
Qed.

(** The loop that turns [W] consecutive points into matrices. *)
Lemma window_loop (s : mem) (pts : list WeatherPoint) (i W : nat) :
  (i + W <= length pts)%nat ->
  for_fold W 0 (fun t w =>
    point <- array_get pts (Z.of_nat i + t) ;;
    m <- weather_point_to_matrix (Some point) ;;
    ret (w ++ [m])) [] s =
  Some (map (fun t => Ptr (next s + t)%nat) (seq 0 W),
        allocs s (map point_matrix (take W (drop i pts)))).
Proof.
  intros Hlen.
  apply (for_fold_eq
           (fun k => allocs s (map point_matrix (take k (drop i pts))))
           (fun k => map (fun t => Ptr (next s + t)%nat) (seq 0 k))).
  intros k Hk. rewrite Z.add_0_l.
  destruct (lookup_lt_is_Some_2 pts (i + k)%nat ltac:(lia)) as (pt & Hpt).
  replace (Z.of_nat i + Z.of_nat k) with (Z.of_nat (i + k)) by lia.
  erewrite bind_eq by by apply array_get_eq.
  erewrite bind_eq by apply weather_point_to_matrix_eq.
  unfold ret. f_equal. f_equal.
  - rewrite seq_S, map_app. simpl. do 3 f_equal.
    rewrite next_allocs, length_map, length_take, length_drop. lia.
  - assert (Hd : drop i pts !! k = Some pt) by by rewrite lookup_drop.
    rewrite (take_S_r _ _ _ Hd), map_app. cbn [map]. by rewrite allocs_snoc.
Qed.

Lemma create_sequences_eq (ds : WeatherDataset) (W : nat) (n : nat) :
  0 < Z.of_nat W <= INT_MAX ->
  forall (i : nat) ins tgs (s : mem),
  (i + n + W <= length (ds_data ds))%nat ->
  create_sequences n (Z.of_nat i) ds (Z.of_nat W) ins tgs s =
  Some (Some (ins ++ seq_ins n (next s) W, tgs ++ seq_tgs n (next s) W),
        allocs s (map point_matrix (seq_pts n (drop i (ds_data ds)) W))).
Proof.
  intros HW. induction n as [|n IH]; intros i ins tgs s Hlen.
  { simpl. by rewrite !app_nil_r. }
  cbn [create_sequences]. rewrite (malloc_ok_array _ HW). cbn [negb].
  rewrite Nat2Z.id.
  erewrite bind_eq by (apply window_loop; lia).
  destruct (lookup_lt_is_Some_2 (ds_data ds) (i + W)%nat ltac:(lia)) as (pt & Hpt).
  replace (Z.of_nat i + Z.of_nat W) with (Z.of_nat (i + W)) by lia.
  erewrite bind_eq by by apply array_get_eq.
  erewrite bind_eq by apply weather_point_to_matrix_eq.
  replace (Z.of_nat i + 1) with (Z.of_nat (S i)) by lia.
  rewrite IH by lia.
  assert (Hd : drop i (ds_data ds) !! W = Some pt) by by rewrite lookup_drop.
  assert (Hn : next (allocs s (map point_matrix (take W (drop i (ds_data ds)))))
               = (next s + W)%nat).
  { rewrite next_allocs, length_map, length_take, length_drop. lia. }
  cbn [seq_ins seq_tgs seq_pts].
  rewrite (take_S_r _ _ _ Hd), !map_app, !allocs_app.
  cbn [map allocs next alloc_st]. rewrite Hn, drop_drop.
  replace (S (next s + W)) with (next s + S W)%nat by lia.
  replace (i + 1)%nat with (S i) by lia.
  by rewrite <- !app_assoc.
Qed.

Lemma pair_addr_inj (base W i t i' t' : nat) :
  (t <= W)%nat -> (t' <= W)%nat ->
  pair_addr base W i t = pair_addr base W i' t' -> i = i' /\ t = t'.
Proof.
  unfold pair_addr. intros Ht Ht' Heq.
  destruct (Nat.lt_trichotomy i i') as [Hlt|[->|Hlt]]; [|lia|].
  - pose proof (Nat.mul_le_mono_r (S i) i' (S W) Hlt). lia.
  - pose proof (Nat.mul_le_mono_r (S i') i (S W) Hlt). lia.
Qed.

Lemma length_seq_ins n base W : length (seq_ins n base W) = n.
Proof. revert base. induction n as [|n IH]; intros base; simpl; [done|]. by rewrite IH. Qed.

Lemma length_seq_tgs n base W : length (seq_tgs n base W) = n.
Proof. revert base. induction n as [|n IH]; intros base; simpl; [done|]. by rewrite IH. Qed.

Lemma seq_ins_lookup n base W (j t : nat) :
  (j < n)%nat -> (t < W)%nat ->
  exists w, seq_ins n base W !! j = Some w /\ length w = W /\
            w !! t = Some (Ptr (pair_addr base W j t)).
Proof.
  revert base j. induction n as [|n IH]; intros base j Hj Ht; [lia|].
  destruct j as [|j]; simpl.
  - eexists. split; [reflexivity|]. split; [by rewrite length_map, length_seq|].
    rewrite list_lookup_fmap, lookup_seq_lt by done. simpl.
    unfold pair_addr. do 2 f_equal. lia.
  - destruct (IH (base + S W)%nat j ltac:(lia) Ht) as (w & Hw & Hl & Hwt).
    exists w. split; [done|]. split; [done|]. rewrite Hwt.
    unfold pair_addr. do 2 f_equal. lia.
Qed.

Lemma seq_tgs_lookup n base W (j : nat) :
  (j < n)%nat -> seq_tgs n base W !! j = Some (Ptr (pair_addr base W j W)).
Proof.
  revert base j. induction n as [|n IH]; intros base j Hj; [lia|].
  destruct j as [|j]; simpl.
  - unfold pair_addr. do 2 f_equal. lia.
  - rewrite IH by lia. unfold pair_addr. do 2 f_equal. lia.
Qed.

Lemma length_seq_pts n (pts : list WeatherPoint) W :
  (n + W <= length pts)%nat -> length (seq_pts n pts W) = (n * S W)%nat.
Proof.
  revert pts. induction n as [|n IH]; intros pts Hlen; [done|].
  simpl. rewrite length_app, length_take, IH by (rewrite length_drop; lia). lia.
Qed.

Lemma seq_pts_lookup n (pts : list WeatherPoint) W (j t : nat) :
  (j < n)%nat -> (t <= W)%nat -> (j + W < length pts)%nat ->
  seq_pts n pts W !! (j * S W + t)%nat = pts !! (j + t)%nat.
Proof.
  revert pts j. induction n as [|n IH]; intros pts j Hj Ht Hlen; [lia|].
  simpl. destruct j as [|j].
  - rewrite lookup_app_l by (rewrite length_take; lia).
    rewrite lookup_take_lt by lia. reflexivity.
  - rewrite lookup_app_r by (rewrite length_take; lia).
    rewrite length_take.
    replace (S j * S W + t - S W `min` length pts)%nat with (j * S W + t)%nat by lia.
    rewrite IH by (rewrite ?length_drop; lia).
    rewrite lookup_drop. f_equal; lia.
Qed.

(** C5 (as the code has it). [create_training_data] returns [NULL], and
    leaves memory as it was, when [sequence_length <= 0] or the dataset
    holds no more than [sequence_length] points.  Otherwise it returns
    [size - sequence_length] training pairs: input [t] of pair [i] is a new
    matrix that holds point [i + t] of the dataset, the target of pair [i] a
    new matrix that holds point [i + sequence_length]; the matrices are all
    at different addresses, and the objects that were in memory are as they
    were. *)
Theorem create_training_data_pairs (s : mem) (ds : WeatherDataset) (W : Z) :
  mem_wf s ->
  ds_size ds = Z.of_nat (length (ds_data ds)) -> ds_size ds <= INT_MAX ->
  (W <= 0 \/ ds_size ds <= W ->
   create_training_data (Some ds) W s = Some (None, s)) /\
  (0 < W < ds_size ds ->
   exists d s',
     create_training_data (Some ds) W s = Some (Some d, s') /\
     num_sequences d = ds_size ds - W /\ td_sequence_length d = W /\
     length (inputs d) = Z.to_nat (ds_size ds - W) /\
     length (targets d) = Z.to_nat (ds_size ds - W) /\
     (forall i t : nat, Z.of_nat i < ds_size ds - W -> Z.of_nat t < W ->
        exists w p,
          inputs d !! i = Some w /\ length w = Z.to_nat W /\
          w !! t = Some (Ptr (pair_addr (next s) (Z.to_nat W) i t)) /\
          ds_data ds !! (i + t)%nat = Some p /\
          heap s !! pair_addr (next s) (Z.to_nat W) i t = None /\
          heap s' !! pair_addr (next s) (Z.to_nat W) i t = Some (point_matrix p)) /\
     (forall i : nat, Z.of_nat i < ds_size ds - W ->
        exists p,
          targets d !! i = Some (Ptr (pair_addr (next s) (Z.to_nat W) i (Z.to_nat W))) /\
          ds_data ds !! (i + Z.to_nat W)%nat = Some p /\
          heap s !! pair_addr (next s) (Z.to_nat W) i (Z.to_nat W) = None /\
          heap s' !! pair_addr (next s) (Z.to_nat W) i (Z.to_nat W)
            = Some (point_matrix p)) /\
     (forall i t i' t' : nat,
        (t <= Z.to_nat W)%nat -> (t' <= Z.to_nat W)%nat ->
        pair_addr (next s) (Z.to_nat W) i t = pair_addr (next s) (Z.to_nat W) i' t' ->
        i = i' /\ t = t') /\
     preserved s s').
Proof.
  intros Hwf Hsz Hmax. unfold create_training_data. split.
  { intros Hfail.
    replace ((W <=? 0) || (ds_size ds <=? W)) with true; [done|].
    symmetry. apply orb_true_iff. rewrite !Z.leb_le. exact Hfail. }
  intros HW.
  replace ((W <=? 0) || (ds_size ds <=? W)) with false
    by (symmetry; apply orb_false_iff; rewrite !Z.leb_gt; lia).
  change (malloc_ok sizeof_TrainingData) with true. cbn [negb].
  rewrite malloc_ok_array by lia. cbn [negb].
  set (Wn := Z.to_nat W). set (n := Z.to_nat (ds_size ds - W)).
  assert (Hlen : (n + Wn = length (ds_data ds))%nat) by lia.
  pose proof (create_sequences_eq ds Wn n ltac:(lia) 0%nat [] [] s ltac:(lia))
    as Hrun.
  replace (Z.of_nat Wn) with W in Hrun by lia. cbn [Z.of_nat] in Hrun.
  erewrite bind_eq by exact Hrun. rewrite drop_0, !app_nil_l. unfold ret.
  set (ms := map point_matrix (seq_pts n (ds_data ds) Wn)).
  assert (Hms : forall i t : nat, (i < n)%nat -> (t <= Wn)%nat ->
            exists p, ds_data ds !! (i + t)%nat = Some p /\
              heap s !! pair_addr (next s) Wn i t = None /\
              heap (allocs s ms) !! pair_addr (next s) Wn i t
                = Some (point_matrix p)).
  { intros i t Hi Ht.
    destruct (lookup_lt_is_Some_2 (ds_data ds) (i + t)%nat ltac:(lia)) as (p & Hp).
    exists p. split; [done|]. split.
    - destruct (heap s !! pair_addr (next s) Wn i t) as [m|] eqn:E; [|done].
      pose proof (mem_wf_lt _ _ _ Hwf E). unfold pair_addr in *. lia.
    - unfold pair_addr. rewrite <- Nat.add_assoc. apply heap_allocs_new.
      unfold ms. rewrite list_lookup_fmap, seq_pts_lookup by lia.
      by rewrite Hp. }
  eexists _, _. split; [reflexivity|]. cbn [num_sequences td_sequence_length inputs targets].
  split; [done|]. split; [done|].
  split; [apply length_seq_ins|]. split; [apply length_seq_tgs|].
  split.
  { intros i t Hi Ht.
    destruct (seq_ins_lookup n (next s) Wn i t ltac:(lia) ltac:(lia))
      as (w & Hw & Hl & Hwt).
    destruct (Hms i t ltac:(lia) ltac:(lia)) as (p & Hp & Hold & Hnew).
    by exists w, p. }
  split.
  { intros i Hi.
    destruct (Hms i Wn ltac:(lia) ltac:(lia)) as (p & Hp & Hold & Hnew).
    exists p. split; [apply seq_tgs_lookup; lia|done]. }
  split; [intros i t i' t'; apply pair_addr_inj|].
  intros l m Hl. rewrite heap_allocs_old; [done|]. by apply (mem_wf_lt _ _ _ Hwf Hl).
Qed.

(** ** lstm.c: creating a network *)

Lemma refill_same_shapes (l : nat) (s S0 : mem) :
  mem_wf s -> refill l s S0 -> same_shapes s S0.
Proof.
  intros Hwf (Hn & Hf & Hlk & (D & D' & HD & HD' & Hr & Hc & HwfD) & Hother).
  split.
  { intros k m Hk. rewrite Hn. destruct (decide (k = l)) as [->|Hne].
    - rewrite HD' in Hk. injection Hk as <-. split; [|done].
      by apply (mem_wf_lt _ _ _ Hwf HD).
    - rewrite Hother in Hk by done. by apply Hwf. }
  split; [done|]. split; [done|]. split; [done|].
  intros k m Hk. destruct (decide (k = l)) as [->|Hne].
  - rewrite HD in Hk. injection Hk as <-. by exists D'.
  - exists m. by rewrite Hother.
Qed.

Lemma same_shapes_refl (s : mem) : mem_wf s -> same_shapes s s.
Proof. intros Hwf. split; [done|]. repeat split. intros l D HD. by exists D. Qed.

Lemma same_shapes_trans (s1 s2 s3 : mem) :
  same_shapes s1 s2 -> same_shapes s2 s3 -> same_shapes s1 s3.
Proof.
  intros (_ & Hn & Hf & Hl & H12) (Hwf & Hn' & Hf' & Hl' & H23).
  split; [done|]. split; [congruence|]. split; [congruence|].
  split; [congruence|].
  intros l D HD. destruct (H12 _ _ HD) as (D' & HD' & Hr & Hc).
  destruct (H23 _ _ HD') as (D'' & HD'' & Hr' & Hc').
  exists D''. split; [done|]. split; congruence.
Qed.

Lemma refill_refl (l : nat) (s : mem) D :
  mem_wf s -> heap s !! l = Some D -> refill l s s.
Proof.
  intros Hwf HD. destruct (Hwf _ _ HD) as [_ HwfD].
  split; [done|]. split; [done|]. split; [done|]. split; [|done].
  by exists D, D.
Qed.

(** One random entry stored in the matrix at [l]. *)
Lemma random_entry (l : nat) (s S0 : mem) D (i j : nat) (g : Z -> F) :
  heap s !! l = Some D ->
  refill l s S0 -> (i < Z.to_nat (rows D))%nat -> (j < Z.to_nat (cols D))%nat ->
  runs (n <- rand ;; elem_set l (Z.of_nat i) (Z.of_nat j) (g n)) S0
       (fun _ S1 => refill l s S1).
Proof.
  intros HD (Hn & Hf & Hlk & (D0 & D' & HD0 & HD' & Hr & Hc & HwfD) & Hother)
         Hi Hj.
  rewrite HD in HD0. injection HD0 as <-.
  destruct HwfD as [Hok Hsh].
  eapply runs_bind; [reflexivity|].
  set (S1 := Mem (heap S0) (next S0) (S (rand_pos S0)) (files S0) (locked S0)).
  eapply runs_eq.
  { apply (elem_set_eq S1 l D' i j); [exact HD'|].
    apply (shape_data_get _ _ _ i j Hsh); congruence. }
  rewrite with_data_upd.
  split; [done|]. split; [done|]. split; [done|]. split.
  - exists D, (mkMatrix (rows D') (cols D') (data_set (data D') i j (g (rand_seq (rand_pos S0))))).
    split; [done|]. split; [apply heap_upd_eq|]. split; [done|]. split; [done|].
    split; [done|]. by apply shape_data_set.
  - intros k Hk. rewrite heap_upd_ne by done. by apply Hother.
Qed.

Lemma matrix_random_run (s : mem) (l : nat) D (lo hi : F) :
  mem_wf s -> heap s !! l = Some D ->
  runs (matrix_random (Ptr l) lo hi) s (fun _ S0 => refill l s S0).
Proof.
  intros Hwf HD. unfold matrix_random.
  eapply runs_bind; [by apply get_rows_eq|].
  eapply runs_bind; [by apply get_cols_eq|].
  unfold for_range. rewrite !Z.sub_0_r.
  eapply runs_weaken.
  { apply (for_loop_runs (fun _ S0 => refill l s S0)).
    { by apply (refill_refl l s D). }
    intros i S1 Hi HS1. rewrite Z.add_0_l.
    eapply runs_weaken.
    { apply (for_loop_runs (fun _ S0 => refill l s S0)); [exact HS1|].
      intros j S2 Hj HS2. rewrite Z.add_0_l.
      by apply (random_entry l s S2 D i j
                  (fun n => fadd lo (fmul (fdiv (f_of_int n) (f_of_int RAND_MAX))
                                          (fsub hi lo)))). }
    intros u S2 HS2. exact HS2. }
  intros u S1 HS1. exact HS1.
Qed.

Lemma initialize_weights_run (s : mem) (l : nat) D (scale : F) :
  mem_wf s -> heap s !! l = Some D -> int_range (rows D + cols D) ->
  runs (initialize_weights (Ptr l) scale) s (fun _ S0 => refill l s S0).
Proof.
  intros Hwf HD [Hlo Hhi]. unfold initialize_weights.
  eapply runs_bind; [by apply get_rows_eq|].
  eapply runs_bind; [by apply get_cols_eq|].
  unfold int_add.
  rewrite (proj2 (Z.leb_le _ _) Hlo), (proj2 (Z.leb_le _ _) Hhi). cbn [andb].
  eapply runs_bind; [reflexivity|].
  by apply (matrix_random_run s l D).
Qed.

Lemma runs_seq {A B} (c : M A) (k : A -> M B) (s : mem)
    (P : A -> mem -> Prop) (Q : B -> mem -> Prop) :
  runs c s P -> (forall a s', P a s' -> runs (k a) s' Q) ->
  runs (bind c k) s Q.
Proof.
  intros (a & s' & Hc & HP) Hk. eapply runs_bind; [exact Hc|]. by apply Hk.
Qed.

Lemma refill_step {B} (S0 Sk : mem) (l : nat) (Z0 : Matrix) (c : M unit)
    (rest : M B) (Q : B -> mem -> Prop) :
  same_shapes S0 Sk -> heap S0 !! l = Some Z0 ->
  (forall D', heap Sk !! l = Some D' -> rows D' = rows Z0 ->
              cols D' = cols Z0 -> mem_wf Sk ->
              runs c Sk (fun _ S' => refill l Sk S')) ->
  (forall Sk', same_shapes S0 Sk' -> runs rest Sk' Q) ->
  runs (c ;; rest) Sk Q.
Proof.
  intros Hss HZ Hc Hrest.
  pose proof Hss as (Hwfk & _ & _ & _ & Hsh).
  destruct (Hsh _ _ HZ) as (D' & HD' & Hr' & Hc').
  eapply runs_seq; [by apply (Hc D')|].
  intros [] Sk' Hre. cbv beta. apply Hrest.
  apply (same_shapes_trans _ Sk); [done|]. by apply (refill_same_shapes l).
Qed.

Lemma matrix_zero_run (s : mem) (l : nat) D :
  mem_wf s -> heap s !! l = Some D ->
  runs (matrix_zero (Ptr l)) s (fun _ S' => refill l s S').
Proof.
  intros Hwf HD. pose proof (mem_wf_mat _ _ _ Hwf HD) as HwfD.
  eapply runs_eq; [by apply matrix_zero_eq|].
  split; [done|]. split; [done|]. split; [done|]. split.
  - exists D, (mat_zero (rows D) (cols D)). split; [done|].
    split; [apply heap_upd_eq|]. split; [done|]. split; [done|].
    apply mat_wf_zero. by destruct HwfD.
  - intros k Hk. by rewrite heap_upd_ne.
Qed.

Lemma elem_set_refill (l : nat) (s S0 : mem) D (i j : nat) (v : F) :
  heap s !! l = Some D ->
  refill l s S0 -> (i < Z.to_nat (rows D))%nat -> (j < Z.to_nat (cols D))%nat ->
  runs (elem_set l (Z.of_nat i) (Z.of_nat j) v) S0 (fun _ S1 => refill l s S1).
Proof.
  intros HD (Hn & Hf & Hlk & (D0 & D' & HD0 & HD' & Hr & Hc & HwfD) & Hother)
         Hi Hj.
  rewrite HD in HD0. injection HD0 as <-.
  destruct HwfD as [Hok Hsh].
  eapply runs_eq.
  { apply (elem_set_eq S0 l D' i j); [exact HD'|].
    apply (shape_data_get _ _ _ i j Hsh); congruence. }
  rewrite with_data_upd.
  split; [done|]. split; [done|]. split; [done|]. split.
  - exists D, (mkMatrix (rows D') (cols D') (data_set (data D') i j v)).
    split; [done|]. split; [apply heap_upd_eq|]. split; [done|]. split; [done|].
    split; [done|]. by apply shape_data_set.
  - intros k Hk. rewrite heap_upd_ne by done. by apply Hother.
Qed.

(** The loop of [lstm_cell_create] that sets the forget bias to one. *)
Lemma ones_run (s : mem) (l : nat) D (n : Z) :
  mem_wf s -> heap s !! l = Some D -> rows D = n -> cols D = 1 ->
  runs (for_range 0 n (fun i => l' <- deref (Ptr l) ;; elem_set l' i 0 fone)) s
       (fun _ S' => refill l s S').
Proof.
  intros Hwf HD Hr Hc. unfold for_range. rewrite Z.sub_0_r.
  eapply runs_weaken.
  { apply (for_loop_runs (fun _ S0 => refill l s S0)).
    { by apply (refill_refl l s D). }
    intros i S1 Hi HS1. rewrite Z.add_0_l.
    eapply runs_bind; [reflexivity|].
    apply (elem_set_refill l s S1 D i 0); [done|done|lia|lia]. }
  intros u S1 HS1. exact HS1.
Qed.

Lemma cell_create_run (s : mem) (isz hsz : Z) :
  mem_wf s -> 0 < isz -> 0 < hsz ->
  hsz + isz <= INT_MAX -> hsz + hsz <= INT_MAX ->
  runs (lstm_cell_create isz hsz) s (fun r S0 =>
    is_Some r /\ mem_wf S0 /\ next S0 = (next s + 18)%nat /\
    files S0 = files s /\ locked S0 = locked s).
Proof.
  intros Hwf Hi Hh Hhi Hhh. unfold lstm_cell_create.
  change (malloc_ok sizeof_LSTMCell) with true. cbn [negb].
  assert (Hr : forall z, 0 < z -> z <= INT_MAX -> int_range z)
    by (unfold int_range, INT_MIN, INT_MAX; intros; lia).
  assert (Hmax : INT_MAX = 2147483647) by reflexivity.
  assert (Hok1 : create_ok hsz isz = true) by (apply create_ok_pos; try apply Hr; lia).
  assert (Hok2 : create_ok hsz hsz = true) by (apply create_ok_pos; try apply Hr; lia).
  assert (Hok3 : create_ok hsz 1 = true) by (apply create_ok_pos; try apply Hr; lia).
  do 18 (eapply runs_bind; [by apply matrix_create_eq|]).
  cbn [is_null orb].
  match goal with |- runs _ ?S1 _ => set (S0 := S1) end.
  assert (HwfS0 : mem_wf S0).
  { unfold S0. repeat (apply mem_wf_alloc; [|by apply mat_wf_zero]). exact Hwf. }
  assert (Hss : same_shapes S0 S0) by by apply same_shapes_refl.
  assert (HnS0 : next S0 = (next s + 18)%nat) by (unfold S0; nlia).
  assert (Hir1 : int_range (hsz + isz)) by (unfold int_range, INT_MIN; lia).
  assert (Hir2 : int_range (hsz + hsz)) by (unfold int_range, INT_MIN; lia).
  revert Hss. generalize S0 at 2 3 as Sk. intros Sk Hss.
  do 8 (match goal with
        | |- runs (bind (initialize_weights (Ptr ?l) _) _) _ _ =>
            eapply (refill_step S0 Sk l)
        end;
        [ exact Hss | unfold S0; rewrite ?next_alloc_st; heap_look
        | intros D' HD' Hr' Hc' HwfSk;
          apply (initialize_weights_run Sk _ D'); [done|done|];
          rewrite Hr', Hc'; cbn [rows cols mat_zero mat_tab]; done
        | clear Sk Hss; intros Sk Hss]).
  match goal with
  | |- runs (bind (matrix_zero (Ptr ?l)) _) _ _ => eapply (refill_step S0 Sk l)
  end;
    [ exact Hss | unfold S0; rewrite ?next_alloc_st; heap_look
    | intros D' HD' Hr' Hc' HwfSk; by apply (matrix_zero_run Sk _ D')
    | clear Sk Hss; intros Sk Hss].
  match goal with
  | |- runs (bind (for_range _ _ (fun _ => bind (deref (Ptr ?l)) _)) _) _ _ =>
      eapply (refill_step S0 Sk l)
  end;
    [ exact Hss | unfold S0; rewrite ?next_alloc_st; heap_look
    | intros D' HD' Hr' Hc' HwfSk; by apply (ones_run Sk _ D')
    | clear Sk Hss; intros Sk Hss].
  do 5 (match goal with
        | |- runs (bind (matrix_zero (Ptr ?l)) _) _ _ =>
            eapply (refill_step S0 Sk l)
        end;
        [ exact Hss | unfold S0; rewrite ?next_alloc_st; heap_look
        | intros D' HD' Hr' Hc' HwfSk; by apply (matrix_zero_run Sk _ D')
        | clear Sk Hss; intros Sk Hss]).
  apply runs_ret. destruct Hss as (HwfSk & Hn & Hf & Hl & _).
  split; [by eexists|]. split; [done|]. split; [congruence|].
  split; [by rewrite Hf|by rewrite Hl].
Qed.

Lemma network_create_run (s : mem) (isz hsz osz : Z) :
  mem_wf s -> 0 < isz -> 0 < hsz -> 0 < osz ->
  hsz + isz <= INT_MAX -> hsz + hsz <= INT_MAX -> osz + hsz <= INT_MAX ->
  runs (lstm_network_create isz hsz osz) s (fun r s0 =>
    exists net0 W0 B0,
      r = Some net0 /\ mem_wf s0 /\ files s0 = files s /\
      locked s0 = locked s /\
      W_output net0 = Ptr (next s + 18)%nat /\
      b_output net0 = Ptr (next s + 19)%nat /\
      heap s0 !! (next s + 18)%nat = Some W0 /\ dims W0 = (osz, hsz) /\
      heap s0 !! (next s + 19)%nat = Some B0 /\ dims B0 = (osz, 1) /\
      n_input_size net0 = isz /\ n_hidden_size net0 = hsz /\
      output_size net0 = osz /\ norm_params net0 = None /\
      is_Some (lstm_layer net0)).
Proof.
  intros Hwf Hi Hh Ho Hhi Hhh Hoh. unfold lstm_network_create.
  change (malloc_ok sizeof_LSTMNetwork) with true. cbn [negb].
  assert (Hr : forall z, 0 < z -> z <= INT_MAX -> int_range z)
    by (unfold int_range, INT_MIN, INT_MAX; intros; lia).
  assert (Hmax : INT_MAX = 2147483647) by reflexivity.
  assert (Hok1 : create_ok osz hsz = true) by (apply create_ok_pos; try apply Hr; lia).
  assert (Hok2 : create_ok osz 1 = true) by (apply create_ok_pos; try apply Hr; lia).
  eapply runs_seq; [by apply cell_create_run|].
  intros r Sc ([c ->] & HwfSc & HnSc & HfSc & HlSc). cbv beta iota.
  do 2 (eapply runs_bind; [by apply matrix_create_eq|]).
  cbn [is_null orb].
  match goal with |- runs _ ?S1 _ => set (S0 := S1) end.
  assert (HwfS0 : mem_wf S0).
  { unfold S0. repeat (apply mem_wf_alloc; [|by apply mat_wf_zero]). exact HwfSc. }
  assert (Hss : same_shapes S0 S0) by by apply same_shapes_refl.
  assert (Hw0 : heap S0 !! next Sc = Some (mat_zero osz hsz))
    by (unfold S0; heap_look).
  assert (Hb0 : heap S0 !! next (alloc_st Sc (mat_zero osz hsz))
                = Some (mat_zero osz 1))
    by (unfold S0; rewrite ?next_alloc_st; heap_look).
  revert Hss. generalize S0 at 2 3 as Sk. intros Sk Hss.
  eapply (refill_step S0 Sk (next Sc));
    [ exact Hss | exact Hw0
    | intros D' HD' Hr' Hc' HwfSk;
      apply (initialize_weights_run Sk _ D'); [done|done|];
      rewrite Hr', Hc'; cbn [rows cols mat_zero mat_tab];
      unfold int_range, INT_MIN; lia
    | clear Sk Hss; intros Sk Hss].
  pose proof Hss as (HwfSk & Hn & Hf & Hl & Hsh).
  destruct (Hsh _ _ Hw0) as (W0 & HW0 & HW0r & HW0c).
  destruct (Hsh _ _ Hb0) as (B0 & HB0 & HB0r & HB0c).
  rewrite next_alloc_st in HB0.
  eapply runs_bind; [by apply (matrix_zero_eq Sk _ B0 HB0 (mem_wf_mat _ _ _ HwfSk HB0))|].
  apply runs_ret.
  eexists _, W0, (mat_zero (rows B0) (cols B0)).
  split; [reflexivity|]. cbn [W_output b_output n_input_size n_hidden_size
                              output_size norm_params lstm_layer].
  split.
  { apply (mem_wf_upd_at _ _ B0); [done|done|].
    apply mat_wf_zero. by destruct (mem_wf_mat _ _ _ HwfSk HB0). }
  split; [etrans; [exact Hf|exact HfSc]|].
  split; [etrans; [exact Hl|exact HlSc]|].
  rewrite next_alloc_st, HnSc. rewrite HnSc in HW0.
  split; [reflexivity|]. split; [f_equal; lia|].
  split; [by rewrite heap_upd_ne by lia|].
  split; [unfold dims; by rewrite HW0r, HW0c|].
  split; [replace (next s + 19)%nat with (S (next s + 18)) by lia; apply heap_upd_eq|].
  split; [unfold dims; cbn [rows cols mat_zero mat_tab]; by rewrite HB0r, HB0c|].
  repeat split; done.
Qed.

(** ** lstm.c: model files *)

Lemma bind_assoc {A B C} (c : M A) (k1 : A -> M B) (k2 : B -> M C) (s : mem) :
  bind (bind c k1) k2 s = bind c (fun a => bind (k1 a) k2) s.
Proof. unfold bind. by destruct (c s) as [[a s1]|]. Qed.

Lemma fopen_wb_eq (s : mem) (name : string) :
  name ∉ locked s -> fopen_wb name s = Some (true, with_file s name []).
Proof. intros Hn. unfold fopen_wb. by rewrite decide_False. Qed.

Lemma fwrite_eq (s : mem) (name : string) (old ds : list datum) :
  fwrite name ds (with_file s name old) =
  Some (tt, with_file s name (old ++ ds)).
Proof.
  unfold fwrite, with_file. cbn [files heap next rand_pos locked].
  by rewrite lookup_insert_eq, insert_insert_eq.
Qed.

Lemma row_prefix_eq (s : mem) (w : nat) D (i n : nat) row :
  heap s !! w = Some D -> data D !! i = Some row -> (n <= length row)%nat ->
  row_prefix w (Z.of_nat i) (Z.of_nat n) s = Some (take n row, s).
Proof.
  intros HD Hrow Hn. unfold row_prefix. rewrite Nat2Z.id.
  apply (for_fold_eq (fun _ => s) (fun k => take k row)).
  intros k Hk. rewrite Z.add_0_l.
  destruct (lookup_lt_is_Some_2 row k ltac:(lia)) as (x & Hx).
  erewrite bind_eq
    by (apply (elem_get_eq _ _ D); [done|]; unfold data_get; by rewrite Hrow).
  unfold ret. by rewrite (take_S_r _ _ _ Hx).
Qed.

Lemma column_lookup (m : Matrix) r (i : nat) :
  shape (data m) r 1 -> (i < r)%nat ->
  exists x, data m !! i = Some [x] /\ column m !! i = Some x /\
            data_get (data m) i 0 = Some x.
Proof.
  intros Hs Hi.
  destruct (lookup_lt_is_Some_2 (data m) i) as (row & Hrow); [destruct Hs; lia|].
  destruct (shape_lookup _ _ _ _ _ Hs Hrow) as [_ Hlen].
  destruct row as [|x [|y row]]; try done.
  exists x. split; [done|]. split.
  - unfold column. by rewrite list_lookup_fmap, Hrow.
  - unfold data_get. by rewrite Hrow.
Qed.

Lemma length_column (m : Matrix) : length (column m) = length (data m).
Proof. unfold column. by rewrite length_map. Qed.

Lemma save_eq (s : mem) (net : LSTMNetwork) (name : string) (w b : nat)
    (Wo bo : Matrix) :
  name ∉ locked s ->
  W_output net = Ptr w -> b_output net = Ptr b ->
  heap s !! w = Some Wo -> heap s !! b = Some bo ->
  mat_wf Wo -> mat_wf bo ->
  dims Wo = (output_size net, n_hidden_size net) ->
  dims bo = (output_size net, 1) ->
  0 <= n_hidden_size net <= INT_MAX ->
  save_lstm_model (Some net) (Some name) s =
  Some (0, with_file s name (model_file net Wo bo)).
Proof.
  intros Hn Ew Eb Hw Hb [_ HsW] [_ Hsb] HdW Hdb Hh.
  unfold dims in HdW, Hdb. injection HdW as HW1 HW2. injection Hdb as Hb1 Hb2.
  rewrite HW1, HW2 in HsW. rewrite Hb1, Hb2 in Hsb.
  unfold save_lstm_model.
  erewrite bind_eq by by apply fopen_wb_eq. cbn [negb].
  do 5 (erewrite bind_eq by apply fwrite_eq). cbn [app].
  set (hdr := [DInt (n_input_size net); DInt (n_hidden_size net);
               DInt (output_size net); DDouble (learning_rate net);
               DInt (sequence_length net)]).
  rewrite Ew, Eb. unfold for_range. rewrite !Z.sub_0_r.
  set (osz := Z.to_nat (output_size net)).
  assert (Hmax : INT_MAX = 2147483647) by reflexivity.
  erewrite bind_eq.
  2:{ apply (for_loop_eq (fun k => with_file s name
               (hdr ++ concat (map (map DDouble) (take k (data Wo)))))).
      intros k Hk. rewrite Z.add_0_l.
      destruct (lookup_lt_is_Some_2 (data Wo) k) as (row & Hrow);
        [destruct HsW; lia|].
      destruct (shape_lookup _ _ _ _ _ HsW Hrow) as [_ Hlen].
      erewrite bind_eq by reflexivity.
      unfold size_of_int. rewrite Z.mod_small by lia.
      rewrite <- (Z2Nat.id (n_hidden_size net)) by lia.
      erewrite bind_eq by (apply (row_prefix_eq _ _ Wo k _ row); [done|done|lia]).
      rewrite fwrite_eq. rewrite <- Hlen, firstn_all.
      rewrite (take_S_r _ _ _ Hrow), map_app, concat_app. cbn [map concat].
      by rewrite app_nil_r, <- app_assoc. }
  cbv beta.
  assert (Hrows : take osz (data Wo) = data Wo).
  { apply take_ge. destruct HsW. lia. }
  rewrite Hrows.
  replace (hdr ++ concat (map (map DDouble) (data Wo)))
    with ((hdr ++ concat (map (map DDouble) (data Wo))) ++
          map DDouble (take 0 (column bo))) by apply app_nil_r.
  erewrite bind_eq.
  2:{ apply (for_loop_eq (fun k => with_file s name
               ((hdr ++ concat (map (map DDouble) (data Wo))) ++
                map DDouble (take k (column bo))))).
      { intros k Hk. rewrite Z.add_0_l.
        destruct (column_lookup bo _ k Hsb Hk) as (x & Hrow & Hcol & Hget).
        erewrite bind_eq by reflexivity.
        erewrite bind_eq by (apply (elem_get_eq _ _ bo k 0); done).
        rewrite fwrite_eq.
        rewrite (take_S_r _ _ _ Hcol), map_app. cbn [map].
        by rewrite <- app_assoc. } }
  cbv beta.
  assert (Hcol : take osz (column bo) = column bo).
  { apply take_ge. rewrite length_column. destruct Hsb. lia. }
  rewrite Hcol. unfold model_file. fold hdr.
  destruct (norm_params net) as [p|]; cbn [norm_items].
  - rewrite bind_assoc.
    do 2 (erewrite bind_eq by apply fwrite_eq). unfold ret.
    do 3 f_equal. rewrite <- !app_assoc. reflexivity.
  - erewrite bind_eq by apply fwrite_eq. unfold ret.
    do 3 f_equal. rewrite <- !app_assoc. reflexivity.
Qed.

Lemma alter_insert {A} (f : A -> A) (d : list A) (i : nat) (r : A) :
  alter f i (<[i := r]> d) = <[i := f r]> d.
Proof.
  revert i. induction d as [|x d IH]; intros [|i]; try done.
  cbn. f_equal. apply IH.
Qed.

Lemma insert_next {A} (xs row : list A) (k : nat) (x : A) :
  xs !! k = Some x -> (k < length row)%nat ->
  <[k := x]> (take k xs ++ drop k row) = take (S k) xs ++ drop (S k) row.
Proof.
  intros Hx Hk. pose proof (lookup_lt_Some _ _ _ Hx) as Hlt.
  destruct (lookup_lt_is_Some_2 row k Hk) as (y & Hy).
  rewrite (take_S_r _ _ _ Hx), <- app_assoc. simpl.
  rewrite (drop_S _ _ _ Hy).
  rewrite insert_app_r_alt by (rewrite length_take; lia).
  rewrite length_take.
  replace (k - k `min` length xs)%nat with 0%nat by lia. reflexivity.
Qed.

Lemma matrix_eta (D : Matrix) : mkMatrix (rows D) (cols D) (data D) = D.
Proof. by destruct D. Qed.

(** The doubles read go to row [i], which they fill. *)
Lemma store_row_eq (s : mem) (w : nat) D (i : nat) (row xs : list F) :
  heap s !! w = Some D -> data D !! i = Some row -> length xs = length row ->
  store_row w (Z.of_nat i) xs s =
  Some (tt, upd s w (mkMatrix (rows D) (cols D) (<[i := xs]> (data D)))).
Proof.
  intros HD Hrow Hlen. unfold store_row, for_range.
  rewrite Z.sub_0_r, Nat2Z.id.
  pose proof (lookup_lt_Some _ _ _ Hrow) as Hi.
  set (St := fun k => upd s w (mkMatrix (rows D) (cols D)
                        (<[i := take k xs ++ drop k row]> (data D)))).
  assert (H0' : St 0%nat = s).
  { unfold St. rewrite take_0, drop_0. cbn [app].
    rewrite (list_insert_id _ _ _ Hrow), matrix_eta. by apply upd_same. }
  assert (Hn : St (length xs) = upd s w (mkMatrix (rows D) (cols D)
                                          (<[i := xs]> (data D)))).
  { unfold St. rewrite firstn_all, Hlen, drop_all, app_nil_r. reflexivity. }
  rewrite <- Hn, <- H0' at 1.
  apply (for_loop_eq St). intros k Hk. rewrite Z.add_0_l.
  destruct (lookup_lt_is_Some_2 xs k Hk) as (x & Hx).
  erewrite bind_eq by by apply array_get_eq.
  unfold St at 1.
  erewrite elem_set_eq.
  2:{ apply heap_upd_eq. }
  2:{ cbn [data]. unfold data_get. rewrite list_lookup_insert_eq by done.
      apply lookup_lt_is_Some_2. rewrite length_app, length_take, length_drop. lia. }
  rewrite with_data_upd, upd_upd. cbn [rows cols data]. unfold St, data_set.
  rewrite alter_insert, insert_next by (done || lia). reflexivity.
Qed.

Lemma fread_doubles_app (xs : list F) (rest : list datum) :
  fread_doubles (length xs) (map DDouble xs ++ rest) = (xs, rest).
Proof.
  induction xs as [|x xs IH]; [done|]. cbn. by rewrite IH.
Qed.

Lemma shape_insert (d : list (list F)) r c (i : nat) (row : list F) :
  shape d r c -> length row = c -> shape (<[i := row]> d) r c.
Proof.
  intros [Hlen Hall] Hrow. split; [by rewrite length_insert|].
  apply Forall_insert; done.
Qed.

Lemma take_insert_next {A} (d : list A) (i : nat) (r : A) :
  (i < length d)%nat -> take (S i) (<[i := r]> d) = take i d ++ [r].
Proof.
  intros Hi.
  rewrite (take_S_r _ _ r) by by apply list_lookup_insert_eq.
  by rewrite take_insert_ge.
Qed.

Lemma load_rows_eq (net : LSTMNetwork) (w : nat) (hsz : Z) (hn : nat) :
  W_output net = Ptr w -> size_of_int hsz = Z.of_nat hn ->
  forall (n i : nat) D (rws : list (list F)) rest (s : mem),
  heap s !! w = Some D -> shape (data D) (i + n) hn ->
  Forall (fun r => length r = hn) rws -> length rws = n ->
  load_rows n (Z.of_nat i) net hsz (concat (map (map DDouble) rws) ++ rest) s =
  Some (Some rest,
        upd s w (mkMatrix (rows D) (cols D) (take i (data D) ++ rws))).
Proof.
  intros Ew Hsz. induction n as [|n IH]; intros i D rws rest s HD Hsh Hall Hlen.
  { destruct rws; [|done]. cbn. rewrite app_nil_r.
    rewrite take_ge by (destruct Hsh; lia).
    by rewrite matrix_eta, (upd_same _ _ _ HD). }
  destruct rws as [|r rws]; [done|].
  apply Forall_cons in Hall as [Hr Hall]. injection Hlen as Hlen.
  cbn [load_rows map concat]. rewrite Ew, Hsz, Nat2Z.id.
  erewrite bind_eq by reflexivity.
  rewrite <- app_assoc, <- Hr, fread_doubles_app.
  destruct (lookup_lt_is_Some_2 (data D) i) as (row & Hrow); [destruct Hsh; lia|].
  destruct (shape_lookup _ _ _ _ _ Hsh Hrow) as [_ Hrowlen].
  erewrite bind_eq by (apply (store_row_eq _ _ D i row); [done|done|lia]).
  rewrite Hr, Z.eqb_refl. cbn [negb].
  replace (Z.of_nat i + 1) with (Z.of_nat (S i)) by lia.
  rewrite (IH (S i) (mkMatrix (rows D) (cols D) (<[i := r]> (data D))));
    [|apply heap_upd_eq
     |cbn [data]; replace (S i + n)%nat with (i + S n)%nat by lia;
      by apply shape_insert
     |done|done].
  cbn [rows cols data]. rewrite upd_upd.
  rewrite take_insert_next by (destruct Hsh; lia).
  by rewrite <- app_assoc.
Qed.

Lemma alter_lookup {A} (f : A -> A) (d : list A) (i : nat) (r : A) :
  d !! i = Some r -> alter f i d = <[i := f r]> d.
Proof.
  intros Hr. rewrite <- (list_insert_id _ _ _ Hr) at 1. apply alter_insert.
Qed.

Lemma load_bias_eq (net : LSTMNetwork) (b : nat) :
  b_output net = Ptr b ->
  forall (n i : nat) D (xs : list F) rest (s : mem),
  heap s !! b = Some D -> shape (data D) (i + n) 1 -> length xs = n ->
  load_bias n (Z.of_nat i) net (map DDouble xs ++ rest) s =
  Some (Some rest,
        upd s b (mkMatrix (rows D) (cols D)
                   (take i (data D) ++ map (fun x => [x]) xs))).
Proof.
  intros Eb. induction n as [|n IH]; intros i D xs rest s HD Hsh Hlen.
  { destruct xs; [|done]. cbn. rewrite app_nil_r.
    rewrite take_ge by (destruct Hsh; lia).
    by rewrite matrix_eta, (upd_same _ _ _ HD). }
  destruct xs as [|x xs]; [done|]. injection Hlen as Hlen.
  cbn [load_bias map app fread_double]. rewrite Eb.
  erewrite bind_eq by reflexivity.
  destruct (column_lookup D _ i Hsh ltac:(lia)) as (y & Hrow & _ & Hget).
  erewrite bind_eq by (apply (elem_set_eq _ _ D i 0); [done|by eexists]).
  rewrite with_data_upd. unfold data_set.
  rewrite (alter_lookup _ _ _ _ Hrow). cbn [insert list_insert].
  replace (Z.of_nat i + 1) with (Z.of_nat (S i)) by lia.
  rewrite (IH (S i) (mkMatrix (rows D) (cols D) (<[i := [x]]> (data D))));
    [|apply heap_upd_eq
     |cbn [data]; replace (S i + n)%nat with (i + S n)%nat by lia;
      by apply shape_insert
     |done].
  cbn [rows cols data]. rewrite upd_upd.
  rewrite take_insert_next by (destruct Hsh; lia).
  by rewrite <- app_assoc.
Qed.

Lemma column_data (m : Matrix) r :
  shape (data m) r 1 -> map (fun x => [x]) (column m) = data m.
Proof.
  intros [_ Hall]. unfold column. rewrite map_map.
  induction (data m) as [|row d IH]; [done|].
  apply Forall_cons in Hall as [Hrow Hall]. cbn. rewrite IH by done.
  by destruct row as [|x [|y row]].
Qed.

Lemma params_round_trip (p : NormalizationParams) (rest : list datum) :
  params_of_list (fread_doubles 12 (params_items p ++ rest)).1 = Some p.
Proof. by destruct p. Qed.

Lemma drawn_0 (s : mem) : drawn s 0 = s.
Proof. by destruct s. Qed.

Lemma matrix_random_eq (s : mem) (l : nat) (D : Matrix) (lo hi : F) :
  heap s !! l = Some D -> mat_wf D ->
  matrix_random (Ptr l) lo hi s =
  Some (tt, drawn (upd s l (mat_tab (rows D) (cols D) (fun i j =>
                     random_value lo hi
                       (i * Z.to_nat (cols D) + j + rand_pos s))))
                  (Z.to_nat (rows D) * Z.to_nat (cols D))).
Proof.
  intros Hl [_ Hs]. unfold matrix_random.
  erewrite bind_eq by by apply get_rows_eq.
  erewrite bind_eq by by apply get_cols_eq.
  unfold for_range. rewrite !Z.sub_0_r.
  set (r := Z.to_nat (rows D)) in *. set (c := Z.to_nat (cols D)) in *.
  set (f := fun i j : nat => random_value lo hi (i * c + j + rand_pos s)).
  pose (Q := fun i j a b : nat =>
               (a <? i)%nat || ((a =? i)%nat && (b <? j)%nat)).
  pose (St := fun i j : nat =>
          drawn (with_data s l D (fill (Q i j) f (data D))) (i * c + j)).
  assert (HSt0 : St 0%nat 0%nat = s).
  { unfold St. rewrite (fill_none _ _ _ r c) by (done || (unfold Q; bool_lia)).
    rewrite with_data_id by done. apply drawn_0. }
  assert (HStn : St r 0%nat =
                 drawn (upd s l (mat_tab (rows D) (cols D) f)) (r * c)).
  { unfold St. rewrite (fill_all _ _ _ r c) by (done || (unfold Q; bool_lia)).
    rewrite Nat.add_0_r. reflexivity. }
  rewrite <- HSt0 at 1. rewrite <- HStn.
  apply (for_loop_eq (fun i => St i 0%nat)). intros i Hi. rewrite Z.add_0_l.
  assert (Hrow : St i c = St (S i) 0%nat).
  { unfold St. f_equal; [|lia]. f_equal.
    apply (fill_ext _ _ _ _ r c); [done|]. unfold Q. bool_lia. }
  rewrite <- Hrow.
  apply (for_loop_eq (St i)). intros j Hj. rewrite Z.add_0_l.
  assert (Hrand : rand (St i j) =
            Some (rand_seq (i * c + j + rand_pos s),
                  with_data (drawn s (S (i * c + j))) l D
                    (fill (Q i j) f (data D)))) by reflexivity.
  erewrite bind_eq by exact Hrand.
  rewrite elem_set_with_data.
  2:{ rewrite data_get_fill.
      destruct (shape_data_get _ _ _ i j Hs Hi Hj) as [x ->]. by eexists. }
  f_equal. f_equal. unfold St.
  change (random_value lo hi (i * c + j + rand_pos s)) with (f i j).
  rewrite (fill_set (Q i j) (Q i (S j)) f (data D) r c) by (done || (unfold Q; bool_lia)).
  unfold drawn, with_data, set_heap. cbn [heap next rand_pos files locked].
  f_equal. lia.
Qed.

(** ** lstm.c: the weights a new network has *)

Lemma initialize_weights_eq (s : mem) (l : nat) (D : Matrix) (scale : F) :
  heap s !! l = Some D -> mat_wf D -> int_range (rows D + cols D) ->
  initialize_weights (Ptr l) scale s =
  Some (tt, drawn (upd s l (random_matrix (rows D) (cols D) scale (rand_pos s)))
                  (Z.to_nat (rows D) * Z.to_nat (cols D))).
Proof.
  intros Hl Hwf [Hlo Hhi]. unfold initialize_weights.
  erewrite bind_eq by by apply get_rows_eq.
  erewrite bind_eq by by apply get_cols_eq.
  unfold int_add.
  rewrite (proj2 (Z.leb_le _ _) Hlo), (proj2 (Z.leb_le _ _) Hhi). cbn [andb].
  erewrite bind_eq by reflexivity.
  by rewrite (matrix_random_eq s l D).
Qed.

Lemma matrix_zero_same (s : mem) (l : nat) (r c : Z) :
  heap s !! l = Some (mat_zero r c) -> create_ok r c = true ->
  matrix_zero (Ptr l) s = Some (tt, s).
Proof.
  intros Hl Hok.
  rewrite (matrix_zero_eq s l _ Hl (mat_wf_zero r c Hok)).
  cbn [rows cols mat_zero mat_tab]. fold (mat_tab r c (fun _ _ => fzero)).
  fold (mat_zero r c). by rewrite (upd_same _ _ _ Hl).
Qed.

Lemma ones_fill (s : mem) (l : nat) (n : Z) :
  heap s !! l = Some (mat_zero n 1) ->
  for_range 0 n (fun i => l' <- deref (Ptr l) ;; elem_set l' i 0 fone) s =
  Some (tt, upd s l (mat_ones n 1)).
Proof.
  intros HD.
  assert (Hs : shape (data (mat_zero n 1)) (Z.to_nat n) 1)
    by apply shape_tabulate.
  rewrite (fill_column s l (mat_zero n 1) n (fun _ _ => fone)); [|done|done|].
  - rewrite with_data_upd. reflexivity.
  - intros i d' Hi Hs' Hd'. erewrite bind_eq by reflexivity.
    apply (elem_set_with_data s l (mat_zero n 1) d' i 0).
    apply (shape_data_get _ _ _ i 0 Hs'); [done|lia].
Qed.

Lemma rand_pos_drawn (s : mem) (l : nat) (m : Matrix) (n : nat) :
  rand_pos (drawn (upd s l m) n) = (n + rand_pos s)%nat.
Proof. reflexivity. Qed.

Lemma rand_pos_upd (s : mem) (l : nat) (m : Matrix) :
  rand_pos (upd s l m) = rand_pos s.
Proof. reflexivity. Qed.

Lemma heap_drawn_eq (s : mem) (l : nat) (m : Matrix) (n : nat) :
  heap (drawn (upd s l m) n) !! l = Some m.
Proof. apply heap_upd_eq. Qed.

Lemma heap_drawn_ne (s : mem) (l : nat) (m : Matrix) (n k : nat) :
  l <> k -> heap (drawn (upd s l m) n) !! k = heap s !! k.
Proof. apply heap_upd_ne. Qed.

(** A lookup in a memory known by what the last step stored in it and by
    the memory before. *)
Ltac fetch :=
  repeat match goal with
  | Hne : forall k, ?l <> k -> heap ?S1 !! k = heap _ !! k
    |- heap ?S1 !! ?a = _ =>
      first [ rewrite (Hne a) by lia
            | match goal with
              | He : heap S1 !! l = Some _ |- _ => rewrite He
              end ]
  end;
  try eassumption; try reflexivity.

(** One call of [initialize_weights] on a matrix still zero; the memory
    after it is named and known by what it holds. *)
Ltac init_step r c Hir :=
  rewrite ?bind_assoc;
  erewrite bind_eq
    by (apply (initialize_weights_eq _ _ (mat_zero r c));
        [fetch | by apply mat_wf_zero | exact Hir]);
  change (rows (mat_zero r c)) with r; change (cols (mat_zero r c)) with c;
  match goal with
  | |- context [drawn (upd ?S1 ?l ?m) ?n] =>
      let S2 := fresh "Sd" in
      let Hr := fresh "Hr" in
      let He := fresh "He" in
      let Hne := fresh "Hne" in
      let Hn := fresh "Hn" in
      assert (Hn : next (drawn (upd S1 l m) n) = next S1) by reflexivity;
      pose proof (rand_pos_drawn S1 l m n) as Hr;
      pose proof (heap_drawn_eq S1 l m n) as He;
      pose proof (heap_drawn_ne S1 l m n) as Hne;
      set (S2 := drawn (upd S1 l m) n) in *;
      clearbody S2
  end.

Ltac zero_step r c Hok :=
  rewrite ?bind_assoc;
  erewrite bind_eq
    by (apply (matrix_zero_same _ _ r c); [fetch | exact Hok]).

(** [lstm_network_create] with positive sizes: the eight weight matrices of
    the cell and [W_output] hold the numbers [initialize_weights] makes of
    the calls of [rand()] that follow those made before, in the order of
    the code. *)
Lemma network_create_weights (s : mem) (isz hsz osz : Z) :
  0 < isz -> 0 < hsz -> 0 < osz ->
  hsz + isz <= INT_MAX -> hsz + hsz <= INT_MAX -> osz + hsz <= INT_MAX ->
  let hn := (Z.to_nat hsz * Z.to_nat isz)%nat in
  let hh := (Z.to_nat hsz * Z.to_nat hsz)%nat in
  let oh := (Z.to_nat osz * Z.to_nat hsz)%nat in
  exists net c s',
    lstm_network_create isz hsz osz s = Some (Some net, s') /\
    lstm_layer net = Some c /\
    cell_ptrs c = map Ptr (seq (next s) 18) /\
    rand_pos s' = (rand_pos s + 4 * hn + 4 * hh + oh)%nat /\
    (forall k : nat, (k < 4)%nat ->
       heap s' !! (next s + k)%nat =
       Some (random_matrix hsz isz fone (rand_pos s + k * hn))) /\
    (forall k : nat, (k < 4)%nat ->
       heap s' !! (next s + 4 + k)%nat =
       Some (random_matrix hsz hsz fone (rand_pos s + 4 * hn + k * hh))) /\
    heap s' !! (next s + 18)%nat =
      Some (random_matrix osz hsz fone (rand_pos s + 4 * hn + 4 * hh)).
Proof.
  intros Hi Hh Ho Hhi Hhh Hoh hn hh oh. subst hn hh oh.
  assert (Hr : forall z, 0 < z -> z <= INT_MAX -> int_range z)
    by (unfold int_range, INT_MIN, INT_MAX; intros; lia).
  assert (Hmax : INT_MAX = 2147483647) by reflexivity.
  assert (Hok1 : create_ok hsz isz = true) by (apply create_ok_pos; try apply Hr; lia).
  assert (Hok2 : create_ok hsz hsz = true) by (apply create_ok_pos; try apply Hr; lia).
  assert (Hok3 : create_ok hsz 1 = true) by (apply create_ok_pos; try apply Hr; lia).
  assert (Hok4 : create_ok osz hsz = true) by (apply create_ok_pos; try apply Hr; lia).
  assert (Hok5 : create_ok osz 1 = true) by (apply create_ok_pos; try apply Hr; lia).
  assert (Hir1 : int_range (hsz + isz)) by (unfold int_range, INT_MIN; lia).
  assert (Hir2 : int_range (hsz + hsz)) by (unfold int_range, INT_MIN; lia).
  assert (Hir3 : int_range (osz + hsz)) by (unfold int_range, INT_MIN; lia).
  unfold lstm_network_create.
  change (malloc_ok sizeof_LSTMNetwork) with true. cbn [negb].
  unfold lstm_cell_create.
  change (malloc_ok sizeof_LSTMCell) with true. cbn [negb].
  do 18 (rewrite ?bind_assoc; erewrite bind_eq by by apply matrix_create_eq).
  cbn [is_null orb]. rewrite ?next_alloc_st.
  match goal with |- context [bind _ _ ?S1] => set (S0 := S1) end.
  assert (HnS0 : next S0 = (next s + 18)%nat) by (unfold S0; nlia).
  assert (HrS0 : rand_pos S0 = rand_pos s) by reflexivity.
  assert (A0 : heap S0 !! (next s) = Some (mat_zero hsz isz))
    by (unfold S0; heap_look).
  assert (A1 : heap S0 !! (S (next s)) = Some (mat_zero hsz isz))
    by (unfold S0; heap_look).
  assert (A2 : heap S0 !! (S (S (next s))) = Some (mat_zero hsz isz))
    by (unfold S0; heap_look).
  assert (A3 : heap S0 !! (S (S (S (next s)))) = Some (mat_zero hsz isz))
    by (unfold S0; heap_look).
  assert (A4 : heap S0 !! (S (S (S (S (next s))))) = Some (mat_zero hsz hsz))
    by (unfold S0; heap_look).
  assert (A5 : heap S0 !! (S (S (S (S (S (next s)))))) = Some (mat_zero hsz hsz))
    by (unfold S0; heap_look).
  assert (A6 : heap S0 !! (S (S (S (S (S (S (next s))))))) = Some (mat_zero hsz hsz))
    by (unfold S0; heap_look).
  assert (A7 : heap S0 !! (S (S (S (S (S (S (S (next s)))))))) = Some (mat_zero hsz hsz))
    by (unfold S0; heap_look).
  assert (A8 : heap S0 !! (S (S (S (S (S (S (S (S (next s))))))))) = Some (mat_zero hsz 1))
    by (unfold S0; heap_look).
  assert (A9 : heap S0 !! (S (S (S (S (S (S (S (S (S (next s)))))))))) = Some (mat_zero hsz 1))
    by (unfold S0; heap_look).
  assert (A10 : heap S0 !! (S (S (S (S (S (S (S (S (S (S (next s))))))))))) = Some (mat_zero hsz 1))
    by (unfold S0; heap_look).
  assert (A11 : heap S0 !! (S (S (S (S (S (S (S (S (S (S (S (next s)))))))))))) = Some (mat_zero hsz 1))
    by (unfold S0; heap_look).
  assert (A12 : heap S0 !! (S (S (S (S (S (S (S (S (S (S (S (S (next s))))))))))))) = Some (mat_zero hsz 1))
    by (unfold S0; heap_look).
  assert (A13 : heap S0 !! (S (S (S (S (S (S (S (S (S (S (S (S (S (next s)))))))))))))) = Some (mat_zero hsz 1))
    by (unfold S0; heap_look).
  assert (A14 : heap S0 !! (S (S (S (S (S (S (S (S (S (S (S (S (S (S (next s))))))))))))))) = Some (mat_zero hsz 1))
    by (unfold S0; heap_look).
  assert (A15 : heap S0 !! (S (S (S (S (S (S (S (S (S (S (S (S (S (S (S (next s)))))))))))))))) = Some (mat_zero hsz 1))
    by (unfold S0; heap_look).
  assert (A16 : heap S0 !! (S (S (S (S (S (S (S (S (S (S (S (S (S (S (S (S (next s))))))))))))))))) = Some (mat_zero hsz 1))
    by (unfold S0; heap_look).
  assert (A17 : heap S0 !! (S (S (S (S (S (S (S (S (S (S (S (S (S (S (S (S (S (next s)))))))))))))))))) = Some (mat_zero hsz 1))
    by (unfold S0; heap_look).
  clearbody S0.
  do 4 (init_step hsz isz Hir1).
  do 4 (init_step hsz hsz Hir2).
  zero_step hsz 1 Hok3.
  rewrite ?bind_assoc.
  erewrite bind_eq by (apply (ones_fill _ _ hsz); fetch).
  match goal with
  | |- context [upd ?S1 ?l ?m] =>
      pose proof (heap_upd_ne S1 l m) as Hone;
      pose proof (heap_upd_eq S1 l m) as Heone;
      pose proof (rand_pos_upd S1 l m) as Hrone;
      pose proof (next_upd S1 l m) as Hnone;
      remember (upd S1 l m) as So eqn:ESo; clear ESo
  end.
  do 5 (zero_step hsz 1 Hok3).
  rewrite ?bind_assoc. erewrite bind_eq by reflexivity. cbv iota.
  do 2 (erewrite bind_eq by by apply matrix_create_eq).
  cbn [is_null orb]. rewrite ?next_alloc_st.
  assert (HnSo : next So = (next s + 18)%nat) by lia.
  assert (HWa : heap (alloc_st (alloc_st So (mat_zero osz hsz)) (mat_zero osz 1))
                  !! next So = Some (mat_zero osz hsz)) by heap_look.
  assert (Hba : heap (alloc_st (alloc_st So (mat_zero osz hsz)) (mat_zero osz 1))
                  !! S (next So) = Some (mat_zero osz 1)) by heap_look.
  assert (Hka : forall k, (k < next So)%nat ->
                  heap (alloc_st (alloc_st So (mat_zero osz hsz)) (mat_zero osz 1))
                    !! k = heap So !! k) by (intros k Hk; by heap_norm).
  assert (Hra : rand_pos (alloc_st (alloc_st So (mat_zero osz hsz)) (mat_zero osz 1))
                = rand_pos So) by reflexivity.
  set (Sa := alloc_st (alloc_st So (mat_zero osz hsz)) (mat_zero osz 1)) in *.
  clearbody Sa.
  erewrite bind_eq
    by (apply (initialize_weights_eq _ _ (mat_zero osz hsz));
        [exact HWa | by apply mat_wf_zero | exact Hir3]).
  change (rows (mat_zero osz hsz)) with osz.
  change (cols (mat_zero osz hsz)) with hsz.
  erewrite bind_eq
    by (apply (matrix_zero_same _ _ osz 1);
        [rewrite heap_drawn_ne by lia; exact Hba | exact Hok5]).
  do 3 eexists. split; [reflexivity|].
  split; [reflexivity|]. split; [reflexivity|].
  rewrite rand_pos_drawn.
  set (hn := (Z.to_nat hsz * Z.to_nat isz)%nat) in *.
  set (hh := (Z.to_nat hsz * Z.to_nat hsz)%nat) in *.
  set (oh := (Z.to_nat osz * Z.to_nat hsz)%nat) in *.
  clearbody hn hh oh.
  split; [lia|].
  assert (Hback : forall a, (a < next s + 18)%nat ->
            heap (drawn (upd Sa (next So)
                           (random_matrix osz hsz fone (rand_pos Sa)))
                        oh) !! a = heap So !! a).
  { intros a Ha. rewrite heap_drawn_ne by lia. apply Hka. lia. }
  split; [|split].
  - intros k Hk. rewrite Hback by lia.
    assert (Hcases : (k = 0 \/ k = 1 \/ k = 2 \/ k = 3)%nat) by lia.
    destruct Hcases as [-> | [-> | [-> | ->]]];
      [ replace (next s + 0)%nat with (next s) by lia
      | replace (next s + 1)%nat with (S (next s)) by lia
      | replace (next s + 2)%nat with (S (S (next s))) by lia
      | replace (next s + 3)%nat with (S (S (S (next s)))) by lia ];
      fetch; f_equal; f_equal; lia.
  - intros k Hk. rewrite Hback by lia.
    assert (Hcases : (k = 0 \/ k = 1 \/ k = 2 \/ k = 3)%nat) by lia.
    destruct Hcases as [-> | [-> | [-> | ->]]];
      [ replace (next s + 4 + 0)%nat with (S (S (S (S (next s))))) by lia
      | replace (next s + 4 + 1)%nat with (S (S (S (S (S (next s)))))) by lia
      | replace (next s + 4 + 2)%nat
          with (S (S (S (S (S (S (next s))))))) by lia
      | replace (next s + 4 + 3)%nat
          with (S (S (S (S (S (S (S (next s)))))))) by lia ];
      fetch; f_equal; f_equal; lia.
  - replace (next s + 18)%nat with (next So) by lia.
    rewrite heap_drawn_eq. f_equal. f_equal. lia.
Qed.

(** C4. When [save_lstm_model] returns 0 on a network, the file holds the
    three sizes, the learning rate, the sequence length, the entries of
    [W_output] and [b_output] and the normalisation parameters, and nothing
    of the cell.  [load_lstm_model] on that file then returns a network with
    the same sizes, learning rate, sequence length and normalisation
    parameters, whose [W_output] and [b_output] hold the matrices that were
    saved, and whose cell is the one [lstm_network_create] makes, with its
    random weights. *)
Theorem save_load_round_trip (s s1 : mem) (net : LSTMNetwork) (name : string)
    (Wo bo : Matrix) :
  mem_wf s ->
  points_to s (W_output net) Wo -> points_to s (b_output net) bo ->
  dims Wo = (output_size net, n_hidden_size net) ->
  dims bo = (output_size net, 1) ->
  0 < n_input_size net -> 0 < n_hidden_size net -> 0 < output_size net ->
  n_hidden_size net + n_input_size net <= INT_MAX ->
  n_hidden_size net + n_hidden_size net <= INT_MAX ->
  output_size net + n_hidden_size net <= INT_MAX ->
  save_lstm_model (Some net) (Some name) s = Some (0, s1) ->
  files s1 !! name = Some (model_file net Wo bo) /\
  exists net' s2,
    load_lstm_model (Some name) s1 = Some (Some net', s2) /\
    n_input_size net' = n_input_size net /\
    n_hidden_size net' = n_hidden_size net /\
    output_size net' = output_size net /\
    learning_rate net' = learning_rate net /\
    sequence_length net' = sequence_length net /\
    norm_params net' = norm_params net /\
    points_to s2 (W_output net') Wo /\
    points_to s2 (b_output net') bo /\
    exists net0 s0,
      lstm_network_create (n_input_size net) (n_hidden_size net)
                          (output_size net) s1 = Some (Some net0, s0) /\
      lstm_layer net' = lstm_layer net0 /\ is_Some (lstm_layer net0) /\
      preserved_but [W_output net0; b_output net0] s0 s2 /\
      let n := n_input_size net in
      let h := n_hidden_size net in
      let hn := (Z.to_nat h * Z.to_nat n)%nat in
      let hh := (Z.to_nat h * Z.to_nat h)%nat in
      let oh := (Z.to_nat (output_size net) * Z.to_nat h)%nat in
      let r := rand_pos s1 in
      rand_pos s2 = (r + 4 * hn + 4 * hh + oh)%nat /\
      exists c,
        lstm_layer net' = Some c /\
        points_to s2 (W_f c) (random_matrix h n fone r) /\
        points_to s2 (W_i c) (random_matrix h n fone (r + hn)) /\
        points_to s2 (W_c c) (random_matrix h n fone (r + 2 * hn)) /\
        points_to s2 (W_o c) (random_matrix h n fone (r + 3 * hn)) /\
        points_to s2 (U_f c) (random_matrix h h fone (r + 4 * hn)) /\
        points_to s2 (U_i c) (random_matrix h h fone (r + 4 * hn + hh)) /\
        points_to s2 (U_c c) (random_matrix h h fone (r + 4 * hn + 2 * hh)) /\
        points_to s2 (U_o c) (random_matrix h h fone (r + 4 * hn + 3 * hh)).
Proof.
  intros Hwf (w & Ew & Hw) (b & Eb & Hb) HdW Hdb Hi Hh Ho Hhi Hhh Hoh Hsave.
  assert (Hmax : INT_MAX = 2147483647) by reflexivity.
  assert (Hn : name ∉ locked s).
  { intros Hin. unfold save_lstm_model, fopen_wb in Hsave.
    unfold bind in Hsave. rewrite decide_True in Hsave by done.
    cbn in Hsave. discriminate. }
  pose proof (mem_wf_mat _ _ _ Hwf Hw) as HwfWo.
  pose proof (mem_wf_mat _ _ _ Hwf Hb) as Hwfbo.
  rewrite (save_eq s net name w b Wo bo) in Hsave by (done || lia).
  injection Hsave as <-.
  split; [cbn [files with_file]; apply lookup_insert_eq|].
  set (s1 := with_file s name (model_file net Wo bo)).
  assert (Hwf1 : mem_wf s1) by exact Hwf.
  unfold load_lstm_model.
  erewrite bind_eq by reflexivity.
  replace (files s1 !! name) with (Some (model_file net Wo bo))
    by (symmetry; apply lookup_insert_eq).
  unfold model_file at 1. cbn [app fread_int fread_double].
  destruct (network_create_run s1 _ _ _ Hwf1 Hi Hh Ho Hhi Hhh Hoh)
    as (r & s0 & Hcreate & net0 & W0 & B0 & -> & Hwf0 & Hf0 & Hl0 & Ew0 & Eb0 &
        HW0 & HdW0 & HB0 & HdB0 & Hisz & Hhsz & Hosz & Hnorm & Hlayer).
  destruct (network_create_weights s1 _ _ _ Hi Hh Ho Hhi Hhh Hoh)
    as (netw & c & sw & Hrunw & Hlw & Hptrs & Hrp & HWs & HUs & _).
  rewrite Hcreate in Hrunw. injection Hrunw as <- <-.
  erewrite bind_eq by exact Hcreate. cbv iota.
  set (w0 := (next s1 + 18)%nat) in *. set (b0 := (next s1 + 19)%nat) in *.
  unfold dims in HdW, Hdb, HdW0, HdB0.
  injection HdW as HW1 HW2. injection Hdb as Hb1 Hb2.
  injection HdW0 as HW01 HW02. injection HdB0 as HB01 HB02.
  destruct HwfWo as [_ HsW]. destruct Hwfbo as [_ Hsb].
  destruct (mem_wf_mat _ _ _ Hwf0 HW0) as [_ HsW0].
  destruct (mem_wf_mat _ _ _ Hwf0 HB0) as [_ HsB0].
  rewrite HW1, HW2 in HsW. rewrite Hb1, Hb2 in Hsb.
  rewrite HW01, HW02 in HsW0. rewrite HB01, HB02 in HsB0.
  set (hn := Z.to_nat (n_hidden_size net)).
  set (on := Z.to_nat (output_size net)).
  erewrite bind_eq.
  2:{ apply (fun Hw Hsz => load_rows_eq _ w0 (n_hidden_size net) hn Hw Hsz
                                on 0%nat W0 (data Wo));
        [exact Ew0| |exact HW0|exact HsW0| |].
      - unfold size_of_int. rewrite Z.mod_small by lia. lia.
      - destruct HsW as [_ Hall]. exact Hall.
      - by destruct HsW. }
  cbv iota. rewrite take_0. cbn [app].
  replace (mkMatrix (rows W0) (cols W0) (data Wo)) with Wo
    by (rewrite HW01, HW02, <- HW1, <- HW2; by destruct Wo).
  set (S1 := upd s0 w0 Wo).
  erewrite bind_eq.
  2:{ apply (fun Hb => load_bias_eq _ b0 Hb on 0%nat B0 (column bo));
        [exact Eb0| | |].
      - unfold S1. rewrite heap_upd_ne by (unfold w0, b0; lia). exact HB0.
      - exact HsB0.
      - rewrite length_column. by destruct Hsb. }
  cbv iota. rewrite take_0. cbn [app].
  rewrite (column_data bo _ Hsb).
  replace (mkMatrix (rows B0) (cols B0) (data bo)) with bo
    by (rewrite HB01, HB02, <- Hb1, <- Hb2; by destruct bo).
  set (S2 := upd S1 b0 bo).
  assert (Hfr : preserved_but [W_output net0; b_output net0] s0 S2).
  { intros k m Hk Hkn. rewrite Ew0, Eb0 in Hkn.
    apply not_elem_of_cons in Hkn as [Hkw Hkn].
    apply not_elem_of_cons in Hkn as [Hkb _].
    unfold S2, S1. rewrite !heap_upd_ne by congruence. exact Hk. }
  assert (HWo2 : heap S2 !! w0 = Some Wo).
  { unfold S2, S1. rewrite heap_upd_ne by (unfold w0, b0; lia). apply heap_upd_eq. }
  assert (Hbo2 : heap S2 !! b0 = Some bo) by apply heap_upd_eq.
  assert (Hcell : forall a, (a < next s1 + 18)%nat ->
            heap S2 !! a = heap s0 !! a).
  { intros a Ha. unfold S2, S1, w0, b0. by rewrite !heap_upd_ne by lia. }
  assert (Hnew :
    let n := n_input_size net in
    let h := n_hidden_size net in
    let hn := (Z.to_nat h * Z.to_nat n)%nat in
    let hh := (Z.to_nat h * Z.to_nat h)%nat in
    let oh := (Z.to_nat (output_size net) * Z.to_nat h)%nat in
    let r := rand_pos s1 in
    rand_pos S2 = (r + 4 * hn + 4 * hh + oh)%nat /\
    exists c0,
      lstm_layer net0 = Some c0 /\
      points_to S2 (W_f c0) (random_matrix h n fone r) /\
      points_to S2 (W_i c0) (random_matrix h n fone (r + hn)) /\
      points_to S2 (W_c c0) (random_matrix h n fone (r + 2 * hn)) /\
      points_to S2 (W_o c0) (random_matrix h n fone (r + 3 * hn)) /\
      points_to S2 (U_f c0) (random_matrix h h fone (r + 4 * hn)) /\
      points_to S2 (U_i c0) (random_matrix h h fone (r + 4 * hn + hh)) /\
      points_to S2 (U_c c0) (random_matrix h h fone (r + 4 * hn + 2 * hh)) /\
      points_to S2 (U_o c0) (random_matrix h h fone (r + 4 * hn + 3 * hh))).
  { cbv zeta. cbv zeta in Hrp, HWs, HUs. split; [exact Hrp|].
    exists c. split; [exact Hlw|].
    unfold cell_ptrs in Hptrs. cbn [seq map] in Hptrs.
    injection Hptrs as E1 E2 E3 E4 E5 E6 E7 E8 _.
    rewrite E1, E2, E3, E4, E5, E6, E7, E8.
    pose proof (HWs 0%nat ltac:(lia)) as W0'.
    pose proof (HWs 1%nat ltac:(lia)) as W1'.
    pose proof (HWs 2%nat ltac:(lia)) as W2'.
    pose proof (HWs 3%nat ltac:(lia)) as W3'.
    pose proof (HUs 0%nat ltac:(lia)) as U0'.
    pose proof (HUs 1%nat ltac:(lia)) as U1'.
    pose proof (HUs 2%nat ltac:(lia)) as U2'.
    pose proof (HUs 3%nat ltac:(lia)) as U3'.
    rewrite <- Hcell in W0', W1', W2', W3', U0', U1', U2', U3' by lia.
    replace (next s1 + 0)%nat with (next s1) in W0' by lia.
    replace (next s1 + 1)%nat with (S (next s1)) in W1' by lia.
    replace (next s1 + 2)%nat with (S (S (next s1))) in W2' by lia.
    replace (next s1 + 3)%nat with (S (S (S (next s1)))) in W3' by lia.
    replace (next s1 + 4 + 0)%nat with (S (S (S (S (next s1))))) in U0' by lia.
    replace (next s1 + 4 + 1)%nat with (S (S (S (S (S (next s1)))))) in U1' by lia.
    replace (next s1 + 4 + 2)%nat with (S (S (S (S (S (S (next s1))))))) in U2' by lia.
    replace (next s1 + 4 + 3)%nat with (S (S (S (S (S (S (S (next s1)))))))) in U3' by lia.
    repeat split; eexists; (split; [reflexivity|]).
    - refine (eq_trans W0' _); do 2 f_equal; lia.
    - refine (eq_trans W1' _); do 2 f_equal; lia.
    - refine (eq_trans W2' _); do 2 f_equal; lia.
    - refine (eq_trans W3' _); do 2 f_equal; lia.
    - refine (eq_trans U0' _); do 2 f_equal; lia.
    - refine (eq_trans U1' _); do 2 f_equal; lia.
    - refine (eq_trans U2' _); do 2 f_equal; lia.
    - refine (eq_trans U3' _); do 2 f_equal; lia. }
  destruct (norm_params net) as [p|] eqn:Enorm; cbn [norm_items fread_int].
  - change (1 =? 0) with false. cbv iota.
    change (malloc_ok sizeof_NormalizationParams) with true. cbn [negb].
    pose proof (params_round_trip p []) as Hp. rewrite app_nil_r in Hp.
    destruct (fread_doubles 12 (params_items p)) as [xs rest'].
    cbn [fst] in Hp. rewrite Hp.
    do 2 eexists. split; [reflexivity|].
    cbn [n_input_size n_hidden_size output_size learning_rate sequence_length
         norm_params W_output b_output lstm_layer].
    repeat (split; [done|]).
    split; [exists w0; split; [exact Ew0|exact HWo2]|].
    split; [exists b0; split; [exact Eb0|exact Hbo2]|].
    exists net0, s0. repeat (split; [done|]).
    first [exact Hnew | exact (proj2 Hnew)].
  - change (0 =? 0) with true. cbv iota.
    do 2 eexists. split; [reflexivity|].
    cbn [n_input_size n_hidden_size output_size learning_rate sequence_length
         norm_params W_output b_output lstm_layer].
    repeat (split; [done|]).
    split; [exists w0; split; [exact Ew0|exact HWo2]|].
    split; [exists b0; split; [exact Eb0|exact Hbo2]|].
    exists net0, s0. repeat (split; [done|]).
    first [exact Hnew | exact (proj2 Hnew)].
Qed.

(** ** matrix.c: further properties *)

Lemma mat_map_id (D : Matrix) : mat_wf D -> mat_map (fun x => x) D = D.
Proof.
  intros [_ Hs]. unfold mat_map, mat_tab.
  rewrite (tabulate_ext _ _ _ (mat_at D)) by done.
  rewrite (tabulate_mat_at D) by done. by destruct D.
Qed.

Lemma matrix_copy_self (s : mem) d D :
  heap s !! d = Some D -> mat_wf D ->
  matrix_copy (Ptr d) (Ptr d) s = Some (tt, s).
Proof.
  intros Hd Hwf. unfold matrix_copy.
  erewrite bind_eq by by apply get_rows_eq.
  erewrite bind_eq by by apply get_rows_eq.
  erewrite bind_eq by by apply get_cols_eq.
  erewrite bind_eq by by apply get_cols_eq.
  rewrite !Z.eqb_refl. cbn [negb orb].
  rewrite (map_loop s d D (fun x => x) Hd Hwf).
  by rewrite (mat_map_id D Hwf), (upd_same _ _ _ Hd).
Qed.

(** X1.  [matrix_copy] overwrites the entries of [dest] with those of [src] when
    the two have the same shape, [dest] and [src] being the same matrix or
    not; it does nothing when the shapes differ or a pointer is [NULL].  It
    allocates nothing and no other object changes. *)
Theorem matrix_copy_behaviour (s : mem) (d sl : nat) (D S0 : Matrix) :
  mem_wf s -> heap s !! d = Some D -> heap s !! sl = Some S0 ->
  (rows D = rows S0 -> cols D = cols S0 ->
     matrix_copy (Ptr d) (Ptr sl) s = Some (tt, upd s d S0) /\
     heap (upd s d S0) !! d = Some S0 /\
     heap (upd s d S0) !! sl = Some S0 /\
     (forall k, k <> d -> heap (upd s d S0) !! k = heap s !! k)) /\
  (rows D <> rows S0 \/ cols D <> cols S0 ->
     matrix_copy (Ptr d) (Ptr sl) s = Some (tt, s)) /\
  (forall p, matrix_copy NULL p s = Some (tt, s) /\
             matrix_copy p NULL s = Some (tt, s)).
Proof.
  intros Hwf Hd Hs. split; [|split].
  - intros Hr Hc.
    pose proof (mem_wf_mat _ _ _ Hwf Hd) as HwfD.
    pose proof (mem_wf_mat _ _ _ Hwf Hs) as HwfS.
    split.
    { destruct (decide (d = sl)) as [->|Hne].
      - rewrite Hd in Hs. injection Hs as <-.
        rewrite (upd_same _ _ _ Hd). by apply (matrix_copy_self s sl D).
      - by apply (matrix_copy_eq s d sl D S0). }
    split; [apply heap_upd_eq|]. split.
    { destruct (decide (d = sl)) as [->|Hne]; [apply heap_upd_eq|].
      by rewrite heap_upd_ne. }
    intros k Hk. by rewrite heap_upd_ne.
  - intros Hne. by apply (matrix_copy_skip s d sl D S0).
  - intros p. split; [reflexivity|]. by destruct p.
Qed.

(** X2.  [matrix_multiply], [matrix_add] and [matrix_subtract] return [NULL]
    and leave the memory as it was, nothing allocated, when the shapes of
    the operands do not fit or an operand is [NULL]; so does
    [matrix_transpose] on [NULL]. *)
Theorem matrix_ops_reject_shapes (s : mem) (la lb : nat) (A B : Matrix) :
  heap s !! la = Some A -> heap s !! lb = Some B ->
  (cols A <> rows B ->
     matrix_multiply (Ptr la) (Ptr lb) s = Some (NULL, s)) /\
  (rows A <> rows B \/ cols A <> cols B ->
     matrix_add (Ptr la) (Ptr lb) s = Some (NULL, s) /\
     matrix_subtract (Ptr la) (Ptr lb) s = Some (NULL, s)) /\
  (forall p,
     matrix_multiply NULL p s = Some (NULL, s) /\
     matrix_multiply p NULL s = Some (NULL, s) /\
     matrix_add NULL p s = Some (NULL, s) /\
     matrix_add p NULL s = Some (NULL, s) /\
     matrix_subtract NULL p s = Some (NULL, s) /\
     matrix_subtract p NULL s = Some (NULL, s)) /\
  matrix_transpose NULL s = Some (NULL, s).
Proof.
  intros HA HB. split; [|split; [|split]].
  - by apply matrix_multiply_mismatch.
  - intros Hne. split.
    + by apply (matrix_add_mismatch s la lb A B).
    + by apply (matrix_subtract_mismatch s la lb A B).
  - intros p. repeat split; try reflexivity; by destruct p.
  - reflexivity.
Qed.

Lemma mat_transpose_twice (A : Matrix) :
  mat_wf A -> mat_transpose (mat_transpose A) = A.
Proof.
  intros [_ Hs]. unfold mat_transpose at 1. unfold mat_tab.
  cbn [rows cols mat_transpose mat_tab].
  rewrite (tabulate_ext _ _ _ (mat_at A)).
  - rewrite (tabulate_mat_at A) by done. by destruct A.
  - intros i j Hi Hj. unfold mat_transpose. by rewrite mat_at_tab.
Qed.

(** X3.  Transposing the transpose of a matrix gives a matrix with the shape and
    the entries of the first one, which is itself unchanged. *)
Theorem matrix_transpose_twice (s : mem) (l : nat) (A : Matrix) :
  mem_wf s -> heap s !! l = Some A ->
  create_ok (cols A) (rows A) = true ->
  exists t s1 t2 s2,
    matrix_transpose (Ptr l) s = Some (Ptr t, s1) /\
    matrix_transpose (Ptr t) s1 = Some (Ptr t2, s2) /\
    heap s1 !! t = Some (mat_transpose A) /\
    heap s2 !! t2 = Some A /\ heap s2 !! l = Some A /\
    t <> l /\ t2 <> l /\ t2 <> t.
Proof.
  intros Hwf HA Hok.
  pose proof (mem_wf_mat _ _ _ Hwf HA) as HwfA.
  pose proof (mem_wf_lt _ _ _ Hwf HA) as Hlt.
  set (s1 := alloc_st s (mat_transpose A)).
  assert (Hwf1 : mem_wf s1) by (apply mem_wf_alloc; [done|by apply mat_wf_tab]).
  exists (next s), s1, (next s1), (alloc_st s1 (mat_transpose (mat_transpose A))).
  split; [by apply matrix_transpose_eq|].
  split.
  { apply matrix_transpose_eq; [done|apply heap_alloc_new|].
    cbn [rows cols mat_transpose mat_tab]. by destruct HwfA. }
  split; [apply heap_alloc_new|].
  split; [rewrite mat_transpose_twice by done; apply heap_alloc_new|].
  split; [unfold s1; by heap_norm|].
  unfold s1. cbn [next alloc_st]. lia.
Qed.

(** X4.  The entrywise operations: [matrix_scale], [apply_sigmoid], [apply_tanh],
    [apply_relu] and [matrix_zero] replace every entry [x] of the matrix by
    [x * scalar], [sigmoid x], [tanh x], [relu x] and [0.0], in place: the
    shape is kept and no other object changes. *)
Theorem entrywise_operations (s : mem) (l : nat) (D : Matrix) (k : F) :
  mem_wf s -> heap s !! l = Some D ->
  let after (c : M unit) (g : F -> F) :=
    exists D',
      c s = Some (tt, upd s l D') /\ dims D' = dims D /\ mat_wf D' /\
      forall i j : nat, (i < Z.to_nat (rows D))%nat ->
                        (j < Z.to_nat (cols D))%nat ->
                        mat_at D' i j = g (mat_at D i j) in
  after (matrix_scale (Ptr l) k) (fun x => fmul x k) /\
  after (apply_sigmoid (Ptr l)) sigmoid /\
  after (apply_tanh (Ptr l)) ftanh /\
  after (apply_relu (Ptr l)) relu /\
  after (matrix_zero (Ptr l)) (fun _ => fzero).
Proof.
  intros Hwf HD after.
  pose proof (mem_wf_mat _ _ _ Hwf HD) as HwfD.
  assert (Hmap : forall c g, c s = Some (tt, upd s l (mat_map g D)) -> after c g).
  { intros c g Hc. exists (mat_map g D). split; [exact Hc|].
    split; [reflexivity|]. split; [by apply mat_wf_map|].
    intros i j Hi Hj. by apply mat_at_map. }
  split; [apply Hmap; by apply (matrix_scale_eq s l D)|].
  split; [apply Hmap; by apply (apply_fn_eq s l D sigmoid)|].
  split; [apply Hmap; by apply (apply_fn_eq s l D tanh_activation)|].
  split; [apply Hmap; by apply (apply_fn_eq s l D relu)|].
  apply Hmap. rewrite (matrix_zero_eq s l D HD HwfD).
  unfold mat_map, mat_zero. reflexivity.
Qed.

(** ** weather_data.c: points and matrices *)

Lemma matrix_to_weather_point_eq (s : mem) (l : nat) (p : WeatherPoint) :
  heap s !! l = Some (point_matrix p) ->
  matrix_to_weather_point (Ptr l) s = Some (p, s).
Proof.
  intros Hl. unfold matrix_to_weather_point.
  erewrite bind_eq by by apply get_rows_eq.
  erewrite bind_eq by by apply get_cols_eq.
  cbn [rows cols point_matrix Z.eqb Pos.eqb negb orb].
  erewrite bind_eq by (by eapply (elem_get_eq s l _ 0 0)).
  erewrite bind_eq by (by eapply (elem_get_eq s l _ 1 0)).
  erewrite bind_eq by (by eapply (elem_get_eq s l _ 2 0)).
  erewrite bind_eq by (by eapply (elem_get_eq s l _ 3 0)).
  erewrite bind_eq by (by eapply (elem_get_eq s l _ 4 0)).
  erewrite bind_eq by (by eapply (elem_get_eq s l _ 5 0)).
  by destruct p.
Qed.

(** X5.  [weather_point_to_matrix] makes a new 6 x 1 matrix of the six features,
    from which [matrix_to_weather_point] reads the point back; on a matrix
    of another shape, or on [NULL], [matrix_to_weather_point] returns the
    point of six zeros, and neither changes an object of the memory. *)
Theorem weather_point_matrix_round_trip (s : mem) (p : WeatherPoint)
    (l : nat) (D : Matrix) :
  mem_wf s -> heap s !! l = Some D ->
  (exists s1,
     weather_point_to_matrix (Some p) s = Some (Ptr (next s), s1) /\
     heap s !! next s = None /\
     heap s1 !! next s = Some (point_matrix p) /\
     preserved s s1 /\
     matrix_to_weather_point (Ptr (next s)) s1 = Some (p, s1)) /\
  (rows D <> 6 \/ cols D <> 1 ->
     matrix_to_weather_point (Ptr l) s = Some (zero_point, s)) /\
  matrix_to_weather_point NULL s = Some (zero_point, s) /\
  weather_point_to_matrix None s = Some (NULL, s).
Proof.
  intros Hwf HD. split; [|split; [|done]].
  - exists (alloc_st s (point_matrix p)).
    split; [apply weather_point_to_matrix_eq|]. split.
    { destruct (heap s !! next s) as [m|] eqn:E; [|done].
      pose proof (mem_wf_lt _ _ _ Hwf E). lia. }
    split; [apply heap_alloc_new|]. split.
    { intros k m Hk. by apply heap_alloc_keep. }
    apply matrix_to_weather_point_eq, heap_alloc_new.
  - intros Hne. unfold matrix_to_weather_point.
    erewrite bind_eq by by apply get_rows_eq.
    erewrite bind_eq by by apply get_cols_eq.
    replace (negb (rows D =? 6) || negb (cols D =? 1)) with true; [done|].
    symmetry. apply orb_true_iff. rewrite !negb_true_iff, !Z.eqb_neq. exact Hne.
Qed.

(** ** weather_data.c: the ranges of a dataset *)


(** ** lstm.c: prediction, further properties *)

Lemma forward_vals_states (v v' : CellVals) (X : Matrix) :
  cell_weights v = cell_weights v' ->
  vcell_state v = vcell_state v' -> vhidden_state v = vhidden_state v' ->
  forward_vals v X = forward_vals v' X.
Proof.
  destruct v, v'. unfold cell_weights. cbn. intros Hw -> ->.
  injection Hw as -> -> -> -> -> -> -> -> -> -> -> ->. reflexivity.
Qed.

Lemma run_vals_weights (v v' : CellVals) (X : Matrix) (Xs : list Matrix) :
  cell_weights v = cell_weights v' ->
  dims (vcell_state v) = dims (vcell_state v') ->
  dims (vhidden_state v) = dims (vhidden_state v') ->
  run_vals v (X :: Xs) = run_vals v' (X :: Xs).
Proof.
  intros Hw Hc Hh. unfold run_vals. cbn [fold_left]. f_equal.
  unfold dims in Hc, Hh. injection Hc as Hc1 Hc2. injection Hh as Hh1 Hh2.
  apply forward_vals_states.
  - destruct v, v'. exact Hw.
  - unfold reset_vals. cbn. by rewrite Hc1, Hc2.
  - unfold reset_vals. cbn. by rewrite Hh1, Hh2.
Qed.

(** X8.  Two predictions in a row on the same sequence return two matrices with
    the same entries: what an earlier prediction left in the cell has no
    effect on the next one, and the second call leaves the result of the
    first one as it was. *)
Theorem lstm_network_predict_repeatable (s : mem) (net : LSTMNetwork)
    (c : LSTMCell) (v : CellVals) (Wo bo : Matrix) (sq : list ptr)
    (Xs : list Matrix) (n : Z) :
  mem_wf s -> net_wf s net c v Wo bo ->
  1 <= n <= Z.of_nat (length sq) ->
  vectors_at s (n_input_size net) (cell_written c) (take (Z.to_nat n) sq) Xs ->
  exists out1 s1 out2 s2 P,
    lstm_network_predict (Some net) (Some sq) n s = Some (Ptr out1, s1) /\
    lstm_network_predict (Some net) (Some sq) n s1 = Some (Ptr out2, s2) /\
    heap s1 !! out1 = Some P /\
    heap s2 !! out2 = Some P /\ heap s2 !! out1 = Some P /\ out1 <> out2.
Proof.
  intros Hwf Hnet Hn Hvec.
  destruct (predict_run s net c v Wo bo sq Xs n Hwf Hnet Hn Hvec)
    as (out1 & s1 & Hrun1 & Hwf1 & Hout1 & Hres1 & Hnet1 & Hfr1).
  assert (Hvec1 : vectors_at s1 (n_input_size net) (cell_written c)
                    (take (Z.to_nat n) sq) Xs)
    by (by apply (vectors_at_keep s s1 _ _ _ _ _ Hvec Hfr1)).
  destruct (predict_run s1 net c _ Wo bo sq Xs n Hwf1 Hnet1 Hn Hvec1)
    as (out2 & s2 & Hrun2 & Hwf2 & Hout2 & Hres2 & Hnet2 & Hfr2).
  exists out1, s1, out2, s2, (project Wo bo (vhidden_state (run_vals v Xs))).
  split; [exact Hrun1|]. split; [exact Hrun2|]. split; [exact Hres1|].
  assert (HXs : exists X Xs', Xs = X :: Xs').
  { destruct Xs as [|X Xs']; [|by eauto].
    apply Forall2_length in Hvec. rewrite length_take in Hvec. cbn in Hvec. lia. }
  destruct HXs as (X & Xs' & ->).
  destruct Hnet as (_ & (_ & Hat & Hsh) & _).
  destruct Hnet1 as (_ & (_ & _ & Hsh1) & _).
  assert (Heq : run_vals (run_vals v (X :: Xs')) (X :: Xs') = run_vals v (X :: Xs')).
  { apply run_vals_weights.
    - apply weights_run.
    - unfold cell_shapes in Hsh, Hsh1.
      transitivity (hidden_size c, 1); [tauto|symmetry; tauto].
    - unfold cell_shapes in Hsh, Hsh1.
      transitivity (hidden_size c, 1); [tauto|symmetry; tauto]. }
  split; [by rewrite <- Heq|].
  split; [|lia].
  apply Hfr2; [exact Hres1|]. intros Hin.
  apply cell_written_ptrs in Hin.
  pose proof (cell_ptr_lt s c v out1 Hwf Hat Hin). lia.
Qed.

(** ** lstm.c: what [lstm_network_create] makes *)

Lemma refilled_nil (s : mem) : mem_wf s -> refilled [] s s.
Proof.
  intros Hwf. split; [done|]. repeat split. intros k D HD. by exists D.
Qed.

Lemma refilled_cons (ls : list nat) (l : nat) (s s1 s2 : mem) :
  refilled ls s s1 -> refill l s1 s2 -> refilled (l :: ls) s s2.
Proof.
  intros (Hwf1 & Hn1 & Hf1 & Hl1 & Hfr1 & Hsh1) Hre.
  destruct (refill_same_shapes l s1 s2 Hwf1 Hre) as (Hwf2 & Hn2 & Hf2 & Hl2 & Hsh2).
  destruct Hre as (_ & _ & _ & _ & Hother).
  split; [done|]. split; [congruence|]. split; [congruence|].
  split; [congruence|]. split.
  - intros k Hk. apply not_elem_of_cons in Hk as [Hkl Hk].
    rewrite Hother by done. by apply Hfr1.
  - intros k D HD. destruct (Hsh1 _ _ HD) as (D1 & HD1 & Hr1 & Hc1).
    destruct (Hsh2 _ _ HD1) as (D2 & HD2 & Hr2 & Hc2).
    exists D2. split; [done|]. split; congruence.
Qed.

Lemma refilled_step {B} (ls : list nat) (S0 Sk : mem) (l : nat) (Z0 : Matrix)
    (c : M unit) (rest : M B) (Q : B -> mem -> Prop) :
  refilled ls S0 Sk -> heap S0 !! l = Some Z0 ->
  (forall D', heap Sk !! l = Some D' -> rows D' = rows Z0 ->
              cols D' = cols Z0 -> mem_wf Sk ->
              runs c Sk (fun _ S' => refill l Sk S')) ->
  (forall Sk', refilled (l :: ls) S0 Sk' -> runs rest Sk' Q) ->
  runs (c ;; rest) Sk Q.
Proof.
  intros Hre HZ Hc Hrest.
  pose proof Hre as (Hwfk & _ & _ & _ & _ & Hsh).
  destruct (Hsh _ _ HZ) as (D' & HD' & Hr' & Hc').
  eapply runs_seq; [by apply (Hc D')|].
  intros [] Sk' Hre'. cbv beta. apply Hrest. by apply (refilled_cons ls l S0 Sk).
Qed.

Lemma matrix_zero_noop (s : mem) (l : nat) (r c : Z) :
  heap s !! l = Some (mat_zero r c) -> mem_wf s ->
  matrix_zero (Ptr l) s = Some (tt, s).
Proof.
  intros Hl Hwf.
  rewrite (matrix_zero_eq s l _ Hl (mem_wf_mat _ _ _ Hwf Hl)).
  cbn [rows cols mat_zero mat_tab]. fold (mat_tab r c (fun _ _ => fzero)).
  fold (mat_zero r c). by rewrite (upd_same _ _ _ Hl).
Qed.

(** The loop of [lstm_cell_create] on the forget bias. *)
Lemma ones_eq (s : mem) (l : nat) D (n : Z) :
  mem_wf s -> heap s !! l = Some D -> rows D = n -> cols D = 1 ->
  for_range 0 n (fun i => l' <- deref (Ptr l) ;; elem_set l' i 0 fone) s =
  Some (tt, upd s l (mat_ones n 1)).
Proof.
  intros Hwf HD Hr Hc.
  destruct (mem_wf_mat _ _ _ Hwf HD) as [_ Hs]. rewrite Hr, Hc in Hs.
  rewrite (fill_column s l D n (fun _ _ => fone)); [|done|done|].
  - rewrite with_data_upd, Hr, Hc. reflexivity.
  - intros i d' Hi Hs' Hd'. erewrite bind_eq by reflexivity.
    apply (elem_set_with_data s l D d' i 0).
    apply (shape_data_get _ _ _ i 0 Hs'); [done|lia].
Qed.

Ltac not_in_list :=
  let Hin := fresh "Hin" in
  intros Hin;
  repeat (apply elem_of_cons in Hin as [Hin|Hin]; [lia|]);
  by apply elem_of_nil in Hin.

Lemma cell_create_wf (s : mem) (isz hsz : Z) :
  mem_wf s -> 0 < isz -> 0 < hsz ->
  hsz + isz <= INT_MAX -> hsz + hsz <= INT_MAX ->
  runs (lstm_cell_create isz hsz) s (fun r S1 =>
    exists c v,
      r = Some c /\ mem_wf S1 /\ next S1 = (next s + 18)%nat /\
      cell_wf S1 c v /\ input_size c = isz /\ hidden_size c = hsz /\
      cell_ptrs c = map Ptr (seq (next s) 18) /\
      vb_f v = mat_ones hsz 1 /\
      [vb_i v; vb_c v; vb_o v; vcell_state v; vhidden_state v]
        = replicate 5 (mat_zero hsz 1) /\
      (forall k, (k < next s)%nat -> heap S1 !! k = heap s !! k)).
Proof.
  intros Hwf Hi Hh Hhi Hhh. unfold lstm_cell_create.
  change (malloc_ok sizeof_LSTMCell) with true. cbn [negb].
  assert (Hr : forall z, 0 < z -> z <= INT_MAX -> int_range z)
    by (unfold int_range, INT_MIN, INT_MAX; intros; lia).
  assert (Hmax : INT_MAX = 2147483647) by reflexivity.
  assert (Hok1 : create_ok hsz isz = true) by (apply create_ok_pos; try apply Hr; lia).
  assert (Hok2 : create_ok hsz hsz = true) by (apply create_ok_pos; try apply Hr; lia).
  assert (Hok3 : create_ok hsz 1 = true) by (apply create_ok_pos; try apply Hr; lia).
  do 18 (eapply runs_bind; [by apply matrix_create_eq|]).
  cbn [is_null orb]. rewrite ?next_alloc_st.
  match goal with |- runs _ ?S1 _ => set (S0 := S1) end.
  assert (HwfS0 : mem_wf S0).
  { unfold S0. repeat (apply mem_wf_alloc; [|by apply mat_wf_zero]). exact Hwf. }
  assert (Hre : refilled [] S0 S0) by by apply refilled_nil.
  assert (HnS0 : next S0 = (next s + 18)%nat) by (unfold S0; nlia).
  assert (Hir1 : int_range (hsz + isz)) by (unfold int_range, INT_MIN; lia).
  assert (Hir2 : int_range (hsz + hsz)) by (unfold int_range, INT_MIN; lia).
  revert Hre. generalize S0 at 2 3 as Sk. intros Sk Hre.
  do 8 (match goal with
        | Hre : refilled ?ls S0 ?Sk0
          |- runs (bind (initialize_weights (Ptr ?l) _) _) ?Sk0 _ =>
            eapply (refilled_step ls S0 Sk0 l);
            [ exact Hre | unfold S0; heap_look
            | intros D' HD' Hr' Hc' HwfSk;
              apply (initialize_weights_run Sk0 _ D'); [done|done|];
              rewrite Hr', Hc'; cbn [rows cols mat_zero mat_tab]; done
            | clear Sk0 Hre; intros Sk Hre]
        end).
  pose proof Hre as (HwfSk & HnSk & HfSk & HlSk & Hfr & Hsh).
  assert (Hz : forall k, (next s + 8 <= k < next s + 18)%nat ->
                 heap Sk !! k = Some (mat_zero hsz 1)).
  { intros k Hk. rewrite Hfr by not_in_list.
    assert (Hcases : k = (next s + 8)%nat \/ k = (next s + 9)%nat \/
                     k = (next s + 10)%nat \/ k = (next s + 11)%nat \/
                     k = (next s + 12)%nat \/ k = (next s + 13)%nat \/
                     k = (next s + 14)%nat \/ k = (next s + 15)%nat \/
                     k = (next s + 16)%nat \/ k = (next s + 17)%nat) by lia.
    unfold S0.
    repeat (destruct Hcases as [->|Hcases]; [heap_look|]).
    subst k. heap_look. }
  eapply runs_bind;
    [apply (matrix_zero_noop Sk _ hsz 1); [apply Hz; lia | done]|].
  eapply runs_bind;
    [apply (ones_eq Sk _ (mat_zero hsz 1)); [done | apply Hz; lia | done | done]|].
  match goal with |- runs _ ?S1 _ => set (Sk1 := S1) end.
  assert (HwfSk1 : mem_wf Sk1).
  { apply (mem_wf_upd_at _ _ (mat_zero hsz 1)); [done|apply Hz; lia|].
    by apply mat_wf_tab. }
  assert (Hz1 : forall k, (next s + 9 <= k < next s + 18)%nat ->
                  heap Sk1 !! k = Some (mat_zero hsz 1)).
  { intros k Hk. unfold Sk1. rewrite heap_upd_ne by lia. apply Hz. lia. }
  do 5 (eapply runs_bind;
        [apply (matrix_zero_noop Sk1 _ hsz 1); [apply Hz1; lia | done]|]).
  apply runs_ret.
  destruct (Hsh (next s) (mat_zero hsz isz) ltac:(unfold S0; heap_look))
    as (D0 & HD0 & Hr0 & Hc0).
  destruct (Hsh (S (next s)) (mat_zero hsz isz) ltac:(unfold S0; heap_look))
    as (D1 & HD1 & Hr1 & Hc1).
  destruct (Hsh (S (S (next s))) (mat_zero hsz isz) ltac:(unfold S0; heap_look))
    as (D2 & HD2 & Hr2 & Hc2).
  destruct (Hsh (S (S (S (next s)))) (mat_zero hsz isz) ltac:(unfold S0; heap_look))
    as (D3 & HD3 & Hr3 & Hc3).
  destruct (Hsh (S (S (S (S (next s))))) (mat_zero hsz hsz) ltac:(unfold S0; heap_look))
    as (D4 & HD4 & Hr4 & Hc4).
  destruct (Hsh (S (S (S (S (S (next s)))))) (mat_zero hsz hsz) ltac:(unfold S0; heap_look))
    as (D5 & HD5 & Hr5 & Hc5).
  destruct (Hsh (S (S (S (S (S (S (next s))))))) (mat_zero hsz hsz) ltac:(unfold S0; heap_look))
    as (D6 & HD6 & Hr6 & Hc6).
  destruct (Hsh (S (S (S (S (S (S (S (next s)))))))) (mat_zero hsz hsz) ltac:(unfold S0; heap_look))
    as (D7 & HD7 & Hr7 & Hc7).
  eexists.
  exists (mkVals D0 D1 D2 D3 D4 D5 D6 D7 (mat_ones hsz 1)
                 (mat_zero hsz 1) (mat_zero hsz 1) (mat_zero hsz 1)
                 (mat_zero hsz 1) (mat_zero hsz 1) (mat_zero hsz 1)
                 (mat_zero hsz 1) (mat_zero hsz 1) (mat_zero hsz 1)).
  split; [reflexivity|]. split; [exact HwfSk1|].
  split; [unfold Sk1; cbn [next upd set_heap]; lia|].
  split.
  { split; [|split].
    - change (NoDup (map Ptr (seq (next s) 18))).
      apply NoDup_fmap_2; [by intros a b [=]|]. apply NoDup_seq.
    - unfold cell_at.
      cbn [W_f W_i W_c W_o U_f U_i U_c U_o b_f b_i b_c b_o cell_state
           hidden_state forget_gate input_gate candidate_gate output_gate
           vW_f vW_i vW_c vW_o vU_f vU_i vU_c vU_o vb_f vb_i vb_c vb_o
           vcell_state vhidden_state vforget_gate vinput_gate
           vcandidate_gate voutput_gate].
      repeat split;
        (eexists; split; [reflexivity|]);
        first [ apply heap_upd_eq
              | apply Hz1; lia
              | unfold Sk1; rewrite heap_upd_ne by lia; assumption ].
    - unfold cell_shapes, dims.
      cbn [input_size hidden_size
           vW_f vW_i vW_c vW_o vU_f vU_i vU_c vU_o vb_f vb_i vb_c vb_o
           vcell_state vhidden_state vforget_gate vinput_gate
           vcandidate_gate voutput_gate].
      rewrite Hr0, Hc0, Hr1, Hc1, Hr2, Hc2, Hr3, Hc3,
              Hr4, Hc4, Hr5, Hc5, Hr6, Hc6, Hr7, Hc7.
      repeat split. }
  split; [reflexivity|]. split; [reflexivity|]. split; [reflexivity|].
  split; [reflexivity|]. split; [reflexivity|].
  intros k Hk. unfold Sk1. rewrite heap_upd_ne by lia.
  rewrite Hfr by not_in_list. unfold S0. by heap_norm.
Qed.

Lemma network_create_wf_run (s : mem) (isz hsz osz : Z) :
  mem_wf s -> 0 < isz -> 0 < hsz -> 0 < osz ->
  hsz + isz <= INT_MAX -> hsz + hsz <= INT_MAX -> osz + hsz <= INT_MAX ->
  runs (lstm_network_create isz hsz osz) s (fun r s' =>
            exists net c v Wo,
              r = Some net /\ mem_wf s' /\ net_wf s' net c v Wo (mat_zero osz 1) /\
              n_input_size net = isz /\ n_hidden_size net = hsz /\
              output_size net = osz /\
              learning_rate net = fmilli /\ sequence_length net = 10 /\
              norm_params net = None /\
              vb_f v = mat_ones hsz 1 /\
              [vb_i v; vb_c v; vb_o v; vcell_state v; vhidden_state v]
                = replicate 5 (mat_zero hsz 1) /\
              preserved s s' /\
              W_output net = Ptr (next s + 18)%nat /\
              b_output net = Ptr (next s + 19)%nat /\
              cell_ptrs c = map Ptr (seq (next s) 18) /\
              next s' = (next s + 20)%nat /\
              (forall k, (k < next s)%nat -> heap s' !! k = heap s !! k)).
Proof.
  intros Hwf Hi Hh Ho Hhi Hhh Hoh.
  assert (Hr : forall z, 0 < z -> z <= INT_MAX -> int_range z)
    by (unfold int_range, INT_MIN, INT_MAX; intros; lia).
  assert (Hmax : INT_MAX = 2147483647) by reflexivity.
  assert (Hok1 : create_ok osz hsz = true) by (apply create_ok_pos; try apply Hr; lia).
  assert (Hok2 : create_ok osz 1 = true) by (apply create_ok_pos; try apply Hr; lia).
  unfold lstm_network_create.
  change (malloc_ok sizeof_LSTMNetwork) with true. cbn [negb].
  eapply runs_seq; [by apply cell_create_wf|].
  intros r Sc (c & v & -> & HwfSc & HnSc & Hc & Hci & Hch & Hptrs & Hbf & Hz & Hold).
  cbv beta iota.
  do 2 (eapply runs_bind; [by apply matrix_create_eq|]).
  cbn [is_null orb]. rewrite ?next_alloc_st.
  match goal with |- runs _ ?S0 _ => set (S1 := S0) end.
  assert (HwfS1 : mem_wf S1).
  { unfold S1. repeat (apply mem_wf_alloc; [|by apply mat_wf_zero]). exact HwfSc. }
  assert (Hw1 : heap S1 !! next Sc = Some (mat_zero osz hsz))
    by (unfold S1; heap_look).
  assert (Hb1 : heap S1 !! S (next Sc) = Some (mat_zero osz 1))
    by (unfold S1; heap_look).
  eapply runs_seq.
  { apply (initialize_weights_run S1 _ (mat_zero osz hsz)); [done|done|].
    cbn [rows cols mat_zero mat_tab]. unfold int_range, INT_MIN. lia. }
  intros [] S2 Hre. cbv beta.
  pose proof (refill_same_shapes _ _ _ HwfS1 Hre) as (HwfS2 & HnS2 & _).
  destruct Hre as (_ & _ & _ & (D & Wo & HD & HWo & HWr & HWc & _) & Hother).
  rewrite Hw1 in HD. injection HD as <-.
  assert (Hb2 : heap S2 !! S (next Sc) = Some (mat_zero osz 1))
    by (rewrite Hother by lia; exact Hb1).
  eapply runs_bind; [by apply (matrix_zero_noop S2 _ osz 1)|].
  apply runs_ret.
  assert (Hkeep : forall k, (k < next Sc)%nat -> heap S2 !! k = heap Sc !! k).
  { intros k Hk. rewrite Hother by lia. unfold S1. by heap_norm. }
  eexists _, c, v, Wo. split; [reflexivity|].
  cbn [lstm_layer W_output b_output n_input_size n_hidden_size output_size
       learning_rate sequence_length norm_params].
  split; [exact HwfS2|]. split.
  { split; [reflexivity|]. split.
    { apply (cell_wf_keep Sc); [done|]. intros l m Hin Hl.
      rewrite Hkeep; [done|]. destruct Hc as (_ & Hat & _).
      by apply (cell_ptr_lt Sc c v l HwfSc Hat). }
    split; [by eexists|]. split; [by eexists|].
    rewrite Hptrs, HnSc.
    assert (Hnot : forall a, (next s + 18 <= a)%nat ->
                     Ptr a ∉ map Ptr (seq (next s) 18)).
    { intros a Ha Hin. apply list_elem_of_fmap in Hin as (y & [= ->] & Hy).
      apply elem_of_seq in Hy. lia. }
    split; [apply Hnot; lia|]. split; [apply Hnot; lia|].
    split; [intros [=]; lia|].
    unfold dims. cbn [rows cols mat_zero mat_tab]. rewrite HWr, HWc.
    cbn [rows cols mat_zero mat_tab].
    repeat split; try done; cbn [output_size]; unfold INT_MIN; lia. }
  repeat (split; [done|]).
  split.
  { intros k m Hk. pose proof (mem_wf_lt _ _ _ Hwf Hk).
    rewrite Hkeep by lia. rewrite Hold by lia. exact Hk. }
  rewrite HnSc. split; [f_equal; lia|]. split; [f_equal; lia|].
    split; [done|]. split; [rewrite HnS2; unfold S1; cbn [next alloc_st]; lia|].
  intros k Hk. rewrite Hkeep by lia. by apply Hold.
Qed.

(** X9.  With positive sizes [lstm_network_create] returns a network in the
    state the forward step, the prediction and the training take it in and
    leave it in: a cell of eighteen new matrices of the shapes the sizes
    give, all different, and two more for the output layer.  The forget bias
    is all ones; the other biases, both states and [b_output] are zero; the
    learning rate is 0.001, the sequence length 10 and there are no
    normalisation parameters.  The objects that were in memory are as they
    were. *)
Theorem lstm_network_create_well_formed (s : mem) (isz hsz osz : Z) :
  mem_wf s -> 0 < isz -> 0 < hsz -> 0 < osz ->
  hsz + isz <= INT_MAX -> hsz + hsz <= INT_MAX -> osz + hsz <= INT_MAX ->
  exists net s' c v Wo,
    lstm_network_create isz hsz osz s = Some (Some net, s') /\
    mem_wf s' /\ net_wf s' net c v Wo (mat_zero osz 1) /\
    n_input_size net = isz /\ n_hidden_size net = hsz /\
    output_size net = osz /\
    learning_rate net = fmilli /\ sequence_length net = 10 /\
    norm_params net = None /\
    vb_f v = mat_ones hsz 1 /\
    [vb_i v; vb_c v; vb_o v; vcell_state v; vhidden_state v]
      = replicate 5 (mat_zero hsz 1) /\
    preserved s s' /\
    (forall p, p ∈ W_output net :: b_output net :: cell_ptrs c ->
       exists l, p = Ptr l /\ heap s !! l = None).
Proof.
  intros Hwf Hi Hh Ho Hhi Hhh Hoh.
  assert (Hfresh : forall l, (next s <= l)%nat -> heap s !! l = None).
  { intros l Hl. destruct (heap s !! l) as [m|] eqn:E; [|done].
    pose proof (mem_wf_lt _ _ _ Hwf E). lia. }
  destruct (network_create_wf_run s isz hsz osz Hwf Hi Hh Ho Hhi Hhh Hoh)
    as (r & s' & Hrun & net & c & v & Wo & -> & Hwf' & Hnet & Hf1 &
        Hf2 & Hf3 & Hf4 & Hf5 & Hf6 & Hbf & Hz & Hpres & EW & Eb & Hptrs & _ & _).
  exists net, s', c, v, Wo. split; [exact Hrun|].
  repeat (split; [assumption|]).
  intros p Hin. rewrite EW, Eb, Hptrs in Hin.
  apply elem_of_cons in Hin as [->|Hin]; [eexists; split; [done|apply Hfresh; lia]|].
  apply elem_of_cons in Hin as [->|Hin]; [eexists; split; [done|apply Hfresh; lia]|].
  apply list_elem_of_fmap in Hin as (y & -> & Hy). apply elem_of_seq in Hy.
  eexists; split; [done|apply Hfresh; lia].
Qed.

(** ** lstm.c: a creation that fails *)

Lemma heap_freed_eq (s : mem) l : heap (freed s l) !! l = None.
Proof. unfold freed, set_heap. cbn [heap]. apply lookup_delete_eq. Qed.

Lemma heap_alloc_ne (s : mem) m k :
  k <> next s -> heap (alloc_st s m) !! k = heap s !! k.
Proof. intros Hne. unfold alloc_st. cbn [heap]. by rewrite lookup_insert_ne. Qed.

Lemma heap_restore (s s' : mem) :
  mem_wf s ->
  (forall k, (k < next s)%nat -> heap s' !! k = heap s !! k) ->
  (forall k, (next s <= k)%nat -> heap s' !! k = None) ->
  heap s' = heap s.
Proof.
  intros Hwf Hold Hnew. apply map_eq. intros k.
  destruct (decide (k < next s)%nat) as [Hk|Hk]; [by apply Hold|].
  rewrite Hnew by lia.
  destruct (heap s !! k) as [m|] eqn:E; [|done].
  pose proof (mem_wf_lt _ _ _ Hwf E). lia.
Qed.

(** The lookups in a memory built by allocations and releases. *)
Ltac heap_gone :=
  repeat first
    [ rewrite heap_freed_eq
    | rewrite heap_freed_ne by lia
    | rewrite heap_alloc_ne by (cbn [next alloc_st freed set_heap]; lia) ].

Ltac split_addr k a n Hfresh :=
  lazymatch n with
  | O => idtac
  | S ?n' =>
      destruct (decide (k = a)) as [->|?];
      [ heap_gone; first [done | apply Hfresh; lia]
      | split_addr k (S a) n' Hfresh ]
  end.

(** X10.  When one of its eighteen allocations fails [lstm_cell_create] returns
    [NULL] and has released every matrix it had allocated: the heap is as
    it was. *)
Theorem lstm_cell_create_failure_releases (s : mem) (isz hsz : Z) :
  mem_wf s ->
  create_ok hsz isz && create_ok hsz hsz && create_ok hsz 1 = false ->
  exists s',
    lstm_cell_create isz hsz s = Some (None, s') /\ heap s' = heap s.
Proof.
  intros Hwf Hfail.
  assert (Hfresh : forall k, (next s <= k)%nat -> heap s !! k = None).
  { intros k Hk. destruct (heap s !! k) as [m|] eqn:E; [|done].
    pose proof (mem_wf_lt _ _ _ Hwf E). lia. }
  unfold lstm_cell_create.
  change (malloc_ok sizeof_LSTMCell) with true. cbn [negb].
  destruct (create_ok hsz isz) eqn:E1, (create_ok hsz hsz) eqn:E2,
           (create_ok hsz 1) eqn:E3; try discriminate Hfail;
    do 18 (erewrite bind_eq
             by first [by apply matrix_create_eq | by apply matrix_create_fail]);
    cbn [is_null orb]; rewrite ?next_alloc_st;
    unfold lstm_cell_free;
    cbn [W_f W_i W_c W_o U_f U_i U_c U_o b_f b_i b_c b_o cell_state
         hidden_state forget_gate input_gate candidate_gate output_gate];
    repeat first
      [ rewrite bind_assoc
      | erewrite bind_eq
          by first [ reflexivity
                   | eapply matrix_free_eq; heap_gone; apply heap_alloc_new ] ].
  all: eexists; (split; [reflexivity|]).
  all: apply heap_restore; [exact Hwf | |];
    intros k Hk; cbn [heap ret]; heap_gone; try done; try (by apply Hfresh).
  all: split_addr k (next s) 18%nat Hfresh; heap_gone; apply Hfresh; lia.
Qed.

(** ** lstm.c: releasing a network *)

Lemma network_free_run (s : mem) (net : LSTMNetwork)
    (c : LSTMCell) (v : CellVals) (Wo bo : Matrix) :
  mem_wf s -> net_wf s net c v Wo bo ->
  exists s',
    lstm_network_free (Some net) s = Some (tt, s') /\
    next s' = next s /\
    (forall p, p ∈ W_output net :: b_output net :: cell_ptrs c ->
       exists l, p = Ptr l /\ heap s' !! l = None) /\
    (forall k, Ptr k ∉ W_output net :: b_output net :: cell_ptrs c ->
       heap s' !! k = heap s !! k).
Proof.
  intros Hwf (Hl & Hc & (w & Ew & Hw) & (b & Eb & Hb) & Hwn & Hbn & Hwb & _).
  unfold lstm_network_free, lstm_cell_free. rewrite Hl.
  unfold cell_ptrs in *. rewrite Ew, Eb in *.
  open_cell Hwf Hc.
  repeat first
    [ rewrite bind_assoc
    | erewrite bind_eq
        by (eapply matrix_free_eq; rewrite ?heap_freed_ne by solve_ne;
            eassumption) ].
  eexists. split.
  { eapply matrix_free_eq. rewrite ?heap_freed_ne by solve_ne. eassumption. }
  split; [reflexivity|]. split.
  - intros p Hin.
    repeat (apply elem_of_cons in Hin as [->|Hin];
            [eexists; split; [reflexivity|];
             repeat first [rewrite heap_freed_eq | rewrite heap_freed_ne by solve_ne];
             reflexivity|]).
    by apply elem_of_nil in Hin.
  - intros k Hkn.
    repeat match goal with
    | Hn : _ ∉ _ :: _ |- _ => apply not_elem_of_cons in Hn as [? Hn]
    | Hn : _ ∉ [] |- _ => clear Hn
    end.
    by rewrite !heap_freed_ne by solve_ne.
Qed.

(** X11.  [lstm_network_free] releases the twenty matrices of a network, the
    eighteen of the cell and the two of the output layer, and nothing else:
    afterwards none of them is in memory and every other object is as it
    was.  On [NULL] it does nothing. *)
Theorem lstm_network_free_releases (s : mem) (net : LSTMNetwork)
    (c : LSTMCell) (v : CellVals) (Wo bo : Matrix) :
  mem_wf s -> net_wf s net c v Wo bo ->
  (exists s',
     lstm_network_free (Some net) s = Some (tt, s') /\
     next s' = next s /\
     (forall p, p ∈ W_output net :: b_output net :: cell_ptrs c ->
        exists l, p = Ptr l /\ heap s' !! l = None) /\
     (forall k m, heap s !! k = Some m ->
        Ptr k ∉ W_output net :: b_output net :: cell_ptrs c ->
        heap s' !! k = Some m)) /\
  lstm_network_free None s = Some (tt, s).
Proof.
  intros Hwf Hnet. split; [|reflexivity].
  destruct (network_free_run s net c v Wo bo Hwf Hnet)
    as (s' & Hrun & Hn & Hgone & Hfr).
  exists s'. split; [exact Hrun|]. split; [exact Hn|]. split; [exact Hgone|].
  intros k m Hk Hkn. by rewrite Hfr.
Qed.

(** ** lstm.c: the next point, on a dataset that is long enough *)

Lemma heap_frees_in (s : mem) ls k :
  k ∈ ls -> heap (frees s ls) !! k = None.
Proof.
  unfold frees, set_heap. cbn [heap]. induction ls as [|l ls IH]; intros Hk.
  - by apply elem_of_nil in Hk.
  - cbn [foldr]. destruct (decide (l = k)) as [->|Hne]; [apply lookup_delete_eq|].
    rewrite lookup_delete_ne by done. apply IH.
    apply elem_of_cons in Hk as [->|Hk]; [done|exact Hk].
Qed.

Lemma net_wf_keep (s s' : mem) (net : LSTMNetwork) (c : LSTMCell)
    (v : CellVals) (Wo bo : Matrix) :
  net_wf s net c v Wo bo ->
  (forall l m, Ptr l ∈ W_output net :: b_output net :: cell_ptrs c ->
               heap s !! l = Some m -> heap s' !! l = Some m) ->
  net_wf s' net c v Wo bo.
Proof.
  intros (Hl & Hc & (w & Ew & Hw) & (b & Eb & Hb) & Hrest) Hkeep.
  split; [done|]. split.
  { apply (cell_wf_keep s); [done|]. intros l m Hin Hlm.
    apply Hkeep; [|done]. by do 2 apply list_elem_of_further. }
  split.
  { exists w. split; [done|]. apply Hkeep; [|done]. rewrite Ew. apply list_elem_of_here. }
  split; [|done].
  exists b. split; [done|]. apply Hkeep; [|done].
  rewrite Eb. apply list_elem_of_further, list_elem_of_here.
Qed.

Lemma net_ptr_lt (s : mem) (net : LSTMNetwork) (c : LSTMCell)
    (v : CellVals) (Wo bo : Matrix) (l : nat) :
  mem_wf s -> net_wf s net c v Wo bo ->
  Ptr l ∈ W_output net :: b_output net :: cell_ptrs c -> (l < next s)%nat.
Proof.
  intros Hwf (Hl & (_ & Hat & _) & (w & Ew & Hw) & (b & Eb & Hb) & _) Hin.
  apply elem_of_cons in Hin as [Hin|Hin].
  { rewrite Ew in Hin. injection Hin as ->. by apply (mem_wf_lt _ _ _ Hwf Hw). }
  apply elem_of_cons in Hin as [Hin|Hin].
  { rewrite Eb in Hin. injection Hin as ->. by apply (mem_wf_lt _ _ _ Hwf Hb). }
  by apply (cell_ptr_lt s c v l Hwf Hat).
Qed.

Lemma mat_wf_point (p : WeatherPoint) : mat_wf (point_matrix p).
Proof. split; [reflexivity|]. split; [reflexivity|repeat constructor]. Qed.

Lemma matrix_to_weather_point_at (s : mem) (l : nat) (P : Matrix) :
  heap s !! l = Some P -> mat_wf P -> dims P = (6, 1) ->
  matrix_to_weather_point (Ptr l) s = Some (matrix_point P, s).
Proof.
  intros Hl [_ Hs] Hd. unfold dims in Hd. injection Hd as Hr Hc.
  rewrite Hr, Hc in Hs.
  unfold matrix_to_weather_point.
  erewrite bind_eq by by apply get_rows_eq.
  erewrite bind_eq by by apply get_cols_eq.
  rewrite Hr, Hc. cbn [Z.eqb Pos.eqb negb orb].
  assert (Hget : forall i : nat, (i < 6)%nat ->
            elem_get l (Z.of_nat i) (Z.of_nat 0) s = Some (mat_at P i 0, s)).
  { intros i Hi. apply (elem_get_eq _ _ P); [done|].
    apply (data_get_mat_at P _ _ i 0 Hs); [exact Hi|cbn; lia]. }
  erewrite bind_eq by (apply (Hget 0%nat); lia).
  erewrite bind_eq by (apply (Hget 1%nat); lia).
  erewrite bind_eq by (apply (Hget 2%nat); lia).
  erewrite bind_eq by (apply (Hget 3%nat); lia).
  erewrite bind_eq by (apply (Hget 4%nat); lia).
  erewrite bind_eq by (apply (Hget 5%nat); lia).
  reflexivity.
Qed.

Lemma released_S (base k : nat) :
  released base (S k) = (base + k)%nat :: released base k.
Proof. unfold released. by rewrite seq_S, reverse_snoc. Qed.

Lemma elem_of_released (base k a : nat) :
  a ∈ released base k <-> (base <= a < base + k)%nat.
Proof.
  unfold released. rewrite list_elem_of_fmap. split.
  - intros (t & -> & Ht). apply elem_of_reverse, elem_of_seq in Ht. lia.
  - intros Ha. exists (a - base)%nat. split; [lia|].
    apply elem_of_reverse, elem_of_seq. lia.
Qed.

Lemma frees_nil (s : mem) : frees s [] = s.
Proof. by destruct s. Qed.

(** The last loop of [lstm_predict_next]. *)
Lemma release_sequence (s : mem) (base n : nat) :
  (forall t, (t < n)%nat -> is_Some (heap s !! (base + t)%nat)) ->
  for_range 0 (Z.of_nat n) (fun i =>
    m <- array_get (map (fun t => Ptr (base + t)%nat) (seq 0 n)) i ;;
    matrix_free m) s =
  Some (tt, frees s (released base n)).
Proof.
  intros Hlive. unfold for_range. rewrite Z.sub_0_r, Nat2Z.id.
  rewrite <- (frees_nil s) at 1.
  apply (for_loop_eq (fun k => frees s (released base k))).
  intros k Hk. rewrite Z.add_0_l.
  erewrite bind_eq.
  2:{ apply array_get_eq. rewrite list_lookup_fmap, lookup_seq_lt by done.
      reflexivity. }
  cbn [Nat.add]. destruct (Hlive k Hk) as (m & Hm).
  rewrite (matrix_free_eq _ _ m).
  - by rewrite released_S.
  - rewrite heap_frees_ne; [done|]. rewrite elem_of_released. lia.
Qed.

(** X12.  On a network of six inputs and six outputs and a dataset of at least
    [seq_length >= 1] points, [lstm_predict_next] returns the point read off
    the prediction on the last [seq_length] points of the dataset, in the
    order of the dataset.  The matrices made for the sequence and the
    prediction are released before it returns, the network is left
    well-formed, and only the state and gate matrices of the cell have
    changed. *)
Theorem lstm_predict_next_result (s : mem) (net : LSTMNetwork)
    (c : LSTMCell) (v : CellVals) (Wo bo : Matrix) (ds : WeatherDataset)
    (n : Z) :
  mem_wf s -> net_wf s net c v Wo bo ->
  n_input_size net = 6 -> output_size net = 6 ->
  ds_size ds = Z.of_nat (length (ds_data ds)) ->
  1 <= n <= ds_size ds -> n <= INT_MAX ->
  let Xs := map point_matrix (drop (Z.to_nat (ds_size ds - n)) (ds_data ds)) in
  let v' := run_vals v Xs in
  let P := project Wo bo (vhidden_state v') in
  exists s',
    lstm_predict_next (Some net) (Some ds) n s = Some (matrix_point P, s') /\
    net_wf s' net c v' Wo bo /\
    preserved_but (cell_written c) s s' /\
    (forall k, (next s <= k < next s + Z.to_nat n)%nat -> heap s' !! k = None).
Proof.
  intros Hwf Hnet Hin Hout Hsz Hn Hmax Xs v' P.
  unfold lstm_predict_next.
  replace (ds_size ds <? n) with false by (symmetry; apply Z.ltb_ge; lia).
  rewrite malloc_ok_array by lia. cbn [negb].
  set (nn := Z.to_nat n). set (i0 := Z.to_nat (ds_size ds - n)).
  set (ms := map point_matrix (take nn (drop i0 (ds_data ds)))).
  assert (Hms : ms = Xs).
  { unfold ms, Xs. fold i0. f_equal. apply take_ge. rewrite length_drop. lia. }
  unfold recent_sequence.
  replace (ds_size ds - n) with (Z.of_nat i0) by lia. fold nn.
  erewrite bind_eq by (apply window_loop; lia). fold ms.
  set (sq := map (fun t => Ptr (next s + t)%nat) (seq 0 nn)).
  set (S1 := allocs s ms).
  assert (Hlen : length ms = nn).
  { unfold ms. rewrite length_map, length_take, length_drop. lia. }
  assert (HwfS1 : mem_wf S1).
  { apply mem_wf_allocs; [done|]. unfold ms. apply Forall_fmap, Forall_forall.
    intros p _. apply mat_wf_point. }
  assert (Hold : forall k, (k < next s)%nat -> heap S1 !! k = heap s !! k)
    by (intros k Hk; by apply heap_allocs_old).
  assert (Hnet1 : net_wf S1 net c v Wo bo).
  { apply (net_wf_keep s); [done|]. intros l m Hl Hlm. rewrite Hold; [done|].
    by apply (net_ptr_lt s net c v Wo bo). }
  assert (Hnw : forall a, (next s <= a)%nat -> Ptr a ∉ cell_written c).
  { intros a Ha Hw. apply cell_written_ptrs in Hw.
    destruct Hnet as (_ & (_ & Hat & _) & _).
    pose proof (cell_ptr_lt s c v a Hwf Hat Hw). lia. }
  assert (Hvec : vectors_at S1 (n_input_size net) (cell_written c)
                   (take (Z.to_nat n) sq) ms).
  { fold nn. rewrite take_ge by (unfold sq; rewrite length_map, length_seq; lia).
    apply Forall2_same_length_lookup_2.
    { unfold sq. by rewrite length_map, length_seq, Hlen. }
    intros t p X Hp HX. unfold sq in Hp.
    rewrite list_lookup_fmap in Hp.
    destruct (seq 0 nn !! t) as [t'|] eqn:Et; [|done].
    apply lookup_seq in Et as [-> Ht]. injection Hp as <-. cbn [Nat.add].
    split; [exists (next s + t)%nat; split; [done|]; by apply heap_allocs_new|].
    split; [|apply Hnw; lia].
    unfold ms in HX. rewrite list_lookup_fmap in HX.
    destruct (take nn (drop i0 (ds_data ds)) !! t); [|done].
    injection HX as <-. rewrite Hin. reflexivity. }
  destruct (predict_run S1 net c v Wo bo sq ms n HwfS1 Hnet1)
    as (out & S2 & Hrun & HwfS2 & Hout2 & Hres & Hnet2 & Hfr2); [|done|].
  { unfold sq. rewrite length_map, length_seq. lia. }
  erewrite bind_eq by exact Hrun.
  change (is_null (Ptr out)) with false. cbv iota.
  rewrite Hms in Hres, Hnet2. fold v' in Hres, Hnet2. fold P in Hres.
  assert (HdP : dims P = (6, 1)).
  { destruct Hnet2 as (_ & (_ & _ & Hsh2) & _ & _ & _ & _ & _ & _ & _ & HdW & _).
    unfold cell_shapes in Hsh2.
    assert (Hdh : dims (vhidden_state v') = (hidden_size c, 1)) by tauto.
    unfold dims in *. unfold P, project, mat_map2, mat_mul, mat_tab.
    cbn [rows cols]. congruence. }
  rewrite bind_assoc.
  erewrite bind_eq
    by (apply (matrix_to_weather_point_at S2 out P);
        [done|by apply (mem_wf_mat _ _ _ HwfS2 Hres)|done]).
  rewrite bind_assoc.
  erewrite bind_eq by by apply (matrix_free_eq S2 out P).
  erewrite bind_eq by reflexivity.
  set (S3 := freed S2 out).
  assert (HnS1 : next S1 = (next s + nn)%nat)
    by (unfold S1; rewrite next_allocs; lia).
  assert (Hseq3 : forall t, (t < nn)%nat -> is_Some (heap S3 !! (next s + t)%nat)).
  { intros t Ht. destruct (lookup_lt_is_Some_2 ms t ltac:(lia)) as (X & HX).
    exists X. unfold S3. rewrite heap_freed_ne by lia.
    apply Hfr2; [by apply heap_allocs_new|apply Hnw; lia]. }
  assert (Hnn : n = Z.of_nat nn) by lia.
  erewrite bind_eq
    by (rewrite Hnn; by apply (release_sequence S3 (next s) nn)).
  unfold ret. eexists. split; [reflexivity|].
  assert (Hkeep : forall k m, (k < next s)%nat -> heap S2 !! k = Some m ->
            heap (frees S3 (released (next s) nn)) !! k = Some m).
  { intros k m Hk Hkm. rewrite heap_frees_ne by (rewrite elem_of_released; lia).
    unfold S3. by rewrite heap_freed_ne by lia. }
  split.
  { apply (net_wf_keep S2); [done|]. intros l m Hl Hlm.
    apply Hkeep; [|done]. by apply (net_ptr_lt s net c v Wo bo). }
  split.
  { intros k m Hk Hkn. pose proof (mem_wf_lt _ _ _ Hwf Hk).
    apply Hkeep; [done|]. apply Hfr2; [|done]. by rewrite Hold. }
  intros k Hk. apply heap_frees_in. rewrite elem_of_released. lia.
Qed.

(** ** lstm.c: releasing training data *)

Lemma seq_ins_lookup_eq n base W (j : nat) :
  (j < n)%nat ->
  seq_ins n base W !! j
  = Some (map (fun t => Ptr (pair_addr base W j 0 + t)%nat) (seq 0 W)).
Proof.
  revert base j. induction n as [|n IH]; intros base j Hj; [lia|].
  destruct j as [|j]; cbn [seq_ins lookup list_lookup].
  - f_equal. apply map_ext. intros t. unfold pair_addr. f_equal. lia.
  - rewrite IH by lia. f_equal. apply map_ext. intros t.
    unfold pair_addr. f_equal. lia.
Qed.

Lemma create_training_data_eq (s : mem) (ds : WeatherDataset) (W : Z) :
  ds_size ds = Z.of_nat (length (ds_data ds)) -> ds_size ds <= INT_MAX ->
  0 < W < ds_size ds ->
  create_training_data (Some ds) W s =
  Some (Some (mkTraining
                (seq_ins (Z.to_nat (ds_size ds - W)) (next s) (Z.to_nat W))
                (seq_tgs (Z.to_nat (ds_size ds - W)) (next s) (Z.to_nat W))
                (ds_size ds - W) W),
        allocs s (map point_matrix
                    (seq_pts (Z.to_nat (ds_size ds - W)) (ds_data ds)
                             (Z.to_nat W)))).
Proof.
  intros Hsz Hmax HW. unfold create_training_data.
  replace ((W <=? 0) || (ds_size ds <=? W)) with false
    by (symmetry; apply orb_false_iff; rewrite !Z.leb_gt; lia).
  change (malloc_ok sizeof_TrainingData) with true. cbn [negb].
  rewrite malloc_ok_array by lia. cbn [negb].
  pose proof (create_sequences_eq ds (Z.to_nat W) (Z.to_nat (ds_size ds - W))
                ltac:(lia) 0%nat [] [] s ltac:(lia)) as Hrun.
  replace (Z.of_nat (Z.to_nat W)) with W in Hrun by lia. cbn [Z.of_nat] in Hrun.
  erewrite bind_eq by exact Hrun. by rewrite drop_0, !app_nil_l.
Qed.

Lemma free_pairs (s1 : mem) (d : TrainingData) (base W n : nat) :
  inputs d = seq_ins n base W -> targets d = seq_tgs n base W ->
  num_sequences d = Z.of_nat n -> td_sequence_length d = Z.of_nat W ->
  (forall j, (j < n * S W)%nat -> is_Some (heap s1 !! (base + j)%nat)) ->
  runs (free_training_data (Some d)) s1 (fun _ S0 => pairs_released s1 base W n S0).
Proof.
  intros Hins Htgs Hn HW Hlive. unfold free_training_data.
  unfold for_range at 1.
  rewrite Hn, HW, Hins, Htgs, Z.sub_0_r, Nat2Z.id.
  apply (for_loop_runs (fun i S0 => pairs_released s1 base W i S0)).
  { intros k. destruct (decide _) as [Hk|Hk]; [lia|done]. }
  intros i S0 Hi Hinv. rewrite Z.add_0_l.
  assert (Hmul : (S i * S W = i * S W + S W)%nat) by lia.
  assert (Hle : (i * S W + S W <= n * S W)%nat).
  { rewrite <- Hmul. apply Nat.mul_le_mono_r. lia. }
  set (bi := pair_addr base W i 0).
  assert (Hbi : bi = (base + i * S W)%nat) by (unfold bi, pair_addr; lia).
  assert (HliveS : forall t, (t <= W)%nat -> is_Some (heap S0 !! (bi + t)%nat)).
  { intros t Ht. rewrite Hinv, Hbi.
    destruct (decide _) as [Hk|Hk]; [lia|].
    rewrite <- Nat.add_assoc. apply Hlive. lia. }
  eapply runs_bind;
    [apply array_get_eq; by apply (seq_ins_lookup_eq n base W i)|].
  eapply runs_bind.
  { apply (release_sequence S0 bi W). intros t Ht. apply HliveS. lia. }
  eapply runs_bind;
    [apply array_get_eq; by apply (seq_tgs_lookup n base W i)|].
  destruct (HliveS W ltac:(lia)) as (m & Hm).
  eapply runs_eq.
  { apply (matrix_free_eq _ _ m). fold bi.
    replace (pair_addr base W i W) with (bi + W)%nat by (unfold bi, pair_addr; lia).
    rewrite heap_frees_ne by (rewrite elem_of_released; lia). exact Hm. }
  intros k.
  replace (pair_addr base W i W) with (bi + W)%nat by (unfold bi, pair_addr; lia).
  rewrite Hmul.
  destruct (decide (k = bi + W)%nat) as [->|Hne].
  { rewrite heap_freed_eq. destruct (decide _) as [Hk|Hk]; [done|lia]. }
  rewrite heap_freed_ne by lia.
  destruct (decide (k ∈ released bi W)) as [Hrel|Hrel].
  { rewrite heap_frees_in by done. apply elem_of_released in Hrel.
    destruct (decide _) as [Hk|Hk]; [done|lia]. }
  rewrite heap_frees_ne by done. rewrite Hinv.
  rewrite elem_of_released in Hrel.
  destruct (decide _) as [Hk|Hk]; destruct (decide _) as [Hk'|Hk'];
    try done; lia.
Qed.

(** X13.  [free_training_data] on what [create_training_data] has made releases
    every matrix of every pair, each one once: the heap is then as it was
    before the training data was made.  On [NULL] it does nothing. *)
Theorem training_data_create_free (s : mem) (ds : WeatherDataset) (W : Z) :
  mem_wf s ->
  ds_size ds = Z.of_nat (length (ds_data ds)) -> ds_size ds <= INT_MAX ->
  0 < W < ds_size ds ->
  (exists d s1 s2,
     create_training_data (Some ds) W s = Some (Some d, s1) /\
     free_training_data (Some d) s1 = Some (tt, s2) /\
     heap s2 = heap s) /\
  free_training_data None s = Some (tt, s).
Proof.
  intros Hwf Hsz Hmax HW. split; [|reflexivity].
  set (n := Z.to_nat (ds_size ds - W)). set (Wn := Z.to_nat W).
  set (ms := map point_matrix (seq_pts n (ds_data ds) Wn)).
  assert (Hlen : length ms = (n * S Wn)%nat).
  { unfold ms. rewrite length_map. apply length_seq_pts. lia. }
  destruct (free_pairs (allocs s ms)
              (mkTraining (seq_ins n (next s) Wn) (seq_tgs n (next s) Wn)
                          (ds_size ds - W) W)
              (next s) Wn n eq_refl eq_refl ltac:(cbn; lia) ltac:(cbn; lia))
    as ([] & s2 & Hfree & Hinv).
  { intros j Hj. destruct (lookup_lt_is_Some_2 ms j ltac:(lia)) as (m & Hm).
    exists m. by apply heap_allocs_new. }
  eexists _, _, s2. split; [by apply create_training_data_eq|].
  split; [exact Hfree|].
  assert (Hwf1 : mem_wf (allocs s ms)).
  { apply mem_wf_allocs; [done|]. unfold ms. apply Forall_fmap, Forall_forall.
    intros p _. apply mat_wf_point. }
  apply heap_restore; [done| |].
  - intros k Hk. rewrite Hinv. destruct (decide _) as [Hk'|Hk']; [lia|].
    by apply heap_allocs_old.
  - intros k Hk. rewrite Hinv. destruct (decide _) as [Hk'|Hk']; [done|].
    destruct (heap (allocs s ms) !! k) as [m|] eqn:E; [|done].
    pose proof (mem_wf_lt _ _ _ Hwf1 E) as Hlt.
    rewrite next_allocs, Hlen in Hlt. lia.
Qed.

(** ** lstm.c: a network made and released; files that cannot be loaded *)

Lemma network_ptrs_new (s : mem) (net : LSTMNetwork) (c : LSTMCell) (k : nat) :
  W_output net = Ptr (next s + 18)%nat -> b_output net = Ptr (next s + 19)%nat ->
  cell_ptrs c = map Ptr (seq (next s) 18) ->
  Ptr k ∈ W_output net :: b_output net :: cell_ptrs c <->
  (next s <= k < next s + 20)%nat.
Proof.
  intros -> -> ->. rewrite !elem_of_cons, list_elem_of_fmap. split.
  - intros [[= ->]|[[= ->]|(y & [= ->] & Hy)]]; try lia.
    apply elem_of_seq in Hy. lia.
  - intros Hk.
    destruct (decide (k = next s + 18)%nat) as [->|?]; [by left|].
    destruct (decide (k = next s + 19)%nat) as [->|?]; [right; by left|].
    right. right. exists k. split; [done|]. apply elem_of_seq. lia.
Qed.

(** The heap after a network made in [s] has been released. *)
Lemma network_released (s S0 s' : mem) (net : LSTMNetwork) (c : LSTMCell) :
  mem_wf s -> mem_wf S0 -> next S0 = (next s + 20)%nat ->
  (forall k, (k < next s)%nat -> heap S0 !! k = heap s !! k) ->
  W_output net = Ptr (next s + 18)%nat -> b_output net = Ptr (next s + 19)%nat ->
  cell_ptrs c = map Ptr (seq (next s) 18) ->
  (forall p, p ∈ W_output net :: b_output net :: cell_ptrs c ->
     exists l, p = Ptr l /\ heap s' !! l = None) ->
  (forall k, Ptr k ∉ W_output net :: b_output net :: cell_ptrs c ->
     heap s' !! k = heap S0 !! k) ->
  heap s' = heap s.
Proof.
  intros Hwf Hwf0 Hn Hold EW Eb Hptrs Hgone Hfr.
  pose proof (fun k => network_ptrs_new s net c k EW Eb Hptrs) as Hin.
  apply heap_restore; [done| |].
  - intros k Hk. rewrite Hfr by (rewrite Hin; lia). by apply Hold.
  - intros k Hk. destruct (decide (k < next s + 20)%nat) as [Hlt|Hge].
    + destruct (Hgone (Ptr k)) as (l & [= <-] & Hl); [rewrite Hin; lia|done].
    + rewrite Hfr by (rewrite Hin; lia).
      destruct (heap S0 !! k) as [m|] eqn:E; [|done].
      pose proof (mem_wf_lt _ _ _ Hwf0 E). lia.
Qed.

(** X14.  Releasing a network that [lstm_network_create] has made leaves the heap
    as it was before the network was made: the twenty matrices are each
    released once and nothing else is. *)
Theorem network_create_free (s : mem) (isz hsz osz : Z) :
  mem_wf s -> 0 < isz -> 0 < hsz -> 0 < osz ->
  hsz + isz <= INT_MAX -> hsz + hsz <= INT_MAX -> osz + hsz <= INT_MAX ->
  exists net s1 s2,
    lstm_network_create isz hsz osz s = Some (Some net, s1) /\
    lstm_network_free (Some net) s1 = Some (tt, s2) /\
    heap s2 = heap s.
Proof.
  intros Hwf Hi Hh Ho Hhi Hhh Hoh.
  destruct (network_create_wf_run s isz hsz osz Hwf Hi Hh Ho Hhi Hhh Hoh)
    as (r & s1 & Hrun & net & c & v & Wo & -> & Hwf1 & Hnet & _ & _ & _ & _ & _ &
        _ & _ & _ & _ & EW & Eb & Hptrs & Hn & Hold).
  destruct (network_free_run s1 net c v Wo _ Hwf1 Hnet)
    as (s2 & Hfree & _ & Hgone & Hfr).
  exists net, s1, s2. split; [exact Hrun|]. split; [exact Hfree|].
  by apply (network_released s s1 s2 net c).
Qed.

(** X15.  [load_lstm_model] returns [NULL] and allocates nothing when the file
    does not exist or ends within the header, holding only the first
    [k < 5] of its five numbers; so does it on a [NULL] file name. *)
Theorem load_lstm_model_no_header (s : mem) (name : string) :
  (files s !! name = None -> load_lstm_model (Some name) s = Some (None, s)) /\
  (forall (isz hsz osz slen : Z) (lr : F) (k : nat),
     (k < 5)%nat ->
     files s !! name =
       Some (take k [DInt isz; DInt hsz; DInt osz; DDouble lr; DInt slen]) ->
     load_lstm_model (Some name) s = Some (None, s)) /\
  load_lstm_model None s = Some (None, s).
Proof.
  split; [|split; [|reflexivity]].
  - intros Hno. unfold load_lstm_model, fopen_rb, bind. by rewrite Hno.
  - intros isz hsz osz slen lr k Hk Hfile.
    unfold load_lstm_model, fopen_rb, bind. rewrite Hfile.
    do 5 (destruct k as [|k]; [reflexivity|]). lia.
Qed.

(** Fewer doubles than a row holds go to the start of row [i]. *)
Lemma store_row_prefix (s : mem) (w : nat) D (i : nat) (row xs : list F) :
  heap s !! w = Some D -> data D !! i = Some row ->
  (length xs <= length row)%nat ->
  store_row w (Z.of_nat i) xs s =
  Some (tt, upd s w (mkMatrix (rows D) (cols D)
                       (<[i := xs ++ drop (length xs) row]> (data D)))).
Proof.
  intros HD Hrow Hlen. unfold store_row, for_range.
  rewrite Z.sub_0_r, Nat2Z.id.
  pose proof (lookup_lt_Some _ _ _ Hrow) as Hi.
  set (St := fun k => upd s w (mkMatrix (rows D) (cols D)
                        (<[i := take k xs ++ drop k row]> (data D)))).
  assert (H0' : St 0%nat = s).
  { unfold St. rewrite take_0, drop_0. cbn [app].
    rewrite (list_insert_id _ _ _ Hrow), matrix_eta. by apply upd_same. }
  assert (Hn : St (length xs) = upd s w (mkMatrix (rows D) (cols D)
                 (<[i := xs ++ drop (length xs) row]> (data D)))).
  { unfold St. by rewrite firstn_all. }
  rewrite <- Hn, <- H0' at 1.
  apply (for_loop_eq St). intros k Hk. rewrite Z.add_0_l.
  destruct (lookup_lt_is_Some_2 xs k Hk) as (x & Hx).
  erewrite bind_eq by by apply array_get_eq.
  unfold St at 1.
  erewrite elem_set_eq.
  2:{ apply heap_upd_eq. }
  2:{ cbn [data]. unfold data_get. rewrite list_lookup_insert_eq by done.
      apply lookup_lt_is_Some_2. rewrite length_app, length_take, length_drop. lia. }
  rewrite with_data_upd, upd_upd. cbn [rows cols data]. unfold St, data_set.
  rewrite alter_insert, insert_next by (done || lia). reflexivity.
Qed.

Lemma fread_doubles_short (xs : list F) (n : nat) :
  (length xs <= n)%nat -> fread_doubles n (map DDouble xs) = (xs, []).
Proof.
  revert n. induction xs as [|x xs IH]; intros n Hn.
  - by destruct n.
  - destruct n as [|n]; [cbn in Hn; lia|]. cbn. rewrite IH by (cbn in Hn; lia).
    reflexivity.
Qed.

Lemma net_wf_upd_output (s : mem) (net : LSTMNetwork) (c : LSTMCell)
    (v : CellVals) (Wo bo W' : Matrix) (w : nat) :
  net_wf s net c v Wo bo -> W_output net = Ptr w -> dims W' = dims Wo ->
  net_wf (upd s w W') net c v W' bo.
Proof.
  intros (Hl & Hc & (w0 & Ew & Hw) & (b & Eb & Hb) & Hwn & Hbn & Hwb & Hh &
          Hi & HdW & Hrest) EW Hd.
  rewrite EW in Ew. injection Ew as <-.
  split; [done|]. split.
  { apply (cell_wf_keep s); [done|]. intros l m Hin Hlm.
    rewrite heap_upd_ne; [done|]. intros ->. apply Hwn. by rewrite EW. }
  split; [exists w; split; [done|apply heap_upd_eq]|].
  split.
  { exists b. split; [done|]. rewrite heap_upd_ne; [done|].
    intros ->. apply Hwb. by rewrite EW, Eb. }
  repeat (split; [done|]). split; [by rewrite Hd|done].
Qed.

(** X16.  When the file ends within the first row of [W_output],
    [load_lstm_model] returns [NULL] and has released the network it had
    made for the sizes of the header: the heap is as it was. *)
Theorem load_lstm_model_truncated (s : mem) (name : string)
    (isz hsz osz slen : Z) (lr : F) (xs : list F) :
  mem_wf s ->
  files s !! name =
    Some ([DInt isz; DInt hsz; DInt osz; DDouble lr; DInt slen]
          ++ map DDouble xs) ->
  Z.of_nat (length xs) < hsz ->
  0 < isz -> 0 < hsz -> 0 < osz ->
  hsz + isz <= INT_MAX -> hsz + hsz <= INT_MAX -> osz + hsz <= INT_MAX ->
  exists s',
    load_lstm_model (Some name) s = Some (None, s') /\ heap s' = heap s.
Proof.
  intros Hwf Hfile Hshort Hi Hh Ho Hhi Hhh Hoh.
  assert (Hmax : INT_MAX = 2147483647) by reflexivity.
  unfold load_lstm_model. erewrite bind_eq by reflexivity. rewrite Hfile.
  cbn [app fread_int fread_double].
  destruct (network_create_wf_run s isz hsz osz Hwf Hi Hh Ho Hhi Hhh Hoh)
    as (r & s0 & Hrun & net0 & c & v & Wo & -> & Hwf0 & Hnet0 & Hf1 & Hf2 & Hf3 &
        _ & _ & _ & _ & _ & _ & EW & Eb & Hptrs & Hn0 & Hold).
  erewrite bind_eq by exact Hrun. cbv iota.
  set (net := mkNetwork (lstm_layer net0) (W_output net0) (b_output net0)
                (n_input_size net0) (n_hidden_size net0) (output_size net0)
                lr slen (norm_params net0)).
  assert (Hnet : net_wf s0 net c v Wo (mat_zero osz 1)) by exact Hnet0.
  assert (Hrows : exists s', load_rows (Z.to_nat osz) 0 net hsz (map DDouble xs) s0
                          = Some (None, s') /\ heap s' = heap s).
  { destruct (Z.to_nat osz) as [|on] eqn:Eon; [lia|].
    cbn [load_rows]. change (W_output net) with (W_output net0). rewrite EW.
    erewrite bind_eq by reflexivity.
    assert (Hsize : Z.to_nat (size_of_int hsz) = Z.to_nat hsz)
      by (unfold size_of_int; rewrite Z.mod_small by lia; reflexivity).
    rewrite Hsize, fread_doubles_short by lia.
    pose proof Hnet0 as (_ & _ & (w & Ew & Hw) & _ & _ & _ & _ & _ & _ & HdW & _).
    rewrite EW in Ew. injection Ew as <-.
    destruct (mem_wf_mat _ _ _ Hwf0 Hw) as [HokW HsW].
    unfold dims in HdW. injection HdW as HW1 HW2.
    rewrite Hf3 in HW1. rewrite Hf2 in HW2.
    destruct (lookup_lt_is_Some_2 (data Wo) 0) as (row & Hrow);
      [destruct HsW; lia|].
    destruct (shape_lookup _ _ _ _ _ HsW Hrow) as [_ Hrowlen].
    erewrite bind_eq
      by (apply (store_row_prefix s0 _ Wo 0 row xs); [done|done|lia]).
    replace (Z.of_nat (length xs) =? size_of_int hsz) with false.
    2:{ symmetry. apply Z.eqb_neq. unfold size_of_int.
        rewrite Z.mod_small by lia. lia. }
    cbn [negb].
    set (W' := mkMatrix (rows Wo) (cols Wo)
                 (<[0%nat := xs ++ drop (length xs) row]> (data Wo))).
    set (S1 := upd s0 (next s + 18) W').
    assert (HwfW' : mat_wf W').
    { split; [exact HokW|]. cbn [data rows cols W'].
      apply (shape_insert _ _ _ _ _ HsW).
      rewrite length_app, length_drop. lia. }
    assert (HwfS1 : mem_wf S1) by by apply (mem_wf_upd_at _ _ Wo).
    assert (Hnet1 : net_wf S1 net c v W' (mat_zero osz 1))
      by by apply (net_wf_upd_output s0 net c v Wo).
    destruct (network_free_run S1 net c v W' _ HwfS1 Hnet1)
      as (s' & Hfree & _ & Hgone & Hfr).
    erewrite bind_eq by exact Hfree.
    exists s'. split; [reflexivity|].
    apply (network_released s S1 s' net c); try done.
    intros k Hk. unfold S1. rewrite heap_upd_ne by lia. by apply Hold. }
  destruct Hrows as (s' & Hrows & Hheap).
  erewrite bind_eq by exact Hrows.
  by exists s'.
Qed.

(** ** lstm.c: the loss *)

Lemma loss_row (s : mem) (lp lt : nat) (P T : Matrix) (i : nat)
    (rp rt : list F) (c : nat) (a : F) :
  heap s !! lp = Some P -> heap s !! lt = Some T ->
  data P !! i = Some rp -> data T !! i = Some rt ->
  length rp = c -> length rt = c ->
  for_fold c 0 (fun j loss =>
      x <- elem_get lp (Z.of_nat i) j ;;
      y <- elem_get lt (Z.of_nat i) j ;;
      let diff := fsub x y in
      ret (fadd loss (fmul diff diff))) a s =
  Some (row_err a (rp, rt), s).
Proof.
  intros HP HT Hrp Hrt Lp Lt.
  set (Acc := fun j => foldl sq_err a (take j (zip rp rt))).
  assert (E0 : a = Acc 0%nat) by reflexivity.
  assert (En : row_err a (rp, rt) = Acc c).
  { unfold Acc, row_err. cbn [fst snd]. rewrite take_ge; [done|].
    rewrite length_zip_with. lia. }
  rewrite En, E0 at 1.
  apply (for_fold_eq (fun _ => s) Acc). intros j Hj. rewrite Z.add_0_l.
  destruct (lookup_lt_is_Some_2 rp j) as (x & Hx); [lia|].
  destruct (lookup_lt_is_Some_2 rt j) as (y & Hy); [lia|].
  erewrite bind_eq
    by (apply (elem_get_eq _ _ P); [done|]; unfold data_get; by rewrite Hrp).
  erewrite bind_eq
    by (apply (elem_get_eq _ _ T); [done|]; unfold data_get; by rewrite Hrt).
  unfold Acc. erewrite take_S_r.
  2:{ rewrite lookup_zip_with, Hx. cbn. rewrite Hy. reflexivity. }
  rewrite foldl_app. reflexivity.
Qed.

Lemma calculate_loss_eq (s : mem) (lp lt : nat) (P T : Matrix) :
  mem_wf s -> heap s !! lp = Some P -> heap s !! lt = Some T ->
  dims P = dims T -> int_range (rows P * cols P) ->
  calculate_loss (Ptr lp) (Ptr lt) s =
  Some (fdiv (squared_error P T) (f_of_int (rows P * cols P)), s).
Proof.
  intros Hwf HP HT Hd Hrange.
  destruct (Hwf _ _ HP) as [_ [_ SP]]. destruct (Hwf _ _ HT) as [_ [_ ST]].
  unfold dims in Hd. injection Hd as Hr Hc.
  unfold calculate_loss.
  erewrite bind_eq by by apply (get_rows_eq _ _ P).
  erewrite bind_eq by by apply (get_rows_eq _ _ T).
  erewrite bind_eq by by apply (get_cols_eq _ _ P).
  erewrite bind_eq by by apply (get_cols_eq _ _ T).
  rewrite <- Hr, <- Hc, !Z.eqb_refl. cbn [negb orb].
  unfold int_mul. unfold int_range in Hrange.
  rewrite (proj2 (Z.leb_le _ _) (proj1 Hrange)),
          (proj2 (Z.leb_le _ _) (proj2 Hrange)).
  cbn [andb]. erewrite bind_eq by reflexivity.
  rewrite <- Hr, <- Hc in ST.
  set (Acc := fun i => foldl row_err fzero (take i (zip (data P) (data T)))).
  erewrite bind_eq.
  2:{ change fzero with (Acc 0%nat).
      apply (for_fold_eq (fun _ => s) Acc). intros i Hi. rewrite Z.add_0_l.
      destruct (lookup_lt_is_Some_2 (data P) i) as (rp & Hrp);
        [destruct SP; lia|].
      destruct (lookup_lt_is_Some_2 (data T) i) as (rt & Hrt);
        [destruct ST; lia|].
      destruct (shape_lookup _ _ _ _ _ SP Hrp) as [_ Lp].
      destruct (shape_lookup _ _ _ _ _ ST Hrt) as [_ Lt].
      rewrite (loss_row s lp lt P T i rp rt) by done.
      unfold Acc. erewrite (take_S_r _ _ (rp, rt)).
      2:{ rewrite lookup_zip_with, Hrp. cbn. rewrite Hrt. reflexivity. }
      rewrite foldl_app. reflexivity. }
  unfold Acc, squared_error. rewrite take_ge; [reflexivity|].
  rewrite length_zip_with. destruct SP, ST. lia.
Qed.

(** X17.  [calculate_loss] on two matrices of one shape is the sum of the squared
    differences of their entries divided by the number of entries (whose
    product must fit an [int]); on matrices of different shapes, and on
    [NULL], it is -1.0.  It changes nothing. *)
Theorem calculate_loss_mean_squared (s : mem) (lp lt : nat) (P T : Matrix) :
  mem_wf s -> heap s !! lp = Some P -> heap s !! lt = Some T ->
  (dims P = dims T -> int_range (rows P * cols P) ->
     calculate_loss (Ptr lp) (Ptr lt) s =
     Some (fdiv (squared_error P T) (f_of_int (rows P * cols P)), s)) /\
  (dims P <> dims T ->
     calculate_loss (Ptr lp) (Ptr lt) s = Some (fneg fone, s)) /\
  calculate_loss NULL (Ptr lt) s = Some (fneg fone, s) /\
  calculate_loss (Ptr lp) NULL s = Some (fneg fone, s).
Proof.
  intros Hwf HP HT.
  split; [by apply calculate_loss_eq|split; [|done]].
  intros Hd. unfold calculate_loss.
  erewrite bind_eq by by apply (get_rows_eq _ _ P).
  erewrite bind_eq by by apply (get_rows_eq _ _ T).
  erewrite bind_eq by by apply (get_cols_eq _ _ P).
  erewrite bind_eq by by apply (get_cols_eq _ _ T).
  destruct (Z.eqb_spec (rows P) (rows T)) as [Hr|Hr]; [|reflexivity].
  destruct (Z.eqb_spec (cols P) (cols T)) as [Hc|Hc]; [|reflexivity].
  exfalso. apply Hd. unfold dims. by rewrite Hr, Hc.
Qed.

(** ** lstm.c: random matrices *)

(** X20.  [matrix_random] stores in each entry of the matrix, row after row, the
    value made from the next number of [rand()]: entry [(i, j)] gets the one
    of call [i * cols + j] from where the generator stood, which then stands
    [rows * cols] calls further.  Nothing else changes; on [NULL] nothing
    does. *)
Theorem matrix_random_entries (s : mem) (l : nat) (D : Matrix) (lo hi : F) :
  heap s !! l = Some D -> mat_wf D ->
  (exists D' s',
     matrix_random (Ptr l) lo hi s = Some (tt, s') /\
     heap s' = <[l := D']> (heap s) /\ next s' = next s /\
     rand_pos s' =
       (rand_pos s + Z.to_nat (rows D) * Z.to_nat (cols D))%nat /\
     dims D' = dims D /\ mat_wf D' /\
     forall i j : nat,
       (i < Z.to_nat (rows D))%nat -> (j < Z.to_nat (cols D))%nat ->
       mat_at D' i j =
       random_value lo hi (rand_pos s + (i * Z.to_nat (cols D) + j))) /\
  matrix_random NULL lo hi s = Some (tt, s).
Proof.
  intros Hl Hwf. split; [|reflexivity].
  eexists. eexists. split; [by apply matrix_random_eq|].
  cbn [drawn upd set_heap heap next rand_pos].
  split; [reflexivity|]. split; [reflexivity|]. split; [lia|].
  split; [reflexivity|]. split; [apply mat_wf_tab; by destruct Hwf|].
  intros i j Hi Hj. rewrite mat_at_tab by done. f_equal. lia.
Qed.

(** ** lstm.c: saving a model *)

(** X23.  [save_lstm_model] on a network and a file that can be opened returns 0;
    the file then holds the model and nothing of what it held before, and
    the memory is otherwise as it was.  When the file cannot be opened, or
    the network or the name is [NULL], it returns -1 and changes nothing. *)
Theorem save_lstm_model_outcomes (s : mem) (net : LSTMNetwork) (c : LSTMCell)
    (v : CellVals) (Wo bo : Matrix) (name : string) :
  mem_wf s -> net_wf s net c v Wo bo ->
  0 <= n_hidden_size net <= INT_MAX ->
  (name ∉ locked s ->
     save_lstm_model (Some net) (Some name) s =
     Some (0, with_file s name (model_file net Wo bo))) /\
  (name ∈ locked s ->
     save_lstm_model (Some net) (Some name) s = Some (-1, s)) /\
  save_lstm_model None (Some name) s = Some (-1, s) /\
  save_lstm_model (Some net) None s = Some (-1, s).
Proof.
  intros Hwf (_ & _ & (w & Ew & Hw) & (b & Eb & Hb) & _ & _ & _ & _ & _ &
              HdW & Hdb & _) Hh.
  split; [|split; [|done]].
  - intros Hn. apply (save_eq s net name w b Wo bo); try done.
    + by apply (mem_wf_mat _ _ _ Hwf Hw).
    + by apply (mem_wf_mat _ _ _ Hwf Hb).
  - intros Hin. unfold save_lstm_model.
    erewrite bind_eq.
    2:{ unfold fopen_wb. rewrite decide_True by done. reflexivity. }
    reflexivity.
Qed.

(** ** lstm.c: resetting a network *)

(** X25.  [lstm_network_reset] sets the cell state and the hidden state to zero
    and leaves the weights, the biases, the gates, the output layer and
    every other object as they were; a second reset changes nothing more.
    On [NULL] it does nothing. *)
Theorem lstm_network_reset_states (s : mem) (net : LSTMNetwork)
    (c : LSTMCell) (v : CellVals) (Wo bo : Matrix) :
  mem_wf s -> net_wf s net c v Wo bo ->
  (exists s',
     lstm_network_reset (Some net) s = Some (tt, s') /\
     net_wf s' net c (reset_vals v) Wo bo /\
     preserved_but [cell_state c; hidden_state c] s s' /\
     next s' = next s /\
     lstm_network_reset (Some net) s' = Some (tt, s')) /\
  lstm_network_reset None s = Some (tt, s).
Proof.
  intros Hwf Hnet. split; [|reflexivity].
  pose proof Hnet as (Hl & Hc & (w & Ew & Hw) & (b & Eb & Hb) & Hwn & Hbn &
                      Hrest).
  destruct (reset_run s c v Hwf Hc) as (s' & Hrun & Hwf' & Hn & Hc' & Hfr).
  assert (Hsub : forall p, p ∈ [cell_state c; hidden_state c] ->
                           p ∈ cell_ptrs c).
  { intros p Hp. unfold cell_ptrs.
    apply elem_of_cons in Hp as [->|Hp];
      [repeat first [apply list_elem_of_here | apply list_elem_of_further]|].
    apply elem_of_cons in Hp as [->|Hp];
      [repeat first [apply list_elem_of_here | apply list_elem_of_further]|].
    by apply not_elem_of_nil in Hp. }
  exists s'. unfold lstm_network_reset. rewrite Hl.
  split; [exact Hrun|]. split.
  { split; [done|]. split; [done|]. split.
    { exists w. split; [done|]. apply Hfr; [done|].
      intros Hin. apply Hwn. rewrite Ew. by apply Hsub. }
    split; [|done].
    exists b. split; [done|]. apply Hfr; [done|].
    intros Hin. apply Hbn. rewrite Eb. by apply Hsub. }
  split; [exact Hfr|]. split; [exact Hn|].
  destruct Hc' as (_ & Hat & _).
  destruct Hat as (_ & _ & _ & _ & _ & _ & _ & _ & _ & _ & _ & _ &
                   (lc & Elc & Hlc) & (lh & Elh & Hlh) & _).
  unfold lstm_cell_reset_state. rewrite Elc, Elh.
  cbn [reset_vals vcell_state vhidden_state] in Hlc, Hlh.
  erewrite bind_eq by by apply (matrix_zero_noop s' lc _ _ Hlc).
  by apply (matrix_zero_noop s' lh _ _ Hlh).
Qed.

End Proofs.

(** * Concrete runs *)

Lemma mat_wf_A0 : mat_wf (H0 := glibc) A0.
Proof. split; [reflexivity | split; [reflexivity | repeat constructor]]. Qed.

Lemma mat_wf_B0 : mat_wf (H0 := glibc) B0.
Proof. split; [reflexivity | split; [reflexivity | repeat constructor]]. Qed.

Lemma mem_wf_init {F : Type} `{Libc} : mem_wf (F := F) init_mem.
Proof. intros l m Hl. unfold init_mem in Hl. simpl in Hl. by rewrite lookup_empty in Hl. Qed.

Lemma mem_wf_AB : mem_wf (H0 := glibc) mem_AB.
Proof.
  apply mem_wf_alloc; [apply mem_wf_alloc; [apply mem_wf_init|]|].
  - apply mat_wf_A0.
  - apply mat_wf_B0.
Qed.

(** The memory before and after [matrix_create(2, 3)] at program start. *)
Lemma matrix_create_dimensions_witness :
  matrix_create (H := R_scalar) (H0 := glibc) 2 3 init_mem =
  Some (Ptr 0%nat,
        alloc_st init_mem (mkMatrix 2 3 [[0; 0; 0]; [0; 0; 0]]%R)).
Proof.
  assert (H2 : int_range 2) by (unfold int_range, INT_MIN, INT_MAX; lia).
  assert (H3 : int_range 3) by (unfold int_range, INT_MIN, INT_MAX; lia).
  pose proof (matrix_create_dimensions (H := R_scalar) (H0 := glibc)
                init_mem 2 3 H2 H3) as (Hpos & _).
  exact (Hpos ltac:(lia) ltac:(lia)).
Defined.

(** With glibc, [matrix_create(0, 0)] returns a matrix, not [NULL]. *)
Lemma matrix_create_zero_counterexample :
  (0 <= 0 \/ 0 <= 0) /\
  matrix_create (H := R_scalar) (H0 := glibc) 0 0 init_mem =
  Some (Ptr 0%nat, alloc_st init_mem (mkMatrix 0 0 [])).
Proof. split; [left; lia | reflexivity]. Qed.

Lemma matrix_get_set_bounds_witness :
  matrix_get (H := R_scalar) (Ptr 0%nat) 1 1 mem_AB = Some (4%R, mem_AB) /\
  matrix_get (H := R_scalar) (Ptr 0%nat) 2 0 mem_AB = Some (0%R, mem_AB) /\
  matrix_set (Ptr 0%nat) 0 5 9%R mem_AB = Some (tt, mem_AB).
Proof.
  pose proof (matrix_get_set_bounds (H0 := glibc) mem_AB 0%nat A0 1 1 9%R
                eq_refl mat_wf_A0) as (_ & Hin & _).
  pose proof (matrix_get_set_bounds (H0 := glibc) mem_AB 0%nat A0 2 0 9%R
                eq_refl mat_wf_A0) as (Hout1 & _).
  pose proof (matrix_get_set_bounds (H0 := glibc) mem_AB 0%nat A0 0 5 9%R
                eq_refl mat_wf_A0) as (Hout2 & _).
  split; [|split].
  - apply Hin. simpl. lia.
  - apply Hout1. simpl. lia.
  - apply Hout2. simpl. lia.
Defined.

Lemma matrix_ops_leave_operands_witness :
  exists r s', matrix_add (H := R_scalar) (H0 := glibc) (Ptr 0%nat) (Ptr 1%nat) mem_AB
               = Some (r, s') /\
    fresh_result mem_AB s' r (mat_map2 fadd A0 B0) /\
    heap s' !! 0%nat = Some A0 /\ heap s' !! 1%nat = Some B0.
Proof.
  pose proof (matrix_ops_leave_operands (H0 := glibc) mem_AB 0%nat 1%nat A0 B0
                mem_wf_AB eq_refl eq_refl) as (_ & Hadd & _).
  apply Hadd; reflexivity.
Defined.

(** [p] is none of the pointers of a list of distinct addresses. *)
Ltac not_in :=
  let Hin := fresh "Hin" in
  cbn; intros Hin;
  repeat (apply elem_of_cons in Hin as [Hin|Hin]; [discriminate Hin|]);
  by apply elem_of_nil in Hin.

Lemma mat_wf_m11 (x : R) : mat_wf (H0 := glibc) (m11 x).
Proof. split; [reflexivity | split; [reflexivity | repeat constructor]]. Qed.

Lemma mem_wf_ex : mem_wf (H0 := glibc) ex_mem.
Proof.
  apply mem_wf_allocs; [apply mem_wf_init|].
  repeat (apply Forall_cons; split; [apply mat_wf_m11|]). apply Forall_nil_2.
Qed.

Lemma cell_wf_ex : cell_wf ex_mem ex_cell ex_vals.
Proof.
  split; [|split].
  - change (cell_ptrs ex_cell) with (map Ptr (seq 0 18)).
    apply NoDup_fmap_2; [by intros a b [=]|]. apply NoDup_seq.
  - unfold cell_at. repeat split; eexists; (split; [reflexivity|reflexivity]).
  - unfold cell_shapes. repeat split.
Qed.

Lemma net_wf_ex : net_wf ex_mem ex_net ex_cell ex_vals (m11 2) (m11 3).
Proof.
  split; [reflexivity|]. split; [apply cell_wf_ex|].
  split; [eexists; split; reflexivity|]. split; [eexists; split; reflexivity|].
  split; [not_in|]. split; [not_in|].
  split; [discriminate|].
  repeat split; try reflexivity; unfold INT_MIN, INT_MAX; cbn; lia.
Qed.

Lemma input_not_written : Ptr 20 ∉ cell_written ex_cell.
Proof. not_in. Qed.

Lemma vectors_ex :
  vectors_at ex_mem (n_input_size ex_net) (cell_written ex_cell)
             (take (Z.to_nat 1) [Ptr 20]) [m11 1].
Proof.
  apply Forall2_cons; split; [|apply Forall2_nil_2].
  split; [eexists; split; reflexivity|]. split; [reflexivity|].
  apply input_not_written.
Qed.

Lemma data_wf_ex :
  data_wf ex_mem ex_net ex_cell ex_training [([m11 1], m11 5)].
Proof.
  split; [cbn; lia|]. split; [reflexivity|]. split.
  - apply Forall2_cons; split; [|apply Forall2_nil_2].
    split; [cbn; lia|].
    apply Forall2_cons; split; [|apply Forall2_nil_2].
    split; [eexists; split; reflexivity|]. split; [reflexivity|].
    not_in.
  - apply Forall2_cons; split; [|apply Forall2_nil_2].
    split; [eexists; split; reflexivity|]. split; [reflexivity|].
    not_in.
Qed.

(** A forward step of the example cell on the input at address 20. *)
Lemma lstm_cell_forward_step_witness :
  exists out s' v',
    lstm_cell_forward (H0 := glibc) (Some ex_cell) (Ptr 20) ex_mem
      = Some (Ptr out, s') /\
    cell_wf s' ex_cell v' /\ heap s' !! out = Some (vhidden_state v').
Proof.
  pose proof (lstm_cell_forward_step (H0 := glibc) ex_mem ex_cell ex_vals 20%nat
                (m11 1) mem_wf_ex cell_wf_ex eq_refl eq_refl input_not_written)
    as Hstep.
  cbv zeta in Hstep. destruct Hstep as (out & s' & v' & Hrun & Hwf & Hrest).
  destruct Hrest as (_ & _ & _ & _ & _ & _ & _ & _ & _ & Hout & _).
  exists out, s', v'. split; [exact Hrun|]. split; [exact Hwf|exact Hout].
Defined.

(** A prediction of the example network on the one-step sequence at 20. *)
Lemma lstm_network_predict_output_witness :
  exists out s',
    lstm_network_predict (H0 := glibc) (Some ex_net) (Some [Ptr 20]) 1 ex_mem
      = Some (Ptr out, s') /\
    exists P, heap s' !! out = Some P /\ dims P = (1, 1).
Proof.
  destruct (lstm_network_predict_output (H0 := glibc) ex_mem ex_net ex_cell
              ex_vals (m11 2) (m11 3) [Ptr 20] [m11 1] 1
              mem_wf_ex net_wf_ex ltac:(cbn; lia) vectors_ex)
    as (s0 & out & s' & h & _ & _ & _ & _ & Hrun & _ & Hout & Hd & _).
  exists out, s'. split; [exact Hrun|]. eexists. split; [exact Hout|exact Hd].
Defined.

(** Two epochs of training of the example network on the one pair. *)
Lemma lstm_train_updates_output_only_witness :
  exists s',
    lstm_train (H0 := glibc) (Some ex_net) (Some ex_training) 2 ex_mem
      = Some (tt, s') /\
    points_to s' (b_output ex_net) (m11 3) /\
    points_to s' (W_f ex_cell) (m11 1).
Proof.
  destruct (lstm_train_updates_output_only (H0 := glibc) ex_mem ex_net ex_cell
              ex_vals (m11 2) (m11 3) ex_training [([m11 1], m11 5)] 2
              mem_wf_ex net_wf_ex data_wf_ex ltac:(cbn; lia)
              ltac:(unfold int_range, INT_MIN, INT_MAX; cbn; lia))
    as (s' & Hrun & Hweights & Hb & _).
  exists s'. split; [exact Hrun|]. split; [exact Hb|].
  by apply Forall2_cons in Hweights as [Hwf _].
Defined.

(** The example network saved to a file and loaded again. *)
Lemma save_load_round_trip_witness :
  exists net' s2,
    load_lstm_model (H0 := glibc) (Some "model.bin"%string)
      (with_file ex_mem "model.bin" (model_file ex_net (m11 2) (m11 3)))
      = Some (Some net', s2) /\
    points_to s2 (W_output net') (m11 2) /\
    points_to s2 (b_output net') (m11 3).
Proof.
  assert (Hsave : save_lstm_model (Some ex_net) (Some "model.bin"%string) ex_mem
                  = Some (0, with_file ex_mem "model.bin"
                                (model_file ex_net (m11 2) (m11 3)))).
  { apply (save_eq (H0 := glibc) ex_mem ex_net "model.bin" 18 19 (m11 2) (m11 3));
      try reflexivity; try apply mat_wf_m11.
    - apply not_elem_of_empty.
    - unfold INT_MAX. cbn. lia. }
  destruct (save_load_round_trip (H0 := glibc) ex_mem _ ex_net "model.bin"
              (m11 2) (m11 3) mem_wf_ex
              (ex_intro _ 18%nat (conj eq_refl eq_refl))
              (ex_intro _ 19%nat (conj eq_refl eq_refl))
              eq_refl eq_refl ltac:(cbn; lia) ltac:(cbn; lia) ltac:(cbn; lia)
              ltac:(unfold INT_MAX; cbn; lia) ltac:(unfold INT_MAX; cbn; lia)
              ltac:(unfold INT_MAX; cbn; lia) Hsave)
    as (_ & net' & s2 & Hload & _ & _ & _ & _ & _ & _ & HW & Hb & _).
  exists net', s2. split; [exact Hload|]. split; [exact HW|exact Hb].
Defined.

Lemma mem_wf_init_R : mem_wf (F := R) (H0 := glibc) init_mem.
Proof. apply mem_wf_init. Qed.

(** Windows of two of the three observations: one training pair. *)
Lemma create_training_data_pairs_witness :
  exists d s',
    create_training_data (H0 := glibc) (Some ex_dataset) 2 init_mem
      = Some (Some d, s') /\
    num_sequences d = 1 /\ length (inputs d) = 1%nat.
Proof.
  destruct (create_training_data_pairs (H0 := glibc) init_mem ex_dataset 2
              mem_wf_init_R eq_refl ltac:(unfold INT_MAX; cbn; lia))
    as [_ Hok].
  destruct (Hok ltac:(cbn; lia)) as (d & s' & Hrun & Hn & _ & Hlen & _).
  exists d, s'. split; [exact Hrun|]. split; [exact Hn|exact Hlen].
Defined.

(** With a window of 0 the function returns [NULL], though the dataset
    holds three points, more than the window. *)
Lemma create_training_data_zero_window_counterexample :
  ~ (ds_size ex_dataset <= 0) /\
  create_training_data (H0 := glibc) (Some ex_dataset) 0 init_mem
    = Some (None, init_mem).
Proof. split; [cbn; lia | reflexivity]. Qed.

Lemma lstm_predict_next_short_witness :
  lstm_predict_next (H0 := glibc) (Some ex_net) (Some ex_dataset) 5 ex_mem
    = Some (zero_point, ex_mem).
Proof. apply lstm_predict_next_short. cbn. lia. Defined.

(** The value returned for a dataset that is too short is the weather point
    a prediction of six zeros is converted to. *)
Lemma lstm_predict_next_default_counterexample :
  lstm_predict_next (H0 := glibc) (Some ex_net) (Some ex_dataset) 5 ex_mem
    = Some (zero_point, ex_mem) /\
  matrix_to_weather_point (Ptr 0) (alloc_st init_mem (mat_zero 6 1))
    = Some (zero_point (F := R), alloc_st init_mem (mat_zero 6 1)).
Proof. split; reflexivity. Qed.





















(** ** lstm.c: the derivatives of the activations, in exact real arithmetic *)

Lemma sigmoid_derivable (x : R) :
  derivable_pt_lim sigmoid x (sigmoid_derivative x).
Proof.
  pose proof (exp_pos (- x)) as He.
  assert (Hd : derivable_pt_lim
                 (fct_cte 1 / (fct_cte 1 + comp exp (- id)))%F x
                 ((0 * (1 + exp (- x)) - (0 + exp (- x) * - 1) * 1)
                  / Rsqr (1 + exp (- x)))%R).
  { apply (derivable_pt_lim_div (fct_cte 1) (fct_cte 1 + comp exp (- id))%F).
    - apply derivable_pt_lim_const.
    - apply derivable_pt_lim_plus; [apply derivable_pt_lim_const|].
      apply (derivable_pt_lim_comp (- id)%F exp).
      + apply derivable_pt_lim_opp, derivable_pt_lim_id.
      + apply derivable_pt_lim_exp.
    - unfold plus_fct, fct_cte, comp, opp_fct, id. lra. }
  replace (sigmoid_derivative x)
    with ((0 * (1 + exp (- x)) - (0 + exp (- x) * - 1) * 1)
          / Rsqr (1 + exp (- x)))%R.
  { exact Hd. }
  unfold sigmoid_derivative, sigmoid, Rsqr.
  cbn [fmul fsub fone fdiv fadd fexp fneg R_scalar]. field. lra.
Qed.

Lemma cosh_pos (x : R) : (0 < cosh x)%R.
Proof.
  unfold cosh. pose proof (exp_pos x). pose proof (exp_pos (- x)). lra.
Qed.

Lemma tanh_derivable (x : R) :
  derivable_pt_lim tanh_activation x (tanh_derivative x).
Proof.
  pose proof (cosh_pos x) as Hc.
  assert (Hd : derivable_pt_lim (sinh / cosh)%F x
                 ((cosh x * cosh x - sinh x * sinh x) / Rsqr (cosh x))%R).
  { apply derivable_pt_lim_div.
    - apply derivable_pt_lim_sinh.
    - apply derivable_pt_lim_cosh.
    - lra. }
  replace (tanh_derivative x)
    with ((cosh x * cosh x - sinh x * sinh x) / Rsqr (cosh x))%R.
  { exact Hd. }
  unfold tanh_derivative, tanh_activation, Rsqr.
  cbn [fmul fsub fone ftanh R_scalar]. unfold tanh. field. lra.
Qed.

Lemma relu_derivable (x : R) :
  x <> 0%R -> derivable_pt_lim relu x (relu_derivative x).
Proof.
  intros Hx eps Heps.
  assert (Hpos : (0 < Rabs x)%R) by by apply Rabs_pos_lt.
  exists (mkposreal (Rabs x) Hpos). intros h Hh Hlt. cbn [pos] in Hlt.
  unfold relu, relu_derivative. cbn [fltb fzero fone R_scalar].
  destruct (Rlt_dec 0 x) as [Hp|Hn].
  - rewrite (Rabs_pos_eq x) in Hlt by lra.
    assert (Hxh : (0 < x + h)%R).
    { pose proof (Rle_abs (- h)) as Ha. rewrite Rabs_Ropp in Ha. lra. }
    destruct (Rlt_dec 0 (x + h)) as [_|Hc]; [|lra].
    replace ((x + h - x) / h - 1)%R with 0%R by (field; done).
    by rewrite Rabs_R0.
  - assert (Hx' : (x < 0)%R) by lra.
    rewrite (Rabs_left x) in Hlt by done.
    assert (Hxh : (x + h < 0)%R).
    { pose proof (Rle_abs h) as Ha. lra. }
    destruct (Rlt_dec 0 (x + h)) as [Hc|_]; [lra|].
    replace ((0 - 0) / h - 0)%R with 0%R by (field; done).
    by rewrite Rabs_R0.
Qed.

(** X22.  [sigmoid_derivative] and [tanh_derivative] are at every point the
    derivatives of [sigmoid] and [tanh_activation], and [relu_derivative]
    is the derivative of [relu] at every point but 0.  (In exact real
    arithmetic.) *)
Theorem activation_derivatives (x : R) :
  derivable_pt_lim sigmoid x (sigmoid_derivative x) /\
  derivable_pt_lim tanh_activation x (tanh_derivative x) /\
  (x <> 0%R -> derivable_pt_lim relu x (relu_derivative x)).
Proof.
  split; [apply sigmoid_derivable|].
  split; [apply tanh_derivable|apply relu_derivable].
Qed.

(** ** The extras on the examples *)

Lemma mat_wf_row6 : mat_wf (H0 := glibc) row6.
Proof. split; [reflexivity | split; [reflexivity | repeat constructor]]. Qed.

Lemma mat_wf_col6 : mat_wf (H0 := glibc) col6.
Proof. split; [reflexivity | split; [reflexivity | repeat constructor]]. Qed.

Lemma mem_wf_ex6 : mem_wf (H0 := glibc) ex_mem6.
Proof.
  apply mem_wf_allocs; [apply mem_wf_init|].
  repeat (apply Forall_cons; split;
          [first [apply mat_wf_m11 | apply mat_wf_row6 | apply mat_wf_col6]|]).
  apply Forall_nil_2.
Qed.

Lemma net_wf_ex6 : net_wf ex_mem6 ex_net6 ex_cell6 ex_vals6 col6 col6.
Proof.
  split; [reflexivity|]. split.
  { split; [|split].
    - change (cell_ptrs ex_cell6) with (map Ptr (seq 0 18)).
      apply NoDup_fmap_2; [by intros a b [=]|]. apply NoDup_seq.
    - unfold cell_at. repeat split; eexists; (split; [reflexivity|reflexivity]).
    - unfold cell_shapes. repeat split. }
  split; [eexists; split; reflexivity|]. split; [eexists; split; reflexivity|].
  split; [not_in|]. split; [not_in|].
  split; [discriminate|].
  repeat split; try reflexivity; unfold INT_MIN, INT_MAX; cbn; lia.
Qed.

Lemma mem_wf_short_file : mem_wf (H0 := glibc) ex_short_file.
Proof. intros l m Hl. cbn in Hl. by rewrite lookup_empty in Hl. Qed.

Lemma matrix_copy_behaviour_witness :
  matrix_copy (Ptr 0) (Ptr 1) mem_AB = Some (tt, upd mem_AB 0 B0).
Proof.
  destruct (matrix_copy_behaviour (H0 := glibc) mem_AB 0 1 A0 B0
              mem_wf_AB eq_refl eq_refl) as (Hsame & _).
  destruct (Hsame eq_refl eq_refl) as [Hrun _]. exact Hrun.
Defined.

Lemma matrix_ops_reject_shapes_witness :
  matrix_multiply (H0 := glibc) (Ptr 0) (Ptr 1) mem_A1 = Some (NULL, mem_A1).
Proof.
  destruct (matrix_ops_reject_shapes (H0 := glibc) mem_A1 0 1 A0 (m11 1)
              eq_refl eq_refl) as (Hmul & _).
  apply Hmul. cbn. lia.
Defined.

Lemma matrix_transpose_twice_witness :
  exists t s1 t2 s2,
    matrix_transpose (H0 := glibc) (Ptr 0) mem_AB = Some (Ptr t, s1) /\
    matrix_transpose (H0 := glibc) (Ptr t) s1 = Some (Ptr t2, s2) /\
    heap s2 !! t2 = Some A0.
Proof.
  destruct (matrix_transpose_twice (H0 := glibc) mem_AB 0 A0
              mem_wf_AB eq_refl eq_refl)
    as (t & s1 & t2 & s2 & H1 & H2 & _ & H3 & _).
  exists t, s1, t2, s2. split; [exact H1|]. split; [exact H2|exact H3].
Defined.

Lemma entrywise_operations_witness :
  exists D',
    matrix_scale (Ptr 0) 2%R mem_AB = Some (tt, upd mem_AB 0 D') /\
    dims D' = dims A0.
Proof.
  pose proof (entrywise_operations (H0 := glibc) mem_AB 0 A0 2%R
                mem_wf_AB eq_refl) as Hall.
  cbv zeta in Hall. destruct Hall as ((D' & Hrun & Hd & _) & _).
  exists D'. split; [exact Hrun|exact Hd].
Defined.

Lemma weather_point_matrix_round_trip_witness :
  exists s1,
    weather_point_to_matrix (H0 := glibc)
      (Some (mkPoint 20 1013 50 5 180 0)%R) mem_AB
      = Some (Ptr (next mem_AB), s1) /\
    matrix_to_weather_point (Ptr (next mem_AB)) s1
      = Some ((mkPoint 20 1013 50 5 180 0)%R, s1).
Proof.
  destruct (weather_point_matrix_round_trip (H0 := glibc) mem_AB
              (mkPoint 20 1013 50 5 180 0)%R 0 A0 mem_wf_AB eq_refl)
    as ((s1 & H1 & _ & _ & _ & H2) & _).
  exists s1. split; [exact H1|exact H2].
Defined.


Lemma lstm_network_predict_repeatable_witness :
  exists out1 s1 out2 s2 P,
    lstm_network_predict (H0 := glibc) (Some ex_net) (Some [Ptr 20]) 1 ex_mem
      = Some (Ptr out1, s1) /\
    lstm_network_predict (H0 := glibc) (Some ex_net) (Some [Ptr 20]) 1 s1
      = Some (Ptr out2, s2) /\
    heap s1 !! out1 = Some P /\ heap s2 !! out2 = Some P.
Proof.
  destruct (lstm_network_predict_repeatable (H0 := glibc) ex_mem ex_net
              ex_cell ex_vals (m11 2) (m11 3) [Ptr 20] [m11 1] 1
              mem_wf_ex net_wf_ex ltac:(cbn; lia) vectors_ex)
    as (out1 & s1 & out2 & s2 & P & H1 & H2 & H3 & H4 & _).
  exists out1, s1, out2, s2, P.
  split; [exact H1|]. split; [exact H2|]. split; [exact H3|exact H4].
Defined.

Lemma lstm_network_create_well_formed_witness :
  exists net s',
    lstm_network_create (H := R_scalar) (H0 := glibc) 1 1 1 init_mem
      = Some (Some net, s') /\
    mem_wf (H0 := glibc) s' /\ sequence_length net = 10.
Proof.
  destruct (lstm_network_create_well_formed (H0 := glibc) init_mem 1 1 1
              mem_wf_init_R ltac:(lia) ltac:(lia) ltac:(lia)
              ltac:(unfold INT_MAX; lia) ltac:(unfold INT_MAX; lia)
              ltac:(unfold INT_MAX; lia))
    as (net & s' & c & v & Wo & Hrun & Hwf & _ & _ & _ & _ & _ & Hlen & _).
  exists net, s'. split; [exact Hrun|]. split; [exact Hwf|exact Hlen].
Defined.

Lemma lstm_cell_create_failure_releases_witness :
  exists s',
    lstm_cell_create (H := R_scalar) (H0 := glibc) 1 (-1) init_mem
      = Some (None, s') /\
    heap s' = heap (init_mem (F := R)).
Proof.
  apply (lstm_cell_create_failure_releases (H0 := glibc) init_mem 1 (-1)
           mem_wf_init_R).
  reflexivity.
Defined.

Lemma lstm_network_free_releases_witness :
  exists s',
    lstm_network_free (Some ex_net) ex_mem = Some (tt, s') /\
    next s' = next ex_mem.
Proof.
  destruct (lstm_network_free_releases (H0 := glibc) ex_mem ex_net ex_cell
              ex_vals (m11 2) (m11 3) mem_wf_ex net_wf_ex)
    as ((s' & Hrun & Hn & _) & _).
  exists s'. split; [exact Hrun|exact Hn].
Defined.

Lemma lstm_predict_next_result_witness :
  exists pt s',
    lstm_predict_next (H0 := glibc) (Some ex_net6) (Some ex_dataset) 2 ex_mem6
      = Some (pt, s') /\
    net_wf s' ex_net6 ex_cell6
      (run_vals ex_vals6
         (map point_matrix (drop 1 (ds_data ex_dataset)))) col6 col6.
Proof.
  pose proof (lstm_predict_next_result (H0 := glibc) ex_mem6 ex_net6 ex_cell6
                ex_vals6 col6 col6 ex_dataset 2 mem_wf_ex6 net_wf_ex6
                eq_refl eq_refl eq_refl ltac:(cbn; lia)
                ltac:(unfold INT_MAX; lia)) as Hres.
  cbv zeta in Hres. destruct Hres as (s' & Hrun & Hwf & _).
  eexists. exists s'. split; [exact Hrun|exact Hwf].
Defined.

Lemma training_data_create_free_witness :
  exists d s1 s2,
    create_training_data (H0 := glibc) (Some ex_dataset) 2 init_mem
      = Some (Some d, s1) /\
    free_training_data (Some d) s1 = Some (tt, s2) /\
    heap s2 = heap (init_mem (F := R)).
Proof.
  destruct (training_data_create_free (H0 := glibc) init_mem ex_dataset 2
              mem_wf_init_R eq_refl ltac:(unfold INT_MAX; cbn; lia)
              ltac:(cbn; lia)) as (Hrun & _).
  exact Hrun.
Defined.

Lemma network_create_free_witness :
  exists net s1 s2,
    lstm_network_create (H := R_scalar) (H0 := glibc) 1 1 1 init_mem
      = Some (Some net, s1) /\
    lstm_network_free (Some net) s1 = Some (tt, s2) /\
    heap s2 = heap (init_mem (F := R)).
Proof.
  apply (network_create_free (H0 := glibc) init_mem 1 1 1 mem_wf_init_R);
    unfold INT_MAX; lia.
Defined.

Lemma load_lstm_model_no_header_witness :
  load_lstm_model (H := R_scalar) (H0 := glibc) (Some "model.bin"%string)
    init_mem = Some (None, init_mem).
Proof.
  destruct (load_lstm_model_no_header (H := R_scalar) (H0 := glibc) init_mem
              "model.bin") as (Hnone & _).
  apply Hnone. apply lookup_empty.
Defined.

Lemma load_lstm_model_truncated_witness :
  exists s',
    load_lstm_model (H0 := glibc) (Some "model.bin"%string) ex_short_file
      = Some (None, s') /\
    heap s' = heap ex_short_file.
Proof.
  apply (load_lstm_model_truncated (H0 := glibc) ex_short_file "model.bin"
           1 2 1 10 (1 / 1000)%R [1%R] mem_wf_short_file);
    try (unfold INT_MAX; cbn; lia).
  apply lookup_insert_eq.
Defined.

Lemma calculate_loss_mean_squared_witness :
  calculate_loss (Ptr 0) (Ptr 1) mem_AB =
  Some ((squared_error A0 B0 / IZR (rows A0 * cols A0))%R, mem_AB).
Proof.
  destruct (calculate_loss_mean_squared (H0 := glibc) mem_AB 0 1 A0 B0
              mem_wf_AB eq_refl eq_refl) as (Hsame & _).
  apply Hsame; [reflexivity|].
  unfold int_range, INT_MIN, INT_MAX. cbn. lia.
Defined.

Lemma matrix_random_entries_witness :
  exists D' s',
    matrix_random (H0 := glibc) (Ptr 0) 0%R 1%R mem_AB = Some (tt, s') /\
    heap s' = <[0%nat := D']> (heap mem_AB) /\
    rand_pos s' = 4%nat.
Proof.
  destruct (matrix_random_entries (H0 := glibc) mem_AB 0 A0 0%R 1%R
              eq_refl mat_wf_A0)
    as ((D' & s' & Hrun & Hheap & _ & Hpos & _) & _).
  exists D', s'. split; [exact Hrun|]. split; [exact Hheap|exact Hpos].
Defined.

Lemma activation_derivatives_witness :
  derivable_pt_lim relu 1%R (relu_derivative 1%R).
Proof.
  destruct (activation_derivatives 1%R) as (_ & _ & Hrelu).
  apply Hrelu. lra.
Defined.

Lemma save_lstm_model_outcomes_witness :
  save_lstm_model (Some ex_net) (Some "model.bin"%string) ex_mem =
  Some (0, with_file ex_mem "model.bin" (model_file ex_net (m11 2) (m11 3))).
Proof.
  destruct (save_lstm_model_outcomes (H0 := glibc) ex_mem ex_net ex_cell
              ex_vals (m11 2) (m11 3) "model.bin" mem_wf_ex net_wf_ex
              ltac:(unfold INT_MAX; cbn; lia)) as (Hok & _).
  apply Hok. apply not_elem_of_empty.
Defined.

Lemma lstm_network_reset_states_witness :
  exists s',
    lstm_network_reset (Some ex_net) ex_mem = Some (tt, s') /\
    lstm_network_reset (Some ex_net) s' = Some (tt, s').
Proof.
  destruct (lstm_network_reset_states (H0 := glibc) ex_mem ex_net ex_cell
              ex_vals (m11 2) (m11 3) mem_wf_ex net_wf_ex)
    as ((s' & Hrun & _ & _ & _ & Hagain) & _).
  exists s'. split; [exact Hrun|exact Hagain].
Defined.
